(** * QuicSentPacketManager (net/quic_sent_packet_manager.cc)

    A shallow embedding of the sent-packet manager of the QUIC stack and the
    properties of its loss detector, retransmission-mode selector, timer
    computation, RTT sampler and ACK pipeline.

    Conventions.
    - [QuicPacketSequenceNumber] is a 64-bit unsigned integer, modelled as [N];
      [size_t] is taken to be 64 bits wide, with its wrap-around written out.
    - [QuicTime] and [QuicTime::Delta] hold a signed 64-bit count of
      microseconds, modelled as [Z]; every arithmetic operation is followed by
      the two's complement wrap-around [wrap_int64].
    - [std::map] and [std::set] are finite maps and sets ([gmap], [gset]) that
      are iterated in ascending key order ([entries], [ascending]).
    - Dereferencing an iterator or a key that is not there is undefined
      behaviour in the source; such steps return [None].
    - [DCHECK], [DVLOG] and [LOG(DFATAL)] statements only log (release
      behaviour) and are left out. *)

From stdpp Require Import gmap sorting list.
From Stdlib Require Import ZArith Lia.

Local Open Scope Z_scope.

(** ** Machine integers *)

Definition wrap_int64 (z : Z) : Z := (z + 2 ^ 63) mod 2 ^ 64 - 2 ^ 63.

Definition wrap_size_t (n : Z) : N := Z.to_N (n mod 2 ^ 64).

(** [a - b] on unsigned 64-bit operands. *)
Definition sub_size_t (a b : N) : N := wrap_size_t (Z.of_N a - Z.of_N b).

(** [++x] and [--x] on a [size_t]. *)
Definition incr_size_t (x : N) : N := wrap_size_t (Z.of_N x + 1).
Definition decr_size_t (x : N) : N := wrap_size_t (Z.of_N x - 1).

Definition in_int64 (z : Z) : Prop := - 2 ^ 63 <= z < 2 ^ 63.

(** ** QuicTime and QuicTime::Delta *)

(** Modelled from the spec: [QuicTime::Delta] (net/quic/quic_time.h is not
    among the sources).  The source builds deltas with [FromMilliseconds] and
    [FromMicroseconds] and reads them back with [ToMilliseconds], so a delta is
    a signed 64-bit count of microseconds and [ToMilliseconds] is the integer
    division by 1000, which in C++ truncates towards zero.  [Multiply(1.5)]
    goes through a [double] and is truncated back to an integer; the product
    is exact for magnitudes below 2^51, the range the modelled division
    describes.  [Infinite] is the "no sample yet" value. *)
Module Delta.
Definition t := Z.
Definition Zero : t := 0.
Definition Infinite : t := (2 ^ 63 - 1) `quot` 10.
Definition FromMicroseconds (us : Z) : t := wrap_int64 us.
Definition FromMilliseconds (ms : Z) : t := wrap_int64 (ms * 1000).
Definition ToMicroseconds (d : t) : Z := d.
Definition ToMilliseconds (d : t) : Z := d `quot` 1000.
Definition IsZero (d : t) : bool := d =? 0.
Definition IsInfinite (d : t) : bool := d =? Infinite.
Definition Add (a b : t) : t := wrap_int64 (a + b).
Definition Subtract (a b : t) : t := wrap_int64 (a - b).
(** [Multiply(int)]. *)
Definition Multiply (d : t) (i : Z) : t := wrap_int64 (d * i).
(** [Multiply(1.5)]. *)
Definition Multiply_1_5 (d : t) : t := wrap_int64 ((3 * d) `quot` 2).
Definition Max (a b : t) : t := if a <? b then b else a.
(** [operator>]. *)
Definition gt (a b : t) : bool := b <? a.
End Delta.

(** Modelled from the spec: [QuicTime] (net/quic/quic_time.h is not among the
    sources), a signed 64-bit count of microseconds since the clock's epoch;
    the zero time stands for "not set". *)
Module QuicTime.
Definition t := Z.
Definition Zero : t := 0.
Definition Add (time : t) (d : Delta.t) : t := wrap_int64 (time + d).
(** [QuicTime::Subtract(QuicTime)] yields a delta. *)
Definition Subtract (a b : t) : Delta.t := wrap_int64 (a - b).
Definition Max (a b : t) : t := if b <? a then a else b.
Definition IsZero (time : t) : bool := time =? 0.
End QuicTime.

(** ** Constants of the anonymous namespace *)

Definition kDefaultRetransmissionTimeMs : Z := 500.
Definition kMinRetransmissionTimeMs : Z := 200.
Definition kMaxRetransmissionTimeMs : Z := 60000.
Definition kMaxRetransmissions : N := 10.
Definition kNumberOfNacksBeforeRetransmission : N := 3.
Definition kMaxHandshakeRetransmissionBackoffs : N := 5.
Definition kMinHandshakeTimeoutMs : Z := 10.
Definition kDefaultMaxTailLossProbes : N := 2.
Definition kMinTailLossProbeTimeoutMs : Z := 10.

(** ** Protocol types

    The types below are declared in net/quic/quic_protocol.h, which is not
    among the sources; they are given with the fields and values the source
    uses. *)

Abbreviation QuicPacketSequenceNumber := N (only parsing).
Abbreviation SequenceNumberSet := (gset N) (only parsing).
Abbreviation QuicByteCount := N (only parsing).

Inductive IsHandshake := NOT_HANDSHAKE | IS_HANDSHAKE.
Inductive EncryptionLevel := ENCRYPTION_NONE | ENCRYPTION_INITIAL | ENCRYPTION_FORWARD_SECURE.
Inductive TransmissionType :=
  NOT_RETRANSMISSION | NACK_RETRANSMISSION | TLP_RETRANSMISSION | RTO_RETRANSMISSION.
Inductive HasRetransmittableData := NO_RETRANSMITTABLE_DATA | HAS_RETRANSMITTABLE_DATA.
Inductive ReceivedByPeer := RECEIVED_BY_PEER | NOT_RECEIVED_BY_PEER.
Inductive RetransmissionTimeoutMode := RTO_MODE | TLP_MODE | HANDSHAKE_MODE.

Global Instance IsHandshake_eq_dec : EqDecision IsHandshake.
Proof. solve_decision. Defined.
Global Instance TransmissionType_eq_dec : EqDecision TransmissionType.
Proof. solve_decision. Defined.
Global Instance RetransmissionTimeoutMode_eq_dec : EqDecision RetransmissionTimeoutMode.
Proof. solve_decision. Defined.

(** Modelled from the spec: the scope of [retransmit_unacked], all tracked
    packets or those of the initial encryption level only (the
    [RetransmissionType] enumeration of net/quic/quic_sent_packet_manager.h,
    which is not among the sources). *)
Inductive RetransmissionType := INITIAL_ENCRYPTION_ONLY | ALL_PACKETS.

Global Instance EncryptionLevel_eq_dec : EqDecision EncryptionLevel.
Proof. solve_decision. Defined.
Global Instance RetransmissionType_eq_dec : EqDecision RetransmissionType.
Proof. solve_decision. Defined.

(** Modelled from the spec: the payload handle of a packet, with its
    [has_crypto_handshake] flag and its encryption level; the frames
    themselves are opaque. *)
Record RetransmittableFrames := {
  HasCryptoHandshake_ : IsHandshake;
  encryption_level : EncryptionLevel
}.

(** Modelled from the spec: a just-serialized packet, as [on_serialized]
    receives it. *)
Record SerializedPacket := {
  sp_sequence_number : N;
  sp_sequence_number_length : N;
  sp_retransmittable_frames : option RetransmittableFrames
}.

(** Modelled from the spec: the content of one incoming ACK frame. *)
Record ReceivedPacketInfo := {
  largest_observed : N;
  delta_time_largest_observed : Delta.t;
  missing_packets : gset N;
  is_truncated : bool;
  revived_packets : gset N
}.

(** Modelled from the spec: [IsAwaitingPacket] (net/quic/quic_protocol.cc is
    not among the sources).  The ack sweep handles "each SN not in
    [missing_packets]" up through [largest_observed]. *)
Definition IsAwaitingPacket (received_info : ReceivedPacketInfo) (sequence_number : N) : bool :=
  (largest_observed received_info <? sequence_number)%N
  || bool_decide (sequence_number ∈ missing_packets received_info).

(** ** Ordered iteration over [std::set] and [std::map] *)

Definition ascending (s : gset N) : list N := merge_sort N.le (elements s).

Definition key_le {A} (x y : N * A) : Prop := (x.1 <= y.1)%N.

Global Instance key_le_dec {A} (x y : N * A) : Decision (key_le x y).
Proof. unfold key_le. apply _. Defined.

Definition entries {A} (m : gmap N A) : list (N * A) := merge_sort key_le (map_to_list m).

(** ** The unacked-packet table *)

(** Modelled from the spec: the transmission record of
    [QuicUnackedPacketMap] (net/quic/quic_unacked_packet_map.h is not among
    the sources), with the fields of section 3 of the specification.  A
    record holds a reference to its transmission group; the groups live in a
    store of their own so that all members share one set. *)
Record TransmissionInfo := {
  retransmittable_frames : option RetransmittableFrames;
  sequence_number_length : N;
  sent_time : QuicTime.t;
  bytes_sent : N;
  nack_count : N;
  pending : bool;
  all_transmissions : nat
}.

Definition set_pending_flag (b : bool) (info : TransmissionInfo) : TransmissionInfo :=
  {| retransmittable_frames := retransmittable_frames info;
     sequence_number_length := sequence_number_length info;
     sent_time := sent_time info;
     bytes_sent := bytes_sent info;
     nack_count := nack_count info;
     pending := b;
     all_transmissions := all_transmissions info |}.

Definition set_sent (time : QuicTime.t) (bytes : N) (info : TransmissionInfo) : TransmissionInfo :=
  {| retransmittable_frames := retransmittable_frames info;
     sequence_number_length := sequence_number_length info;
     sent_time := time;
     bytes_sent := bytes;
     nack_count := nack_count info;
     pending := true;
     all_transmissions := all_transmissions info |}.

Definition clear_frames (info : TransmissionInfo) : TransmissionInfo :=
  {| retransmittable_frames := None;
     sequence_number_length := sequence_number_length info;
     sent_time := sent_time info;
     bytes_sent := bytes_sent info;
     nack_count := nack_count info;
     pending := pending info;
     all_transmissions := all_transmissions info |}.

Definition raise_nack_count (min_nacks : N) (info : TransmissionInfo) : TransmissionInfo :=
  {| retransmittable_frames := retransmittable_frames info;
     sequence_number_length := sequence_number_length info;
     sent_time := sent_time info;
     bytes_sent := bytes_sent info;
     nack_count := N.max (nack_count info) min_nacks;
     pending := pending info;
     all_transmissions := all_transmissions info |}.

Definition has_frames (info : TransmissionInfo) : bool :=
  match retransmittable_frames info with Some _ => true | None => false end.

(** Modelled from the spec: [QuicUnackedPacketMap]
    (net/quic/quic_unacked_packet_map.{h,cc} are not among the sources).  The
    operations and the queries are those of section 4.1 of the specification:
    a keyed collection from sequence number to transmission record, iterable
    in ascending order, next to the store of transmission groups. *)
Module QuicUnackedPacketMap.

Record t := {
  unacked_packets_ : gmap N TransmissionInfo;
  transmission_sets_ : gmap nat (gset N);
  largest_sent_packet_ : N
}.

Definition with_packets (f : gmap N TransmissionInfo → gmap N TransmissionInfo) (m : t) : t :=
  {| unacked_packets_ := f (unacked_packets_ m);
     transmission_sets_ := transmission_sets_ m;
     largest_sent_packet_ := largest_sent_packet_ m |}.

Definition empty : t :=
  {| unacked_packets_ := ∅; transmission_sets_ := ∅; largest_sent_packet_ := 0%N |}.

(** *** Queries *)

Definition begin_to_end (m : t) : list (N * TransmissionInfo) := entries (unacked_packets_ m).

Definition IsUnacked (m : t) (sequence_number : N) : bool :=
  bool_decide (is_Some (unacked_packets_ m !! sequence_number)).

Definition IsPending (m : t) (sequence_number : N) : bool :=
  match unacked_packets_ m !! sequence_number with
  | Some info => pending info
  | None => false
  end.

(** [GetTransmissionInfo] of a sequence number with no record is undefined. *)
Definition GetTransmissionInfo (m : t) (sequence_number : N) : option TransmissionInfo :=
  unacked_packets_ m !! sequence_number.

Definition HasRetransmittableFrames (m : t) (sequence_number : N) : bool :=
  match unacked_packets_ m !! sequence_number with
  | Some info => has_frames info
  | None => false
  end.

Definition HasPendingPackets (m : t) : bool :=
  bool_decide (map_Exists (λ _ info, pending info = true) (unacked_packets_ m)).

Definition HasMultiplePendingPackets (m : t) : bool :=
  (1 <? length (filter (λ e, pending e.2 = true) (begin_to_end m)))%nat.

Definition HasUnackedRetransmittableFrames (m : t) : bool :=
  bool_decide (map_Exists (λ _ info, has_frames info = true) (unacked_packets_ m)).

Definition largest_sent_packet (m : t) : N := largest_sent_packet_ m.

Definition GetLeastUnackedSentPacket (m : t) : option N :=
  fst <$> head (begin_to_end m).

(** The send time of the first pending packet, the zero time when none is. *)
Definition GetFirstPendingPacketSentTime (m : t) : QuicTime.t :=
  match filter (λ e, pending e.2 = true) (begin_to_end m) with
  | e :: _ => sent_time e.2
  | [] => QuicTime.Zero
  end.

(** The send time of the last pending packet which still has retransmittable
    frames (as the comment in [GetRetransmissionTime] describes it). *)
Definition GetLastPacketSentTime (m : t) : QuicTime.t :=
  match last (filter (λ e, pending e.2 = true ∧ has_frames e.2 = true) (begin_to_end m)) with
  | Some e => sent_time e.2
  | None => QuicTime.Zero
  end.

(** The newest (highest) member of a transmission group. *)
Definition newest (group : gset N) : option N := last (ascending group).

(** *** Operations *)

(** [add]: a new record, not pending, never sent, in a singleton group of its
    own; the new set gets a reference that is not in use. *)
Definition AddPacket (m : t) (serialized_packet : SerializedPacket) : t :=
  let sn := sp_sequence_number serialized_packet in
  let ref := fresh (dom (transmission_sets_ m)) in
  {| unacked_packets_ :=
       <[sn := {| retransmittable_frames := sp_retransmittable_frames serialized_packet;
                  sequence_number_length := sp_sequence_number_length serialized_packet;
                  sent_time := QuicTime.Zero;
                  bytes_sent := 0%N;
                  nack_count := 0%N;
                  pending := false;
                  all_transmissions := ref |}]> (unacked_packets_ m);
     transmission_sets_ := <[ref := {[sn]}]> (transmission_sets_ m);
     largest_sent_packet_ := largest_sent_packet_ m |}.

(** [on_retransmitted]: a record under the new number that takes over the
    frames of the old one and joins its group. *)
Definition OnRetransmittedPacket (m : t) (old_sequence_number new_sequence_number : N)
  : option t :=
  info ← unacked_packets_ m !! old_sequence_number;
  Some
    {| unacked_packets_ :=
         <[new_sequence_number :=
             {| retransmittable_frames := retransmittable_frames info;
                sequence_number_length := sequence_number_length info;
                sent_time := QuicTime.Zero;
                bytes_sent := 0%N;
                nack_count := 0%N;
                pending := false;
                all_transmissions := all_transmissions info |}]>
           (<[old_sequence_number := clear_frames info]> (unacked_packets_ m));
       transmission_sets_ :=
         alter (λ group, {[new_sequence_number]} ∪ group) (all_transmissions info)
           (transmission_sets_ m);
       largest_sent_packet_ := largest_sent_packet_ m |}.

Definition SetPending (m : t) (sequence_number : N) (time : QuicTime.t) (bytes : N) : t :=
  match unacked_packets_ m !! sequence_number with
  | None => m
  | Some info =>
      {| unacked_packets_ := <[sequence_number := set_sent time bytes info]> (unacked_packets_ m);
         transmission_sets_ := transmission_sets_ m;
         largest_sent_packet_ := N.max sequence_number (largest_sent_packet_ m) |}
  end.

Definition SetNotPending (m : t) (sequence_number : N) : t :=
  with_packets (alter (set_pending_flag false) sequence_number) m.

(** [remove]: the record is deleted and its number leaves the group it was
    in (a group holds the numbers of live records only); the last member
    takes the set with it. *)
Definition RemovePacket (m : t) (sequence_number : N) : t :=
  match unacked_packets_ m !! sequence_number with
  | None => m
  | Some info =>
      let ref := all_transmissions info in
      {| unacked_packets_ := delete sequence_number (unacked_packets_ m);
         transmission_sets_ :=
           match transmission_sets_ m !! ref with
           | Some group =>
               if decide (group ∖ {[sequence_number]} = ∅)
               then delete ref (transmission_sets_ m)
               else <[ref := group ∖ {[sequence_number]}]> (transmission_sets_ m)
           | None => transmission_sets_ m
           end;
         largest_sent_packet_ := largest_sent_packet_ m |}
  end.

(** [neuter]: the frames are cleared, the record is kept. *)
Definition NeuterPacket (m : t) (sequence_number : N) : t :=
  with_packets (alter clear_frames sequence_number) m.

(** [nack]: the count is raised to at least [min_nacks]. *)
Definition NackPacket (m : t) (sequence_number : N) (min_nacks : N) : t :=
  with_packets (alter (raise_nack_count min_nacks) sequence_number) m.

Definition is_newest_of_its_group (m : t) (sequence_number : N) (info : TransmissionInfo) : bool :=
  match transmission_sets_ m !! all_transmissions info with
  | Some group => bool_decide (newest group = Some sequence_number)
  | None => false
  end.

(** [clear_previous_retransmissions]: in ascending order, the records that
    are not pending and not the newest of their group are dropped until
    [num_to_clear] of them are gone. *)
Fixpoint ClearPreviousRetransmissions_loop (keys : list N) (m : t) (num_to_clear : nat) : t :=
  match keys, num_to_clear with
  | [], _ | _, O => m
  | sn :: rest, S k =>
      match unacked_packets_ m !! sn with
      | Some info =>
          if negb (pending info) && negb (is_newest_of_its_group m sn info)
          then ClearPreviousRetransmissions_loop rest (RemovePacket m sn) k
          else ClearPreviousRetransmissions_loop rest m (S k)
      | None => ClearPreviousRetransmissions_loop rest m (S k)
      end
  end.

Definition ClearPreviousRetransmissions (m : t) (num_to_clear : nat) : t :=
  ClearPreviousRetransmissions_loop (fst <$> begin_to_end m) m num_to_clear.

(** The iterator positioned at the first record whose number is at least
    [sequence_number]; [None] is [end()]. *)
Definition lower_bound (m : t) (sequence_number : N) : option N :=
  head (filter (λ k, (sequence_number <= k)%N) (fst <$> begin_to_end m)).

(** [++it] for an iterator at [sequence_number]. *)
Definition next (m : t) (sequence_number : N) : option N :=
  head (filter (λ k, (sequence_number < k)%N) (fst <$> begin_to_end m)).

End QuicUnackedPacketMap.

(** ** External collaborators *)

(** Modelled from the spec: the [PACE] value of [congestion_control]
    (net/quic/crypto/crypto_protocol.h is not among the sources).  A [QuicTag]
    is four characters packed into 32 bits, first character lowest. *)
Definition MakeQuicTag (a b c d : Z) : Z :=
  Z.lor (Z.lor (Z.lor a (Z.shiftl b 8)) (Z.shiftl c 16)) (Z.shiftl d 24).

(** ['P' 'A' 'C' 'E']. *)
Definition kPACE : Z := MakeQuicTag 80 65 67 69.
(** ['Q' 'B' 'I' 'C']. *)
Definition kQBIC : Z := MakeQuicTag 81 66 73 67.

(** Modelled from the spec: the two configuration options the manager
    reads. *)
Record QuicConfig := {
  initial_round_trip_time_us : Z;
  congestion_control : Z
}.

(** Modelled from the spec: the statistics the manager writes. *)
Record QuicConnectionStats := {
  crypto_retransmit_count : N;
  tlp_count : N;
  rto_count : N;
  packets_lost : N;
  packets_spuriously_retransmitted : N
}.

(** Modelled from the spec: the ACK-notifier registry, an external observer,
    as the log of the calls it receives, newest first. *)
Inductive AckNotifierCall :=
| NotifierOnSerializedPacket (sequence_number : N)
| NotifierOnPacketAcked (sequence_number : N)
| NotifierUpdateSequenceNumber (old_sequence_number new_sequence_number : N).

(** Modelled from the spec: a congestion feedback frame
    ([QuicCongestionFeedbackFrame] of net/quic/quic_protocol.h, which is not
    among the sources).  The manager hands the frame to the congestion
    controller without reading it, so the frame is kept as its bytes. *)
Definition QuicCongestionFeedbackFrame : Type := list N.

(** Modelled from the spec: the congestion controller
    ([SendAlgorithmInterface], not among the sources), consulted through a
    narrow interface.  A controller receives data and returns data (and its
    next state). *)
Module SendAlgorithmInterface.
Class t (A : Type) := {
  SetFromConfig : A → QuicConfig → bool → A;
  UpdateRtt : A → Delta.t → A;
  OnPacketSent : A → QuicTime.t → N → N → TransmissionType → HasRetransmittableData → bool * A;
  OnPacketAcked : A → N → N → A;
  OnPacketAbandoned : A → N → N → A;
  OnPacketLost : A → N → QuicTime.t → A;
  OnRetransmissionTimeout : A → bool → A;
  RetransmissionDelay : A → Delta.t;
  SmoothedRtt : A → Delta.t;
  OnIncomingQuicCongestionFeedbackFrame : A → QuicCongestionFeedbackFrame → QuicTime.t → A;
  TimeUntilSend :
    A → QuicTime.t → TransmissionType → HasRetransmittableData → IsHandshake → Delta.t * A
}.
End SendAlgorithmInterface.

(** Modelled from the spec: [PacingSender]
    (net/quic/congestion_control/pacing_sender.h is not among the sources): a
    decorator whose outer object has the same interface and delegates to the
    controller it wraps.  [Sender] is what [send_algorithm_] points to: the
    controller the constructor created, wrapped in zero or more pacing
    decorators. *)
Inductive Sender (A : Type) : Type :=
| Created (a : A)
| PacingSender (sender_ : Sender A) (alarm_granularity_ : Delta.t).
Arguments Created {A} a.
Arguments PacingSender {A} sender_ alarm_granularity_.

Fixpoint Sender_map {A} (f : A → A) (s : Sender A) : Sender A :=
  match s with
  | Created a => Created (f a)
  | PacingSender inner g => PacingSender (Sender_map f inner) g
  end.

Fixpoint Sender_get {A B} (f : A → B) (s : Sender A) : B :=
  match s with
  | Created a => f a
  | PacingSender inner _ => Sender_get f inner
  end.

Fixpoint Sender_OnPacketSent {A} `{!SendAlgorithmInterface.t A} (s : Sender A)
    (time : QuicTime.t) (sn bytes : N) (tt : TransmissionType) (rd : HasRetransmittableData)
  : bool * Sender A :=
  match s with
  | Created a =>
      let r := SendAlgorithmInterface.OnPacketSent a time sn bytes tt rd in (r.1, Created r.2)
  | PacingSender inner g =>
      let r := Sender_OnPacketSent inner time sn bytes tt rd in (r.1, PacingSender r.2 g)
  end.

Fixpoint Sender_TimeUntilSend {A} `{!SendAlgorithmInterface.t A} (s : Sender A)
    (now : QuicTime.t) (tt : TransmissionType) (rd : HasRetransmittableData)
    (handshake : IsHandshake) : Delta.t * Sender A :=
  match s with
  | Created a =>
      let r := SendAlgorithmInterface.TimeUntilSend a now tt rd handshake in (r.1, Created r.2)
  | PacingSender inner g =>
      let r := Sender_TimeUntilSend inner now tt rd handshake in (r.1, PacingSender r.2 g)
  end.

Global Instance Sender_interface {A} `{!SendAlgorithmInterface.t A}
  : SendAlgorithmInterface.t (Sender A) := {|
  SendAlgorithmInterface.SetFromConfig s config is_server :=
    Sender_map (λ a, SendAlgorithmInterface.SetFromConfig a config is_server) s;
  SendAlgorithmInterface.UpdateRtt s rtt :=
    Sender_map (λ a, SendAlgorithmInterface.UpdateRtt a rtt) s;
  SendAlgorithmInterface.OnPacketSent := Sender_OnPacketSent;
  SendAlgorithmInterface.OnPacketAcked s sn bytes :=
    Sender_map (λ a, SendAlgorithmInterface.OnPacketAcked a sn bytes) s;
  SendAlgorithmInterface.OnPacketAbandoned s sn bytes :=
    Sender_map (λ a, SendAlgorithmInterface.OnPacketAbandoned a sn bytes) s;
  SendAlgorithmInterface.OnPacketLost s sn time :=
    Sender_map (λ a, SendAlgorithmInterface.OnPacketLost a sn time) s;
  SendAlgorithmInterface.OnRetransmissionTimeout s retransmitted :=
    Sender_map (λ a, SendAlgorithmInterface.OnRetransmissionTimeout a retransmitted) s;
  SendAlgorithmInterface.RetransmissionDelay s :=
    Sender_get SendAlgorithmInterface.RetransmissionDelay s;
  SendAlgorithmInterface.SmoothedRtt s :=
    Sender_get SendAlgorithmInterface.SmoothedRtt s;
  SendAlgorithmInterface.OnIncomingQuicCongestionFeedbackFrame s frame time :=
    Sender_map
      (λ a, SendAlgorithmInterface.OnIncomingQuicCongestionFeedbackFrame a frame time) s;
  SendAlgorithmInterface.TimeUntilSend := Sender_TimeUntilSend
|}.

(** The pacing decorators around the controller, outermost first. *)
Fixpoint pacing_layers {A} (s : Sender A) : list Delta.t :=
  match s with
  | Created _ => []
  | PacingSender inner g => g :: pacing_layers inner
  end.

(** A controller with fixed answers, for running the manager on examples. *)
Record FixedSender := {
  fixed_track : bool;
  fixed_retransmission_delay : Delta.t;
  fixed_smoothed_rtt : Delta.t
}.

Global Instance FixedSender_interface : SendAlgorithmInterface.t FixedSender := {|
  SendAlgorithmInterface.SetFromConfig s _ _ := s;
  SendAlgorithmInterface.UpdateRtt s _ := s;
  SendAlgorithmInterface.OnPacketSent s _ _ _ _ _ := (fixed_track s, s);
  SendAlgorithmInterface.OnPacketAcked s _ _ := s;
  SendAlgorithmInterface.OnPacketAbandoned s _ _ := s;
  SendAlgorithmInterface.OnPacketLost s _ _ := s;
  SendAlgorithmInterface.OnRetransmissionTimeout s _ := s;
  SendAlgorithmInterface.RetransmissionDelay := fixed_retransmission_delay;
  SendAlgorithmInterface.SmoothedRtt := fixed_smoothed_rtt;
  SendAlgorithmInterface.OnIncomingQuicCongestionFeedbackFrame s _ _ := s;
  SendAlgorithmInterface.TimeUntilSend s _ _ _ _ := (Delta.Zero, s)
|}.

(** Modelled from the spec: what [next_pending_retransmission] hands to the
    I/O layer, the sequence number, the reason, the frame handle and the
    encoded length of the sequence number (the [PendingRetransmission] struct
    of net/quic/quic_sent_packet_manager.h, which is not among the
    sources). *)
Module PendingRetransmission.
Record t := {
  sequence_number : N;
  transmission_type : TransmissionType;
  retransmittable_frames : RetransmittableFrames;
  sequence_number_length : N
}.
End PendingRetransmission.

(** ** The sent-packet manager *)

Section Manager.
Context {A : Type} `{!SendAlgorithmInterface.t A}.

Record QuicSentPacketManager := {
  unacked_packets_ : QuicUnackedPacketMap.t;
  is_server_ : bool;
  stats_ : QuicConnectionStats;
  send_algorithm_ : Sender A;
  rtt_sample_ : Delta.t;
  pending_crypto_packet_count_ : N;
  pending_retransmissions_ : list (N * TransmissionType);
  consecutive_rto_count_ : N;
  consecutive_tlp_count_ : N;
  consecutive_crypto_retransmission_count_ : N;
  max_tail_loss_probes_ : N;
  using_pacing_ : bool;
  ack_notifier_manager_ : list AckNotifierCall
}.

(** The constructor; [algorithm] is what [SendAlgorithmInterface::Create]
    returns. *)
Definition Create (is_server : bool) (algorithm : A) : QuicSentPacketManager :=
  {| unacked_packets_ := QuicUnackedPacketMap.empty;
     is_server_ := is_server;
     stats_ := {| crypto_retransmit_count := 0; tlp_count := 0; rto_count := 0;
                  packets_lost := 0; packets_spuriously_retransmitted := 0 |};
     send_algorithm_ := Created algorithm;
     rtt_sample_ := Delta.Infinite;
     pending_crypto_packet_count_ := 0;
     pending_retransmissions_ := [];
     consecutive_rto_count_ := 0;
     consecutive_tlp_count_ := 0;
     consecutive_crypto_retransmission_count_ := 0;
     max_tail_loss_probes_ := kDefaultMaxTailLossProbes;
     using_pacing_ := false;
     ack_notifier_manager_ := [] |}.

(** *** Field updates *)

Definition with_unacked (f : QuicUnackedPacketMap.t → QuicUnackedPacketMap.t)
    (m : QuicSentPacketManager) : QuicSentPacketManager :=
  {| unacked_packets_ := f (unacked_packets_ m);
     is_server_ := is_server_ m;
     stats_ := stats_ m;
     send_algorithm_ := send_algorithm_ m;
     rtt_sample_ := rtt_sample_ m;
     pending_crypto_packet_count_ := pending_crypto_packet_count_ m;
     pending_retransmissions_ := pending_retransmissions_ m;
     consecutive_rto_count_ := consecutive_rto_count_ m;
     consecutive_tlp_count_ := consecutive_tlp_count_ m;
     consecutive_crypto_retransmission_count_ := consecutive_crypto_retransmission_count_ m;
     max_tail_loss_probes_ := max_tail_loss_probes_ m;
     using_pacing_ := using_pacing_ m;
     ack_notifier_manager_ := ack_notifier_manager_ m |}.

Definition with_stats (f : QuicConnectionStats → QuicConnectionStats)
    (m : QuicSentPacketManager) : QuicSentPacketManager :=
  {| unacked_packets_ := unacked_packets_ m;
     is_server_ := is_server_ m;
     stats_ := f (stats_ m);
     send_algorithm_ := send_algorithm_ m;
     rtt_sample_ := rtt_sample_ m;
     pending_crypto_packet_count_ := pending_crypto_packet_count_ m;
     pending_retransmissions_ := pending_retransmissions_ m;
     consecutive_rto_count_ := consecutive_rto_count_ m;
     consecutive_tlp_count_ := consecutive_tlp_count_ m;
     consecutive_crypto_retransmission_count_ := consecutive_crypto_retransmission_count_ m;
     max_tail_loss_probes_ := max_tail_loss_probes_ m;
     using_pacing_ := using_pacing_ m;
     ack_notifier_manager_ := ack_notifier_manager_ m |}.

Definition with_send_algorithm (f : Sender A → Sender A)
    (m : QuicSentPacketManager) : QuicSentPacketManager :=
  {| unacked_packets_ := unacked_packets_ m;
     is_server_ := is_server_ m;
     stats_ := stats_ m;
     send_algorithm_ := f (send_algorithm_ m);
     rtt_sample_ := rtt_sample_ m;
     pending_crypto_packet_count_ := pending_crypto_packet_count_ m;
     pending_retransmissions_ := pending_retransmissions_ m;
     consecutive_rto_count_ := consecutive_rto_count_ m;
     consecutive_tlp_count_ := consecutive_tlp_count_ m;
     consecutive_crypto_retransmission_count_ := consecutive_crypto_retransmission_count_ m;
     max_tail_loss_probes_ := max_tail_loss_probes_ m;
     using_pacing_ := using_pacing_ m;
     ack_notifier_manager_ := ack_notifier_manager_ m |}.

Definition with_rtt_sample (rtt : Delta.t)
    (m : QuicSentPacketManager) : QuicSentPacketManager :=
  {| unacked_packets_ := unacked_packets_ m;
     is_server_ := is_server_ m;
     stats_ := stats_ m;
     send_algorithm_ := send_algorithm_ m;
     rtt_sample_ := rtt;
     pending_crypto_packet_count_ := pending_crypto_packet_count_ m;
     pending_retransmissions_ := pending_retransmissions_ m;
     consecutive_rto_count_ := consecutive_rto_count_ m;
     consecutive_tlp_count_ := consecutive_tlp_count_ m;
     consecutive_crypto_retransmission_count_ := consecutive_crypto_retransmission_count_ m;
     max_tail_loss_probes_ := max_tail_loss_probes_ m;
     using_pacing_ := using_pacing_ m;
     ack_notifier_manager_ := ack_notifier_manager_ m |}.

Definition with_pending_crypto_packet_count (f : N → N)
    (m : QuicSentPacketManager) : QuicSentPacketManager :=
  {| unacked_packets_ := unacked_packets_ m;
     is_server_ := is_server_ m;
     stats_ := stats_ m;
     send_algorithm_ := send_algorithm_ m;
     rtt_sample_ := rtt_sample_ m;
     pending_crypto_packet_count_ := f (pending_crypto_packet_count_ m);
     pending_retransmissions_ := pending_retransmissions_ m;
     consecutive_rto_count_ := consecutive_rto_count_ m;
     consecutive_tlp_count_ := consecutive_tlp_count_ m;
     consecutive_crypto_retransmission_count_ := consecutive_crypto_retransmission_count_ m;
     max_tail_loss_probes_ := max_tail_loss_probes_ m;
     using_pacing_ := using_pacing_ m;
     ack_notifier_manager_ := ack_notifier_manager_ m |}.

Definition with_pending_retransmissions
    (f : list (N * TransmissionType) → list (N * TransmissionType))
    (m : QuicSentPacketManager) : QuicSentPacketManager :=
  {| unacked_packets_ := unacked_packets_ m;
     is_server_ := is_server_ m;
     stats_ := stats_ m;
     send_algorithm_ := send_algorithm_ m;
     rtt_sample_ := rtt_sample_ m;
     pending_crypto_packet_count_ := pending_crypto_packet_count_ m;
     pending_retransmissions_ := f (pending_retransmissions_ m);
     consecutive_rto_count_ := consecutive_rto_count_ m;
     consecutive_tlp_count_ := consecutive_tlp_count_ m;
     consecutive_crypto_retransmission_count_ := consecutive_crypto_retransmission_count_ m;
     max_tail_loss_probes_ := max_tail_loss_probes_ m;
     using_pacing_ := using_pacing_ m;
     ack_notifier_manager_ := ack_notifier_manager_ m |}.

Definition with_consecutive_counts (rto tlp crypto : N)
    (m : QuicSentPacketManager) : QuicSentPacketManager :=
  {| unacked_packets_ := unacked_packets_ m;
     is_server_ := is_server_ m;
     stats_ := stats_ m;
     send_algorithm_ := send_algorithm_ m;
     rtt_sample_ := rtt_sample_ m;
     pending_crypto_packet_count_ := pending_crypto_packet_count_ m;
     pending_retransmissions_ := pending_retransmissions_ m;
     consecutive_rto_count_ := rto;
     consecutive_tlp_count_ := tlp;
     consecutive_crypto_retransmission_count_ := crypto;
     max_tail_loss_probes_ := max_tail_loss_probes_ m;
     using_pacing_ := using_pacing_ m;
     ack_notifier_manager_ := ack_notifier_manager_ m |}.

Definition with_using_pacing (b : bool)
    (m : QuicSentPacketManager) : QuicSentPacketManager :=
  {| unacked_packets_ := unacked_packets_ m;
     is_server_ := is_server_ m;
     stats_ := stats_ m;
     send_algorithm_ := send_algorithm_ m;
     rtt_sample_ := rtt_sample_ m;
     pending_crypto_packet_count_ := pending_crypto_packet_count_ m;
     pending_retransmissions_ := pending_retransmissions_ m;
     consecutive_rto_count_ := consecutive_rto_count_ m;
     consecutive_tlp_count_ := consecutive_tlp_count_ m;
     consecutive_crypto_retransmission_count_ := consecutive_crypto_retransmission_count_ m;
     max_tail_loss_probes_ := max_tail_loss_probes_ m;
     using_pacing_ := b;
     ack_notifier_manager_ := ack_notifier_manager_ m |}.

Definition notify (call : AckNotifierCall)
    (m : QuicSentPacketManager) : QuicSentPacketManager :=
  {| unacked_packets_ := unacked_packets_ m;
     is_server_ := is_server_ m;
     stats_ := stats_ m;
     send_algorithm_ := send_algorithm_ m;
     rtt_sample_ := rtt_sample_ m;
     pending_crypto_packet_count_ := pending_crypto_packet_count_ m;
     pending_retransmissions_ := pending_retransmissions_ m;
     consecutive_rto_count_ := consecutive_rto_count_ m;
     consecutive_tlp_count_ := consecutive_tlp_count_ m;
     consecutive_crypto_retransmission_count_ := consecutive_crypto_retransmission_count_ m;
     max_tail_loss_probes_ := max_tail_loss_probes_ m;
     using_pacing_ := using_pacing_ m;
     ack_notifier_manager_ := call :: ack_notifier_manager_ m |}.

Definition incr_packets_spuriously_retransmitted (s : QuicConnectionStats) : QuicConnectionStats :=
  {| crypto_retransmit_count := crypto_retransmit_count s;
     tlp_count := tlp_count s;
     rto_count := rto_count s;
     packets_lost := packets_lost s;
     packets_spuriously_retransmitted := packets_spuriously_retransmitted s + 1 |}.

Definition incr_packets_lost (s : QuicConnectionStats) : QuicConnectionStats :=
  {| crypto_retransmit_count := crypto_retransmit_count s;
     tlp_count := tlp_count s;
     rto_count := rto_count s;
     packets_lost := packets_lost s + 1;
     packets_spuriously_retransmitted := packets_spuriously_retransmitted s |}.

(** *** The pending-retransmission queue *)

(** Modelled from the spec: the type of [pending_retransmissions_] (declared
    in net/quic/quic_sent_packet_manager.h, which is not among the sources),
    an ordered mapping from sequence number to reason.  It is kept as the list
    of its entries in insertion order; [ContainsKey], [erase] and
    [operator[]] are the operations the manager uses on it. *)
Definition ContainsKey (q : list (N * TransmissionType)) (sequence_number : N) : bool :=
  bool_decide (sequence_number ∈ q.*1).

Definition erase (sequence_number : N) (q : list (N * TransmissionType))
  : list (N * TransmissionType) :=
  filter (λ e, e.1 ≠ sequence_number) q.

(** [q[sequence_number] = transmission_type]. *)
Definition assign (sequence_number : N) (transmission_type : TransmissionType)
    (q : list (N * TransmissionType)) : list (N * TransmissionType) :=
  if ContainsKey q sequence_number
  then (λ e, if decide (e.1 = sequence_number) then (e.1, transmission_type) else e) <$> q
  else q ++ [(sequence_number, transmission_type)].

(** *** Helpers of the anonymous namespace *)

Definition HasCryptoHandshake (transmission_info : TransmissionInfo) : bool :=
  match retransmittable_frames transmission_info with
  | None => false
  | Some frames => bool_decide (HasCryptoHandshake_ frames = IS_HANDSHAKE)
  end.

(** *** Registration of packets *)

Definition OnSerializedPacket (m : QuicSentPacketManager) (serialized_packet : SerializedPacket)
  : QuicSentPacketManager :=
  let m1 :=
    match sp_retransmittable_frames serialized_packet with
    | Some frames =>
        let m' := notify (NotifierOnSerializedPacket (sp_sequence_number serialized_packet)) m in
        if bool_decide (HasCryptoHandshake_ frames = IS_HANDSHAKE)
        then with_pending_crypto_packet_count incr_size_t m'
        else m'
    | None => m
    end in
  with_unacked (λ u, QuicUnackedPacketMap.AddPacket u serialized_packet) m1.

Definition OnRetransmittedPacket (m : QuicSentPacketManager)
    (old_sequence_number new_sequence_number : N) : option QuicSentPacketManager :=
  let m1 := with_pending_retransmissions (erase old_sequence_number) m in
  let m2 := notify (NotifierUpdateSequenceNumber old_sequence_number new_sequence_number) m1 in
  u ← QuicUnackedPacketMap.OnRetransmittedPacket (unacked_packets_ m2)
         old_sequence_number new_sequence_number;
  Some (with_unacked (λ _, u) m2).

(** *** Retransmission mode *)

Definition GetRetransmissionMode (m : QuicSentPacketManager) : RetransmissionTimeoutMode :=
  if (0 <? pending_crypto_packet_count_ m)%N then HANDSHAKE_MODE
  else if (consecutive_tlp_count_ m <? max_tail_loss_probes_ m)%N
          && QuicUnackedPacketMap.HasUnackedRetransmittableFrames (unacked_packets_ m)
       then TLP_MODE
       else RTO_MODE.

(** *** Abandoning and queueing packets *)

Definition OnPacketAbandoned (m : QuicSentPacketManager) (sequence_number : N)
  : QuicSentPacketManager :=
  if QuicUnackedPacketMap.IsPending (unacked_packets_ m) sequence_number then
    match QuicUnackedPacketMap.GetTransmissionInfo (unacked_packets_ m) sequence_number with
    | Some info =>
        with_unacked (λ u, QuicUnackedPacketMap.SetNotPending u sequence_number)
          (with_send_algorithm
             (λ s, SendAlgorithmInterface.OnPacketAbandoned s sequence_number (bytes_sent info)) m)
    | None => m
    end
  else m.

Definition MarkForRetransmission (m : QuicSentPacketManager) (sequence_number : N)
    (transmission_type : TransmissionType) : option QuicSentPacketManager :=
  _ ← QuicUnackedPacketMap.GetTransmissionInfo (unacked_packets_ m) sequence_number;
  if ContainsKey (pending_retransmissions_ m) sequence_number
  then Some m
  else Some (with_pending_retransmissions (assign sequence_number transmission_type) m).

(** *** Handling one acked or abandoned packet *)

(** One turn of the loop over the copied group: [previous_transmission] is
    taken off the queue, discarded with the handshake if there is one, and
    then removed when it is not pending, neutered when it is. *)
Definition MarkPacketHandled_step (has_cryto_handshake : bool)
    (m : QuicSentPacketManager) (previous_transmission : N) : option QuicSentPacketManager :=
  transmission_info ←
    QuicUnackedPacketMap.GetTransmissionInfo (unacked_packets_ m) previous_transmission;
  let m1 :=
    if ContainsKey (pending_retransmissions_ m) previous_transmission
    then with_pending_retransmissions (erase previous_transmission) m
    else m in
  let m2 :=
    if has_cryto_handshake then
      let m' := if pending transmission_info
                then OnPacketAbandoned m1 previous_transmission else m1 in
      with_unacked (λ u, QuicUnackedPacketMap.SetNotPending u previous_transmission) m'
    else m1 in
  (* [transmission_info] is a reference into the table: it is read again. *)
  if negb (QuicUnackedPacketMap.IsPending (unacked_packets_ m2) previous_transmission)
  then Some (with_unacked (λ u, QuicUnackedPacketMap.RemovePacket u previous_transmission) m2)
  else Some (with_unacked (λ u, QuicUnackedPacketMap.NeuterPacket u previous_transmission) m2).

Fixpoint MarkPacketHandled_loop (has_cryto_handshake : bool)
    (transmissions : list N) (m : QuicSentPacketManager) : option QuicSentPacketManager :=
  match transmissions with
  | [] => Some m
  | previous_transmission :: rest =>
      m' ← MarkPacketHandled_step has_cryto_handshake m previous_transmission;
      MarkPacketHandled_loop has_cryto_handshake rest m'
  end.

(** The result pairs the new state with the returned iterator ([None] is
    [end()]). *)
Definition MarkPacketHandled (m : QuicSentPacketManager) (sequence_number : N)
    (received_by_peer : ReceivedByPeer) : option (QuicSentPacketManager * option N) :=
  if negb (QuicUnackedPacketMap.IsUnacked (unacked_packets_ m) sequence_number)
  then Some (m, None)
  else
    transmission_info ←
      QuicUnackedPacketMap.GetTransmissionInfo (unacked_packets_ m) sequence_number;
    let m1 :=
      if pending transmission_info then
        with_unacked (λ u, QuicUnackedPacketMap.SetNotPending u sequence_number)
          (with_send_algorithm
             (λ s, match received_by_peer with
                   | RECEIVED_BY_PEER =>
                       SendAlgorithmInterface.OnPacketAcked s sequence_number
                         (bytes_sent transmission_info)
                   | NOT_RECEIVED_BY_PEER =>
                       SendAlgorithmInterface.OnPacketAbandoned s sequence_number
                         (bytes_sent transmission_info)
                   end) m)
      else m in
    (* the group is copied before the loop changes it *)
    group ← QuicUnackedPacketMap.transmission_sets_ (unacked_packets_ m1)
              !! all_transmissions transmission_info;
    newest_transmission ← QuicUnackedPacketMap.newest group;
    let m2 :=
      if decide (newest_transmission ≠ sequence_number)
      then with_stats incr_packets_spuriously_retransmitted m1
      else m1 in
    newest_info ←
      QuicUnackedPacketMap.GetTransmissionInfo (unacked_packets_ m2) newest_transmission;
    let has_cryto_handshake := HasCryptoHandshake newest_info in
    let m3 :=
      if has_cryto_handshake
      then with_pending_crypto_packet_count decr_size_t m2
      else m2 in
    m4 ← MarkPacketHandled_loop has_cryto_handshake (reverse (ascending group)) m3;
    Some (m4, QuicUnackedPacketMap.lower_bound (unacked_packets_ m4) sequence_number).

Definition DiscardUnackedPacket (m : QuicSentPacketManager) (sequence_number : N)
  : option QuicSentPacketManager :=
  fst <$> MarkPacketHandled m sequence_number NOT_RECEIVED_BY_PEER.

(** *** Processing an incoming ack *)

(** The ack sweep; [it] is the iterator, [None] for [end()].  The loop of the
    source has no bound of its own, so the model counts its turns down from
    [fuel]. *)
Fixpoint HandleAck_loop (fuel : nat) (received_info : ReceivedPacketInfo)
    (m : QuicSentPacketManager) (it : option N) : option QuicSentPacketManager :=
  match fuel with
  | O => None
  | S fuel' =>
      match it with
      | None => Some m
      | Some sequence_number =>
          if (largest_observed received_info <? sequence_number)%N then Some m
          else if IsAwaitingPacket received_info sequence_number then
            HandleAck_loop fuel' received_info m
              (QuicUnackedPacketMap.next (unacked_packets_ m) sequence_number)
          else
            r ← MarkPacketHandled m sequence_number RECEIVED_BY_PEER;
            HandleAck_loop fuel' received_info
              (notify (NotifierOnPacketAcked sequence_number) r.1) r.2
      end
  end.

Definition discard_revived (m : QuicSentPacketManager) (revived : N) : QuicSentPacketManager :=
  if QuicUnackedPacketMap.IsUnacked (unacked_packets_ m) revived then
    if negb (QuicUnackedPacketMap.IsPending (unacked_packets_ m) revived)
    then with_unacked (λ u, QuicUnackedPacketMap.RemovePacket u revived) m
    else with_unacked (λ u, QuicUnackedPacketMap.NeuterPacket u revived) m
  else m.

Definition HandleAckForSentPackets (fuel : nat) (m : QuicSentPacketManager)
    (received_info : ReceivedPacketInfo) : option QuicSentPacketManager :=
  m1 ← HandleAck_loop fuel received_info m
         (fst <$> head (QuicUnackedPacketMap.begin_to_end (unacked_packets_ m)));
  let m2 := foldl discard_revived m1 (ascending (revived_packets received_info)) in
  if is_truncated received_info
  then Some (with_unacked
               (λ u, QuicUnackedPacketMap.ClearPreviousRetransmissions u
                       (size (missing_packets received_info) / 2)%nat) m2)
  else Some m2.

(** The loss detector.  [its] is what is left of the walk from [begin()]. *)
Fixpoint DetectLostPackets_loop (its : list (N * TransmissionInfo))
    (largest_sent_packet largest_observed : N) (lost_packets : gset N) : gset N :=
  match its with
  | [] => lost_packets
  | it :: rest =>
      if (largest_observed <? it.1)%N then lost_packets
      else if negb (pending it.2) then
        DetectLostPackets_loop rest largest_sent_packet largest_observed lost_packets
      else
        let num_nacks_needed :=
          if has_frames it.2 && (largest_sent_packet =? largest_observed)%N
          then sub_size_t largest_observed it.1
          else kNumberOfNacksBeforeRetransmission in
        if (nack_count it.2 <? num_nacks_needed)%N then
          DetectLostPackets_loop rest largest_sent_packet largest_observed lost_packets
        else
          DetectLostPackets_loop rest largest_sent_packet largest_observed
            ({[it.1]} ∪ lost_packets)
  end.

Definition DetectLostPackets (unacked_packets : QuicUnackedPacketMap.t)
    (time : QuicTime.t) (largest_observed : N) : gset N :=
  DetectLostPackets_loop (QuicUnackedPacketMap.begin_to_end unacked_packets)
    (QuicUnackedPacketMap.largest_sent_packet unacked_packets) largest_observed ∅.

(** The first loop of [MaybeRetransmitOnAckFrame]: every pending packet up to
    the largest observed is nacked. *)
Fixpoint nack_missing_loop (its : list (N * TransmissionInfo)) (largest_observed : N)
    (m : QuicSentPacketManager) : QuicSentPacketManager :=
  match its with
  | [] => m
  | it :: rest =>
      if (largest_observed <? it.1)%N then m
      else if negb (pending it.2) then nack_missing_loop rest largest_observed m
      else
        let min_nacks := sub_size_t largest_observed it.1 in
        nack_missing_loop rest largest_observed
          (with_unacked (λ u, QuicUnackedPacketMap.NackPacket u it.1 min_nacks) m)
  end.

(** The second loop: one lost packet. *)
Definition handle_lost_packet (ack_receive_time : QuicTime.t)
    (m : QuicSentPacketManager) (sequence_number : N) : option QuicSentPacketManager :=
  let m1 := with_stats incr_packets_lost m in
  let m2 := with_send_algorithm
              (λ s, SendAlgorithmInterface.OnPacketLost s sequence_number ack_receive_time) m1 in
  let m3 := OnPacketAbandoned m2 sequence_number in
  if QuicUnackedPacketMap.HasRetransmittableFrames (unacked_packets_ m3) sequence_number
  then MarkForRetransmission m3 sequence_number NACK_RETRANSMISSION
  else Some (with_unacked (λ u, QuicUnackedPacketMap.RemovePacket u sequence_number) m3).

Fixpoint handle_lost_packets (ack_receive_time : QuicTime.t) (lost : list N)
    (m : QuicSentPacketManager) : option QuicSentPacketManager :=
  match lost with
  | [] => Some m
  | sequence_number :: rest =>
      m' ← handle_lost_packet ack_receive_time m sequence_number;
      handle_lost_packets ack_receive_time rest m'
  end.

Definition MaybeRetransmitOnAckFrame (m : QuicSentPacketManager)
    (received_info : ReceivedPacketInfo) (ack_receive_time : QuicTime.t)
  : option QuicSentPacketManager :=
  let m1 := nack_missing_loop (QuicUnackedPacketMap.begin_to_end (unacked_packets_ m))
              (largest_observed received_info) m in
  let lost_packets :=
    DetectLostPackets (unacked_packets_ m1) ack_receive_time (largest_observed received_info) in
  handle_lost_packets ack_receive_time (ascending lost_packets) m1.

(** The RTT sampler. *)
Definition MaybeUpdateRTT (m : QuicSentPacketManager)
    (received_info : ReceivedPacketInfo) (ack_receive_time : QuicTime.t)
  : QuicSentPacketManager :=
  if negb (QuicUnackedPacketMap.IsUnacked (unacked_packets_ m) (largest_observed received_info))
  then m
  else
    match QuicUnackedPacketMap.GetTransmissionInfo (unacked_packets_ m)
            (largest_observed received_info) with
    | None => m
    | Some transmission_info =>
        if QuicTime.IsZero (sent_time transmission_info) then m
        else
          let send_delta := QuicTime.Subtract ack_receive_time (sent_time transmission_info) in
          let m1 :=
            if Delta.gt send_delta (delta_time_largest_observed received_info) then
              with_rtt_sample
                (Delta.Subtract send_delta (delta_time_largest_observed received_info)) m
            else if Delta.IsInfinite (rtt_sample_ m) then with_rtt_sample send_delta m
            else m in
          with_send_algorithm (λ s, SendAlgorithmInterface.UpdateRtt s (rtt_sample_ m1)) m1
    end.

Definition OnIncomingAck (fuel : nat) (m : QuicSentPacketManager)
    (received_info : ReceivedPacketInfo) (ack_receive_time : QuicTime.t)
  : option (QuicSentPacketManager * bool) :=
  let largest_observed_acked :=
    QuicUnackedPacketMap.IsUnacked (unacked_packets_ m) (largest_observed received_info) in
  let m1 := MaybeUpdateRTT m received_info ack_receive_time in
  m2 ← HandleAckForSentPackets fuel m1 received_info;
  m3 ← MaybeRetransmitOnAckFrame m2 received_info ack_receive_time;
  let m4 := if largest_observed_acked then with_consecutive_counts 0 0 0 m3 else m3 in
  Some (m4, true).

(** *** Sending *)

Definition OnPacketSent (m : QuicSentPacketManager) (sequence_number : N)
    (time : QuicTime.t) (bytes : N) (transmission_type : TransmissionType)
    (has_retransmittable_data : HasRetransmittableData) : QuicSentPacketManager * bool :=
  if negb (QuicUnackedPacketMap.IsUnacked (unacked_packets_ m) sequence_number)
  then (m, false)
  else
    let r := SendAlgorithmInterface.OnPacketSent (send_algorithm_ m) time sequence_number bytes
               transmission_type has_retransmittable_data in
    let m1 := with_send_algorithm (λ _, r.2) m in
    if negb r.1 then
      (with_unacked (λ u, QuicUnackedPacketMap.RemovePacket u sequence_number) m1, false)
    else
      let set_retransmission_timer :=
        negb (QuicUnackedPacketMap.HasPendingPackets (unacked_packets_ m1)) in
      let m2 := with_unacked
                  (λ u, QuicUnackedPacketMap.SetPending u sequence_number time bytes) m1 in
      (m2, set_retransmission_timer
           || negb (bool_decide (GetRetransmissionMode m2 = RTO_MODE))).

(** *** The retransmission timeout *)

Definition incr_crypto_retransmit_count (s : QuicConnectionStats) : QuicConnectionStats :=
  {| crypto_retransmit_count := crypto_retransmit_count s + 1;
     tlp_count := tlp_count s;
     rto_count := rto_count s;
     packets_lost := packets_lost s;
     packets_spuriously_retransmitted := packets_spuriously_retransmitted s |}.

Definition incr_tlp_count (s : QuicConnectionStats) : QuicConnectionStats :=
  {| crypto_retransmit_count := crypto_retransmit_count s;
     tlp_count := tlp_count s + 1;
     rto_count := rto_count s;
     packets_lost := packets_lost s;
     packets_spuriously_retransmitted := packets_spuriously_retransmitted s |}.

Definition incr_rto_count (s : QuicConnectionStats) : QuicConnectionStats :=
  {| crypto_retransmit_count := crypto_retransmit_count s;
     tlp_count := tlp_count s;
     rto_count := rto_count s + 1;
     packets_lost := packets_lost s;
     packets_spuriously_retransmitted := packets_spuriously_retransmitted s |}.

(** The loops below walk the table as it was when they started; a turn only
    changes the record it is at, so what it reads there is current. *)
Fixpoint RetransmitCryptoPackets_loop (its : list (N * TransmissionInfo))
    (m : QuicSentPacketManager) : option QuicSentPacketManager :=
  match its with
  | [] => Some m
  | it :: rest =>
      if negb (pending it.2) || negb (HasCryptoHandshake it.2)
      then RetransmitCryptoPackets_loop rest m
      else
        m1 ← MarkForRetransmission m it.1 TLP_RETRANSMISSION;
        RetransmitCryptoPackets_loop rest (OnPacketAbandoned m1 it.1)
  end.

Definition RetransmitCryptoPackets (m : QuicSentPacketManager) : option QuicSentPacketManager :=
  let m1 :=
    with_consecutive_counts (consecutive_rto_count_ m) (consecutive_tlp_count_ m)
      (N.min kMaxHandshakeRetransmissionBackoffs
         (incr_size_t (consecutive_crypto_retransmission_count_ m))) m in
  RetransmitCryptoPackets_loop (QuicUnackedPacketMap.begin_to_end (unacked_packets_ m1)) m1.

Fixpoint RetransmitOldestPacket_loop (its : list (N * TransmissionInfo))
    (m : QuicSentPacketManager) : option QuicSentPacketManager :=
  match its with
  | [] => Some m
  | it :: rest =>
      if negb (pending it.2) || negb (has_frames it.2)
      then RetransmitOldestPacket_loop rest m
      else MarkForRetransmission m it.1 TLP_RETRANSMISSION
  end.

Definition RetransmitOldestPacket (m : QuicSentPacketManager) : option QuicSentPacketManager :=
  let m1 :=
    with_consecutive_counts (consecutive_rto_count_ m)
      (incr_size_t (consecutive_tlp_count_ m))
      (consecutive_crypto_retransmission_count_ m) m in
  RetransmitOldestPacket_loop (QuicUnackedPacketMap.begin_to_end (unacked_packets_ m1)) m1.

(** The result carries [packets_retransmitted]. *)
Fixpoint RetransmitAllPackets_loop (its : list (N * TransmissionInfo))
    (packets_retransmitted : bool) (m : QuicSentPacketManager)
  : option (QuicSentPacketManager * bool) :=
  match its with
  | [] => Some (m, packets_retransmitted)
  | it :: rest =>
      let m1 := with_unacked (λ u, QuicUnackedPacketMap.SetNotPending u it.1) m in
      if has_frames it.2 then
        m2 ← MarkForRetransmission m1 it.1 RTO_RETRANSMISSION;
        RetransmitAllPackets_loop rest true m2
      else RetransmitAllPackets_loop rest packets_retransmitted m1
  end.

Definition RetransmitAllPackets (m : QuicSentPacketManager) : option QuicSentPacketManager :=
  r ← RetransmitAllPackets_loop (QuicUnackedPacketMap.begin_to_end (unacked_packets_ m)) false m;
  let m1 := with_send_algorithm
              (λ s, SendAlgorithmInterface.OnRetransmissionTimeout s r.2) r.1 in
  if r.2
  then Some (with_consecutive_counts (incr_size_t (consecutive_rto_count_ m1))
               (consecutive_tlp_count_ m1) (consecutive_crypto_retransmission_count_ m1) m1)
  else Some m1.

Definition OnRetransmissionTimeout (m : QuicSentPacketManager) : option QuicSentPacketManager :=
  match GetRetransmissionMode m with
  | HANDSHAKE_MODE => RetransmitCryptoPackets (with_stats incr_crypto_retransmit_count m)
  | TLP_MODE => RetransmitOldestPacket (with_stats incr_tlp_count m)
  | RTO_MODE => RetransmitAllPackets (with_stats incr_rto_count m)
  end.

(** *** Retransmission on command *)

(** The loop of [RetransmitUnackedPackets]; [unacked_it] is the iterator,
    [None] for [end()].  As in the ack sweep, the turns are counted down from
    [fuel].  The group of a record is looked at only when the record has no
    frames. *)
Fixpoint RetransmitUnackedPackets_loop (fuel : nat) (retransmission_type : RetransmissionType)
    (m : QuicSentPacketManager) (unacked_it : option N) : option QuicSentPacketManager :=
  match fuel with
  | O => None
  | S fuel' =>
      match unacked_it with
      | None => Some m
      | Some sequence_number =>
          transmission_info ←
            QuicUnackedPacketMap.GetTransmissionInfo (unacked_packets_ m) sequence_number;
          let frames := retransmittable_frames transmission_info in
          handled ←
            match frames with
            | Some _ => Some false
            | None =>
                group ← QuicUnackedPacketMap.transmission_sets_ (unacked_packets_ m)
                          !! all_transmissions transmission_info;
                Some (bool_decide (size group = 1%nat)
                      && bool_decide (retransmission_type = ALL_PACKETS))
            end;
          if handled : bool then
            r ← MarkPacketHandled m sequence_number NOT_RECEIVED_BY_PEER;
            RetransmitUnackedPackets_loop fuel' retransmission_type r.1 r.2
          else
            m1 ← match frames with
                 | Some f =>
                     if bool_decide (retransmission_type = ALL_PACKETS)
                        || bool_decide (encryption_level f = ENCRYPTION_INITIAL)
                     then MarkForRetransmission (OnPacketAbandoned m sequence_number)
                            sequence_number NACK_RETRANSMISSION
                     else Some m
                 | None => Some m
                 end;
            RetransmitUnackedPackets_loop fuel' retransmission_type m1
              (QuicUnackedPacketMap.next (unacked_packets_ m1) sequence_number)
      end
  end.

Definition RetransmitUnackedPackets (fuel : nat) (m : QuicSentPacketManager)
    (retransmission_type : RetransmissionType) : option QuicSentPacketManager :=
  RetransmitUnackedPackets_loop fuel retransmission_type m
    (fst <$> head (QuicUnackedPacketMap.begin_to_end (unacked_packets_ m))).

(** *** The head of the queue *)

Definition HasPendingRetransmissions (m : QuicSentPacketManager) : bool :=
  match pending_retransmissions_ m with
  | [] => false
  | _ :: _ => true
  end.

(** [pending_retransmissions_.begin()] of an empty queue, the record of a
    sequence number that has none and the frames of a record that has none
    are undefined. *)
Definition NextPendingRetransmission (m : QuicSentPacketManager)
  : option PendingRetransmission.t :=
  first ← head (pending_retransmissions_ m);
  transmission_info ← QuicUnackedPacketMap.GetTransmissionInfo (unacked_packets_ m) first.1;
  frames ← retransmittable_frames transmission_info;
  Some {| PendingRetransmission.sequence_number := first.1;
          PendingRetransmission.transmission_type := first.2;
          PendingRetransmission.retransmittable_frames := frames;
          PendingRetransmission.sequence_number_length :=
            sequence_number_length transmission_info |}.

(** *** Calls handed to the congestion controller *)

Definition OnIncomingQuicCongestionFeedbackFrame (m : QuicSentPacketManager)
    (frame : QuicCongestionFeedbackFrame) (feedback_receive_time : QuicTime.t)
  : QuicSentPacketManager :=
  with_send_algorithm
    (λ s, SendAlgorithmInterface.OnIncomingQuicCongestionFeedbackFrame s frame
            feedback_receive_time) m.

(** The result pairs the delay with the new state. *)
Definition TimeUntilSend (m : QuicSentPacketManager) (now : QuicTime.t)
    (transmission_type : TransmissionType) (retransmittable : HasRetransmittableData)
    (handshake : IsHandshake) : Delta.t * QuicSentPacketManager :=
  let r := SendAlgorithmInterface.TimeUntilSend (send_algorithm_ m) now transmission_type
             retransmittable handshake in
  (r.1, with_send_algorithm (λ _, r.2) m).

(** *** Timer computation *)

Definition SmoothedRtt (m : QuicSentPacketManager) : Delta.t :=
  SendAlgorithmInterface.SmoothedRtt (send_algorithm_ m).

Definition DelayedAckTime : Delta.t :=
  Delta.FromMilliseconds (kMinRetransmissionTimeMs `quot` 2).

(** [1.5 * SmoothedRtt().ToMilliseconds()] is a product in [double] that the
    conversion to [int64] truncates.  For a millisecond count below 2^53 / 3
    in absolute value the product is exact and the result is
    [(3 * ms) quot 2], which is what is written here; the theorems about this
    delay keep the smoothed RTT below 2^50 microseconds. *)
Definition GetCryptoRetransmissionDelay (m : QuicSentPacketManager) : Delta.t :=
  let delay_ms :=
    Z.max kMinHandshakeTimeoutMs ((3 * Delta.ToMilliseconds (SmoothedRtt m)) `quot` 2) in
  Delta.FromMilliseconds
    (wrap_int64 (Z.shiftl delay_ms (Z.of_N (consecutive_crypto_retransmission_count_ m)))).

Definition GetTailLossProbeDelay (m : QuicSentPacketManager) : Delta.t :=
  let srtt := SmoothedRtt m in
  if negb (QuicUnackedPacketMap.HasMultiplePendingPackets (unacked_packets_ m)) then
    Delta.Max (Delta.Add (Delta.Multiply_1_5 srtt) DelayedAckTime) (Delta.Multiply srtt 2)
  else
    Delta.FromMilliseconds
      (Z.max kMinTailLossProbeTimeoutMs (wrap_int64 (2 * Delta.ToMilliseconds srtt))).

Definition GetRetransmissionDelay (m : QuicSentPacketManager) : Delta.t :=
  let suggested := SendAlgorithmInterface.RetransmissionDelay (send_algorithm_ m) in
  let retransmission_delay :=
    if Delta.IsZero suggested then Delta.FromMilliseconds kDefaultRetransmissionTimeMs
    else if Delta.ToMilliseconds suggested <? kMinRetransmissionTimeMs
         then Delta.FromMilliseconds kMinRetransmissionTimeMs
         else suggested in
  let retransmission_delay :=
    Delta.Multiply retransmission_delay
      (Z.shiftl 1 (Z.of_N (N.min (consecutive_rto_count_ m) kMaxRetransmissions))) in
  if kMaxRetransmissionTimeMs <? Delta.ToMilliseconds retransmission_delay
  then Delta.FromMilliseconds kMaxRetransmissionTimeMs
  else retransmission_delay.

(** [now] is what [clock_->ApproximateNow()] returns. *)
Definition GetRetransmissionTime (now : QuicTime.t) (m : QuicSentPacketManager) : QuicTime.t :=
  if negb (QuicUnackedPacketMap.HasPendingPackets (unacked_packets_ m)) then QuicTime.Zero
  else
    match GetRetransmissionMode m with
    | HANDSHAKE_MODE => QuicTime.Add now (GetCryptoRetransmissionDelay m)
    | TLP_MODE =>
        let sent_time := QuicUnackedPacketMap.GetLastPacketSentTime (unacked_packets_ m) in
        let tlp_time := QuicTime.Add sent_time (GetTailLossProbeDelay m) in
        QuicTime.Max now tlp_time
    | RTO_MODE =>
        let sent_time := QuicUnackedPacketMap.GetFirstPendingPacketSentTime (unacked_packets_ m) in
        let min_timeout := QuicTime.Add now (Delta.Multiply_1_5 (SmoothedRtt m)) in
        let rto_timeout := QuicTime.Add sent_time (GetRetransmissionDelay m) in
        QuicTime.Max min_timeout rto_timeout
    end.

(** *** Configuration

    [FLAGS_enable_quic_pacing] is a global of the translation unit (initially
    [false]); the functions that read it take its current value. *)

Definition FLAGS_enable_quic_pacing_default : bool := false.
Definition FLAGS_track_retransmission_history_default : bool := false.

Definition MaybeEnablePacing (FLAGS_enable_quic_pacing : bool) (m : QuicSentPacketManager)
  : QuicSentPacketManager :=
  if negb FLAGS_enable_quic_pacing then m
  else if using_pacing_ m then m
  else
    with_send_algorithm (λ s, PacingSender s (Delta.FromMicroseconds 1))
      (with_using_pacing true m).

Definition SetFromConfig (FLAGS_enable_quic_pacing : bool) (m : QuicSentPacketManager)
    (config : QuicConfig) : QuicSentPacketManager :=
  let m1 :=
    if (0 <? initial_round_trip_time_us config) && Delta.IsInfinite (rtt_sample_ m) then
      let m' := with_rtt_sample
                  (Delta.FromMicroseconds (initial_round_trip_time_us config)) m in
      with_send_algorithm (λ s, SendAlgorithmInterface.UpdateRtt s (rtt_sample_ m')) m'
    else m in
  let m2 :=
    if congestion_control config =? kPACE
    then MaybeEnablePacing FLAGS_enable_quic_pacing m1
    else m1 in
  with_send_algorithm
    (λ s, SendAlgorithmInterface.SetFromConfig s config (is_server_ m2)) m2.

End Manager.

Arguments QuicSentPacketManager A : clear implicits.

(** ** Specification-side definitions *)

(** The NACK count a packet needs before it is declared lost, as the
    specification words it. *)
Definition required_nack_count (largest_sent largest_observed sn : N)
    (info : TransmissionInfo) : N :=
  if bool_decide (is_Some (retransmittable_frames info) ∧ largest_sent = largest_observed)
  then (largest_observed - sn)%N
  else 3%N.


(** The RTT sample an informative ack produces, as the specification words
    it: the send delta less the peer's ack delay when that is positive, the
    send delta itself when there is no sample yet, the old sample otherwise. *)
Definition rtt_sample_spec (old_sample : Delta.t) (sent ack_receive_time : QuicTime.t)
    (delta_time_largest_observed : Delta.t) : Delta.t :=
  let send_delta := QuicTime.Subtract ack_receive_time sent in
  if bool_decide (delta_time_largest_observed < send_delta)
  then Delta.Subtract send_delta delta_time_largest_observed
  else if bool_decide (old_sample = Delta.Infinite) then send_delta
  else old_sample.

(** The RTO delay in microseconds, as the specification words it: the
    suggestion (500 ms when it is zero), floored at 200 ms, times
    [2^min(consecutive_rto_count, 10)], capped at 60 s. *)
Definition rto_delay_spec (suggested : Z) (consecutive_rto_count : N) : Z :=
  let start := if bool_decide (suggested = 0) then 500 * 1000 else suggested in
  let floored := Z.max start (200 * 1000) in
  Z.min (floored * 2 ^ Z.of_N (N.min consecutive_rto_count 10)) (60000 * 1000).

(** What the source computes: the cap is decided on whole milliseconds. *)
Definition rto_delay_computed (suggested : Z) (consecutive_rto_count : N) : Z :=
  let start := if bool_decide (suggested = 0) then 500 * 1000 else suggested in
  let floored := Z.max start (200 * 1000) in
  let scaled := floored * 2 ^ Z.of_N (N.min consecutive_rto_count 10) in
  if bool_decide (60000 < scaled `quot` 1000) then 60000 * 1000 else scaled.

(** Transmission groups are consistent when every record's group holds the
    record's own number (invariant 2 of the data model) and every member of a
    group has a record that refers to that group. *)
Definition in_own_group (u : QuicUnackedPacketMap.t) (sn : N) (info : TransmissionInfo) : Prop :=
  match QuicUnackedPacketMap.transmission_sets_ u !! all_transmissions info with
  | Some group => sn ∈ group
  | None => False
  end.

Definition refers_to (u : QuicUnackedPacketMap.t) (ref : nat) (member : N) : Prop :=
  match QuicUnackedPacketMap.unacked_packets_ u !! member with
  | Some info => all_transmissions info = ref
  | None => False
  end.

Global Instance in_own_group_dec u sn info : Decision (in_own_group u sn info).
Proof. unfold in_own_group. destruct (_ !! _); apply _. Defined.

Global Instance refers_to_dec u ref member : Decision (refers_to u ref member).
Proof. unfold refers_to. destruct (_ !! _); apply _. Defined.

Definition GroupsConsistent (u : QuicUnackedPacketMap.t) : Prop :=
  map_Forall (in_own_group u) (QuicUnackedPacketMap.unacked_packets_ u)
  ∧ map_Forall (λ ref group, set_Forall (refers_to u ref) group)
      (QuicUnackedPacketMap.transmission_sets_ u).

Global Instance GroupsConsistent_dec u : Decision (GroupsConsistent u).
Proof. unfold GroupsConsistent. apply _. Defined.

(** The sequence numbers with a record. *)
Definition unacked (u : QuicUnackedPacketMap.t) : gset N :=
  dom (QuicUnackedPacketMap.unacked_packets_ u).

(** The turns the ack sweep can still take from iterator [it]. *)
Definition sweep_measure (u : QuicUnackedPacketMap.t) (it : option N) : nat :=
  match it with
  | None => 0
  | Some sn => size (filter (λ k, (sn <= k)%N) (unacked u))
  end.

Section Relations.
Context {A : Type}.

(** What ack processing, sending and the timeout leave as it is or keep
    true: the pacing set-up, the uniqueness of the queue's keys and the
    consistency of the transmission groups.  The consecutive-retransmission
    counts are left alone by ack processing and sending up to the final
    reset. *)
Definition keeps_bookkeeping (m m' : QuicSentPacketManager A) : Prop :=
  consecutive_rto_count_ m' = consecutive_rto_count_ m
  ∧ consecutive_tlp_count_ m' = consecutive_tlp_count_ m
  ∧ consecutive_crypto_retransmission_count_ m'
    = consecutive_crypto_retransmission_count_ m
  ∧ using_pacing_ m' = using_pacing_ m
  ∧ pacing_layers (send_algorithm_ m') = pacing_layers (send_algorithm_ m)
  ∧ (NoDup (pending_retransmissions_ m).*1 → NoDup (pending_retransmissions_ m').*1)
  ∧ (GroupsConsistent (unacked_packets_ m) → GroupsConsistent (unacked_packets_ m')).

(** The pacing set-up is left as it is: the flag and the decorators around
    the controller. *)
Definition keeps_pacing (m m' : QuicSentPacketManager A) : Prop :=
  using_pacing_ m' = using_pacing_ m
  ∧ pacing_layers (send_algorithm_ m') = pacing_layers (send_algorithm_ m).

(** No record is added, and every queued number was queued before or has a
    record. *)
Definition shrinks (m m' : QuicSentPacketManager A) : Prop :=
  unacked (unacked_packets_ m') ⊆ unacked (unacked_packets_ m)
  ∧ ∀ k, k ∈ (pending_retransmissions_ m').*1 →
         k ∈ (pending_retransmissions_ m).*1 ∨ k ∈ unacked (unacked_packets_ m).

(** The step is an ack or abandon step: records and queue entries only go
    away, and a number whose record goes away leaves the queue. *)
Definition retires (m m' : QuicSentPacketManager A) : Prop :=
  unacked (unacked_packets_ m') ⊆ unacked (unacked_packets_ m)
  ∧ (pending_retransmissions_ m').*1 ⊆ (pending_retransmissions_ m).*1
  ∧ ∀ k, k ∈ unacked (unacked_packets_ m) → k ∉ unacked (unacked_packets_ m') →
         k ∉ (pending_retransmissions_ m').*1.

(** Nothing is gained: no record is added, no record has retransmittable
    frames it did not have before, and a sequence number that has entered the
    queue had retransmittable frames. *)
Definition gives_up (m m' : QuicSentPacketManager A) : Prop :=
  unacked (unacked_packets_ m') ⊆ unacked (unacked_packets_ m)
  ∧ (∀ k, QuicUnackedPacketMap.HasRetransmittableFrames (unacked_packets_ m') k = true →
          QuicUnackedPacketMap.HasRetransmittableFrames (unacked_packets_ m) k = true)
  ∧ (∀ k, k ∈ (pending_retransmissions_ m').*1 →
          k ∈ (pending_retransmissions_ m).*1
          ∨ QuicUnackedPacketMap.HasRetransmittableFrames (unacked_packets_ m) k = true).

End Relations.

(** ** Retransmission on command, record by record *)

(** [RetransmitUnackedPackets] queues a record that has frames when the
    scope is all packets or the frames are of the initial encryption
    level. *)
Definition retransmits (retransmission_type : RetransmissionType) (info : TransmissionInfo)
  : bool :=
  match retransmittable_frames info with
  | Some frames =>
      bool_decide (retransmission_type = ALL_PACKETS)
      || bool_decide (encryption_level frames = ENCRYPTION_INITIAL)
  | None => false
  end.

(** It drops a record that has no frames and is alone in its transmission
    group when the scope is all packets. *)
Definition drops (retransmission_type : RetransmissionType) (u : QuicUnackedPacketMap.t)
    (info : TransmissionInfo) : bool :=
  negb (has_frames info)
  && match QuicUnackedPacketMap.transmission_sets_ u !! all_transmissions info with
     | Some group =>
         bool_decide (size group = 1%nat) && bool_decide (retransmission_type = ALL_PACKETS)
     | None => false
     end.

(** What becomes of a record. *)
Definition RetransmitUnackedPackets_record (retransmission_type : RetransmissionType)
    (u : QuicUnackedPacketMap.t) (info : TransmissionInfo) : option TransmissionInfo :=
  if drops retransmission_type u info then None
  else if retransmits retransmission_type info then Some (set_pending_flag false info)
       else Some info.

(** The iterator [it] has not reached [k] yet ([None] is [end()]). *)
Definition before (k : N) (it : option N) : Prop :=
  match it with
  | Some sn => (k < sn)%N
  | None => True
  end.

Global Instance before_dec k it : Decision (before k it).
Proof. destruct it; simpl; apply _. Defined.

(** ** What the ack sweep reports to the ACK notifier

    Whether the ack sweep, standing at iterator [it] on the table [u], will
    report [sn]: [sn] has a record the iterator has not passed and the ack
    acknowledges it, and either no member of its transmission group that the
    sweep has still to visit and the ack acknowledges is lower, or [sn] is
    pending and the newest transmission of its group carries no crypto
    handshake.  (Handling the lowest acknowledged member of a group takes
    the members that are not pending out of the table, and all members when
    the group is a crypto handshake, before the sweep reaches them.) *)
Definition reported_from (it : option N) (u : QuicUnackedPacketMap.t)
    (received_info : ReceivedPacketInfo) (sn : N) : Prop :=
  match QuicUnackedPacketMap.unacked_packets_ u !! sn with
  | Some info =>
      match QuicUnackedPacketMap.transmission_sets_ u !! all_transmissions info with
      | Some group =>
          ¬ before sn it
          ∧ IsAwaitingPacket received_info sn = false
          ∧ (set_Forall
               (λ k, ¬ before k it → IsAwaitingPacket received_info k = false → (sn <= k)%N)
               group
             ∨ pending info = true
               ∧ match QuicUnackedPacketMap.newest group
                       ≫= (QuicUnackedPacketMap.unacked_packets_ u !!.) with
                 | Some newest_info => HasCryptoHandshake newest_info = false
                 | None => False
                 end)
      | None => False
      end
  | None => False
  end.

Global Instance reported_from_dec it u received_info sn :
  Decision (reported_from it u received_info sn).
Proof. unfold reported_from. repeat case_match; apply _. Defined.

(** What the whole sweep reports. *)
Definition reported (u : QuicUnackedPacketMap.t) (received_info : ReceivedPacketInfo)
    (sn : N) : Prop :=
  reported_from (Some 0%N) u received_info sn.

Global Instance reported_dec u received_info sn : Decision (reported u received_info sn).
Proof. unfold reported. apply _. Defined.

Section RetransmitUnacked.
Context {A : Type}.

(** Whether [k] is queued afterwards, in terms of the state [m] the call
    started in. *)
Definition queued_after (retransmission_type : RetransmissionType)
    (m : QuicSentPacketManager A) (k : N) : Prop :=
  match QuicUnackedPacketMap.unacked_packets_ (unacked_packets_ m) !! k with
  | Some info =>
      k ∈ (pending_retransmissions_ m).*1
      ∧ drops retransmission_type (unacked_packets_ m) info = false
      ∨ retransmits retransmission_type info = true
  | None => k ∈ (pending_retransmissions_ m).*1
  end.

(** The loop invariant: the records before the iterator have been dealt
    with, the others are as they were in the state [m] the call started
    in. *)
Definition swept_upto (retransmission_type : RetransmissionType)
    (m mc : QuicSentPacketManager A) (it : option N) : Prop :=
  GroupsConsistent (unacked_packets_ mc)
  ∧ keeps_bookkeeping m mc
  ∧ (∀ k, before k it →
          QuicUnackedPacketMap.unacked_packets_ (unacked_packets_ mc) !! k
          = QuicUnackedPacketMap.unacked_packets_ (unacked_packets_ m) !! k
            ≫= RetransmitUnackedPackets_record retransmission_type (unacked_packets_ m))
  ∧ (∀ k, ¬ before k it →
          QuicUnackedPacketMap.unacked_packets_ (unacked_packets_ mc) !! k
          = QuicUnackedPacketMap.unacked_packets_ (unacked_packets_ m) !! k)
  ∧ (∀ k info,
       ¬ before k it →
       QuicUnackedPacketMap.unacked_packets_ (unacked_packets_ m) !! k = Some info →
       QuicUnackedPacketMap.transmission_sets_ (unacked_packets_ mc) !! all_transmissions info
       = QuicUnackedPacketMap.transmission_sets_ (unacked_packets_ m)
           !! all_transmissions info)
  ∧ (∀ k, before k it →
          (k ∈ (pending_retransmissions_ mc).*1 ↔ queued_after retransmission_type m k))
  ∧ (∀ k, ¬ before k it →
          (k ∈ (pending_retransmissions_ mc).*1 ↔ k ∈ (pending_retransmissions_ m).*1))
  ∧ stats_ mc = stats_ m
  ∧ pending_crypto_packet_count_ mc = pending_crypto_packet_count_ m.

End RetransmitUnacked.

(** ** Calls and reachable states *)

Section Reachability.
Context {A : Type} `{!SendAlgorithmInterface.t A}.

(** One call of a member function that can change the manager: every
    function of the source that is not [const], whether the connection or
    the manager itself calls it, on any arguments.
    ([NextPendingRetransmission] is not [const] either, but it writes
    nothing.) *)
Inductive Step : QuicSentPacketManager A → QuicSentPacketManager A → Prop :=
| Step_SetFromConfig FLAGS_enable_quic_pacing m config :
    Step m (SetFromConfig FLAGS_enable_quic_pacing m config)
| Step_OnSerializedPacket m serialized_packet :
    Step m (OnSerializedPacket m serialized_packet)
| Step_OnRetransmittedPacket m old_sequence_number new_sequence_number m' :
    OnRetransmittedPacket m old_sequence_number new_sequence_number = Some m' →
    Step m m'
| Step_OnIncomingAck fuel m received_info ack_receive_time m' reset_alarm :
    OnIncomingAck fuel m received_info ack_receive_time = Some (m', reset_alarm) →
    Step m m'
| Step_DiscardUnackedPacket m sequence_number m' :
    DiscardUnackedPacket m sequence_number = Some m' →
    Step m m'
| Step_HandleAckForSentPackets fuel m received_info m' :
    HandleAckForSentPackets fuel m received_info = Some m' →
    Step m m'
| Step_RetransmitUnackedPackets fuel m retransmission_type m' :
    RetransmitUnackedPackets fuel m retransmission_type = Some m' →
    Step m m'
| Step_MarkForRetransmission m sequence_number transmission_type m' :
    MarkForRetransmission m sequence_number transmission_type = Some m' →
    Step m m'
| Step_MarkPacketHandled m sequence_number received_by_peer m' it :
    MarkPacketHandled m sequence_number received_by_peer = Some (m', it) →
    Step m m'
| Step_OnPacketSent m sn time bytes transmission_type has_retransmittable_data :
    Step m (OnPacketSent m sn time bytes transmission_type has_retransmittable_data).1
| Step_OnRetransmissionTimeout m m' :
    OnRetransmissionTimeout m = Some m' →
    Step m m'
| Step_RetransmitCryptoPackets m m' :
    RetransmitCryptoPackets m = Some m' →
    Step m m'
| Step_RetransmitOldestPacket m m' :
    RetransmitOldestPacket m = Some m' →
    Step m m'
| Step_RetransmitAllPackets m m' :
    RetransmitAllPackets m = Some m' →
    Step m m'
| Step_OnPacketAbandoned m sequence_number :
    Step m (OnPacketAbandoned m sequence_number)
| Step_OnIncomingQuicCongestionFeedbackFrame m frame feedback_receive_time :
    Step m (OnIncomingQuicCongestionFeedbackFrame m frame feedback_receive_time)
| Step_MaybeRetransmitOnAckFrame m received_info ack_receive_time m' :
    MaybeRetransmitOnAckFrame m received_info ack_receive_time = Some m' →
    Step m m'
| Step_MaybeUpdateRTT m received_info ack_receive_time :
    Step m (MaybeUpdateRTT m received_info ack_receive_time)
| Step_TimeUntilSend m now transmission_type retransmittable handshake :
    Step m (TimeUntilSend m now transmission_type retransmittable handshake).2
| Step_MaybeEnablePacing FLAGS_enable_quic_pacing m :
    Step m (MaybeEnablePacing FLAGS_enable_quic_pacing m).

(** The states the connection can drive the manager into, from a new
    manager, by calls that return: a sequence number is serialized once, and
    a retransmission gets a number that is not in use. *)

Inductive Reachable : QuicSentPacketManager A → Prop :=
| Reachable_Create is_server algorithm :
    Reachable (Create is_server algorithm)
| Reachable_SetFromConfig FLAGS_enable_quic_pacing m config :
    Reachable m →
    Reachable (SetFromConfig FLAGS_enable_quic_pacing m config)
| Reachable_OnSerializedPacket m serialized_packet :
    Reachable m →
    QuicUnackedPacketMap.IsUnacked (unacked_packets_ m)
      (sp_sequence_number serialized_packet) = false →
    Reachable (OnSerializedPacket m serialized_packet)
| Reachable_OnRetransmittedPacket m old_sequence_number new_sequence_number m' :
    Reachable m →
    QuicUnackedPacketMap.IsUnacked (unacked_packets_ m) new_sequence_number = false →
    OnRetransmittedPacket m old_sequence_number new_sequence_number = Some m' →
    Reachable m'
| Reachable_OnPacketSent m sn time bytes transmission_type has_retransmittable_data :
    Reachable m →
    Reachable (OnPacketSent m sn time bytes transmission_type has_retransmittable_data).1
| Reachable_OnIncomingAck fuel m received_info ack_receive_time m' reset_alarm :
    Reachable m →
    OnIncomingAck fuel m received_info ack_receive_time = Some (m', reset_alarm) →
    Reachable m'
| Reachable_OnRetransmissionTimeout m m' :
    Reachable m →
    OnRetransmissionTimeout m = Some m' →
    Reachable m'
| Reachable_DiscardUnackedPacket m sequence_number m' :
    Reachable m →
    DiscardUnackedPacket m sequence_number = Some m' →
    Reachable m'
| Reachable_RetransmitUnackedPackets fuel m retransmission_type m' :
    Reachable m →
    RetransmitUnackedPackets fuel m retransmission_type = Some m' →
    Reachable m'
| Reachable_OnIncomingQuicCongestionFeedbackFrame m frame feedback_receive_time :
    Reachable m →
    Reachable (OnIncomingQuicCongestionFeedbackFrame m frame feedback_receive_time)
| Reachable_TimeUntilSend m now transmission_type retransmittable handshake :
    Reachable m →
    Reachable (TimeUntilSend m now transmission_type retransmittable handshake).2
| Reachable_MaybeEnablePacing FLAGS_enable_quic_pacing m :
    Reachable m →
    Reachable (MaybeEnablePacing FLAGS_enable_quic_pacing m).

End Reachability.

(** ** Example states *)

Definition example_sender : FixedSender :=
  {| fixed_track := true; fixed_retransmission_delay := 0; fixed_smoothed_rtt := 100000 |}.

Definition example_frames : RetransmittableFrames :=
  {| HasCryptoHandshake_ := NOT_HANDSHAKE; encryption_level := ENCRYPTION_FORWARD_SECURE |}.

Definition example_packet (sn : N) : SerializedPacket :=
  {| sp_sequence_number := sn; sp_sequence_number_length := 1;
     sp_retransmittable_frames := Some example_frames |}.

(** Serialize and send packet [sn] (1200 bytes) at [time]. *)
Definition example_send (m : QuicSentPacketManager FixedSender) (sn : N) (time : QuicTime.t)
  : QuicSentPacketManager FixedSender :=
  (OnPacketSent (OnSerializedPacket m (example_packet sn)) sn time 1200
     NOT_RETRANSMISSION HAS_RETRANSMITTABLE_DATA).1.

(** Packet 1 serialized, not yet sent. *)
Definition example_serialized : QuicSentPacketManager FixedSender :=
  OnSerializedPacket (Create false example_sender) (example_packet 1).

(** Packets 1 to 4 sent at 1 us, 10 ms, 20 ms and 30 ms. *)
Definition example_four_sent : QuicSentPacketManager FixedSender :=
  example_send (example_send (example_send (example_send
    (Create false example_sender) 1 1) 2 10000) 3 20000) 4 30000.

Definition example_ack (largest : N) (missing : gset N) : ReceivedPacketInfo :=
  {| largest_observed := largest; delta_time_largest_observed := 0;
     missing_packets := missing; is_truncated := false; revived_packets := ∅ |}.

(** Packet 1 of [example_four_sent] queued as lost by an ack of 2 to 4. *)
Definition example_queued : option (QuicSentPacketManager FixedSender * bool) :=
  OnIncomingAck 10 example_four_sent (example_ack 4 {[1%N]}) 150000.

(** A controller that suggests 234.376 ms, after eight consecutive RTOs. *)
Definition example_backed_off : QuicSentPacketManager FixedSender :=
  with_consecutive_counts 8 0 0
    (example_send
       (Create false {| fixed_track := true; fixed_retransmission_delay := 234376;
                        fixed_smoothed_rtt := 100000 |}) 1 1).

Definition example_pace_config : QuicConfig :=
  {| initial_round_trip_time_us := 0; congestion_control := kPACE |}.

Definition example_qbic_config : QuicConfig :=
  {| initial_round_trip_time_us := 0; congestion_control := kQBIC |}.

(** [example_serialized] configured for [PACE], then [QBIC], then [PACE]
    again, with the flag set. *)
Definition example_paced_twice : QuicSentPacketManager FixedSender :=
  SetFromConfig true
    (SetFromConfig true (SetFromConfig true example_serialized example_pace_config)
       example_qbic_config)
    example_pace_config.

(** [example_four_sent] after one RTO and one tail loss probe. *)
Definition example_after_timeouts : QuicSentPacketManager FixedSender :=
  with_consecutive_counts 1 1 0 example_four_sent.

(** The state [example_queued] ends in. *)
Definition example_queued_state : QuicSentPacketManager FixedSender :=
  match example_queued with
  | Some r => r.1
  | None => example_four_sent
  end.

(** A table in which packet 1 has been nacked three times and packet 5 was
    sent after the ack was generated. *)
Definition example_nacked_table : QuicUnackedPacketMap.t :=
  {| QuicUnackedPacketMap.unacked_packets_ :=
       {[ 1%N := {| retransmittable_frames := Some example_frames;
                    sequence_number_length := 1; sent_time := 1; bytes_sent := 1200;
                    nack_count := 3; pending := true; all_transmissions := 0%nat |};
          5%N := {| retransmittable_frames := Some example_frames;
                    sequence_number_length := 1; sent_time := 40000; bytes_sent := 1200;
                    nack_count := 0; pending := true; all_transmissions := 1%nat |} ]};
     QuicUnackedPacketMap.transmission_sets_ := {[ 0%nat := {[1%N]}; 1%nat := {[5%N]} ]};
     QuicUnackedPacketMap.largest_sent_packet_ := 5 |}.

(** A crypto handshake packet, sent at 1 ms. *)
Definition example_handshake_sent : QuicSentPacketManager FixedSender :=
  (OnPacketSent
     (OnSerializedPacket (Create false example_sender)
        {| sp_sequence_number := 1; sp_sequence_number_length := 1;
           sp_retransmittable_frames :=
             Some {| HasCryptoHandshake_ := IS_HANDSHAKE;
                     encryption_level := ENCRYPTION_NONE |} |})
     1 1000 1200 NOT_RETRANSMISSION HAS_RETRANSMITTABLE_DATA).1.

(** [example_four_sent] after the timer has fired twice: both tail loss
    probes are spent. *)
Definition example_probes_spent : QuicSentPacketManager FixedSender :=
  default example_four_sent
    (OnRetransmissionTimeout example_four_sent ≫= OnRetransmissionTimeout).

(** [example_handshake_sent] after its first handshake timeout. *)
Definition example_handshake_backed_off : QuicSentPacketManager FixedSender :=
  default example_handshake_sent (OnRetransmissionTimeout example_handshake_sent).

(** The record of packet [sn] of [example_four_sent], sent at [time]. *)
Definition example_record (sn : N) (time : QuicTime.t) : TransmissionInfo :=
  {| retransmittable_frames := Some example_frames; sequence_number_length := 1;
     sent_time := time; bytes_sent := 1200; nack_count := 0; pending := true;
     all_transmissions := N.to_nat (sn - 1) |}.

(** An ack that reports packet 1 as missing and as revived through FEC. *)
Definition example_revived_ack : ReceivedPacketInfo :=
  {| largest_observed := 4; delta_time_largest_observed := 0;
     missing_packets := {[1%N]}; is_truncated := false; revived_packets := {[1%N]} |}.

(** [example_queued_state], where packet 1 is lost and queued, after the
    peer has reported packet 1 revived. *)
Definition example_revived_state : QuicSentPacketManager FixedSender :=
  match OnIncomingAck 10 example_queued_state example_revived_ack 160000 with
  | Some r => r.1
  | None => example_queued_state
  end.

(** [example_revived_state] after an ack of everything up to packet 4. *)
Definition example_revived_acked : QuicSentPacketManager FixedSender :=
  match OnIncomingAck 10 example_revived_state (example_ack 4 ∅) 170000 with
  | Some r => r.1
  | None => example_revived_state
  end.

(** Packet 1 is sent and, after a tail loss probe, retransmitted as packet
    2, which is sent and queued by a second probe: both are pending, the
    frames are with packet 2. *)
Definition example_retransmitted_probed : QuicSentPacketManager FixedSender :=
  default (Create false example_sender)
    (m1 ← OnRetransmissionTimeout (example_send (Create false example_sender) 1 1);
     m2 ← OnRetransmittedPacket m1 1 2;
     OnRetransmissionTimeout
       (OnPacketSent m2 2 10000 1200 TLP_RETRANSMISSION HAS_RETRANSMITTABLE_DATA).1).

(** [example_retransmitted_probed] after an RTO: neither packet is
    pending. *)
Definition example_retransmitted_timed_out : QuicSentPacketManager FixedSender :=
  default example_retransmitted_probed
    (OnRetransmissionTimeout example_retransmitted_probed).

(** What the scenarios of the specification look at. *)
Definition summary (m : QuicSentPacketManager FixedSender)
  : list (N * bool * N) * list (N * TransmissionType) * N * Delta.t :=
  ((λ e, (e.1, pending e.2, nack_count e.2))
     <$> QuicUnackedPacketMap.begin_to_end (unacked_packets_ m),
   pending_retransmissions_ m, packets_lost (stats_ m), rtt_sample_ m).
(** * Properties *)

(** ** Ordered iteration *)

Global Instance key_le_total {A} : Total (@key_le A).
Proof. intros x y. unfold key_le. lia. Qed.

Global Instance key_le_trans {A} : Transitive (@key_le A).
Proof. intros x y z. unfold key_le. lia. Qed.

Global Instance N_le_total : Total N.le.
Proof. intros x y. lia. Qed.

Lemma elem_of_entries {A} (m : gmap N A) k v :
  (k, v) ∈ entries m ↔ m !! k = Some v.
Proof.
  unfold entries. rewrite merge_sort_Permutation. apply elem_of_map_to_list.
Qed.

Lemma entries_sorted {A} (m : gmap N A) : StronglySorted key_le (entries m).
Proof. apply StronglySorted_merge_sort; apply _. Qed.

Lemma entries_NoDup_keys {A} (m : gmap N A) : NoDup (entries m).*1.
Proof.
  unfold entries. rewrite merge_sort_Permutation. apply NoDup_fst_map_to_list.
Qed.

Lemma elem_of_entries_keys {A} (m : gmap N A) k :
  k ∈ (entries m).*1 ↔ is_Some (m !! k).
Proof.
  rewrite list_elem_of_fmap. split.
  - intros [[k' v] [-> Hin]]. apply elem_of_entries in Hin. eauto.
  - intros [v Hv]. exists (k, v). split; [done|]. by apply elem_of_entries.
Qed.

Lemma elem_of_ascending (s : gset N) k : k ∈ ascending s ↔ k ∈ s.
Proof. unfold ascending. rewrite merge_sort_Permutation. apply elem_of_elements. Qed.

Lemma ascending_sorted (s : gset N) : StronglySorted N.le (ascending s).
Proof. apply StronglySorted_merge_sort; apply _. Qed.

Lemma ascending_NoDup (s : gset N) : NoDup (ascending s).
Proof. unfold ascending. rewrite merge_sort_Permutation. apply NoDup_elements. Qed.

(** ** Machine arithmetic *)

Lemma wrap_int64_id z : in_int64 z → wrap_int64 z = z.
Proof. unfold in_int64, wrap_int64. intros Hz. rewrite Z.mod_small; lia. Qed.

Lemma sub_size_t_le (a b : N) : (b <= a)%N → (a < 2 ^ 64)%N → sub_size_t a b = (a - b)%N.
Proof.
  intros Hle Hlt. unfold sub_size_t, wrap_size_t.
  assert (Z.of_N a < 2 ^ 64) by (change (2 ^ 64) with (Z.of_N (2 ^ 64)); lia).
  rewrite Z.mod_small by lia. lia.
Qed.

(** ** The loss detector *)

Lemma DetectLostPackets_loop_spec its largest_sent largest_observed lost sn :
  StronglySorted key_le its →
  (largest_observed < 2 ^ 64)%N →
  sn ∈ DetectLostPackets_loop its largest_sent largest_observed lost ↔
  sn ∈ lost ∨
  ∃ info, (sn, info) ∈ its ∧ pending info = true ∧ (sn <= largest_observed)%N
          ∧ (required_nack_count largest_sent largest_observed sn info <= nack_count info)%N.
Proof.
  intros Hsorted Hlo. revert lost.
  induction Hsorted as [|[k i] rest Hrest IH Hall]; intros lost; simpl.
  { split; [auto|]. intros [?|(info & Hin & _)]; [done|]. by apply elem_of_nil in Hin. }
  destruct (N.ltb_spec largest_observed k) as [Hbreak|Hin_range].
  { (* the walk stops: every later key is larger still *)
    split; [auto|]. intros [?|(info & Hin & _ & Hle & _)]; [done|]. exfalso.
    apply elem_of_cons in Hin as [[= -> ->]|Hin]; [lia|].
    rewrite Forall_forall in Hall. apply Hall in Hin. unfold key_le in Hin. simpl in Hin. lia. }
  assert (Hneeded :
    (if has_frames i && (largest_sent =? largest_observed)%N
     then sub_size_t largest_observed k else kNumberOfNacksBeforeRetransmission)
    = required_nack_count largest_sent largest_observed k i).
  { unfold required_nack_count, has_frames, kNumberOfNacksBeforeRetransmission.
    destruct (retransmittable_frames i) as [f|]; cbn [andb].
    - destruct (N.eqb_spec largest_sent largest_observed) as [->|Hne].
      + rewrite bool_decide_eq_true_2 by eauto. by apply sub_size_t_le.
      + rewrite bool_decide_eq_false_2; [done|]. intros [_ ?]. done.
    - rewrite bool_decide_eq_false_2; [done|]. intros [[? [=]] _]. }
  rewrite Hneeded. clear Hneeded.
  destruct (pending i) eqn:Hpending; simpl.
  - destruct (N.ltb_spec (nack_count i) (required_nack_count largest_sent largest_observed k i))
      as [Hfew|Henough].
    + rewrite IH. apply or_iff_compat_l. split.
      * intros (info & Hin & ?). exists info. split; [by apply elem_of_cons; right|done].
      * intros (info & Hin & Hp & Hle & Hn). exists info.
        apply elem_of_cons in Hin as [[= -> ->]|Hin]; [lia|done].
    + rewrite IH, elem_of_union, elem_of_singleton. split.
      * intros [[->|?]|(info & Hin & ?)]; [right|by left|right].
        -- exists i. split; [apply elem_of_cons; by left|done].
        -- exists info. split; [by apply elem_of_cons; right|done].
      * intros [?|(info & Hin & Hrest')]; [by left; right|].
        apply elem_of_cons in Hin as [[= -> ->]|Hin]; [by left; left|].
        right. by exists info.
  - rewrite IH. apply or_iff_compat_l. split.
    + intros (info & Hin & ?). exists info. split; [by apply elem_of_cons; right|done].
    + intros (info & Hin & Hp & Hrest'). exists info.
      apply elem_of_cons in Hin as [[= -> ->]|Hin]; [congruence|done].
Qed.

(** C1. For every table and every [largest_observed], the loss detector
    declares a sequence number lost exactly when it has a pending record, is
    at most [largest_observed], and its [nack_count] is at least the required
    count: 3 by default, [largest_observed - sn] when the record still has
    retransmittable frames and the largest sent packet is the largest
    observed.  Records that are not pending and sequence numbers above
    [largest_observed] are never declared lost. *)
Theorem DetectLostPackets_declares_lost
    (unacked_packets : QuicUnackedPacketMap.t) (time : QuicTime.t)
    (largest_observed sn : N) :
  (largest_observed < 2 ^ 64)%N →
  sn ∈ DetectLostPackets unacked_packets time largest_observed ↔
  ∃ info,
    QuicUnackedPacketMap.unacked_packets_ unacked_packets !! sn = Some info
    ∧ pending info = true
    ∧ (sn <= largest_observed)%N
    ∧ (required_nack_count (QuicUnackedPacketMap.largest_sent_packet unacked_packets)
         largest_observed sn info <= nack_count info)%N.
Proof.
  intros Hlo. unfold DetectLostPackets, QuicUnackedPacketMap.begin_to_end.
  rewrite DetectLostPackets_loop_spec by (apply entries_sorted || done).
  split.
  - intros [Hin|(info & Hin & ?)]; [set_solver|].
    exists info. by rewrite <- elem_of_entries.
  - intros (info & Hin & ?). right. exists info. by rewrite elem_of_entries.
Qed.

Section ManagerProperties.
Context {A : Type} `{!SendAlgorithmInterface.t A}.
Implicit Types m : QuicSentPacketManager A.

(** ** The pending-retransmission queue *)

Lemma ContainsKey_true (q : list (N * TransmissionType)) sn :
  ContainsKey q sn = true ↔ sn ∈ q.*1.
Proof. unfold ContainsKey. apply bool_decide_eq_true. Qed.

Lemma ContainsKey_false (q : list (N * TransmissionType)) sn :
  ContainsKey q sn = false ↔ sn ∉ q.*1.
Proof. unfold ContainsKey. apply bool_decide_eq_false. Qed.

Lemma elem_of_erase_keys (q : list (N * TransmissionType)) sn k :
  k ∈ (erase sn q).*1 ↔ k ∈ q.*1 ∧ k ≠ sn.
Proof.
  unfold erase. rewrite !list_elem_of_fmap. split.
  - intros [[k' r] [-> Hin]]. apply list_elem_of_filter in Hin as [Hne Hin].
    split; [|done]. by exists (k', r).
  - intros [[[k' r] [-> Hin]] Hne]. exists (k', r). split; [done|].
    by apply list_elem_of_filter.
Qed.

Lemma erase_NoDup (q : list (N * TransmissionType)) sn :
  NoDup q.*1 → NoDup (erase sn q).*1.
Proof.
  unfold erase. induction q as [|[k r] q IH]; simpl; [done|].
  rewrite NoDup_cons. intros [Hnotin Hnodup].
  rewrite filter_cons. case_decide; simpl; [|by apply IH].
  apply NoDup_cons. split; [|by apply IH].
  intros Hin. apply elem_of_erase_keys in Hin as [? _]. done.
Qed.

Lemma MarkForRetransmission_NoDup m sn transmission_type m' :
  NoDup (pending_retransmissions_ m).*1 →
  MarkForRetransmission m sn transmission_type = Some m' →
  NoDup (pending_retransmissions_ m').*1.
Proof.
  intros Hnodup. unfold MarkForRetransmission.
  destruct (QuicUnackedPacketMap.GetTransmissionInfo _ _); simpl; [|done].
  destruct (ContainsKey _ _) eqn:Hkey; intros [= <-]; [done|].
  simpl. unfold assign. rewrite Hkey. rewrite fmap_app. simpl.
  apply NoDup_app. split; [done|]. split; [|apply NoDup_singleton].
  intros k Hk ->%list_elem_of_singleton. by apply ContainsKey_false in Hkey.
Qed.

(** ** The retransmission mode *)

Lemma HasUnackedRetransmittableFrames_true (u : QuicUnackedPacketMap.t) :
  QuicUnackedPacketMap.HasUnackedRetransmittableFrames u = true ↔
  ∃ sn info, QuicUnackedPacketMap.unacked_packets_ u !! sn = Some info
             ∧ is_Some (retransmittable_frames info).
Proof.
  unfold QuicUnackedPacketMap.HasUnackedRetransmittableFrames.
  rewrite bool_decide_eq_true, map_Exists_lookup. unfold has_frames.
  split; intros (sn & info & Hinfo & Hframes); exists sn, info; split; try done.
  - destruct (retransmittable_frames info); [eauto|done].
  - by destruct Hframes as [f ->].
Qed.

Lemma HasPendingPackets_true (u : QuicUnackedPacketMap.t) :
  QuicUnackedPacketMap.HasPendingPackets u = true ↔
  ∃ sn, QuicUnackedPacketMap.IsPending u sn = true.
Proof.
  unfold QuicUnackedPacketMap.HasPendingPackets, QuicUnackedPacketMap.IsPending.
  rewrite bool_decide_eq_true, map_Exists_lookup.
  split.
  - intros (sn & info & Hinfo & Hp). exists sn. by rewrite Hinfo.
  - intros (sn & Hp). destruct (_ !! sn) as [info|] eqn:Hinfo; [|done]. eauto.
Qed.

Lemma HasPendingPackets_false (u : QuicUnackedPacketMap.t) :
  QuicUnackedPacketMap.HasPendingPackets u = false ↔
  ∀ sn, QuicUnackedPacketMap.IsPending u sn = false.
Proof.
  rewrite <- not_true_iff_false, HasPendingPackets_true. split.
  - intros Hnone sn. apply not_true_iff_false. eauto.
  - intros Hall [sn Hsn]. rewrite Hall in Hsn. done.
Qed.

(** C3. In a state with a pending packet the mode is HANDSHAKE exactly when
    [pending_crypto_packet_count_] is positive; otherwise it is TLP exactly
    when [consecutive_tlp_count_] is below [max_tail_loss_probes_] (2 in a
    freshly constructed manager) and some unacked record has retransmittable
    frames; otherwise it is RTO. *)
Theorem GetRetransmissionMode_priority m :
  QuicUnackedPacketMap.HasPendingPackets (unacked_packets_ m) = true →
  let tail_loss_probe_allowed :=
    (consecutive_tlp_count_ m < max_tail_loss_probes_ m)%N
    ∧ ∃ sn info,
        QuicUnackedPacketMap.unacked_packets_ (unacked_packets_ m) !! sn = Some info
        ∧ is_Some (retransmittable_frames info) in
  (GetRetransmissionMode m = HANDSHAKE_MODE ↔ (0 < pending_crypto_packet_count_ m)%N)
  ∧ (¬ (0 < pending_crypto_packet_count_ m)%N →
     (GetRetransmissionMode m = TLP_MODE ↔ tail_loss_probe_allowed)
     ∧ (GetRetransmissionMode m = RTO_MODE ↔ ¬ tail_loss_probe_allowed))
  ∧ (∀ is_server (algorithm : A),
       max_tail_loss_probes_ (Create is_server algorithm) = 2%N).
Proof.
  intros _ allowed. unfold GetRetransmissionMode.
  assert (Hallowed :
    (consecutive_tlp_count_ m <? max_tail_loss_probes_ m)%N
    && QuicUnackedPacketMap.HasUnackedRetransmittableFrames (unacked_packets_ m) = true
    ↔ allowed).
  { unfold allowed. rewrite andb_true_iff, N.ltb_lt, HasUnackedRetransmittableFrames_true.
    done. }
  destruct (N.ltb_spec 0 (pending_crypto_packet_count_ m)) as [Hcrypto|Hnone].
  - split; [done|]. split; [|done]. intros Hnot. lia.
  - destruct (_ && _).
    + assert allowed by (by apply Hallowed).
      split; [split; [done|lia]|]. split; [|done]. intros _. split; split; done.
    + assert (¬ allowed) by (rewrite <- Hallowed; done).
      split; [split; [done|lia]|]. split; [|done]. intros _. split; split; done.
Qed.

(** ** The RTT sampler *)

Lemma IsUnacked_true (u : QuicUnackedPacketMap.t) sn :
  QuicUnackedPacketMap.IsUnacked u sn = true ↔
  is_Some (QuicUnackedPacketMap.unacked_packets_ u !! sn).
Proof. unfold QuicUnackedPacketMap.IsUnacked. apply bool_decide_eq_true. Qed.

Lemma IsUnacked_false (u : QuicUnackedPacketMap.t) sn :
  QuicUnackedPacketMap.IsUnacked u sn = false ↔
  QuicUnackedPacketMap.unacked_packets_ u !! sn = None.
Proof.
  unfold QuicUnackedPacketMap.IsUnacked.
  rewrite bool_decide_eq_false, eq_None_not_Some. done.
Qed.

(** C8, as amended.  When [largest_observed] has a record that has been sent
    (its [sent_time] is not the zero time), the sampler sets [rtt_sample_] to
    the send delta less the peer's ack delay if the send delta is larger than
    that delay, to the send delta if it is not and there is no sample yet,
    and leaves it otherwise.  When the record has not been sent yet, the
    sample (and the whole state) is left as it was. *)
Theorem MaybeUpdateRTT_sample m received_info ack_receive_time transmission_info :
  QuicUnackedPacketMap.unacked_packets_ (unacked_packets_ m)
    !! largest_observed received_info = Some transmission_info →
  (sent_time transmission_info ≠ QuicTime.Zero →
   rtt_sample_ (MaybeUpdateRTT m received_info ack_receive_time)
   = rtt_sample_spec (rtt_sample_ m) (sent_time transmission_info) ack_receive_time
       (delta_time_largest_observed received_info))
  ∧ (sent_time transmission_info = QuicTime.Zero →
     MaybeUpdateRTT m received_info ack_receive_time = m).
Proof.
  intros Hinfo. unfold MaybeUpdateRTT, QuicUnackedPacketMap.GetTransmissionInfo.
  assert (Hunacked :
    QuicUnackedPacketMap.IsUnacked (unacked_packets_ m) (largest_observed received_info) = true)
    by (apply IsUnacked_true; eauto).
  rewrite Hunacked, Hinfo. simpl. unfold QuicTime.IsZero, QuicTime.Zero.
  split.
  - intros Hsent. apply Z.eqb_neq in Hsent. rewrite Hsent.
    unfold rtt_sample_spec, Delta.gt, Delta.IsInfinite.
    destruct (Z.ltb_spec (delta_time_largest_observed received_info)
                (QuicTime.Subtract ack_receive_time (sent_time transmission_info))).
    + rewrite bool_decide_eq_true_2 by done. done.
    + rewrite bool_decide_eq_false_2 by lia.
      destruct (Z.eqb_spec (rtt_sample_ m) Delta.Infinite).
      * rewrite bool_decide_eq_true_2 by done. done.
      * rewrite bool_decide_eq_false_2 by done. done.
  - intros ->. done.
Qed.

(** ** Pacing *)

Lemma pacing_layers_map (f : A → A) (s : Sender A) :
  pacing_layers (Sender_map f s) = pacing_layers s.
Proof. induction s; simpl; congruence. Qed.

(** ** The RTO delay *)

Lemma shiftl_1_min (c : N) :
  Z.shiftl 1 (Z.of_N (N.min c kMaxRetransmissions)) = 2 ^ Z.of_N (N.min c 10)
  ∧ 1 <= 2 ^ Z.of_N (N.min c 10) <= 1024.
Proof.
  unfold kMaxRetransmissions. rewrite Z.shiftl_1_l.
  split; [done|].
  assert (0 <= Z.of_N (N.min c 10) <= 10) as [Hlo Hhi] by lia.
  split.
  - apply (Z.pow_le_mono_r 2 0); lia.
  - change 1024 with (2 ^ 10). apply Z.pow_le_mono_r; lia.
Qed.

Lemma GetRetransmissionDelay_computed m :
  let suggested := SendAlgorithmInterface.RetransmissionDelay (send_algorithm_ m) in
  - 2 ^ 52 <= suggested <= 2 ^ 52 →
  GetRetransmissionDelay m = rto_delay_computed suggested (consecutive_rto_count_ m).
Proof.
  intros suggested Hrange. unfold GetRetransmissionDelay, rto_delay_computed.
  fold suggested.
  destruct (shiftl_1_min (consecutive_rto_count_ m)) as [-> Hpow].
  set (p := 2 ^ Z.of_N (N.min (consecutive_rto_count_ m) 10)) in *.
  unfold Delta.IsZero, Delta.ToMilliseconds, Delta.FromMilliseconds, Delta.Multiply,
    kDefaultRetransmissionTimeMs, kMinRetransmissionTimeMs, kMaxRetransmissionTimeMs,
    Delta.t in *.
  assert (Hstart :
    (if suggested =? 0 then wrap_int64 (500 * 1000)
     else if suggested `quot` 1000 <? 200 then wrap_int64 (200 * 1000) else suggested)
    = Z.max (if bool_decide (suggested = 0) then 500 * 1000 else suggested) (200 * 1000)).
  { destruct (Z.eqb_spec suggested 0) as [->|Hnz].
    - rewrite bool_decide_eq_true_2 by done. by vm_compute.
    - rewrite bool_decide_eq_false_2 by done.
      change (wrap_int64 (200 * 1000)) with 200000.
      destruct (Z.ltb_spec (suggested `quot` 1000) 200) as [Hlt|Hge].
      + assert (suggested < 200000); [|lia].
        destruct (Z.lt_ge_cases suggested 200000) as [|Hbig]; [done|].
        assert (200 <= suggested `quot` 1000); [|lia].
        change 200 with (200000 `quot` 1000). apply Z.quot_le_mono; lia.
      + assert (200000 <= suggested); [|lia].
        destruct (Z.lt_ge_cases suggested 200000) as [Hsmall|]; [|done].
        assert (Hq : suggested `quot` 1000 <= 199999 `quot` 1000).
        { apply Z.quot_le_mono; lia. }
        change (199999 `quot` 1000) with 199 in Hq. lia. }
  rewrite Hstart. clear Hstart.
  set (floored := Z.max _ (200 * 1000)).
  assert (200000 <= floored <= 2 ^ 52).
  { unfold floored. case_bool_decide; lia. }
  rewrite (wrap_int64_id (floored * p)).
  2:{ unfold in_int64. split; [nia|].
      assert (floored * p <= 2 ^ 52 * 1024) by nia.
      assert (2 ^ 52 * 1024 < 2 ^ 63) by (vm_compute; done). lia. }
  destruct (Z.ltb_spec 60000 ((floored * p) `quot` 1000)).
  - rewrite bool_decide_eq_true_2 by done. by vm_compute.
  - rewrite bool_decide_eq_false_2 by lia. done.
Qed.

(** C6, as amended.  The RTO delay is the controller's suggestion (500 ms
    when the suggestion is zero), floored at 200 ms and multiplied by
    [2^min(consecutive_rto_count_, 10)]; it is replaced by 60 s when its
    value in whole milliseconds exceeds 60000.  The returned delay in whole
    milliseconds therefore lies in [200, 60000], and the delay itself is at
    least 200 ms and stays below 60 s plus one millisecond.  (Suggestions
    are taken within 2^52 microseconds, for which the 64-bit product is
    exact.) *)
Theorem GetRetransmissionDelay_bounds m :
  let suggested := SendAlgorithmInterface.RetransmissionDelay (send_algorithm_ m) in
  - 2 ^ 52 <= suggested <= 2 ^ 52 →
  GetRetransmissionDelay m = rto_delay_computed suggested (consecutive_rto_count_ m)
  ∧ 200 <= Delta.ToMilliseconds (GetRetransmissionDelay m) <= 60000
  ∧ 200 * 1000 <= Delta.ToMicroseconds (GetRetransmissionDelay m) < 60001 * 1000
  ∧ (Delta.ToMicroseconds (GetRetransmissionDelay m) <= 60000 * 1000 →
     GetRetransmissionDelay m = rto_delay_spec suggested (consecutive_rto_count_ m)).
Proof.
  intros suggested Hrange.
  rewrite (GetRetransmissionDelay_computed m Hrange).
  split; [done|].
  unfold rto_delay_computed, rto_delay_spec, Delta.ToMilliseconds, Delta.ToMicroseconds.
  destruct (shiftl_1_min (consecutive_rto_count_ m)) as [_ Hpow].
  set (p := 2 ^ Z.of_N (N.min (consecutive_rto_count_ m) 10)) in *.
  set (floored := Z.max _ (200 * 1000)).
  assert (200000 <= floored) by (unfold floored; lia).
  assert (200000 <= floored * p) by nia.
  case_bool_decide as Hcap.
  - split; [by vm_compute|]. split; [lia|]. intros _.
    assert (60000 * 1000 <= floored * p); [|lia].
    pose proof (Z.quot_rem' (floored * p) 1000).
    pose proof (Z.rem_bound_pos (floored * p) 1000). lia.
  - assert (Hms : (floored * p) `quot` 1000 <= 60000) by lia.
    pose proof (Z.quot_rem' (floored * p) 1000) as Hqr.
    pose proof (Z.rem_bound_pos (floored * p) 1000) as Hrem.
    split; [|split; [lia|lia]].
    split; [|done].
    change 200 with (200000 `quot` 1000). apply Z.quot_le_mono; lia.
Qed.

(** ** The table operations *)

Lemma RemovePacket_packets (u : QuicUnackedPacketMap.t) sn :
  QuicUnackedPacketMap.unacked_packets_ (QuicUnackedPacketMap.RemovePacket u sn)
  = delete sn (QuicUnackedPacketMap.unacked_packets_ u).
Proof.
  unfold QuicUnackedPacketMap.RemovePacket.
  destruct (_ !! sn) eqn:Hsn; simpl; [done|]. by rewrite delete_id.
Qed.

Lemma SetNotPending_packets (u : QuicUnackedPacketMap.t) sn :
  QuicUnackedPacketMap.unacked_packets_ (QuicUnackedPacketMap.SetNotPending u sn)
  = alter (set_pending_flag false) sn (QuicUnackedPacketMap.unacked_packets_ u).
Proof. done. Qed.

Lemma IsPending_SetPending (u : QuicUnackedPacketMap.t) sn time bytes :
  QuicUnackedPacketMap.IsUnacked u sn = true →
  QuicUnackedPacketMap.IsPending (QuicUnackedPacketMap.SetPending u sn time bytes) sn = true.
Proof.
  intros [info Hinfo]%IsUnacked_true.
  unfold QuicUnackedPacketMap.IsPending, QuicUnackedPacketMap.SetPending.
  rewrite Hinfo. simpl. by rewrite lookup_insert_eq.
Qed.

(** ** Sending *)

(** C2. [OnPacketSent] on a sequence number without a record returns false
    and leaves the state as it was.  When the congestion controller refuses
    to track the packet, the record is removed (the other records stay) and
    the call returns false.  Otherwise the record becomes pending, and the
    call returns true exactly when no packet was pending before the send or
    the retransmission mode after it is not RTO; for a record that was not
    pending yet, "no packet was pending" is "no other packet was pending". *)
Theorem OnPacketSent_result m sn time bytes transmission_type has_retransmittable_data :
  let result := OnPacketSent m sn time bytes transmission_type has_retransmittable_data in
  let tracked :=
    (SendAlgorithmInterface.OnPacketSent (send_algorithm_ m) time sn bytes
       transmission_type has_retransmittable_data).1 in
  (QuicUnackedPacketMap.IsUnacked (unacked_packets_ m) sn = false → result = (m, false))
  ∧ (QuicUnackedPacketMap.IsUnacked (unacked_packets_ m) sn = true → tracked = false →
     result.2 = false
     ∧ QuicUnackedPacketMap.unacked_packets_ (unacked_packets_ result.1)
       = delete sn (QuicUnackedPacketMap.unacked_packets_ (unacked_packets_ m)))
  ∧ (QuicUnackedPacketMap.IsUnacked (unacked_packets_ m) sn = true → tracked = true →
     QuicUnackedPacketMap.IsPending (unacked_packets_ result.1) sn = true
     ∧ (result.2 = true ↔
        QuicUnackedPacketMap.HasPendingPackets (unacked_packets_ m) = false
        ∨ GetRetransmissionMode result.1 ≠ RTO_MODE)
     ∧ (QuicUnackedPacketMap.IsPending (unacked_packets_ m) sn = false →
        (result.2 = true ↔
         (∀ other, other ≠ sn →
                   QuicUnackedPacketMap.IsPending (unacked_packets_ m) other = false)
         ∨ GetRetransmissionMode result.1 ≠ RTO_MODE))).
Proof.
  intros result tracked. subst result. unfold OnPacketSent. fold tracked.
  split; [by intros ->|].
  split.
  - intros -> ->. simpl. split; [done|]. apply RemovePacket_packets.
  - intros Hunacked ->. rewrite Hunacked. simpl.
    split; [by apply IsPending_SetPending|].
    set (m' := with_unacked _ _).
    assert (Hresult :
      negb (QuicUnackedPacketMap.HasPendingPackets (unacked_packets_ m))
      || negb (bool_decide (GetRetransmissionMode m' = RTO_MODE)) = true
      ↔ QuicUnackedPacketMap.HasPendingPackets (unacked_packets_ m) = false
        ∨ GetRetransmissionMode m' ≠ RTO_MODE).
    { rewrite orb_true_iff, !negb_true_iff, bool_decide_eq_false. done. }
    split; [done|].
    intros Hnot_yet. rewrite Hresult, HasPendingPackets_false.
    apply or_iff_compat_r. split; [by auto|].
    intros Hothers k. destruct (decide (k = sn)) as [->|Hne]; auto.
Qed.

(** ** The retransmission timer *)

Lemma QuicTime_Max_ge_l (a b : QuicTime.t) : a <= QuicTime.Max a b.
Proof. unfold QuicTime.Max. destruct (Z.ltb_spec b a); lia. Qed.

Lemma Multiply_1_5_bounds (d : Delta.t) :
  0 <= d < 2 ^ 50 → 0 <= Delta.Multiply_1_5 d < 2 ^ 51.
Proof.
  intros [Hlo Hhi]. unfold Delta.Multiply_1_5.
  assert (0 <= (3 * d) `quot` 2 <= 3 * d) as [Hq1 Hq2].
  { split; [apply Z.quot_pos; lia|]. apply Z.quot_le_upper_bound; lia. }
  assert (Hq3 : (3 * d) `quot` 2 < 2 ^ 51).
  { apply Z.quot_lt_upper_bound; [lia|lia|]. change (2 ^ 51) with (2 * 2 ^ 50). lia. }
  rewrite wrap_int64_id; [lia|]. unfold in_int64. change (2 ^ 51) with 2251799813685248 in Hq3.
  change (2 ^ 63) with 9223372036854775808. lia.
Qed.

Lemma GetCryptoRetransmissionDelay_bounds m :
  0 <= SmoothedRtt m < 2 ^ 50 →
  (consecutive_crypto_retransmission_count_ m <= kMaxHandshakeRetransmissionBackoffs)%N →
  10 * 1000 <= GetCryptoRetransmissionDelay m < 2 ^ 61.
Proof.
  intros [Hlo Hhi] Hcount. unfold GetCryptoRetransmissionDelay.
  unfold kMaxHandshakeRetransmissionBackoffs in Hcount.
  set (srtt := SmoothedRtt m) in *.
  unfold Delta.ToMilliseconds, Delta.FromMilliseconds, kMinHandshakeTimeoutMs.
  rewrite Z.shiftl_mul_pow2 by lia.
  set (ms := srtt `quot` 1000).
  assert (0 <= ms <= 2 ^ 50 `quot` 1000) as [Hms1 Hms2].
  { unfold ms. split; [apply Z.quot_pos; lia|]. apply Z.quot_le_mono; lia. }
  change (2 ^ 50 `quot` 1000) with 1125899906842 in Hms2.
  assert (0 <= (3 * ms) `quot` 2 <= 3 * ms) as [Hq1 Hq2].
  { split; [apply Z.quot_pos; lia|]. apply Z.quot_le_upper_bound; lia. }
  set (delay_ms := Z.max 10 ((3 * ms) `quot` 2)).
  assert (10 <= delay_ms <= 3377699720526) as [Hd1 Hd2] by (unfold delay_ms; lia).
  assert (1 <= 2 ^ Z.of_N (consecutive_crypto_retransmission_count_ m) <= 32) as [Hp1 Hp2].
  { split.
    - apply (Z.pow_le_mono_r 2 0); lia.
    - change 32 with (2 ^ 5). apply Z.pow_le_mono_r; lia. }
  set (p := 2 ^ Z.of_N (consecutive_crypto_retransmission_count_ m)) in *.
  assert (10 <= delay_ms * p <= 3377699720526 * 32) by nia.
  change (2 ^ 61) with 2305843009213693952.
  rewrite (wrap_int64_id (delay_ms * p)).
  2:{ unfold in_int64. change (2 ^ 63) with 9223372036854775808. lia. }
  rewrite wrap_int64_id.
  2:{ unfold in_int64. change (2 ^ 63) with 9223372036854775808. lia. }
  lia.
Qed.

(** C7. [GetRetransmissionTime] returns the zero time ("no timer") exactly
    when no packet is pending, and a deadline it returns is never before the
    clock's current time, in HANDSHAKE, TLP and RTO mode alike.  The clock
    reading is a positive time below 2^62 microseconds, the controller's
    smoothed RTT is not negative and below 2^50 microseconds, and the
    handshake backoff count is within its cap of 5. *)
Theorem GetRetransmissionTime_not_in_the_past (now : QuicTime.t) m :
  0 < now < 2 ^ 62 →
  0 <= SmoothedRtt m < 2 ^ 50 →
  (consecutive_crypto_retransmission_count_ m <= kMaxHandshakeRetransmissionBackoffs)%N →
  (GetRetransmissionTime now m = QuicTime.Zero
   ↔ QuicUnackedPacketMap.HasPendingPackets (unacked_packets_ m) = false)
  ∧ (GetRetransmissionTime now m ≠ QuicTime.Zero → now <= GetRetransmissionTime now m)
  ∧ (∀ mode, QuicUnackedPacketMap.HasPendingPackets (unacked_packets_ m) = true →
             GetRetransmissionMode m = mode →
             GetRetransmissionTime now m ≠ QuicTime.Zero
             ∧ now <= GetRetransmissionTime now m).
Proof.
  intros Hnow Hsrtt Hcount.
  assert (Hpending :
    QuicUnackedPacketMap.HasPendingPackets (unacked_packets_ m) = true →
    now <= GetRetransmissionTime now m).
  { intros Hp. unfold GetRetransmissionTime. rewrite Hp. simpl.
    destruct (GetRetransmissionMode m).
    - (* RTO *)
      etrans; [|apply QuicTime_Max_ge_l].
      pose proof (Multiply_1_5_bounds _ Hsrtt) as Hmin.
      unfold QuicTime.Add. rewrite wrap_int64_id; [lia|].
      unfold in_int64. change (2 ^ 51) with 2251799813685248 in Hmin.
      change (2 ^ 62) with 4611686018427387904 in Hnow.
      change (2 ^ 63) with 9223372036854775808. lia.
    - (* TLP *)
      set (tlp_time := QuicTime.Add _ _). unfold QuicTime.Max.
      destruct (Z.ltb_spec tlp_time now); lia.
    - (* HANDSHAKE *)
      pose proof (GetCryptoRetransmissionDelay_bounds m Hsrtt Hcount) as Hdelay.
      unfold QuicTime.Add. rewrite wrap_int64_id; [lia|].
      unfold in_int64. change (2 ^ 61) with 2305843009213693952 in Hdelay.
      change (2 ^ 62) with 4611686018427387904 in Hnow.
      change (2 ^ 63) with 9223372036854775808. lia. }
  unfold QuicTime.Zero in *.
  destruct (QuicUnackedPacketMap.HasPendingPackets (unacked_packets_ m)) eqn:Hp.
  - specialize (Hpending eq_refl).
    split; [split; [lia|done]|]. split; [done|]. intros mode _ _. split; lia.
  - assert (Hzero : GetRetransmissionTime now m = 0).
    { unfold GetRetransmissionTime. by rewrite Hp. }
    split; [done|]. split; [congruence|]. intros mode [=].
Qed.

(** ** Transmission groups *)

Lemma GroupsConsistent_lookup (u : QuicUnackedPacketMap.t) :
  GroupsConsistent u ↔
  (∀ sn info, QuicUnackedPacketMap.unacked_packets_ u !! sn = Some info →
     ∃ group, QuicUnackedPacketMap.transmission_sets_ u !! all_transmissions info = Some group
              ∧ sn ∈ group)
  ∧ (∀ ref group member,
       QuicUnackedPacketMap.transmission_sets_ u !! ref = Some group → member ∈ group →
       ∃ info, QuicUnackedPacketMap.unacked_packets_ u !! member = Some info
               ∧ all_transmissions info = ref).
Proof.
  unfold GroupsConsistent, in_own_group, refers_to.
  rewrite !map_Forall_lookup. unfold set_Forall. split.
  - intros [Hown Hmembers]. split.
    + intros sn info Hinfo. specialize (Hown sn info Hinfo).
      destruct (_ !! all_transmissions info) as [group|]; [eauto|done].
    + intros ref group member Hgroup Hin. specialize (Hmembers ref group Hgroup member Hin).
      destruct (_ !! member) as [info|]; [eauto|done].
  - intros [Hown Hmembers]. split.
    + intros sn info Hinfo. destruct (Hown sn info Hinfo) as (group & -> & Hin). done.
    + intros ref group Hgroup member Hin.
      destruct (Hmembers ref group member Hgroup Hin) as (info & -> & Href). done.
Qed.

Lemma GroupsConsistent_alter (f : TransmissionInfo → TransmissionInfo) sn u :
  (∀ info, all_transmissions (f info) = all_transmissions info) →
  GroupsConsistent u →
  GroupsConsistent (QuicUnackedPacketMap.with_packets (alter f sn) u).
Proof.
  intros Hf. rewrite !GroupsConsistent_lookup. simpl. intros [Hown Hmembers]. split.
  - intros k info. rewrite lookup_alter. case_decide as Heq; [subst k|by apply Hown].
    destruct (_ !! sn) as [old|] eqn:Hold; simpl; [|done]. intros [= <-].
    rewrite Hf. by apply Hown.
  - intros ref group member Hgroup Hin.
    destruct (Hmembers ref group member Hgroup Hin) as (info & Hinfo & Href).
    rewrite lookup_alter. case_decide as Heq; [subst member|eauto].
    rewrite Hinfo. simpl. exists (f info). by rewrite Hf.
Qed.

Lemma GroupsConsistent_SetNotPending u sn :
  GroupsConsistent u → GroupsConsistent (QuicUnackedPacketMap.SetNotPending u sn).
Proof. by apply GroupsConsistent_alter. Qed.

Lemma GroupsConsistent_NeuterPacket u sn :
  GroupsConsistent u → GroupsConsistent (QuicUnackedPacketMap.NeuterPacket u sn).
Proof. by apply GroupsConsistent_alter. Qed.

Lemma GroupsConsistent_RemovePacket u sn :
  GroupsConsistent u → GroupsConsistent (QuicUnackedPacketMap.RemovePacket u sn).
Proof.
  intros Hu. pose proof Hu as [Hown Hmembers]%GroupsConsistent_lookup.
  unfold QuicUnackedPacketMap.RemovePacket.
  destruct (_ !! sn) as [gone|] eqn:Hgone; [|done].
  destruct (Hown sn gone Hgone) as (group & Hgroup & Hsn).
  rewrite Hgroup. apply GroupsConsistent_lookup. simpl. split.
  - intros k info. rewrite lookup_delete. case_decide as Heq; [done|]. intros Hinfo.
    destruct (Hown k info Hinfo) as (group' & Hgroup' & Hk).
    destruct (decide (all_transmissions info = all_transmissions gone)) as [Href|Href].
    + rewrite Href in *. assert (group' = group) as -> by congruence.
      exists (group ∖ {[sn]}). split; [|set_solver].
      rewrite decide_False by set_solver. by rewrite lookup_insert_eq.
    + exists group'. split; [|done].
      case_decide; [by rewrite lookup_delete_ne|by rewrite lookup_insert_ne].
  - intros ref group' member Hgroup' Hin.
    destruct (decide (ref = all_transmissions gone)) as [->|Href].
    + case_decide as Hempty; [by rewrite lookup_delete_eq in Hgroup'|].
      rewrite lookup_insert_eq in Hgroup'. injection Hgroup' as <-.
      apply elem_of_difference in Hin as [Hin Hne].
      destruct (Hmembers _ _ _ Hgroup Hin) as (info & Hinfo & Hsame).
      exists info. split; [|done]. rewrite lookup_delete_ne; [done|set_solver].
    + assert (QuicUnackedPacketMap.transmission_sets_ u !! ref = Some group') as Hold.
      { case_decide; [by rewrite lookup_delete_ne in Hgroup'
                     |by rewrite lookup_insert_ne in Hgroup']. }
      destruct (Hmembers _ _ _ Hold Hin) as (info & Hinfo & Hsame).
      exists info. split; [|done]. rewrite lookup_delete_ne; [done|].
      intros <-. congruence.
Qed.

Lemma GroupsConsistent_NackPacket u sn min_nacks :
  GroupsConsistent u → GroupsConsistent (QuicUnackedPacketMap.NackPacket u sn min_nacks).
Proof. by apply GroupsConsistent_alter. Qed.

Lemma GroupsConsistent_ext u u' :
  QuicUnackedPacketMap.unacked_packets_ u' = QuicUnackedPacketMap.unacked_packets_ u →
  QuicUnackedPacketMap.transmission_sets_ u' = QuicUnackedPacketMap.transmission_sets_ u →
  GroupsConsistent u → GroupsConsistent u'.
Proof.
  unfold GroupsConsistent, in_own_group, refers_to. by intros -> ->.
Qed.

Lemma GroupsConsistent_SetPending u sn time bytes :
  GroupsConsistent u → GroupsConsistent (QuicUnackedPacketMap.SetPending u sn time bytes).
Proof.
  intros Hu. unfold QuicUnackedPacketMap.SetPending.
  destruct (_ !! sn) as [info|] eqn:Hinfo; [|done].
  apply (GroupsConsistent_ext
           (QuicUnackedPacketMap.with_packets (alter (set_sent time bytes) sn) u)).
  - simpl. symmetry. by apply alter_alt_Some.
  - done.
  - by apply GroupsConsistent_alter.
Qed.

Lemma GroupsConsistent_ClearPreviousRetransmissions u num_to_clear :
  GroupsConsistent u →
  GroupsConsistent (QuicUnackedPacketMap.ClearPreviousRetransmissions u num_to_clear).
Proof.
  unfold QuicUnackedPacketMap.ClearPreviousRetransmissions.
  generalize (QuicUnackedPacketMap.begin_to_end u).*1. intros keys.
  revert u num_to_clear. induction keys as [|sn rest IH]; intros u n Hu; simpl; [done|].
  destruct n as [|n]; [done|].
  destruct (_ !! sn) as [info|]; [|by apply IH].
  destruct (_ && _); [|by apply IH].
  by apply IH, GroupsConsistent_RemovePacket.
Qed.

Lemma GroupsConsistent_empty : GroupsConsistent QuicUnackedPacketMap.empty.
Proof.
  apply GroupsConsistent_lookup. simpl. split.
  - intros sn info. by rewrite lookup_empty.
  - intros ref group member. by rewrite lookup_empty.
Qed.

Lemma GroupsConsistent_AddPacket u serialized_packet :
  QuicUnackedPacketMap.unacked_packets_ u !! sp_sequence_number serialized_packet = None →
  GroupsConsistent u →
  GroupsConsistent (QuicUnackedPacketMap.AddPacket u serialized_packet).
Proof.
  intros Hnew [Hown Hmembers]%GroupsConsistent_lookup.
  set (sn := sp_sequence_number serialized_packet) in *.
  assert (Hfresh : QuicUnackedPacketMap.transmission_sets_ u
                   !! fresh (dom (QuicUnackedPacketMap.transmission_sets_ u)) = None).
  { apply not_elem_of_dom, is_fresh. }
  set (ref := fresh (dom (QuicUnackedPacketMap.transmission_sets_ u))) in *.
  apply GroupsConsistent_lookup. unfold QuicUnackedPacketMap.AddPacket. simpl.
  fold sn ref. split.
  - intros k info. rewrite lookup_insert. case_decide as Hk.
    + subst k. intros [= <-]. simpl. exists {[sn]}.
      split; [by rewrite lookup_insert_eq|set_solver].
    + intros Hinfo. destruct (Hown k info Hinfo) as (group & Hgroup & Hin).
      exists group. split; [|done]. rewrite lookup_insert_ne; [done|]. congruence.
  - intros ref' group member. rewrite lookup_insert. case_decide as Href.
    + subst ref'. intros [= <-] ->%elem_of_singleton. rewrite lookup_insert_eq. eauto.
    + intros Hgroup Hin. destruct (Hmembers _ _ _ Hgroup Hin) as (info & Hinfo & Hsame).
      exists info. split; [|done]. rewrite lookup_insert_ne; [done|]. congruence.
Qed.

Lemma GroupsConsistent_OnRetransmittedPacket u old_sn new_sn u' :
  QuicUnackedPacketMap.unacked_packets_ u !! new_sn = None →
  QuicUnackedPacketMap.OnRetransmittedPacket u old_sn new_sn = Some u' →
  GroupsConsistent u → GroupsConsistent u'.
Proof.
  intros Hnew Hrun [Hown Hmembers]%GroupsConsistent_lookup.
  unfold QuicUnackedPacketMap.OnRetransmittedPacket in Hrun.
  destruct (_ !! old_sn) as [old|] eqn:Hold; simpl in Hrun; [|done].
  injection Hrun as <-.
  assert (Hne : new_sn ≠ old_sn) by congruence.
  destruct (Hown old_sn old Hold) as (group & Hgroup & Hin).
  apply GroupsConsistent_lookup. simpl. split.
  - intros k info. rewrite lookup_insert. case_decide as Hk.
    + subst k. intros [= <-]. simpl. rewrite lookup_alter_eq, Hgroup. simpl.
      eexists. split; [done|set_solver].
    + rewrite lookup_insert. case_decide as Hk'.
      * subst k. intros [= <-]. simpl. rewrite lookup_alter_eq, Hgroup. simpl.
        eexists. split; [done|set_solver].
      * intros Hinfo. destruct (Hown k info Hinfo) as (group' & Hgroup' & Hin').
        rewrite lookup_alter. case_decide as Href.
        -- rewrite Hgroup. simpl. eexists. split; [done|].
           rewrite <- Href in Hgroup'. assert (group' = group) as -> by congruence.
           set_solver.
        -- eauto.
  - intros ref group' member. rewrite lookup_alter. case_decide as Href.
    + subst ref. rewrite Hgroup. simpl. intros [= <-] [->%elem_of_singleton|Hmember]%elem_of_union.
      * rewrite lookup_insert_eq. eauto.
      * destruct (Hmembers _ _ _ Hgroup Hmember) as (info & Hinfo & Hsame).
        rewrite lookup_insert_ne by congruence.
        rewrite lookup_insert. case_decide as Hk; [|eauto].
        subst member. eexists. split; [done|]. done.
    + intros Hgroup' Hmember.
      destruct (Hmembers _ _ _ Hgroup' Hmember) as (info & Hinfo & Hsame).
      rewrite lookup_insert_ne by congruence.
      rewrite lookup_insert_ne by congruence. eauto.
Qed.

Lemma unacked_alter (f : TransmissionInfo → TransmissionInfo) sn u :
  unacked (QuicUnackedPacketMap.with_packets (alter f sn) u) = unacked u.
Proof. unfold unacked. simpl. apply dom_alter_L. Qed.

Lemma unacked_RemovePacket u sn :
  unacked (QuicUnackedPacketMap.RemovePacket u sn) = unacked u ∖ {[sn]}.
Proof. unfold unacked. rewrite RemovePacket_packets. apply dom_delete_L. Qed.

Lemma elem_of_unacked u sn :
  sn ∈ unacked u ↔ is_Some (QuicUnackedPacketMap.unacked_packets_ u !! sn).
Proof. apply elem_of_dom. Qed.

Lemma IsUnacked_unacked u sn :
  QuicUnackedPacketMap.IsUnacked u sn = true ↔ sn ∈ unacked u.
Proof. by rewrite IsUnacked_true, elem_of_unacked. Qed.

(** ** What ack processing leaves alone *)

Local Abbreviation packets m := (QuicUnackedPacketMap.unacked_packets_ (unacked_packets_ m)).
Local Abbreviation queue_keys m := ((pending_retransmissions_ m).*1).

Lemma assign_NoDup (q : list (N * TransmissionType)) sn transmission_type :
  NoDup q.*1 → NoDup (assign sn transmission_type q).*1.
Proof.
  intros Hq. unfold assign. destruct (ContainsKey q sn) eqn:Hkey.
  - rewrite <- list_fmap_compose.
    erewrite (list_fmap_ext _ fst); [done|]. intros i [k r] _. simpl. by case_decide.
  - rewrite fmap_app. simpl. apply NoDup_app. split; [done|]. split; [|apply NoDup_singleton].
    intros k Hk ->%list_elem_of_singleton. by apply ContainsKey_false in Hkey.
Qed.

Lemma keeps_refl m : keeps_bookkeeping m m.
Proof. repeat apply conj; auto. Qed.

Lemma keeps_trans m1 m2 m3 :
  keeps_bookkeeping m1 m2 → keeps_bookkeeping m2 m3 →
  keeps_bookkeeping m1 m3.
Proof.
  unfold keeps_bookkeeping. intros (?&?&?&?&?&?&?) (?&?&?&?&?&?&?).
  repeat apply conj; try congruence; auto.
Qed.

Lemma keeps_with_unacked f m :
  (GroupsConsistent (unacked_packets_ m) → GroupsConsistent (f (unacked_packets_ m))) →
  keeps_bookkeeping m (with_unacked f m).
Proof. intros Hf. repeat apply conj; auto. Qed.

Lemma keeps_with_stats f m : keeps_bookkeeping m (with_stats f m).
Proof. repeat apply conj; auto. Qed.

Lemma keeps_with_rtt_sample rtt m : keeps_bookkeeping m (with_rtt_sample rtt m).
Proof. repeat apply conj; auto. Qed.

Lemma keeps_with_pending_crypto_packet_count f m :
  keeps_bookkeeping m (with_pending_crypto_packet_count f m).
Proof. repeat apply conj; auto. Qed.

Lemma keeps_with_pending_retransmissions f m :
  (NoDup (pending_retransmissions_ m).*1 → NoDup (f (pending_retransmissions_ m)).*1) →
  keeps_bookkeeping m (with_pending_retransmissions f m).
Proof. intros Hf. repeat apply conj; auto. Qed.

Lemma keeps_notify call m : keeps_bookkeeping m (notify call m).
Proof. repeat apply conj; auto. Qed.

Lemma keeps_with_send_algorithm (f : Sender A → Sender A) m :
  pacing_layers (f (send_algorithm_ m)) = pacing_layers (send_algorithm_ m) →
  keeps_bookkeeping m (with_send_algorithm f m).
Proof. intros Hf. repeat apply conj; auto. Qed.

Lemma pacing_layers_OnPacketSent (s : Sender A) time sn bytes tt rd :
  pacing_layers (Sender_OnPacketSent s time sn bytes tt rd).2 = pacing_layers s.
Proof. induction s; simpl; congruence. Qed.

Lemma pacing_layers_TimeUntilSend (s : Sender A) now tt rd handshake :
  pacing_layers (Sender_TimeUntilSend s now tt rd handshake).2 = pacing_layers s.
Proof. induction s; simpl; congruence. Qed.

Ltac keeps_table :=
  intros ?;
  first [ by apply GroupsConsistent_SetNotPending
        | by apply GroupsConsistent_NeuterPacket
        | by apply GroupsConsistent_RemovePacket
        | by apply GroupsConsistent_NackPacket
        | by apply GroupsConsistent_SetPending
        | by apply GroupsConsistent_ClearPreviousRetransmissions ].

Ltac keeps_queue :=
  intros ?; first [ by apply erase_NoDup | by apply assign_NoDup ].

Ltac keeps_step :=
  lazymatch goal with
  | |- keeps_bookkeeping ?m ?m => apply keeps_refl
  | H : keeps_bookkeeping ?m ?m' |- keeps_bookkeeping ?m ?m' => exact H
  | |- keeps_bookkeeping ?m (with_unacked ?f ?x) =>
      apply (keeps_trans m x); [|apply keeps_with_unacked; keeps_table]
  | |- keeps_bookkeeping ?m (with_stats ?f ?x) =>
      apply (keeps_trans m x); [|apply keeps_with_stats]
  | |- keeps_bookkeeping ?m (with_rtt_sample ?f ?x) =>
      apply (keeps_trans m x); [|apply keeps_with_rtt_sample]
  | |- keeps_bookkeeping ?m (with_pending_crypto_packet_count ?f ?x) =>
      apply (keeps_trans m x); [|apply keeps_with_pending_crypto_packet_count]
  | |- keeps_bookkeeping ?m (with_pending_retransmissions ?f ?x) =>
      apply (keeps_trans m x); [|apply keeps_with_pending_retransmissions; keeps_queue]
  | |- keeps_bookkeeping ?m (notify ?c ?x) =>
      apply (keeps_trans m x); [|apply keeps_notify]
  | |- keeps_bookkeeping ?m (with_send_algorithm ?f ?x) =>
      apply (keeps_trans m x);
      [|apply keeps_with_send_algorithm; simpl;
        first [ apply pacing_layers_map | apply pacing_layers_OnPacketSent
              | apply pacing_layers_TimeUntilSend ]]
  | H : keeps_bookkeeping ?x ?m' |- keeps_bookkeeping ?m ?m' =>
      apply (keeps_trans m x m'); [|exact H]
  end.

Ltac keeps := repeat keeps_step.

Lemma retires_refl m : retires m m.
Proof. unfold retires. set_solver. Qed.

Lemma retires_trans m1 m2 m3 : retires m1 m2 → retires m2 m3 → retires m1 m3.
Proof.
  unfold retires. intros (Hd1 & Hq1 & Hgone1) (Hd2 & Hq2 & Hgone2).
  split; [set_solver|]. split; [set_solver|].
  intros k Hin Hout. destruct (decide (k ∈ unacked (unacked_packets_ m2))).
  - by apply Hgone2.
  - intros Hk. apply Hq2 in Hk. by eapply Hgone1.
Qed.

Lemma retires_shrinks m m' : retires m m' → shrinks m m'.
Proof. unfold retires, shrinks. intros (Hd & Hq & _). split; [done|]. set_solver. Qed.

Lemma shrinks_refl m : shrinks m m.
Proof. unfold shrinks. set_solver. Qed.

Lemma shrinks_trans m1 m2 m3 : shrinks m1 m2 → shrinks m2 m3 → shrinks m1 m3.
Proof.
  unfold shrinks. intros (Hd1 & Hq1) (Hd2 & Hq2). split; [set_solver|].
  intros k Hk. destruct (Hq2 k Hk) as [Hk2|Hk2]; [by apply Hq1|set_solver].
Qed.

(** ** Abandoning a packet *)

Lemma OnPacketAbandoned_spec m sn :
  keeps_bookkeeping m (OnPacketAbandoned m sn)
  ∧ pending_retransmissions_ (OnPacketAbandoned m sn) = pending_retransmissions_ m
  ∧ (unacked_packets_ (OnPacketAbandoned m sn) = unacked_packets_ m
     ∨ unacked_packets_ (OnPacketAbandoned m sn)
       = QuicUnackedPacketMap.SetNotPending (unacked_packets_ m) sn).
Proof.
  unfold OnPacketAbandoned.
  destruct (QuicUnackedPacketMap.IsPending _ _); [|split; [keeps|auto]].
  destruct (QuicUnackedPacketMap.GetTransmissionInfo _ _); [|split; [keeps|auto]].
  split; [|by auto]. keeps.
Qed.

(** ** Handling one packet *)

Lemma IsPending_lookup (u : QuicUnackedPacketMap.t) sn info :
  QuicUnackedPacketMap.unacked_packets_ u !! sn = Some info →
  QuicUnackedPacketMap.IsPending u sn = pending info.
Proof. unfold QuicUnackedPacketMap.IsPending. by intros ->. Qed.

Lemma MarkPacketHandled_step_spec has_cryto_handshake m g ginfo :
  GroupsConsistent (unacked_packets_ m) →
  packets m !! g = Some ginfo →
  ∃ m', MarkPacketHandled_step has_cryto_handshake m g = Some m'
        ∧ keeps_bookkeeping m m'
        ∧ GroupsConsistent (unacked_packets_ m')
        ∧ (∀ k, k ≠ g → packets m' !! k = packets m !! k)
        ∧ packets m' !! g
          = (if pending ginfo && negb has_cryto_handshake
             then Some (clear_frames ginfo) else None)
        ∧ (∀ k, k ∈ queue_keys m' ↔ k ∈ queue_keys m ∧ k ≠ g).
Proof.
  intros Hgroups Hg. unfold MarkPacketHandled_step, QuicUnackedPacketMap.GetTransmissionInfo.
  rewrite Hg. simpl.
  set (m1 := if ContainsKey _ _ then _ else m).
  assert (Hm1 : keeps_bookkeeping m m1 ∧ unacked_packets_ m1 = unacked_packets_ m
                ∧ ∀ k, k ∈ queue_keys m1 ↔ k ∈ queue_keys m ∧ k ≠ g).
  { unfold m1. destruct (ContainsKey _ _) eqn:Hkey.
    - split; [keeps|]. split; [done|]. intros k. simpl. apply elem_of_erase_keys.
    - split; [keeps|]. split; [done|]. intros k.
      apply ContainsKey_false in Hkey. split; [|tauto]. intros Hk. split; [done|].
      by intros ->. }
  destruct Hm1 as (Hkeeps1 & Htable1 & Hqueue1). clearbody m1.
  destruct has_cryto_handshake.
  - (* the handshake is over: the packet is discarded whether pending or not *)
    set (m2 := if pending ginfo then OnPacketAbandoned m1 g else m1).
    assert (Hm2 : keeps_bookkeeping m1 m2
                  ∧ pending_retransmissions_ m2 = pending_retransmissions_ m1
                  ∧ (unacked_packets_ m2 = unacked_packets_ m1
                     ∨ unacked_packets_ m2
                       = QuicUnackedPacketMap.SetNotPending (unacked_packets_ m1) g)).
    { unfold m2. destruct (pending ginfo); [apply OnPacketAbandoned_spec|].
      split; [keeps|]. auto. }
    destruct Hm2 as (Hkeeps2 & Hqueue2 & Htable2). clearbody m2.
    rewrite andb_false_r.
    assert (Hcleared :
      QuicUnackedPacketMap.SetNotPending (unacked_packets_ m2) g
      = QuicUnackedPacketMap.SetNotPending (unacked_packets_ m) g).
    { destruct Htable2 as [->| ->]; rewrite Htable1; [done|].
      unfold QuicUnackedPacketMap.SetNotPending, QuicUnackedPacketMap.with_packets. simpl.
      f_equal. rewrite alter_alter_eq. by apply alter_ext. }
    assert (Hnot_pending :
      QuicUnackedPacketMap.IsPending
        (QuicUnackedPacketMap.SetNotPending (unacked_packets_ m) g) g = false).
    { unfold QuicUnackedPacketMap.IsPending. rewrite SetNotPending_packets, lookup_alter_eq.
      by rewrite Hg. }
    simpl. eexists. split; [by rewrite Hcleared, Hnot_pending|].
    simpl. rewrite Hcleared. split; [keeps|].
    split; [by apply GroupsConsistent_RemovePacket, GroupsConsistent_SetNotPending|].
    rewrite RemovePacket_packets, SetNotPending_packets.
    split; [|split].
    + intros k Hk. by rewrite lookup_delete_ne, lookup_alter_ne.
    + by rewrite lookup_delete_eq.
    + by rewrite Hqueue2.
  - rewrite andb_true_r. rewrite Htable1, (IsPending_lookup _ _ _ Hg).
    destruct (pending ginfo); simpl; (eexists; split; [done|]); simpl; rewrite Htable1.
    + split; [keeps|].
      split; [by apply GroupsConsistent_NeuterPacket|].
      split; [|split; [|done]].
      * intros k Hk. by rewrite lookup_alter_ne.
      * by rewrite lookup_alter_eq, Hg.
    + split; [keeps|].
      split; [by apply GroupsConsistent_RemovePacket|].
      rewrite RemovePacket_packets.
      split; [|split; [|done]].
      * intros k Hk. by rewrite lookup_delete_ne.
      * by rewrite lookup_delete_eq.
Qed.

Lemma MarkPacketHandled_loop_spec has_cryto_handshake transmissions m :
  NoDup transmissions →
  GroupsConsistent (unacked_packets_ m) →
  (∀ g, g ∈ transmissions → is_Some (packets m !! g)) →
  ∃ m', MarkPacketHandled_loop has_cryto_handshake transmissions m = Some m'
        ∧ keeps_bookkeeping m m'
        ∧ GroupsConsistent (unacked_packets_ m')
        ∧ (∀ k, k ∉ transmissions → packets m' !! k = packets m !! k)
        ∧ (∀ g ginfo, g ∈ transmissions → packets m !! g = Some ginfo →
             packets m' !! g
             = (if pending ginfo && negb has_cryto_handshake
                then Some (clear_frames ginfo) else None))
        ∧ (∀ k, k ∈ queue_keys m' ↔ k ∈ queue_keys m ∧ k ∉ transmissions).
Proof.
  intros Hnodup. revert m.
  induction Hnodup as [|g rest Hfresh Hnodup IH]; intros m Hgroups Hrecords; simpl.
  { exists m. split; [done|]. split; [apply keeps_refl|]. split; [done|].
    split; [done|]. split; [by intros ?? ?%elem_of_nil|].
    intros k. rewrite elem_of_nil. tauto. }
  destruct (Hrecords g) as [ginfo Hg]; [by left|].
  destruct (MarkPacketHandled_step_spec has_cryto_handshake m g ginfo Hgroups Hg)
    as (m1 & -> & Hkeeps1 & Hgroups1 & Hother1 & Hself1 & Hqueue1).
  simpl.
  destruct (IH m1 Hgroups1) as (m' & -> & Hkeeps & Hgroups' & Hother & Hmember & Hqueue).
  { intros k Hk. rewrite Hother1; [apply Hrecords; by right|]. by intros ->. }
  exists m'. split; [done|]. split; [by eapply keeps_trans|]. split; [done|].
  split; [|split].
  - intros k Hk. apply not_elem_of_cons in Hk as [Hne Hk].
    by rewrite Hother, Hother1.
  - intros k kinfo Hk Hkinfo. apply elem_of_cons in Hk as [->|Hk].
    + rewrite Hother by done. rewrite Hself1.
      rewrite Hg in Hkinfo. by injection Hkinfo as <-.
    + apply Hmember; [done|]. rewrite Hother1; [done|]. by intros ->.
  - intros k. rewrite Hqueue, Hqueue1, not_elem_of_cons. tauto.
Qed.

Lemma with_packets_id (u : QuicUnackedPacketMap.t) :
  QuicUnackedPacketMap.with_packets (λ p, p) u = u.
Proof. by destruct u. Qed.

Lemma set_pending_flag_id info : pending info = false → set_pending_flag false info = info.
Proof. destruct info. simpl. by intros ->. Qed.

Lemma SetNotPending_not_pending (u : QuicUnackedPacketMap.t) sn info :
  QuicUnackedPacketMap.unacked_packets_ u !! sn = Some info → pending info = false →
  QuicUnackedPacketMap.SetNotPending u sn = u.
Proof.
  intros Hinfo Hpending. unfold QuicUnackedPacketMap.SetNotPending.
  rewrite <- (with_packets_id u) at 2. unfold QuicUnackedPacketMap.with_packets. f_equal.
  apply alter_id. intros x. rewrite Hinfo. intros [= <-]. by apply set_pending_flag_id.
Qed.

Lemma HasCryptoHandshake_set_pending_flag b info :
  HasCryptoHandshake (set_pending_flag b info) = HasCryptoHandshake info.
Proof. done. Qed.

Lemma newest_elem_of (group : gset N) sn :
  QuicUnackedPacketMap.newest group = Some sn → sn ∈ group.
Proof.
  unfold QuicUnackedPacketMap.newest. intros Hlast%last_Some_elem_of.
  by apply elem_of_ascending.
Qed.

Lemma newest_is_Some (group : gset N) sn : sn ∈ group → is_Some (QuicUnackedPacketMap.newest group).
Proof.
  unfold QuicUnackedPacketMap.newest. intros Hin%elem_of_ascending.
  apply last_is_Some. intros Hnil. rewrite Hnil in Hin. by apply elem_of_nil in Hin.
Qed.

(** What [MarkPacketHandled] does to the group of the packet it handles. *)
Lemma MarkPacketHandled_spec m sn received_by_peer info group :
  GroupsConsistent (unacked_packets_ m) →
  packets m !! sn = Some info →
  QuicUnackedPacketMap.transmission_sets_ (unacked_packets_ m) !! all_transmissions info
    = Some group →
  ∃ newest_transmission newest_info m',
    QuicUnackedPacketMap.newest group = Some newest_transmission
    ∧ packets m !! newest_transmission = Some newest_info
    ∧ MarkPacketHandled m sn received_by_peer
      = Some (m', QuicUnackedPacketMap.lower_bound (unacked_packets_ m') sn)
    ∧ keeps_bookkeeping m m'
    ∧ GroupsConsistent (unacked_packets_ m')
    ∧ (∀ k, k ∉ group → packets m' !! k = packets m !! k)
    ∧ (∀ g ginfo, g ∈ group → packets m !! g = Some ginfo →
         packets m' !! g
         = (if pending ginfo && bool_decide (g ≠ sn)
               && negb (HasCryptoHandshake newest_info)
            then Some (clear_frames ginfo) else None))
    ∧ (∀ k, k ∈ queue_keys m' ↔ k ∈ queue_keys m ∧ k ∉ group).
Proof.
  intros Hgroups Hinfo Hgroup.
  pose proof Hgroups as [Hown Hmembers]%GroupsConsistent_lookup.
  assert (Hsn : sn ∈ group).
  { destruct (Hown sn info Hinfo) as (group' & Hgroup' & Hin). congruence. }
  destruct (newest_is_Some group sn Hsn) as [newest_transmission Hnewest].
  destruct (Hmembers _ _ newest_transmission Hgroup (newest_elem_of _ _ Hnewest))
    as (newest_info & Hnewest_info & _).
  exists newest_transmission, newest_info.
  unfold MarkPacketHandled, QuicUnackedPacketMap.GetTransmissionInfo.
  rewrite (proj2 (IsUnacked_true _ _)) by eauto. rewrite Hinfo. simpl.
  set (m1 := if pending info then _ else m).
  assert (Hm1 : keeps_bookkeeping m m1
                ∧ pending_retransmissions_ m1 = pending_retransmissions_ m
                ∧ unacked_packets_ m1
                  = QuicUnackedPacketMap.SetNotPending (unacked_packets_ m) sn).
  { unfold m1. destruct (pending info) eqn:Hpending.
    - split; [|done]. destruct received_by_peer; keeps.
    - split; [apply keeps_refl|]. split; [done|].
      symmetry. by eapply SetNotPending_not_pending. }
  destruct Hm1 as (Hkeeps1 & Hqueue1 & Htable1). clearbody m1.
  rewrite Htable1. simpl. rewrite Hgroup. simpl. rewrite Hnewest. simpl.
  set (m2 := if decide _ then _ else m1).
  assert (Hm2 : keeps_bookkeeping m1 m2
                ∧ pending_retransmissions_ m2 = pending_retransmissions_ m1
                ∧ unacked_packets_ m2 = unacked_packets_ m1).
  { unfold m2. case_decide; (split; [keeps|done]). }
  destruct Hm2 as (Hkeeps2 & Hqueue2 & Htable2). clearbody m2.
  rewrite Htable2, Htable1, SetNotPending_packets.
  assert (Hnewest_info' :
    ∃ newest_info', alter (set_pending_flag false) sn (packets m) !! newest_transmission
                    = Some newest_info'
                    ∧ HasCryptoHandshake newest_info' = HasCryptoHandshake newest_info).
  { rewrite lookup_alter. case_decide as Heq; [subst sn|]; rewrite Hnewest_info; simpl; eauto. }
  destruct Hnewest_info' as (newest_info' & -> & Hcrypto). simpl. rewrite Hcrypto.
  set (has_cryto_handshake := HasCryptoHandshake newest_info).
  set (m3 := if has_cryto_handshake then _ else m2).
  assert (Hm3 : keeps_bookkeeping m2 m3
                ∧ pending_retransmissions_ m3 = pending_retransmissions_ m2
                ∧ unacked_packets_ m3 = unacked_packets_ m2).
  { unfold m3. destruct has_cryto_handshake; (split; [keeps|done]). }
  destruct Hm3 as (Hkeeps3 & Hqueue3 & Htable3). clearbody m3.
  destruct (MarkPacketHandled_loop_spec has_cryto_handshake (reverse (ascending group)) m3)
    as (m4 & -> & Hkeeps4 & Hgroups4 & Hother & Hmember & Hqueue).
  { rewrite reverse_Permutation. apply ascending_NoDup. }
  { rewrite Htable3, Htable2, Htable1. by apply GroupsConsistent_SetNotPending. }
  { intros g Hg%elem_of_reverse%elem_of_ascending.
    rewrite Htable3, Htable2, Htable1, SetNotPending_packets, lookup_alter.
    destruct (Hmembers _ _ g Hgroup Hg) as (ginfo & Hginfo & _).
    case_decide; [subst g|]; rewrite Hginfo; simpl; eauto. }
  simpl. exists m4. split; [done|]. split; [done|]. split; [done|].
  split; [keeps|]. split; [done|].
  assert (Hlist : ∀ k, k ∈ reverse (ascending group) ↔ k ∈ group).
  { intros k. by rewrite elem_of_reverse, elem_of_ascending. }
  rewrite Htable3, Htable2, Htable1, SetNotPending_packets in Hother, Hmember.
  split; [|split].
  - intros k Hk. rewrite Hother by (by rewrite Hlist).
    rewrite lookup_alter_ne; [done|]. by intros <-.
  - intros g ginfo Hg Hginfo. destruct (decide (g = sn)) as [->|Hne].
    + rewrite (Hmember sn (set_pending_flag false ginfo)).
      * simpl. rewrite bool_decide_eq_false_2 by (by intros []).
        by rewrite andb_false_r.
      * by rewrite Hlist.
      * by rewrite lookup_alter_eq, Hginfo.
    + rewrite (Hmember g ginfo).
      * by rewrite bool_decide_eq_true_2, andb_true_r.
      * by rewrite Hlist.
      * by rewrite lookup_alter_ne.
  - intros k. rewrite Hqueue, Hqueue3, Hqueue2, Hqueue1, Hlist. done.
Qed.

Lemma MarkPacketHandled_retires m sn received_by_peer :
  GroupsConsistent (unacked_packets_ m) →
  sn ∈ unacked (unacked_packets_ m) →
  ∃ m', MarkPacketHandled m sn received_by_peer
        = Some (m', QuicUnackedPacketMap.lower_bound (unacked_packets_ m') sn)
        ∧ keeps_bookkeeping m m'
        ∧ GroupsConsistent (unacked_packets_ m')
        ∧ retires m m'
        ∧ sn ∉ unacked (unacked_packets_ m').
Proof.
  intros Hgroups [info Hinfo]%elem_of_unacked.
  pose proof Hgroups as [Hown Hmembers]%GroupsConsistent_lookup.
  destruct (Hown sn info Hinfo) as (group & Hgroup & Hsn).
  destruct (MarkPacketHandled_spec m sn received_by_peer info group Hgroups Hinfo Hgroup)
    as (newest_transmission & newest_info & m' & _ & _ & Hrun & Hkeeps & Hgroups'
        & Hother & Hmember & Hqueue).
  exists m'. split; [done|]. split; [done|]. split; [done|].
  assert (Hgone : sn ∉ unacked (unacked_packets_ m')).
  { rewrite elem_of_unacked, (Hmember sn info Hsn Hinfo).
    rewrite bool_decide_eq_false_2 by (by intros []). rewrite andb_false_r. simpl.
    by intros [? [=]]. }
  split; [|done]. unfold retires. split; [|split].
  - intros k Hk. destruct (decide (k ∈ group)) as [Hin|Hout].
    + destruct (Hmembers _ _ k Hgroup Hin) as (kinfo & Hkinfo & _).
      apply elem_of_unacked. eauto.
    + apply elem_of_unacked. rewrite <- Hother by done. by apply elem_of_unacked.
  - intros k Hk. by apply Hqueue in Hk as [? _].
  - intros k Hin Hout Hk. apply Hqueue in Hk as [_ Hk]. apply Hout.
    apply elem_of_unacked. rewrite Hother by done. by apply elem_of_unacked.
Qed.

(** ** Iterators over the table *)

Lemma keys_sorted (u : QuicUnackedPacketMap.t) :
  StronglySorted N.le (QuicUnackedPacketMap.begin_to_end u).*1.
Proof.
  unfold QuicUnackedPacketMap.begin_to_end.
  eapply StronglySorted_fmap; [|apply entries_sorted]. by intros [] [].
Qed.

Lemma elem_of_keys (u : QuicUnackedPacketMap.t) k :
  k ∈ (QuicUnackedPacketMap.begin_to_end u).*1 ↔ k ∈ unacked u.
Proof.
  unfold QuicUnackedPacketMap.begin_to_end. by rewrite elem_of_entries_keys, elem_of_unacked.
Qed.

Lemma head_filter_sorted (P : N → Prop) `{!∀ x, Decision (P x)} (l : list N) :
  StronglySorted N.le l →
  match head (filter P l) with
  | Some x => x ∈ l ∧ P x ∧ ∀ y, y ∈ l → P y → (x <= y)%N
  | None => ∀ y, y ∈ l → ¬ P y
  end.
Proof.
  induction 1 as [|x l Hsorted IH Hall]; simpl.
  { intros y Hy. by apply elem_of_nil in Hy. }
  rewrite filter_cons. case_decide as HP; simpl.
  - split; [by left|]. split; [done|]. intros y Hy _.
    apply elem_of_cons in Hy as [->|Hy]; [lia|].
    rewrite Forall_forall in Hall. by apply Hall.
  - destruct (head (filter P l)) as [x'|].
    + destruct IH as (Hin & HP' & Hmin). split; [by right|]. split; [done|].
      intros y Hy HPy. apply elem_of_cons in Hy as [->|Hy]; [done|]. by apply Hmin.
    + intros y Hy. apply elem_of_cons in Hy as [->|Hy]; [done|]. by apply IH.
Qed.

Lemma lower_bound_spec (u : QuicUnackedPacketMap.t) sn :
  match QuicUnackedPacketMap.lower_bound u sn with
  | Some k1 => k1 ∈ unacked u ∧ (sn <= k1)%N
               ∧ ∀ k, k ∈ unacked u → (sn <= k)%N → (k1 <= k)%N
  | None => ∀ k, k ∈ unacked u → (k < sn)%N
  end.
Proof.
  unfold QuicUnackedPacketMap.lower_bound.
  pose proof (head_filter_sorted (λ k, (sn <= k)%N) _ (keys_sorted u)) as Hhead.
  destruct (head _) as [k1|].
  - destruct Hhead as (Hin & Hle & Hmin). rewrite elem_of_keys in Hin.
    split; [done|]. split; [done|]. intros k Hk. apply Hmin. by apply elem_of_keys.
  - intros k Hk%elem_of_keys. apply Hhead in Hk. lia.
Qed.

Lemma next_spec (u : QuicUnackedPacketMap.t) sn :
  match QuicUnackedPacketMap.next u sn with
  | Some k1 => k1 ∈ unacked u ∧ (sn < k1)%N
               ∧ ∀ k, k ∈ unacked u → (sn < k)%N → (k1 <= k)%N
  | None => ∀ k, k ∈ unacked u → (k <= sn)%N
  end.
Proof.
  unfold QuicUnackedPacketMap.next.
  pose proof (head_filter_sorted (λ k, (sn < k)%N) _ (keys_sorted u)) as Hhead.
  destruct (head _) as [k1|].
  - destruct Hhead as (Hin & Hle & Hmin). rewrite elem_of_keys in Hin.
    split; [done|]. split; [done|]. intros k Hk. apply Hmin. by apply elem_of_keys.
  - intros k Hk%elem_of_keys. apply Hhead in Hk. lia.
Qed.

Lemma begin_spec (u : QuicUnackedPacketMap.t) :
  match fst <$> head (QuicUnackedPacketMap.begin_to_end u) with
  | Some k1 => k1 ∈ unacked u ∧ ∀ k, k ∈ unacked u → (k1 <= k)%N
  | None => unacked u = ∅
  end.
Proof.
  pose proof (keys_sorted u) as Hsorted. pose proof (elem_of_keys u) as Hkeys.
  destruct (QuicUnackedPacketMap.begin_to_end u) as [|[k1 i] rest]; simpl in *.
  - apply set_eq. intros k. rewrite <- Hkeys, elem_of_nil. set_solver.
  - split; [apply Hkeys; by left|]. intros k Hk%Hkeys.
    apply elem_of_cons in Hk as [->|Hk]; [lia|].
    apply StronglySorted_inv in Hsorted as [_ Hall].
    rewrite Forall_forall in Hall. by apply Hall.
Qed.

Lemma size_lt_of_missing (X Y : gset N) x : X ⊆ Y → x ∈ Y → x ∉ X → (size X < size Y)%nat.
Proof. intros Hsub Hin Hout. apply subset_size. set_solver. Qed.

Lemma sweep_measure_Some_pos u sn : sn ∈ unacked u → (0 < sweep_measure u (Some sn))%nat.
Proof.
  intros Hin. simpl.
  pose proof (size_lt_of_missing ∅ (filter (λ k, (sn <= k)%N) (unacked u)) sn) as Hlt.
  rewrite size_empty in Hlt. apply Hlt; [set_solver| |set_solver].
  apply elem_of_filter. split; [lia|done].
Qed.

Lemma sweep_measure_advance u u' sn it :
  unacked u' ⊆ unacked u →
  sn ∈ unacked u →
  (∀ k1, it = Some k1 → k1 ∈ unacked u' ∧ (sn <= k1)%N) →
  (∀ k1, it = Some k1 → sn ∈ unacked u' → (sn < k1)%N) →
  (sweep_measure u' it < sweep_measure u (Some sn))%nat.
Proof.
  intros Hsub Hin Hvalid Hstrict. destruct it as [k1|]; [|by apply sweep_measure_Some_pos].
  destruct (Hvalid k1 eq_refl) as [Hk1 Hle]. simpl.
  apply (size_lt_of_missing _ _ sn).
  - intros k [Hk Hk']%elem_of_filter. apply elem_of_filter. split; [lia|set_solver].
  - apply elem_of_filter. split; [lia|done].
  - intros [Hk Hk']%elem_of_filter. specialize (Hstrict k1 eq_refl Hk'). lia.
Qed.

Lemma sweep_measure_le_size u it : (sweep_measure u it <= size (unacked u))%nat.
Proof.
  destruct it as [sn|]; simpl; [|lia]. apply subseteq_size.
  intros k [_ Hk]%elem_of_filter. done.
Qed.

(** ** The ack sweep *)

Lemma retires_notify call m : retires m (notify call m).
Proof. unfold retires. simpl. set_solver. Qed.

Lemma HandleAck_loop_spec received_info fuel m it :
  GroupsConsistent (unacked_packets_ m) →
  (∀ sn, it = Some sn → sn ∈ unacked (unacked_packets_ m)) →
  (∀ k, k ∈ unacked (unacked_packets_ m) →
        match it with Some sn => (k < sn)%N | None => True end →
        (k <= largest_observed received_info)%N →
        IsAwaitingPacket received_info k = true) →
  (sweep_measure (unacked_packets_ m) it < fuel)%nat →
  ∃ m', HandleAck_loop fuel received_info m it = Some m'
        ∧ keeps_bookkeeping m m'
        ∧ GroupsConsistent (unacked_packets_ m')
        ∧ retires m m'
        ∧ (∀ k, k ∈ unacked (unacked_packets_ m') →
                (k <= largest_observed received_info)%N →
                IsAwaitingPacket received_info k = true).
Proof.
  revert m it. induction fuel as [|fuel IH]; intros m it Hgroups Hvalid Hbefore Hfuel;
    [lia|].
  simpl. destruct it as [sn|].
  2:{ exists m. split; [done|]. split; [apply keeps_refl|]. split; [done|].
      split; [apply retires_refl|]. intros k Hk. by apply Hbefore. }
  specialize (Hvalid sn eq_refl).
  destruct (N.ltb_spec (largest_observed received_info) sn) as [Hnew|Hin_range].
  { exists m. split; [done|]. split; [apply keeps_refl|]. split; [done|].
    split; [apply retires_refl|]. intros k Hk Hle. apply Hbefore; [done|lia|done]. }
  destruct (IsAwaitingPacket received_info sn) eqn:Hawaiting.
  - (* still missing: the iterator moves on *)
    pose proof (next_spec (unacked_packets_ m) sn) as Hnext.
    apply IH; [done| | |].
    + intros k1 Hk1. rewrite Hk1 in Hnext. by destruct Hnext.
    + intros k Hk Hlt Hle.
      destruct (decide (k = sn)) as [->|Hne]; [done|].
      apply Hbefore; [done| |done].
      destruct (QuicUnackedPacketMap.next _ _) as [k1|].
      * destruct Hnext as (_ & _ & Hmin).
        destruct (N.lt_ge_cases k sn) as [|Hge]; [done|].
        assert (k1 <= k)%N by (apply Hmin; [done|lia]). lia.
      * specialize (Hnext k Hk). lia.
    + eapply Nat.lt_le_trans; [|apply Nat.lt_succ_r, Hfuel].
      apply sweep_measure_advance; [done|done| |].
      * intros k1 Hk1. rewrite Hk1 in Hnext. destruct Hnext as (? & ? & _).
        split; [done|lia].
      * intros k1 Hk1 _. rewrite Hk1 in Hnext. by destruct Hnext as (_ & ? & _).
  - (* acked *)
    destruct (MarkPacketHandled_retires m sn RECEIVED_BY_PEER Hgroups Hvalid)
      as (m1 & -> & Hkeeps1 & Hgroups1 & Hretires1 & Hgone).
    simpl.
    pose proof (lower_bound_spec (unacked_packets_ m1) sn) as Hlower.
    destruct (IH (notify (NotifierOnPacketAcked sn) m1)
                (QuicUnackedPacketMap.lower_bound (unacked_packets_ m1) sn))
      as (m' & -> & Hkeeps & Hgroups' & Hretires & Hawait).
    + done.
    + simpl. intros k1 Hk1. rewrite Hk1 in Hlower. by destruct Hlower.
    + simpl. intros k Hk Hlt Hle. apply Hbefore; [by apply Hretires1| |done].
      destruct (QuicUnackedPacketMap.lower_bound _ _) as [k1|].
      * destruct Hlower as (_ & _ & Hmin).
        destruct (N.lt_ge_cases k sn) as [|Hge]; [done|].
        assert (k1 <= k)%N by (by apply Hmin). lia.
      * by apply Hlower.
    + simpl. eapply Nat.lt_le_trans; [|apply Nat.lt_succ_r, Hfuel].
      apply sweep_measure_advance; [by apply Hretires1|done| |].
      * intros k1 Hk1. rewrite Hk1 in Hlower. by destruct Hlower as (? & ? & _).
      * intros k1 Hk1 Hstill. done.
    + exists m'. split; [done|].
      split; [keeps|]. split; [done|].
      split; [|done]. eauto using retires_trans, retires_notify.
Qed.

(** ** After the sweep *)

Lemma discard_revived_spec m revived :
  keeps_bookkeeping m (discard_revived m revived)
  ∧ shrinks m (discard_revived m revived).
Proof.
  unfold discard_revived.
  destruct (QuicUnackedPacketMap.IsUnacked _ _); [|split; [apply keeps_refl|apply shrinks_refl]].
  destruct (negb _); (split; [keeps|]); unfold shrinks; simpl.
  - rewrite unacked_RemovePacket. set_solver.
  - unfold QuicUnackedPacketMap.NeuterPacket. rewrite unacked_alter. set_solver.
Qed.

Lemma foldl_discard_revived_spec revived m :
  keeps_bookkeeping m (foldl discard_revived m revived)
  ∧ shrinks m (foldl discard_revived m revived).
Proof.
  revert m. induction revived as [|sn rest IH]; intros m; simpl.
  { split; [apply keeps_refl|apply shrinks_refl]. }
  destruct (discard_revived_spec m sn) as [Hkeeps1 Hshrinks1].
  destruct (IH (discard_revived m sn)) as [Hkeeps Hshrinks].
  split; [by eapply keeps_trans|by eapply shrinks_trans].
Qed.

Lemma ClearPreviousRetransmissions_loop_unacked keys u num_to_clear :
  unacked (QuicUnackedPacketMap.ClearPreviousRetransmissions_loop keys u num_to_clear)
  ⊆ unacked u.
Proof.
  revert u num_to_clear. induction keys as [|sn rest IH]; intros u n; simpl; [done|].
  destruct n as [|n]; [done|].
  destruct (_ !! sn) as [info|]; [|apply IH].
  destruct (_ && _); [|apply IH].
  etrans; [apply IH|]. rewrite unacked_RemovePacket. set_solver.
Qed.

Lemma nack_missing_loop_spec its largest m :
  keeps_bookkeeping m (nack_missing_loop its largest m)
  ∧ shrinks m (nack_missing_loop its largest m).
Proof.
  revert m. induction its as [|it rest IH]; intros m; simpl.
  { split; [apply keeps_refl|apply shrinks_refl]. }
  destruct (_ <? _)%N; [split; [apply keeps_refl|apply shrinks_refl]|].
  destruct (negb _); [apply IH|].
  set (m1 := with_unacked _ m).
  destruct (IH m1) as [Hkeeps Hshrinks].
  split; [apply (keeps_trans m m1); [unfold m1; keeps|done]|].
  eapply shrinks_trans; [|done]. unfold shrinks, m1. simpl.
  unfold QuicUnackedPacketMap.NackPacket. rewrite unacked_alter. set_solver.
Qed.

Lemma handle_lost_packet_spec ack_receive_time m sn :
  ∃ m', handle_lost_packet ack_receive_time m sn = Some m'
        ∧ keeps_bookkeeping m m'
        ∧ shrinks m m'.
Proof.
  unfold handle_lost_packet.
  set (m2 := with_send_algorithm _ _).
  assert (Hm2 : keeps_bookkeeping m m2 ∧ unacked_packets_ m2 = unacked_packets_ m
                ∧ pending_retransmissions_ m2 = pending_retransmissions_ m).
  { split; [|done]. unfold m2. keeps. }
  destruct Hm2 as (Hkeeps2 & Htable2 & Hqueue2). clearbody m2.
  destruct (OnPacketAbandoned_spec m2 sn) as (Hkeeps3 & Hqueue3 & Htable3).
  set (m3 := OnPacketAbandoned m2 sn) in *. clearbody m3.
  assert (Hdom3 : unacked (unacked_packets_ m3) = unacked (unacked_packets_ m)).
  { destruct Htable3 as [->| ->]; rewrite Htable2; [done|].
    unfold QuicUnackedPacketMap.SetNotPending. apply unacked_alter. }
  destruct (QuicUnackedPacketMap.HasRetransmittableFrames _ _) eqn:Hframes.
  - unfold MarkForRetransmission, QuicUnackedPacketMap.GetTransmissionInfo.
    unfold QuicUnackedPacketMap.HasRetransmittableFrames in Hframes.
    destruct (_ !! sn) as [info|] eqn:Hinfo; [|done]. simpl.
    assert (Hsn : sn ∈ unacked (unacked_packets_ m)).
    { rewrite <- Hdom3. apply elem_of_unacked. eauto. }
    destruct (ContainsKey _ _) eqn:Hkey.
    + exists m3. split; [done|]. split; [by eapply keeps_trans|].
      unfold shrinks. rewrite Hdom3, Hqueue3, Hqueue2. set_solver.
    + eexists. split; [done|]. split; [keeps|].
      unfold shrinks. simpl. rewrite Hdom3, Hqueue3, Hqueue2. split; [done|].
      unfold assign. rewrite <- Hqueue2, <- Hqueue3, Hkey, fmap_app. simpl.
      intros k [Hk|Hk%list_elem_of_singleton]%elem_of_app; [by left|]. subst. by right.
  - eexists. split; [done|]. split; [keeps|].
    unfold shrinks. simpl. rewrite unacked_RemovePacket, Hdom3, Hqueue3, Hqueue2.
    set_solver.
Qed.

Lemma handle_lost_packets_spec ack_receive_time lost m :
  ∃ m', handle_lost_packets ack_receive_time lost m = Some m'
        ∧ keeps_bookkeeping m m'
        ∧ shrinks m m'.
Proof.
  revert m. induction lost as [|sn rest IH]; intros m; simpl.
  { exists m. split; [done|]. split; [apply keeps_refl|apply shrinks_refl]. }
  destruct (handle_lost_packet_spec ack_receive_time m sn) as (m1 & -> & Hkeeps1 & Hshrinks1).
  simpl. destruct (IH m1) as (m' & -> & Hkeeps & Hshrinks).
  exists m'. split; [done|]. split; [by eapply keeps_trans|by eapply shrinks_trans].
Qed.

Lemma MaybeRetransmitOnAckFrame_spec m received_info ack_receive_time :
  ∃ m', MaybeRetransmitOnAckFrame m received_info ack_receive_time = Some m'
        ∧ keeps_bookkeeping m m'
        ∧ shrinks m m'.
Proof.
  unfold MaybeRetransmitOnAckFrame.
  set (m1 := nack_missing_loop _ _ m).
  destruct (nack_missing_loop_spec
              (QuicUnackedPacketMap.begin_to_end (unacked_packets_ m))
              (largest_observed received_info) m) as [Hkeeps1 Hshrinks1].
  fold m1 in Hkeeps1, Hshrinks1.
  destruct (handle_lost_packets_spec ack_receive_time
              (ascending (DetectLostPackets (unacked_packets_ m1) ack_receive_time
                            (largest_observed received_info))) m1)
    as (m' & -> & Hkeeps & Hshrinks).
  exists m'. split; [done|]. split; [by eapply keeps_trans|by eapply shrinks_trans].
Qed.

Lemma MaybeUpdateRTT_spec m received_info ack_receive_time :
  keeps_bookkeeping m (MaybeUpdateRTT m received_info ack_receive_time)
  ∧ unacked_packets_ (MaybeUpdateRTT m received_info ack_receive_time) = unacked_packets_ m
  ∧ pending_retransmissions_ (MaybeUpdateRTT m received_info ack_receive_time)
    = pending_retransmissions_ m.
Proof.
  unfold MaybeUpdateRTT.
  destruct (negb _); [by split; [apply keeps_refl|]|].
  destruct (QuicUnackedPacketMap.GetTransmissionInfo _ _); [|by split; [apply keeps_refl|]].
  destruct (QuicTime.IsZero _); [by split; [apply keeps_refl|]|].
  destruct (Delta.gt _ _); [|destruct (Delta.IsInfinite _)];
    (split; [|done]); keeps.
Qed.

Lemma shrinks_absent m m' k :
  shrinks m m' →
  k ∉ unacked (unacked_packets_ m) → k ∉ (pending_retransmissions_ m).*1 →
  (k ∉ unacked (unacked_packets_ m')) ∧ k ∉ (pending_retransmissions_ m').*1.
Proof.
  intros [Hdom Hqueue] Hk Hq. split; [set_solver|].
  intros Hin. destruct (Hqueue k Hin); done.
Qed.

Lemma HandleAckForSentPackets_spec fuel m received_info :
  GroupsConsistent (unacked_packets_ m) →
  (size (unacked (unacked_packets_ m)) < fuel)%nat →
  ∃ m', HandleAckForSentPackets fuel m received_info = Some m'
        ∧ keeps_bookkeeping m m'
        ∧ shrinks m m'
        ∧ (∀ k, k ∈ unacked (unacked_packets_ m) →
                (k <= largest_observed received_info)%N →
                IsAwaitingPacket received_info k = false →
                (k ∉ unacked (unacked_packets_ m')) ∧ k ∉ (pending_retransmissions_ m').*1).
Proof.
  intros Hgroups Hfuel. unfold HandleAckForSentPackets.
  set (num_to_clear := (size (missing_packets received_info) / 2)%nat).
  pose proof (begin_spec (unacked_packets_ m)) as Hbegin.
  set (it := fst <$> head _) in *.
  destruct (HandleAck_loop_spec received_info fuel m it Hgroups)
    as (m1 & -> & Hkeeps1 & Hgroups1 & Hretires1 & Hawait1).
  { intros sn Hsn. rewrite Hsn in Hbegin. by destruct Hbegin. }
  { intros k Hk Hlt _. exfalso. destruct it as [sn|].
    - destruct Hbegin as [_ Hmin]. specialize (Hmin k Hk). lia.
    - rewrite Hbegin in Hk. set_solver. }
  { eapply Nat.le_lt_trans; [apply sweep_measure_le_size|done]. }
  simpl.
  destruct (foldl_discard_revived_spec (ascending (revived_packets received_info)) m1)
    as [Hkeeps2 Hshrinks2].
  set (m2 := foldl discard_revived m1 _) in *. clearbody m2.
  set (m3 := with_unacked
               (λ u, QuicUnackedPacketMap.ClearPreviousRetransmissions u num_to_clear) m2).
  assert (Hm3 : keeps_bookkeeping m2 m3 ∧ shrinks m2 m3).
  { split; [unfold m3; keeps|]. unfold shrinks, m3. simpl.
    split; [apply ClearPreviousRetransmissions_loop_unacked|by left]. }
  destruct Hm3 as [Hkeeps3 Hshrinks3]. clearbody m3.
  assert (Hend : ∃ m', (if is_truncated received_info then Some m3 else Some m2) = Some m'
                       ∧ keeps_bookkeeping m1 m' ∧ shrinks m1 m').
  { destruct (is_truncated received_info); eexists; (split; [done|]).
    - split; [keeps|by eapply shrinks_trans].
    - done. }
  destruct Hend as (m' & -> & Hkeeps' & Hshrinks').
  exists m'. split; [done|]. split; [keeps|].
  split; [eapply shrinks_trans; [by apply retires_shrinks|done]|].
  intros k Hk Hle Hacked.
  assert (Hgone : k ∉ unacked (unacked_packets_ m1)).
  { intros Hstill. rewrite (Hawait1 k Hstill Hle) in Hacked. done. }
  apply (shrinks_absent m1); [done|done|].
  destruct Hretires1 as (_ & _ & Hleft). by apply Hleft.
Qed.

Lemma OnIncomingAck_spec fuel m received_info ack_receive_time :
  GroupsConsistent (unacked_packets_ m) →
  (size (unacked (unacked_packets_ m)) < fuel)%nat →
  ∃ m3,
    OnIncomingAck fuel m received_info ack_receive_time
    = Some (if QuicUnackedPacketMap.IsUnacked (unacked_packets_ m)
                 (largest_observed received_info)
            then with_consecutive_counts 0 0 0 m3 else m3, true)
    ∧ keeps_bookkeeping m m3
    ∧ (∀ k, k ∈ unacked (unacked_packets_ m) →
            (k <= largest_observed received_info)%N →
            IsAwaitingPacket received_info k = false →
            (k ∉ unacked (unacked_packets_ m3)) ∧ k ∉ (pending_retransmissions_ m3).*1).
Proof.
  intros Hgroups Hfuel. unfold OnIncomingAck.
  destruct (MaybeUpdateRTT_spec m received_info ack_receive_time)
    as (Hkeeps1 & Htable1 & Hqueue1).
  set (m1 := MaybeUpdateRTT m received_info ack_receive_time) in *. clearbody m1.
  destruct (HandleAckForSentPackets_spec fuel m1 received_info)
    as (m2 & -> & Hkeeps2 & Hshrinks2 & Hacked2); [by rewrite Htable1..|].
  simpl.
  destruct (MaybeRetransmitOnAckFrame_spec m2 received_info ack_receive_time)
    as (m3 & -> & Hkeeps3 & Hshrinks3).
  simpl. exists m3. split; [done|]. split; [keeps|].
  intros k Hk Hle Hacked. rewrite <- Htable1 in Hk.
  destruct (Hacked2 k Hk Hle Hacked). by apply (shrinks_absent m2).
Qed.

(** ** Every returning run keeps the counts and the pacing set-up *)

Lemma MarkPacketHandled_step_keeps has_cryto_handshake m g m' :
  MarkPacketHandled_step has_cryto_handshake m g = Some m' → keeps_bookkeeping m m'.
Proof.
  unfold MarkPacketHandled_step.
  destruct (QuicUnackedPacketMap.GetTransmissionInfo _ _) as [info|]; simpl; [|done].
  set (m1 := if ContainsKey _ _ then _ else m).
  assert (Hm1 : keeps_bookkeeping m m1).
  { unfold m1. destruct (ContainsKey _ _); keeps. }
  clearbody m1.
  set (m2 := if has_cryto_handshake then _ else m1).
  assert (Hm2 : keeps_bookkeeping m1 m2).
  { unfold m2. destruct has_cryto_handshake; [|keeps].
    destruct (pending info); [|keeps].
    destruct (OnPacketAbandoned_spec m1 g) as [Habandon _]. keeps. }
  clearbody m2.
  destruct (negb _); intros [= <-]; keeps.
Qed.

Lemma MarkPacketHandled_loop_keeps has_cryto_handshake transmissions m m' :
  MarkPacketHandled_loop has_cryto_handshake transmissions m = Some m' →
  keeps_bookkeeping m m'.
Proof.
  revert m. induction transmissions as [|g rest IH]; intros m; simpl;
    [intros [= <-]; keeps|].
  destruct (MarkPacketHandled_step _ _ _) as [m1|] eqn:Hstep; simpl; [|done].
  intros Hrest%IH. apply MarkPacketHandled_step_keeps in Hstep. keeps.
Qed.

Lemma MarkPacketHandled_keeps m sn received_by_peer r :
  MarkPacketHandled m sn received_by_peer = Some r → keeps_bookkeeping m r.1.
Proof.
  unfold MarkPacketHandled. destruct (negb _); [intros [= <-]; simpl; keeps|].
  destruct (QuicUnackedPacketMap.GetTransmissionInfo _ _) as [info|]; simpl; [|done].
  set (m1 := if pending info then _ else m).
  assert (Hm1 : keeps_bookkeeping m m1).
  { unfold m1. destruct (pending info); [|keeps]. destruct received_by_peer; keeps. }
  clearbody m1.
  destruct (_ !! all_transmissions info) as [group|]; simpl; [|done].
  destruct (QuicUnackedPacketMap.newest group) as [newest_transmission|]; simpl; [|done].
  set (m2 := if decide _ then _ else m1).
  assert (Hm2 : keeps_bookkeeping m1 m2).
  { unfold m2. case_decide; keeps. }
  clearbody m2.
  destruct (QuicUnackedPacketMap.GetTransmissionInfo _ _) as [newest_info|]; simpl; [|done].
  set (m3 := if HasCryptoHandshake newest_info then _ else m2).
  assert (Hm3 : keeps_bookkeeping m2 m3).
  { unfold m3. destruct (HasCryptoHandshake newest_info); keeps. }
  clearbody m3.
  destruct (MarkPacketHandled_loop _ _ _) as [m4|] eqn:Hloop; simpl; [|done].
  intros [= <-]. simpl. apply MarkPacketHandled_loop_keeps in Hloop. keeps.
Qed.

Lemma HandleAck_loop_keeps received_info fuel m it m' :
  HandleAck_loop fuel received_info m it = Some m' → keeps_bookkeeping m m'.
Proof.
  revert m it. induction fuel as [|fuel IH]; intros m it; simpl; [done|].
  destruct it as [sn|]; [|intros [= <-]; keeps].
  destruct (_ <? _)%N; [intros [= <-]; keeps|].
  destruct (IsAwaitingPacket _ _); [apply IH|].
  destruct (MarkPacketHandled _ _ _) as [r|] eqn:Hhandled; simpl; [|done].
  intros Hrest%IH. apply MarkPacketHandled_keeps in Hhandled.
  eapply keeps_trans; [|exact Hrest]. keeps.
Qed.

Lemma HandleAckForSentPackets_keeps fuel m received_info m' :
  HandleAckForSentPackets fuel m received_info = Some m' → keeps_bookkeeping m m'.
Proof.
  unfold HandleAckForSentPackets.
  destruct (HandleAck_loop _ _ _ _) as [m1|] eqn:Hloop; simpl; [|done].
  apply HandleAck_loop_keeps in Hloop.
  destruct (foldl_discard_revived_spec (ascending (revived_packets received_info)) m1)
    as [Hrevived _].
  destruct (is_truncated received_info); intros [= <-]; keeps.
Qed.

Lemma OnIncomingAck_keeps fuel m received_info ack_receive_time r :
  OnIncomingAck fuel m received_info ack_receive_time = Some r →
  ∃ m3, keeps_bookkeeping m m3
        ∧ r = (if QuicUnackedPacketMap.IsUnacked (unacked_packets_ m)
                    (largest_observed received_info)
               then with_consecutive_counts 0 0 0 m3 else m3, true).
Proof.
  unfold OnIncomingAck.
  destruct (MaybeUpdateRTT_spec m received_info ack_receive_time) as (Hrtt & _ & _).
  destruct (HandleAckForSentPackets _ _ _) as [m2|] eqn:Hsweep; simpl; [|done].
  apply HandleAckForSentPackets_keeps in Hsweep.
  destruct (MaybeRetransmitOnAckFrame_spec m2 received_info ack_receive_time)
    as (m3 & -> & Hlost & _).
  simpl. intros [= <-]. exists m3. split; [keeps|done].
Qed.

(** ** Processing an ack *)

(** C4. Whenever [OnIncomingAck] returns: if [largest_observed] had a
    record as the call began, the three consecutive-retransmission counts are
    zero afterwards; if it had none, the three counts are what they were.
    And the call does return (with [true]) when the transmission groups are
    consistent and the sweep is given more turns than there are records. *)
Theorem OnIncomingAck_consecutive_counts fuel m received_info ack_receive_time :
  (∀ m' reset_alarm,
     OnIncomingAck fuel m received_info ack_receive_time = Some (m', reset_alarm) →
     (QuicUnackedPacketMap.IsUnacked (unacked_packets_ m)
        (largest_observed received_info) = true →
      consecutive_rto_count_ m' = 0%N
      ∧ consecutive_tlp_count_ m' = 0%N
      ∧ consecutive_crypto_retransmission_count_ m' = 0%N)
     ∧ (QuicUnackedPacketMap.IsUnacked (unacked_packets_ m)
          (largest_observed received_info) = false →
        consecutive_rto_count_ m' = consecutive_rto_count_ m
        ∧ consecutive_tlp_count_ m' = consecutive_tlp_count_ m
        ∧ consecutive_crypto_retransmission_count_ m'
          = consecutive_crypto_retransmission_count_ m))
  ∧ (GroupsConsistent (unacked_packets_ m) →
     (size (unacked (unacked_packets_ m)) < fuel)%nat →
     ∃ m', OnIncomingAck fuel m received_info ack_receive_time = Some (m', true)).
Proof.
  split.
  - intros m' reset_alarm Hrun.
    destruct (OnIncomingAck_keeps _ _ _ _ _ Hrun) as (m3 & (Hrto & Htlp & Hcrypto & _) & Hr).
    destruct (QuicUnackedPacketMap.IsUnacked _ _); injection Hr as -> _;
      split; intros [=]; done.
  - intros Hgroups Hfuel.
    destruct (OnIncomingAck_spec fuel m received_info ack_receive_time Hgroups Hfuel)
      as (m3 & Hrun & _).
    eexists. exact Hrun.
Qed.

(** ** Sending keeps the bookkeeping *)

Lemma OnPacketSent_keeps m sn time bytes transmission_type has_retransmittable_data :
  keeps_bookkeeping m
    (OnPacketSent m sn time bytes transmission_type has_retransmittable_data).1.
Proof.
  unfold OnPacketSent. destruct (negb _); simpl; [keeps|].
  destruct (negb _); simpl; keeps.
Qed.

(** ** The handshake backoff count stays within its cap *)

Lemma MarkForRetransmission_keeps m sn transmission_type m' :
  MarkForRetransmission m sn transmission_type = Some m' → keeps_bookkeeping m m'.
Proof.
  unfold MarkForRetransmission.
  destruct (QuicUnackedPacketMap.GetTransmissionInfo _ _); simpl; [|done].
  destruct (ContainsKey _ _); intros [= <-]; keeps.
Qed.

Lemma RetransmitCryptoPackets_loop_keeps its m m' :
  RetransmitCryptoPackets_loop its m = Some m' → keeps_bookkeeping m m'.
Proof.
  revert m. induction its as [|it rest IH]; intros m; simpl; [intros [= <-]; keeps|].
  destruct (_ || _); [apply IH|].
  destruct (MarkForRetransmission _ _ _) as [m1|] eqn:Hmark; simpl; [|done].
  intros Hrest%IH. apply MarkForRetransmission_keeps in Hmark.
  destruct (OnPacketAbandoned_spec m1 it.1) as [Habandon _]. keeps.
Qed.

Lemma RetransmitOldestPacket_loop_keeps its m m' :
  RetransmitOldestPacket_loop its m = Some m' → keeps_bookkeeping m m'.
Proof.
  revert m. induction its as [|it rest IH]; intros m; simpl; [intros [= <-]; keeps|].
  destruct (_ || _); [apply IH|]. apply MarkForRetransmission_keeps.
Qed.

Lemma RetransmitAllPackets_loop_keeps its retransmitted m r :
  RetransmitAllPackets_loop its retransmitted m = Some r → keeps_bookkeeping m r.1.
Proof.
  revert m retransmitted. induction its as [|it rest IH]; intros m retransmitted; simpl;
    [intros [= <-]; simpl; keeps|].
  destruct (has_frames _).
  - destruct (MarkForRetransmission _ _ _) as [m2|] eqn:Hmark; simpl; [|done].
    intros Hrest%IH. apply MarkForRetransmission_keeps in Hmark.
    eapply keeps_trans; [|exact Hrest]. eapply keeps_trans; [|exact Hmark]. keeps.
  - intros Hrest%IH. eapply keeps_trans; [|exact Hrest]. keeps.
Qed.

(** The count [GetCryptoRetransmissionDelay] shifts by is zero in a new
    manager and stays at most 5 over a timeout, an ack and a send. *)
Lemma handshake_backoff_capped m :
  (∀ is_server (algorithm : A),
     consecutive_crypto_retransmission_count_ (Create is_server algorithm) = 0%N)
  ∧ ((consecutive_crypto_retransmission_count_ m <= kMaxHandshakeRetransmissionBackoffs)%N →
     (∀ m', OnRetransmissionTimeout m = Some m' →
            (consecutive_crypto_retransmission_count_ m'
             <= kMaxHandshakeRetransmissionBackoffs)%N)
     ∧ (∀ fuel received_info ack_receive_time m' reset_alarm,
          OnIncomingAck fuel m received_info ack_receive_time = Some (m', reset_alarm) →
          (consecutive_crypto_retransmission_count_ m'
           <= kMaxHandshakeRetransmissionBackoffs)%N)
     ∧ (∀ sn time bytes transmission_type has_retransmittable_data,
          (consecutive_crypto_retransmission_count_
             (OnPacketSent m sn time bytes transmission_type has_retransmittable_data).1
           <= kMaxHandshakeRetransmissionBackoffs)%N)).
Proof.
  split; [done|]. intros Hcapped. split; [|split].
  - intros m'. unfold OnRetransmissionTimeout. destruct (GetRetransmissionMode m).
    + unfold RetransmitAllPackets.
      destruct (RetransmitAllPackets_loop _ _ _) as [r|] eqn:Hloop; simpl; [|done].
      apply RetransmitAllPackets_loop_keeps in Hloop as (_ & _ & Hcrypto & _).
      simpl in Hcrypto. destruct r.2; intros [= <-]; simpl; by rewrite Hcrypto.
    + unfold RetransmitOldestPacket.
      intros (_ & _ & Hcrypto & _)%RetransmitOldestPacket_loop_keeps.
      simpl in Hcrypto. by rewrite Hcrypto.
    + unfold RetransmitCryptoPackets.
      intros (_ & _ & Hcrypto & _)%RetransmitCryptoPackets_loop_keeps.
      simpl in Hcrypto. rewrite Hcrypto. lia.
  - intros fuel received_info ack_receive_time m' reset_alarm Hrun.
    destruct (OnIncomingAck_keeps _ _ _ _ _ Hrun) as (m3 & (_ & _ & Hcrypto & _) & Hr).
    destruct (QuicUnackedPacketMap.IsUnacked _ _); injection Hr as -> _; simpl;
      [done|by rewrite Hcrypto].
  - intros sn time bytes tt rd.
    destruct (OnPacketSent_keeps m sn time bytes tt rd) as (_ & _ & Hcrypto & _).
    by rewrite Hcrypto.
Qed.

Lemma RetransmitUnackedPackets_loop_keeps fuel retransmission_type m it m' :
  RetransmitUnackedPackets_loop fuel retransmission_type m it = Some m' →
  keeps_bookkeeping m m'.
Proof.
  revert m it. induction fuel as [|fuel IH]; intros m it; simpl; [done|].
  destruct it as [sn|]; [|intros [= <-]; keeps].
  destruct (QuicUnackedPacketMap.GetTransmissionInfo _ _) as [info|]; simpl; [|done].
  destruct (retransmittable_frames info) as [frames|]; simpl.
  - destruct (_ || _).
    + destruct (MarkForRetransmission _ _ _) as [m1|] eqn:Hmark; simpl; [|done].
      intros Hrest%IH. apply MarkForRetransmission_keeps in Hmark.
      destruct (OnPacketAbandoned_spec m sn) as [Habandon _].
      eapply keeps_trans; [|exact Hrest]. eapply keeps_trans; [exact Habandon|exact Hmark].
    + simpl. apply IH.
  - destruct (_ !! _) as [group|]; simpl; [|done].
    destruct (_ && _); simpl.
    + destruct (MarkPacketHandled _ _ _) as [r|] eqn:Hr; simpl; [|done].
      intros Hrest%IH. apply MarkPacketHandled_keeps in Hr.
      eapply keeps_trans; [exact Hr|exact Hrest].
    + apply IH.
Qed.

(** ** Invariants of the reachable states *)

Lemma OnRetransmissionTimeout_invariants m m' :
  OnRetransmissionTimeout m = Some m' →
  (NoDup (pending_retransmissions_ m).*1 → NoDup (pending_retransmissions_ m').*1)
  ∧ (GroupsConsistent (unacked_packets_ m) → GroupsConsistent (unacked_packets_ m')).
Proof.
  unfold OnRetransmissionTimeout. destruct (GetRetransmissionMode m).
  - unfold RetransmitAllPackets.
    destruct (RetransmitAllPackets_loop _ _ _) as [r|] eqn:Hloop; simpl; [|done].
    apply RetransmitAllPackets_loop_keeps in Hloop as (_ & _ & _ & _ & _ & Hqueue & Hgroups).
    destruct r.2; intros [= <-]; simpl; auto.
  - unfold RetransmitOldestPacket.
    intros (_ & _ & _ & _ & _ & Hqueue & Hgroups)%RetransmitOldestPacket_loop_keeps. auto.
  - unfold RetransmitCryptoPackets.
    intros (_ & _ & _ & _ & _ & Hqueue & Hgroups)%RetransmitCryptoPackets_loop_keeps. auto.
Qed.

(** In every reachable state the transmission groups are consistent, no
    sequence number is queued twice and the handshake backoff count is
    within its cap. *)
Lemma Reachable_invariant m :
  Reachable m →
  GroupsConsistent (unacked_packets_ m)
  ∧ NoDup (pending_retransmissions_ m).*1
  ∧ (consecutive_crypto_retransmission_count_ m <= kMaxHandshakeRetransmissionBackoffs)%N.
Proof.
  induction 1 as [is_server algorithm
                 |flag m config Hm (Hgroups & Hqueue & Hcount)
                 |m serialized_packet Hm (Hgroups & Hqueue & Hcount) Hnew
                 |m old_sn new_sn m' Hm (Hgroups & Hqueue & Hcount) Hnew Hrun
                 |m sn time bytes tt rd Hm (Hgroups & Hqueue & Hcount)
                 |fuel m received_info ack_receive_time m' reset Hm (Hgroups & Hqueue & Hcount) Hrun
                 |m m' Hm (Hgroups & Hqueue & Hcount) Hrun
                 |m sn m' Hm (Hgroups & Hqueue & Hcount) Hrun
                 |fuel m retransmission_type m' Hm (Hgroups & Hqueue & Hcount) Hrun
                 |m frame feedback_receive_time Hm (Hgroups & Hqueue & Hcount)
                 |m now tt rd handshake Hm (Hgroups & Hqueue & Hcount)
                 |flag m Hm (Hgroups & Hqueue & Hcount)].
  - split; [apply GroupsConsistent_empty|]. split; [apply NoDup_nil_2|done].
  - unfold SetFromConfig, MaybeEnablePacing.
    destruct (_ && _), (_ =? _), flag; simpl; try destruct (using_pacing_ m); simpl; done.
  - apply IsUnacked_false in Hnew. unfold OnSerializedPacket.
    destruct (sp_retransmittable_frames serialized_packet) as [frames|]; simpl;
      [destruct (bool_decide _); simpl|];
      (split; [by apply GroupsConsistent_AddPacket|done]).
  - apply IsUnacked_false in Hnew. unfold OnRetransmittedPacket in Hrun. simpl in Hrun.
    destruct (QuicUnackedPacketMap.OnRetransmittedPacket _ _ _) as [u|] eqn:Htable;
      simpl in Hrun; [|done].
    injection Hrun as <-. simpl.
    split; [by eapply GroupsConsistent_OnRetransmittedPacket|].
    split; [by apply erase_NoDup|done].
  - destruct (OnPacketSent_keeps m sn time bytes tt rd)
      as (_ & _ & Hcrypto & _ & _ & Hqueue' & Hgroups').
    rewrite Hcrypto. split; [by apply Hgroups'|]. split; [by apply Hqueue'|done].
  - destruct (OnIncomingAck_keeps _ _ _ _ _ Hrun)
      as (m3 & (_ & _ & Hcrypto & _ & _ & Hqueue' & Hgroups') & Hr).
    destruct (QuicUnackedPacketMap.IsUnacked _ _); injection Hr as -> _; simpl;
      rewrite ?Hcrypto; (split; [by apply Hgroups'|]; split; [by apply Hqueue'|done]).
  - destruct (OnRetransmissionTimeout_invariants m m' Hrun) as [Hqueue' Hgroups'].
    destruct (handshake_backoff_capped m) as (_ & Hcapped).
    destruct (Hcapped Hcount) as (Htimeout & _).
    split; [by apply Hgroups'|]. split; [by apply Hqueue'|by apply Htimeout].
  - unfold DiscardUnackedPacket in Hrun.
    destruct (MarkPacketHandled m sn NOT_RECEIVED_BY_PEER) as [r|] eqn:Hr;
      simpl in Hrun; [|done].
    injection Hrun as <-.
    apply MarkPacketHandled_keeps in Hr as (_ & _ & Hcrypto & _ & _ & Hqueue' & Hgroups').
    rewrite Hcrypto. auto.
  - apply RetransmitUnackedPackets_loop_keeps in Hrun
      as (_ & _ & Hcrypto & _ & _ & Hqueue' & Hgroups').
    rewrite Hcrypto. auto.
  - done.
  - done.
  - unfold MaybeEnablePacing. destruct flag, (using_pacing_ m); done.
Qed.

(** ** Pacing is enabled once *)

Lemma keeps_bookkeeping_pacing m m' : keeps_bookkeeping m m' → keeps_pacing m m'.
Proof. by intros (_ & _ & _ & Hpacing & Hlayers & _). Qed.

Lemma keeps_pacing_trans m1 m2 m3 :
  keeps_pacing m1 m2 → keeps_pacing m2 m3 → keeps_pacing m1 m3.
Proof. unfold keeps_pacing. intros [-> ->] [-> ->]. done. Qed.

Lemma OnRetransmissionTimeout_keeps_pacing m m' :
  (RetransmitCryptoPackets m = Some m' → keeps_pacing m m')
  ∧ (RetransmitOldestPacket m = Some m' → keeps_pacing m m')
  ∧ (RetransmitAllPackets m = Some m' → keeps_pacing m m')
  ∧ (OnRetransmissionTimeout m = Some m' → keeps_pacing m m').
Proof.
  assert (Hcrypto : ∀ m0, RetransmitCryptoPackets m0 = Some m' → keeps_pacing m0 m').
  { intros m0. unfold RetransmitCryptoPackets.
    by intros (_ & _ & _ & Hpacing & Hlayers & _)%RetransmitCryptoPackets_loop_keeps. }
  assert (Holdest : ∀ m0, RetransmitOldestPacket m0 = Some m' → keeps_pacing m0 m').
  { intros m0. unfold RetransmitOldestPacket.
    by intros (_ & _ & _ & Hpacing & Hlayers & _)%RetransmitOldestPacket_loop_keeps. }
  assert (Hall : ∀ m0, RetransmitAllPackets m0 = Some m' → keeps_pacing m0 m').
  { intros m0. unfold RetransmitAllPackets.
    destruct (RetransmitAllPackets_loop _ _ _) as [r|] eqn:Hloop; simpl; [|done].
    apply RetransmitAllPackets_loop_keeps in Hloop as (_ & _ & _ & Hpacing & Hlayers & _).
    destruct r.2; intros [= <-]; unfold keeps_pacing; simpl;
      by rewrite pacing_layers_map. }
  split; [apply Hcrypto|]. split; [apply Holdest|]. split; [apply Hall|].
  unfold OnRetransmissionTimeout. destruct (GetRetransmissionMode m).
  - by intros ?%Hall.
  - by intros ?%Holdest.
  - by intros ?%Hcrypto.
Qed.

(** A call of [SetFromConfig] wraps the controller exactly when the
    configuration asks for [PACE], the flag is set and pacing is not in use
    yet. *)
Lemma SetFromConfig_wraps (FLAGS_enable_quic_pacing : bool) m config :
  let m' := SetFromConfig FLAGS_enable_quic_pacing m config in
  let enable :=
    bool_decide (congestion_control config = kPACE) && FLAGS_enable_quic_pacing in
  using_pacing_ m' = using_pacing_ m || enable
  ∧ pacing_layers (send_algorithm_ m')
    = (if enable && negb (using_pacing_ m) then [Delta.FromMicroseconds 1] else [])
      ++ pacing_layers (send_algorithm_ m).
Proof.
  cbv zeta. unfold SetFromConfig, MaybeEnablePacing.
  destruct (Z.eqb_spec (congestion_control config) kPACE) as [Hpace|Hother].
  - rewrite (bool_decide_eq_true_2 _ Hpace).
    destruct FLAGS_enable_quic_pacing, (_ && _), (using_pacing_ m) eqn:Hon; simpl;
      rewrite ?Hon; simpl; rewrite ?pacing_layers_map; simpl; rewrite ?pacing_layers_map;
      done.
  - rewrite (bool_decide_eq_false_2 _ Hother).
    destruct (_ && _), (using_pacing_ m) eqn:Hon; simpl; rewrite ?Hon;
      rewrite ?pacing_layers_map; simpl; rewrite ?pacing_layers_map; done.
Qed.

(** No call undoes the wrap or repeats it: a call leaves the pacing set-up
    as it is, or turns pacing on and adds the one decorator. *)
Lemma Step_pacing m m' :
  Step m m' →
  (using_pacing_ m = true → using_pacing_ m' = true)
  ∧ pacing_layers (send_algorithm_ m')
    = (if using_pacing_ m' && negb (using_pacing_ m)
       then [Delta.FromMicroseconds 1] else [])
      ++ pacing_layers (send_algorithm_ m).
Proof.
  assert (Hkept : keeps_pacing m m' →
    (using_pacing_ m = true → using_pacing_ m' = true)
    ∧ pacing_layers (send_algorithm_ m')
      = (if using_pacing_ m' && negb (using_pacing_ m)
         then [Delta.FromMicroseconds 1] else [])
        ++ pacing_layers (send_algorithm_ m)).
  { intros [-> ->]. split; [done|]. by destruct (using_pacing_ m). }
  destruct 1 as [flag m config
                |m serialized_packet
                |m old_sn new_sn m' Hrun
                |fuel m received_info ack_receive_time m' reset_alarm Hrun
                |m sn m' Hrun
                |fuel m received_info m' Hrun
                |fuel m retransmission_type m' Hrun
                |m sn transmission_type m' Hrun
                |m sn received_by_peer m' it Hrun
                |m sn time bytes transmission_type has_retransmittable_data
                |m m' Hrun
                |m m' Hrun
                |m m' Hrun
                |m m' Hrun
                |m sn
                |m frame feedback_receive_time
                |m received_info ack_receive_time m' Hrun
                |m received_info ack_receive_time
                |m now transmission_type retransmittable handshake
                |flag m].
  - destruct (SetFromConfig_wraps flag m config) as [Hflag Hlayers].
    cbv zeta in Hflag, Hlayers. split; [rewrite Hflag; by intros ->|].
    rewrite Hlayers, Hflag. by destruct (using_pacing_ m), (_ && flag).
  - apply Hkept. unfold OnSerializedPacket.
    destruct (sp_retransmittable_frames serialized_packet) as [frames|]; simpl;
      [destruct (bool_decide _); simpl|]; done.
  - apply Hkept. unfold OnRetransmittedPacket in Hrun. simpl in Hrun.
    destruct (QuicUnackedPacketMap.OnRetransmittedPacket _ _ _) as [u|]; simpl in Hrun;
      [|done].
    by injection Hrun as <-.
  - apply Hkept.
    destruct (OnIncomingAck_keeps _ _ _ _ _ Hrun) as (m3 & Hkeeps & Hr).
    apply keeps_bookkeeping_pacing in Hkeeps.
    destruct (QuicUnackedPacketMap.IsUnacked _ _); by injection Hr as -> _.
  - apply Hkept, keeps_bookkeeping_pacing. unfold DiscardUnackedPacket in Hrun.
    destruct (MarkPacketHandled m sn NOT_RECEIVED_BY_PEER) as [r|] eqn:Hr;
      simpl in Hrun; [|done].
    injection Hrun as <-. by eapply MarkPacketHandled_keeps.
  - by eapply Hkept, keeps_bookkeeping_pacing, HandleAckForSentPackets_keeps.
  - by eapply Hkept, keeps_bookkeeping_pacing, RetransmitUnackedPackets_loop_keeps.
  - by eapply Hkept, keeps_bookkeeping_pacing, MarkForRetransmission_keeps.
  - apply Hkept, keeps_bookkeeping_pacing.
    by apply (MarkPacketHandled_keeps m sn received_by_peer (m', it)).
  - apply Hkept, keeps_bookkeeping_pacing, OnPacketSent_keeps.
  - destruct (OnRetransmissionTimeout_keeps_pacing m m') as (? & ? & ? & ?). auto.
  - destruct (OnRetransmissionTimeout_keeps_pacing m m') as (? & ? & ? & ?). auto.
  - destruct (OnRetransmissionTimeout_keeps_pacing m m') as (? & ? & ? & ?). auto.
  - destruct (OnRetransmissionTimeout_keeps_pacing m m') as (? & ? & ? & ?). auto.
  - apply Hkept, keeps_bookkeeping_pacing. by destruct (OnPacketAbandoned_spec m sn).
  - apply Hkept. unfold keeps_pacing, OnIncomingQuicCongestionFeedbackFrame. simpl.
    by rewrite pacing_layers_map.
  - apply Hkept, keeps_bookkeeping_pacing.
    destruct (MaybeRetransmitOnAckFrame_spec m received_info ack_receive_time)
      as (m1 & Hrun1 & Hkeeps & _).
    congruence.
  - apply Hkept, keeps_bookkeeping_pacing.
    by destruct (MaybeUpdateRTT_spec m received_info ack_receive_time).
  - apply Hkept. unfold keeps_pacing, TimeUntilSend. simpl.
    by rewrite pacing_layers_TimeUntilSend.
  - unfold MaybeEnablePacing. destruct flag, (using_pacing_ m) eqn:Hon; simpl;
      rewrite ?Hon; done.
Qed.

Lemma rtc_Step_pacing m later :
  rtc Step m later →
  (using_pacing_ m = true → using_pacing_ later = true)
  ∧ pacing_layers (send_algorithm_ later)
    = (if using_pacing_ later && negb (using_pacing_ m)
       then [Delta.FromMicroseconds 1] else [])
      ++ pacing_layers (send_algorithm_ m).
Proof.
  induction 1 as [m|m m1 later Hstep _ [Hon Hlayers]].
  - split; [done|]. by destruct (using_pacing_ m).
  - apply Step_pacing in Hstep as [Hon1 Hlayers1]. split; [auto|].
    rewrite Hlayers, Hlayers1.
    destruct (using_pacing_ m), (using_pacing_ m1), (using_pacing_ later); simpl;
      try done; first [by specialize (Hon1 eq_refl)|by specialize (Hon eq_refl)].
Qed.

(** C9, as amended.  For a configuration whose [congestion_control] is
    [PACE], [SetFromConfig] wraps the send algorithm in one pacing decorator
    of 1 microsecond granularity, and the manager is using pacing afterwards,
    when [FLAGS_enable_quic_pacing] is set and pacing is not in use yet.  With
    the flag clear, or for another [congestion_control] value, the call wraps
    nothing and leaves [using_pacing_] as it is.  The wrap is one-way: over
    any sequence of calls of the manager's functions, with any arguments and
    any value of the flag, [using_pacing_] once set stays set and the
    decorators stay as they are, and a decorator is added only by turning
    pacing on; so a manager never has more than the one decorator. *)
Theorem SetFromConfig_pacing (FLAGS_enable_quic_pacing : bool) m config :
  let m' := SetFromConfig FLAGS_enable_quic_pacing m config in
  let enable :=
    bool_decide (congestion_control config = kPACE) && FLAGS_enable_quic_pacing in
  using_pacing_ m' = using_pacing_ m || enable
  ∧ pacing_layers (send_algorithm_ m')
    = (if enable && negb (using_pacing_ m) then [Delta.FromMicroseconds 1] else [])
      ++ pacing_layers (send_algorithm_ m)
  ∧ (congestion_control config = kPACE → FLAGS_enable_quic_pacing = true →
     using_pacing_ m = false →
     using_pacing_ m' = true
     ∧ pacing_layers (send_algorithm_ m')
       = Delta.FromMicroseconds 1 :: pacing_layers (send_algorithm_ m))
  ∧ (FLAGS_enable_quic_pacing = false ∨ congestion_control config ≠ kPACE →
     using_pacing_ m' = using_pacing_ m
     ∧ pacing_layers (send_algorithm_ m') = pacing_layers (send_algorithm_ m))
  ∧ (∀ later,
       rtc Step m later →
       (using_pacing_ m = true →
        using_pacing_ later = true
        ∧ pacing_layers (send_algorithm_ later) = pacing_layers (send_algorithm_ m))
       ∧ pacing_layers (send_algorithm_ later)
         = (if using_pacing_ later && negb (using_pacing_ m)
            then [Delta.FromMicroseconds 1] else [])
           ++ pacing_layers (send_algorithm_ m))
  ∧ (∀ is_server algorithm,
       rtc Step (Create is_server algorithm) m →
       pacing_layers (send_algorithm_ m)
       = if using_pacing_ m then [Delta.FromMicroseconds 1] else []).
Proof.
  cbv zeta. destruct (SetFromConfig_wraps FLAGS_enable_quic_pacing m config)
    as [Hflag Hlayers].
  cbv zeta in Hflag, Hlayers.
  split; [done|]. split; [done|]. split; [|split; [|split]].
  - intros Hpace -> Hoff. rewrite Hflag, Hlayers, Hoff, (bool_decide_eq_true_2 _ Hpace).
    done.
  - intros Hno. rewrite Hflag, Hlayers.
    assert (bool_decide (congestion_control config = kPACE) && FLAGS_enable_quic_pacing
            = false) as ->; [|by rewrite orb_false_r].
    destruct Hno as [->|Hother]; [apply andb_false_r|].
    by rewrite (bool_decide_eq_false_2 _ Hother).
  - intros later Hlater. destruct (rtc_Step_pacing m later Hlater) as [Hon Hwrap].
    split; [|done]. intros Hset. split; [auto|].
    by rewrite Hwrap, Hset, andb_false_r.
  - intros is_server algorithm Hcalls.
    destruct (rtc_Step_pacing _ _ Hcalls) as [_ Hwrap]. rewrite Hwrap. simpl.
    rewrite andb_true_r, app_nil_r. done.
Qed.

(** ** The queue holds a sequence number once *)

(** C10. Enqueueing a sequence number that is already in the
    pending-retransmission queue, with any reason, leaves the queue (and the
    whole state) as it was: the entry and its first reason stay.  With that
    guard an enqueue never gives a sequence number a second entry, and no
    reachable state has a sequence number queued twice. *)
Theorem MarkForRetransmission_keeps_first_entry m sn transmission_type :
  sn ∈ (pending_retransmissions_ m).*1 →
  (∀ m', MarkForRetransmission m sn transmission_type = Some m' → m' = m)
  ∧ (QuicUnackedPacketMap.IsUnacked (unacked_packets_ m) sn = true →
     MarkForRetransmission m sn transmission_type = Some m)
  ∧ (∀ reason, (sn, reason) ∈ pending_retransmissions_ m →
     ∀ m', MarkForRetransmission m sn transmission_type = Some m' →
           pending_retransmissions_ m' = pending_retransmissions_ m
           ∧ (sn, reason) ∈ pending_retransmissions_ m')
  ∧ (∀ sn' transmission_type' m',
       NoDup (pending_retransmissions_ m).*1 →
       MarkForRetransmission m sn' transmission_type' = Some m' →
       NoDup (pending_retransmissions_ m').*1)
  ∧ (∀ reached, Reachable reached → NoDup (pending_retransmissions_ reached).*1).
Proof.
  intros Hin. apply ContainsKey_true in Hin.
  assert (Hsame : ∀ m', MarkForRetransmission m sn transmission_type = Some m' → m' = m).
  { intros m'. unfold MarkForRetransmission.
    destruct (QuicUnackedPacketMap.GetTransmissionInfo _ _); simpl; [|done].
    rewrite Hin. congruence. }
  split; [done|]. split; [|split; [|split]].
  - unfold QuicUnackedPacketMap.IsUnacked, MarkForRetransmission,
      QuicUnackedPacketMap.GetTransmissionInfo.
    intros [info Hinfo]%bool_decide_eq_true. rewrite Hinfo. simpl. by rewrite Hin.
  - intros reason Hreason m' Hm'. apply Hsame in Hm'. by subst.
  - intros sn' tt' m'. apply MarkForRetransmission_NoDup.
  - intros reached Hreached. by destruct (Reachable_invariant reached Hreached) as (_ & ? & _).
Qed.

(** * Further properties of the code *)

(** ** Configuration *)

(** X1. [SetFromConfig] takes the configured initial round-trip time as the
    RTT sample exactly when that time is positive and the manager has no
    sample yet, on a server and on a client alike; a sample the manager
    already has is never overwritten.  The table and the queue are left as
    they are. *)
Theorem SetFromConfig_initial_rtt (FLAGS_enable_quic_pacing : bool) m config :
  let m' := SetFromConfig FLAGS_enable_quic_pacing m config in
  rtt_sample_ m'
  = (if bool_decide (0 < initial_round_trip_time_us config ∧ rtt_sample_ m = Delta.Infinite)
     then Delta.FromMicroseconds (initial_round_trip_time_us config)
     else rtt_sample_ m)
  ∧ (rtt_sample_ m ≠ Delta.Infinite → rtt_sample_ m' = rtt_sample_ m)
  ∧ unacked_packets_ m' = unacked_packets_ m
  ∧ pending_retransmissions_ m' = pending_retransmissions_ m
  ∧ is_server_ m' = is_server_ m.
Proof.
  intros m'. subst m'. unfold SetFromConfig, MaybeEnablePacing, Delta.IsInfinite.
  assert (Hcond :
    (0 <? initial_round_trip_time_us config) && (rtt_sample_ m =? Delta.Infinite)
    = bool_decide (0 < initial_round_trip_time_us config ∧ rtt_sample_ m = Delta.Infinite)).
  { destruct (Z.ltb_spec 0 (initial_round_trip_time_us config)),
      (Z.eqb_spec (rtt_sample_ m) Delta.Infinite); simpl;
      [rewrite bool_decide_eq_true_2 by done
      |rewrite bool_decide_eq_false_2 by tauto
      |rewrite bool_decide_eq_false_2 by lia
      |rewrite bool_decide_eq_false_2 by lia]; done. }
  rewrite Hcond.
  split; [|split].
  - case_bool_decide; destruct (_ =? kPACE), FLAGS_enable_quic_pacing; simpl;
      try destruct (using_pacing_ m); done.
  - intros Hsample. rewrite bool_decide_eq_false_2 by tauto.
    destruct (_ =? kPACE), FLAGS_enable_quic_pacing; simpl;
      try destruct (using_pacing_ m); done.
  - case_bool_decide; destruct (_ =? kPACE), FLAGS_enable_quic_pacing; simpl;
      try destruct (using_pacing_ m); done.
Qed.

(** ** Abandoning a packet twice *)

(** X2. [OnPacketAbandoned] tells the congestion controller about a packet
    only while the packet is pending and clears the pending flag: on a packet
    that is not pending (or has no record) it changes nothing, so abandoning
    a packet a second time has no effect.  The other records and the queue
    are never touched. *)
Theorem OnPacketAbandoned_once m sn :
  let m' := OnPacketAbandoned m sn in
  QuicUnackedPacketMap.IsPending (unacked_packets_ m') sn = false
  ∧ (QuicUnackedPacketMap.IsPending (unacked_packets_ m) sn = false → m' = m)
  ∧ OnPacketAbandoned m' sn = m'
  ∧ (∀ info, packets m !! sn = Some info → pending info = true →
       packets m' !! sn = Some (set_pending_flag false info)
       ∧ send_algorithm_ m'
         = SendAlgorithmInterface.OnPacketAbandoned (send_algorithm_ m) sn (bytes_sent info))
  ∧ (∀ k, k ≠ sn → packets m' !! k = packets m !! k)
  ∧ pending_retransmissions_ m' = pending_retransmissions_ m.
Proof.
  intros m'.
  assert (Hidle : ∀ x, QuicUnackedPacketMap.IsPending (unacked_packets_ x) sn = false →
                       OnPacketAbandoned x sn = x).
  { intros x Hx. unfold OnPacketAbandoned. by rewrite Hx. }
  assert (Hcleared : QuicUnackedPacketMap.IsPending (unacked_packets_ m') sn = false).
  { subst m'. unfold OnPacketAbandoned.
    destruct (QuicUnackedPacketMap.IsPending (unacked_packets_ m) sn) eqn:Hpending; [|done].
    unfold QuicUnackedPacketMap.IsPending, QuicUnackedPacketMap.GetTransmissionInfo in *.
    destruct (packets m !! sn) as [info|] eqn:Hinfo; [|done]. simpl.
    by rewrite lookup_alter_eq, Hinfo. }
  split; [done|]. split; [apply Hidle|]. split; [by apply Hidle|].
  subst m'. unfold OnPacketAbandoned, QuicUnackedPacketMap.IsPending,
    QuicUnackedPacketMap.GetTransmissionInfo.
  split; [|split].
  - intros info Hinfo Hpending. rewrite Hinfo, Hpending. simpl.
    by rewrite lookup_alter_eq, Hinfo.
  - intros k Hk. destruct (packets m !! sn) as [info|]; [|done].
    destruct (pending info); [|done]. simpl. by rewrite lookup_alter_ne.
  - destruct (packets m !! sn) as [info|]; [|done]. by destruct (pending info).
Qed.

(** ** The delays of the three timers *)

(** X3. Within its cap of 5 backoffs the handshake retransmission delay is
    the larger of 10 ms and one and a half times the smoothed RTT in whole
    milliseconds, times two to the power of the backoff count: it is never
    below 10 ms, and one more backoff doubles it. *)
Theorem GetCryptoRetransmissionDelay_doubles m m' :
  0 <= SmoothedRtt m < 2 ^ 50 →
  SmoothedRtt m' = SmoothedRtt m →
  consecutive_crypto_retransmission_count_ m'
  = (consecutive_crypto_retransmission_count_ m + 1)%N →
  (consecutive_crypto_retransmission_count_ m' <= kMaxHandshakeRetransmissionBackoffs)%N →
  GetCryptoRetransmissionDelay m
  = Z.max 10 ((3 * (SmoothedRtt m `quot` 1000)) `quot` 2)
    * 2 ^ Z.of_N (consecutive_crypto_retransmission_count_ m) * 1000
  ∧ 10 * 1000 <= GetCryptoRetransmissionDelay m
  ∧ GetCryptoRetransmissionDelay m' = 2 * GetCryptoRetransmissionDelay m.
Proof.
  intros [Hlo Hhi] Hsame Hnext Hcap. unfold kMaxHandshakeRetransmissionBackoffs in Hcap.
  assert (Hcomputed : ∀ x,
    SmoothedRtt x = SmoothedRtt m →
    (consecutive_crypto_retransmission_count_ x <= 5)%N →
    GetCryptoRetransmissionDelay x
    = Z.max 10 ((3 * (SmoothedRtt m `quot` 1000)) `quot` 2)
      * 2 ^ Z.of_N (consecutive_crypto_retransmission_count_ x) * 1000).
  { intros x Hx Hcount. unfold GetCryptoRetransmissionDelay. rewrite Hx.
    set (srtt := SmoothedRtt m) in *.
    unfold Delta.ToMilliseconds, Delta.FromMilliseconds, kMinHandshakeTimeoutMs.
    rewrite Z.shiftl_mul_pow2 by lia.
    set (ms := srtt `quot` 1000).
    assert (0 <= ms <= 2 ^ 50 `quot` 1000) as [Hms1 Hms2].
    { unfold ms. split; [apply Z.quot_pos; lia|]. apply Z.quot_le_mono; lia. }
    change (2 ^ 50 `quot` 1000) with 1125899906842 in Hms2.
    assert (0 <= (3 * ms) `quot` 2 <= 3 * ms) as [Hq1 Hq2].
    { split; [apply Z.quot_pos; lia|]. apply Z.quot_le_upper_bound; lia. }
    set (delay_ms := Z.max 10 ((3 * ms) `quot` 2)).
    assert (10 <= delay_ms <= 3377699720526) as [Hd1 Hd2] by (unfold delay_ms; lia).
    assert (1 <= 2 ^ Z.of_N (consecutive_crypto_retransmission_count_ x) <= 32) as [Hp1 Hp2].
    { split.
      - apply (Z.pow_le_mono_r 2 0); lia.
      - change 32 with (2 ^ 5). apply Z.pow_le_mono_r; lia. }
    set (p := 2 ^ Z.of_N (consecutive_crypto_retransmission_count_ x)) in *.
    assert (10 <= delay_ms * p <= 3377699720526 * 32) by nia.
    rewrite (wrap_int64_id (delay_ms * p)).
    2:{ unfold in_int64. change (2 ^ 63) with 9223372036854775808. lia. }
    rewrite wrap_int64_id; [done|].
    unfold in_int64. change (2 ^ 63) with 9223372036854775808. lia. }
  rewrite (Hcomputed m eq_refl) by lia. rewrite (Hcomputed m' Hsame) by lia.
  rewrite Hnext.
  set (delay_ms := Z.max 10 _).
  assert (10 <= delay_ms) by (unfold delay_ms; lia).
  assert (1 <= 2 ^ Z.of_N (consecutive_crypto_retransmission_count_ m)).
  { apply (Z.pow_le_mono_r 2 0); lia. }
  split; [done|]. split; [nia|].
  rewrite N2Z.inj_add, Z.pow_add_r by lia. change (2 ^ Z.of_N 1) with 2. lia.
Qed.

(** X4. The tail-loss-probe delay, for a smoothed RTT below 2^50
    microseconds.  With a single pending packet it is the larger of one and
    a half smoothed RTTs plus the delayed-ack time and two smoothed RTTs, so
    at least 100 ms; with several pending packets it is twice the smoothed
    RTT in whole milliseconds, but at least 10 ms.  Either way it is at
    least 10 ms. *)
Theorem GetTailLossProbeDelay_bounds m :
  0 <= SmoothedRtt m < 2 ^ 50 →
  (QuicUnackedPacketMap.HasMultiplePendingPackets (unacked_packets_ m) = false →
   GetTailLossProbeDelay m
   = Z.max ((3 * SmoothedRtt m) `quot` 2 + DelayedAckTime) (2 * SmoothedRtt m)
   ∧ DelayedAckTime <= GetTailLossProbeDelay m)
  ∧ (QuicUnackedPacketMap.HasMultiplePendingPackets (unacked_packets_ m) = true →
     GetTailLossProbeDelay m = Z.max 10 (2 * (SmoothedRtt m `quot` 1000)) * 1000
     ∧ 2 * SmoothedRtt m - 2000 < GetTailLossProbeDelay m <= Z.max (10 * 1000) (2 * SmoothedRtt m))
  ∧ 10 * 1000 <= GetTailLossProbeDelay m
  ∧ DelayedAckTime = 100 * 1000.
Proof.
  intros [Hlo Hhi]. unfold GetTailLossProbeDelay.
  set (srtt := SmoothedRtt m) in *.
  change DelayedAckTime with 100000.
  change (2 ^ 50) with 1125899906842624 in Hhi.
  assert (Hsingle :
    Delta.Max (Delta.Add (Delta.Multiply_1_5 srtt) 100000) (Delta.Multiply srtt 2)
    = Z.max ((3 * srtt) `quot` 2 + 100000) (2 * srtt)).
  { unfold Delta.Max, Delta.Add, Delta.Multiply, Delta.Multiply_1_5.
    assert (0 <= (3 * srtt) `quot` 2 <= 3 * srtt) as [Hq1 Hq2].
    { split; [apply Z.quot_pos; lia|]. apply Z.quot_le_upper_bound; lia. }
    rewrite (wrap_int64_id ((3 * srtt) `quot` 2)).
    2:{ unfold in_int64. change (2 ^ 63) with 9223372036854775808. lia. }
    rewrite (wrap_int64_id (_ + 100000)).
    2:{ unfold in_int64. change (2 ^ 63) with 9223372036854775808. lia. }
    rewrite (wrap_int64_id (srtt * 2)).
    2:{ unfold in_int64. change (2 ^ 63) with 9223372036854775808. lia. }
    destruct (Z.ltb_spec ((3 * srtt) `quot` 2 + 100000) (srtt * 2)); lia. }
  assert (Hseveral :
    Delta.FromMilliseconds
      (Z.max kMinTailLossProbeTimeoutMs (wrap_int64 (2 * Delta.ToMilliseconds srtt)))
    = Z.max 10 (2 * (srtt `quot` 1000)) * 1000
    ∧ 2 * srtt - 2000 < Z.max 10 (2 * (srtt `quot` 1000)) * 1000
      <= Z.max (10 * 1000) (2 * srtt)).
  { unfold Delta.FromMilliseconds, Delta.ToMilliseconds, kMinTailLossProbeTimeoutMs.
    pose proof (Z.quot_rem' srtt 1000) as Hqr.
    pose proof (Z.rem_bound_pos srtt 1000) as Hrem.
    assert (0 <= srtt `quot` 1000) by (apply Z.quot_pos; lia).
    rewrite (wrap_int64_id (2 * _)).
    2:{ unfold in_int64. change (2 ^ 63) with 9223372036854775808. lia. }
    rewrite wrap_int64_id.
    2:{ unfold in_int64. change (2 ^ 63) with 9223372036854775808. lia. }
    split; [done|]. lia. }
  destruct Hseveral as [Hseveral Hrange].
  assert (0 <= (3 * srtt) `quot` 2) by (apply Z.quot_pos; lia).
  split; [|split; [|split; [|done]]].
  - intros ->. simpl. rewrite Hsingle. split; [done|]. lia.
  - intros ->. simpl. rewrite Hseveral. done.
  - destruct (QuicUnackedPacketMap.HasMultiplePendingPackets _); simpl.
    + rewrite Hseveral. lia.
    + rewrite Hsingle. lia.
Qed.

(** X5. In whole milliseconds the RTO delay never gets shorter when
    [consecutive_rto_count_] grows, and from a count of 10 on it no longer
    changes; one more timeout doubles the delay as long as the doubled delay
    stays below the cap of 60 s.  The delayed-ack time is at most half of
    any RTO delay.  (Suggestions of the controller are taken within 2^52
    microseconds.) *)
Theorem GetRetransmissionDelay_backoff m m' :
  let suggested := SendAlgorithmInterface.RetransmissionDelay (send_algorithm_ m) in
  - 2 ^ 52 <= suggested <= 2 ^ 52 →
  SendAlgorithmInterface.RetransmissionDelay (send_algorithm_ m') = suggested →
  (consecutive_rto_count_ m <= consecutive_rto_count_ m')%N →
  Delta.ToMilliseconds (GetRetransmissionDelay m)
  <= Delta.ToMilliseconds (GetRetransmissionDelay m')
  ∧ ((10 <= consecutive_rto_count_ m)%N →
     GetRetransmissionDelay m' = GetRetransmissionDelay m)
  ∧ (consecutive_rto_count_ m' = (consecutive_rto_count_ m + 1)%N →
     (consecutive_rto_count_ m < 10)%N →
     GetRetransmissionDelay m' < 60000 * 1000 →
     GetRetransmissionDelay m' = 2 * GetRetransmissionDelay m)
  ∧ 2 * DelayedAckTime <= GetRetransmissionDelay m.
Proof.
  intros suggested Hrange Hsame Hcounts.
  rewrite (GetRetransmissionDelay_computed m Hrange).
  rewrite (GetRetransmissionDelay_computed m') by (by rewrite Hsame).
  rewrite Hsame. fold suggested.
  unfold rto_delay_computed, Delta.ToMilliseconds. change DelayedAckTime with 100000.
  set (floored := Z.max _ (200 * 1000)).
  assert (200000 <= floored) by (unfold floored; lia).
  set (c := consecutive_rto_count_ m) in *. set (c' := consecutive_rto_count_ m') in *.
  assert (Hp : 1 <= 2 ^ Z.of_N (N.min c 10) <= 2 ^ Z.of_N (N.min c' 10)).
  { split; [apply (Z.pow_le_mono_r 2 0); lia|apply Z.pow_le_mono_r; lia]. }
  set (p := 2 ^ Z.of_N (N.min c 10)) in *. set (p' := 2 ^ Z.of_N (N.min c' 10)) in *.
  assert (Hscaled : 200000 <= floored * p <= floored * p') by nia.
  assert (Hms : (floored * p) `quot` 1000 <= (floored * p') `quot` 1000).
  { apply Z.quot_le_mono; lia. }
  split; [|split; [|split]].
  - repeat case_bool_decide; change ((60000 * 1000) `quot` 1000) with 60000; lia.
  - intros Hten. assert (Heq : p' = p).
    { unfold p, p'. by rewrite !N.min_r by lia. }
    by rewrite Heq.
  - intros Hnext Hbelow Huncapped.
    assert (Hdouble : p' = 2 * p).
    { unfold p, p'. rewrite Hnext, !N.min_l by lia.
      rewrite N2Z.inj_add, Z.pow_add_r by lia. change (2 ^ Z.of_N 1) with 2. lia. }
    rewrite Hdouble in *. clear Hnext.
    case_bool_decide as Hcap'; [lia|].
    rewrite bool_decide_eq_false_2; [lia|]. lia.
  - case_bool_decide; lia.
Qed.

(** ** The three retransmission timeouts *)

Lemma manager_eta m :
  with_pending_retransmissions (λ _, pending_retransmissions_ m)
    (with_unacked (QuicUnackedPacketMap.with_packets (λ _, packets m)) m) = m.
Proof. destruct m as [u]. by destruct u. Qed.

Lemma queue_eta m : with_pending_retransmissions (λ _, pending_retransmissions_ m) m = m.
Proof. by destruct m. Qed.

Lemma MarkForRetransmission_appends m sn transmission_type :
  is_Some (packets m !! sn) →
  MarkForRetransmission m sn transmission_type
  = Some (with_pending_retransmissions
            (λ q, if ContainsKey q sn then q else q ++ [(sn, transmission_type)]) m).
Proof.
  intros [info Hinfo]. unfold MarkForRetransmission, QuicUnackedPacketMap.GetTransmissionInfo.
  rewrite Hinfo. simpl.
  destruct (ContainsKey _ _) eqn:Hkey; f_equal;
    unfold with_pending_retransmissions, assign; rewrite Hkey; [by destruct m|done].
Qed.

Lemma Exists_entries {B} (P : B → Prop) (p : gmap N B) :
  Exists (λ e, P e.2) (entries p) ↔ map_Exists (λ _, P) p.
Proof.
  rewrite Exists_exists, map_Exists_lookup. split.
  - intros ([k i] & Hin%elem_of_entries & HP). eauto.
  - intros (k & i & Hin & HP). exists (k, i). by rewrite elem_of_entries.
Qed.

Lemma RetransmitAllPackets_loop_spec its packets_retransmitted m :
  NoDup its.*1 →
  (∀ e, e ∈ its → is_Some (packets m !! e.1)) →
  ∃ table q added,
    RetransmitAllPackets_loop its packets_retransmitted m
    = Some (with_pending_retransmissions (λ _, q)
              (with_unacked (QuicUnackedPacketMap.with_packets (λ _, table)) m),
            packets_retransmitted || bool_decide (Exists (λ e, has_frames e.2 = true) its))
    ∧ (∀ k, table !! k = if bool_decide (k ∈ its.*1)
                         then set_pending_flag false <$> packets m !! k
                         else packets m !! k)
    ∧ q = pending_retransmissions_ m ++ added
    ∧ (∀ e, e ∈ added ↔ e.2 = RTO_RETRANSMISSION ∧ (e.1 ∉ queue_keys m)
                          ∧ ∃ i, (e.1, i) ∈ its ∧ has_frames i = true).
Proof.
  revert packets_retransmitted m.
  induction its as [|[k i] rest IH]; intros b m Hnodup Hrecords.
  { exists (packets m), (pending_retransmissions_ m), []. simpl.
    rewrite orb_false_r, manager_eta, app_nil_r.
    split; [done|]. split; [done|]. split; [done|].
    intros e. split; [by intros ?%elem_of_nil|].
    intros (_ & _ & ? & ?%elem_of_nil & _). done. }
  rewrite fmap_cons in Hnodup. apply NoDup_cons in Hnodup as [Hfresh Hnodup].
  cbn [RetransmitAllPackets_loop fst snd] in *.
  set (m1 := with_unacked (λ u, QuicUnackedPacketMap.SetNotPending u k) m).
  assert (Hrecords1 : ∀ e, e ∈ rest → is_Some (packets m1 !! e.1)).
  { intros e He. simpl. rewrite lookup_alter_is_Some. apply Hrecords. by right. }
  assert (Hk : is_Some (packets m1 !! k)).
  { simpl. rewrite lookup_alter_is_Some. apply (Hrecords (k, i)). by left. }
  assert (Htable : ∀ (table' : gmap N TransmissionInfo) k',
    (table' !! k' = if bool_decide (k' ∈ rest.*1)
                    then set_pending_flag false <$> packets m1 !! k'
                    else packets m1 !! k') →
    table' !! k' = if bool_decide (k' ∈ k :: rest.*1)
                   then set_pending_flag false <$> packets m !! k'
                   else packets m !! k').
  { clear IH. intros table' k' ->. simpl. rewrite lookup_alter.
    destruct (decide (k = k')) as [<-|Hne].
    - rewrite (bool_decide_eq_false_2 (k ∈ rest.*1)) by done.
      rewrite bool_decide_eq_true_2 by (by left). done.
    - case_bool_decide as Hin.
      + rewrite bool_decide_eq_true_2 by (by right). done.
      + rewrite bool_decide_eq_false_2; [done|].
        intros [?|?]%elem_of_cons; done. }
  destruct (has_frames i) eqn:Hframes.
  - rewrite (MarkForRetransmission_appends m1 k RTO_RETRANSMISSION Hk). simpl.
    set (m2 := with_pending_retransmissions _ m1).
    destruct (IH true m2 Hnodup) as (table & q & added & -> & Hlookup & Hq & Hadded).
    { exact Hrecords1. }
    exists table, q.
    exists ((if ContainsKey (pending_retransmissions_ m) k then []
             else [(k, RTO_RETRANSMISSION)]) ++ added).
    split.
    { f_equal. f_equal. simpl. rewrite bool_decide_eq_true_2; [by rewrite orb_true_r|].
      apply Exists_cons. by left. }
    split; [intros k'; by apply Htable|].
    split.
    { rewrite Hq. unfold m2. simpl. destruct (ContainsKey _ _); [done|].
      by rewrite <- app_assoc. }
    intros e. rewrite elem_of_app, Hadded. unfold m2. simpl.
    destruct (ContainsKey (pending_retransmissions_ m) k) eqn:Hkey.
    + rewrite elem_of_nil. split.
      * intros [[]|(Hreason & Hnew & i' & Hin & Hi')].
        split; [done|]. split; [done|]. exists i'. split; [by right|done].
      * intros (Hreason & Hnew & i' & Hin & Hi'). right.
        split; [done|]. split; [done|]. exists i'. split; [|done].
        apply elem_of_cons in Hin as [[= Heq _]|Hin]; [|done].
        apply ContainsKey_true in Hkey. by rewrite <- Heq in Hkey.
    + apply ContainsKey_false in Hkey. rewrite list_elem_of_singleton, fmap_app. simpl.
      split.
      * intros [->|(Hreason & Hnew & i' & Hin & Hi')].
        -- split; [done|]. split; [done|]. exists i. split; [by left|done].
        -- split; [done|]. split; [set_solver|]. exists i'. split; [by right|done].
      * intros (Hreason & Hnew & i' & Hin & Hi').
        apply elem_of_cons in Hin as [[= Heq _]|Hin].
        -- left. destruct e as [k' r]. simpl in *. by subst.
        -- right. split; [done|]. split; [|by exists i'].
           intros [?|Heq%list_elem_of_singleton]%elem_of_app; [done|].
           apply Hfresh. rewrite <- Heq. apply list_elem_of_fmap. by exists (e.1, i').
  - destruct (IH b m1 Hnodup) as (table & q & added & -> & Hlookup & Hq & Hadded).
    { exact Hrecords1. }
    exists table, q, added.
    split.
    { f_equal. f_equal. f_equal. apply bool_decide_ext. rewrite Exists_cons. simpl.
      rewrite Hframes. split; [auto|]. by intros [|]. }
    split; [intros k'; by apply Htable|]. split; [done|].
    intros e. rewrite Hadded. simpl. split.
    + intros (Hreason & Hnew & i' & Hin & Hi'). split; [done|]. split; [done|].
      exists i'. split; [by right|done].
    + intros (Hreason & Hnew & i' & Hin & Hi'). split; [done|]. split; [done|].
      exists i'. split; [|done].
      apply elem_of_cons in Hin as [[= _ Heq]|Hin]; [|done]. congruence.
Qed.

(** X6. A timeout in RTO mode leaves no packet pending: every record loses
    its pending flag and is otherwise kept.  Every record with
    retransmittable frames that is not queued yet is appended to the queue
    as an RTO retransmission, and what was queued stays as it was.  The
    congestion controller is told whether anything had frames, and
    [consecutive_rto_count_] is incremented exactly in that case; the RTO
    statistic is incremented either way. *)
Theorem OnRetransmissionTimeout_rto m :
  GetRetransmissionMode m = RTO_MODE →
  ∃ m' added,
    OnRetransmissionTimeout m = Some m'
    ∧ (∀ sn, packets m' !! sn = set_pending_flag false <$> packets m !! sn)
    ∧ QuicUnackedPacketMap.HasPendingPackets (unacked_packets_ m') = false
    ∧ pending_retransmissions_ m' = pending_retransmissions_ m ++ added
    ∧ (∀ sn reason,
         (sn, reason) ∈ added ↔
         reason = RTO_RETRANSMISSION ∧ (sn ∉ queue_keys m)
         ∧ QuicUnackedPacketMap.HasRetransmittableFrames (unacked_packets_ m) sn = true)
    ∧ (let packets_retransmitted :=
         QuicUnackedPacketMap.HasUnackedRetransmittableFrames (unacked_packets_ m) in
       consecutive_rto_count_ m'
       = (if packets_retransmitted then incr_size_t (consecutive_rto_count_ m)
          else consecutive_rto_count_ m)
       ∧ send_algorithm_ m'
         = SendAlgorithmInterface.OnRetransmissionTimeout (send_algorithm_ m)
             packets_retransmitted)
    ∧ consecutive_tlp_count_ m' = consecutive_tlp_count_ m
    ∧ consecutive_crypto_retransmission_count_ m'
      = consecutive_crypto_retransmission_count_ m
    ∧ stats_ m' = incr_rto_count (stats_ m).
Proof.
  intros Hmode. unfold OnRetransmissionTimeout. rewrite Hmode. unfold RetransmitAllPackets.
  set (m0 := with_stats incr_rto_count m).
  destruct (RetransmitAllPackets_loop_spec
              (QuicUnackedPacketMap.begin_to_end (unacked_packets_ m0)) false m0)
    as (table & q & added & -> & Hlookup & Hq & Hadded).
  { apply entries_NoDup_keys. }
  { intros [k i] He%elem_of_entries. simpl. eauto. }
  unfold m0 in *. clear m0. simpl in *.
  assert (Hflag :
    bool_decide (Exists (λ e, has_frames e.2 = true)
                   (QuicUnackedPacketMap.begin_to_end (unacked_packets_ m)))
    = QuicUnackedPacketMap.HasUnackedRetransmittableFrames (unacked_packets_ m)).
  { unfold QuicUnackedPacketMap.HasUnackedRetransmittableFrames. apply bool_decide_ext.
    apply (Exists_entries (λ info, has_frames info = true)). }
  assert (Htable : ∀ sn, table !! sn = set_pending_flag false <$> packets m !! sn).
  { intros sn. rewrite Hlookup.
    destruct (decide (sn ∈ (QuicUnackedPacketMap.begin_to_end (unacked_packets_ m)).*1))
      as [Hin|Hin]; [by rewrite bool_decide_eq_true_2|].
    rewrite bool_decide_eq_false_2 by done.
    unfold QuicUnackedPacketMap.begin_to_end in Hin. rewrite elem_of_entries_keys in Hin.
    apply eq_None_not_Some in Hin. by rewrite Hin. }
  assert (Hqueue : ∀ sn reason,
    (sn, reason) ∈ added ↔
    reason = RTO_RETRANSMISSION ∧ (sn ∉ queue_keys m)
    ∧ QuicUnackedPacketMap.HasRetransmittableFrames (unacked_packets_ m) sn = true).
  { intros sn reason. rewrite Hadded. simpl.
    unfold QuicUnackedPacketMap.HasRetransmittableFrames, QuicUnackedPacketMap.begin_to_end.
    split.
    - intros (Hreason & Hnew & i & Hin%elem_of_entries & Hi). simpl in Hin.
      by rewrite Hin.
    - intros (Hreason & Hnew & Hi). split; [done|]. split; [done|].
      destruct (packets m !! sn) as [i|] eqn:Hin; [|done]. exists i.
      by rewrite elem_of_entries. }
  assert (Hnone : ∀ u,
    (∀ sn, QuicUnackedPacketMap.unacked_packets_ u !! sn = table !! sn) →
    QuicUnackedPacketMap.HasPendingPackets u = false).
  { intros u Hu. apply HasPendingPackets_false. intros sn.
    unfold QuicUnackedPacketMap.IsPending. rewrite Hu, Htable.
    by destruct (packets m !! sn). }
  rewrite Hflag.
  destruct (QuicUnackedPacketMap.HasUnackedRetransmittableFrames (unacked_packets_ m));
    (eexists; exists added; split; [done|]); simpl;
    (split; [done|]); (split; [by apply Hnone|]); done.
Qed.

Lemma RetransmitOldestPacket_loop_spec its m :
  StronglySorted key_le its →
  (∀ e, e ∈ its → is_Some (packets m !! e.1)) →
  ∃ q,
    RetransmitOldestPacket_loop its m = Some (with_pending_retransmissions (λ _, q) m)
    ∧ (∀ e, e ∈ its → pending e.2 = true → has_frames e.2 = true →
         (∀ e', e' ∈ its → pending e'.2 = true → has_frames e'.2 = true → (e.1 <= e'.1)%N) →
         q = if ContainsKey (pending_retransmissions_ m) e.1
             then pending_retransmissions_ m
             else pending_retransmissions_ m ++ [(e.1, TLP_RETRANSMISSION)])
    ∧ ((∀ e, e ∈ its → pending e.2 = true → has_frames e.2 = false) →
       q = pending_retransmissions_ m).
Proof.
  induction 1 as [|[k i] rest Hsorted IH Hall]; intros Hrecords.
  { exists (pending_retransmissions_ m). simpl. rewrite queue_eta.
    split; [done|]. split; [by intros e ?%elem_of_nil|done]. }
  cbn [RetransmitOldestPacket_loop fst snd].
  destruct (pending i) eqn:Hpending, (has_frames i) eqn:Hframes; cbn [negb orb].
  1:{ (* the first pending packet with frames *)
      rewrite MarkForRetransmission_appends by (apply (Hrecords (k, i)); by left).
      eexists. split; [reflexivity|]. split.
      - intros e He Hp Hf Hmin. simpl.
        assert (Heq : e.1 = k); [|by rewrite Heq].
        apply elem_of_cons in He as [->|He]; [done|].
        assert (e.1 <= k)%N by (apply (Hmin (k, i)); [by left|done..]).
        rewrite Forall_forall in Hall. apply Hall in He. unfold key_le in He. simpl in *. lia.
      - intros Hnone. specialize (Hnone (k, i)). simpl in Hnone.
        rewrite Hnone in Hframes; [done|by left|done]. }
  all: destruct IH as (q & Hrun & Hfirst & Hnone); [intros e He; apply Hrecords; by right|];
    exists q; (split; [done|]); split.
  all: try (intros e He Hp Hf Hmin; apply elem_of_cons in He as [->|He];
            [simpl in *; congruence|];
            apply Hfirst; [done..|]; intros e' He'; apply Hmin; by right).
  all: intros Hno; apply Hnone; intros e He; apply Hno; by right.
Qed.

(** X7. A timeout in TLP mode abandons nothing and leaves the table as it
    is.  It appends one entry to the queue, a TLP retransmission of the
    lowest-numbered pending packet that has retransmittable frames, unless
    that packet is queued already or there is no such packet, in which case
    the queue stays as it was.  [consecutive_tlp_count_] and the TLP
    statistic are incremented in every case. *)
Theorem OnRetransmissionTimeout_tlp m :
  GetRetransmissionMode m = TLP_MODE →
  ∃ m',
    OnRetransmissionTimeout m = Some m'
    ∧ unacked_packets_ m' = unacked_packets_ m
    ∧ send_algorithm_ m' = send_algorithm_ m
    ∧ consecutive_tlp_count_ m' = incr_size_t (consecutive_tlp_count_ m)
    ∧ consecutive_rto_count_ m' = consecutive_rto_count_ m
    ∧ consecutive_crypto_retransmission_count_ m'
      = consecutive_crypto_retransmission_count_ m
    ∧ stats_ m' = incr_tlp_count (stats_ m)
    ∧ (∀ sn info,
         packets m !! sn = Some info → pending info = true → has_frames info = true →
         (∀ k kinfo, packets m !! k = Some kinfo → pending kinfo = true →
                     has_frames kinfo = true → (sn <= k)%N) →
         pending_retransmissions_ m'
         = if bool_decide (sn ∈ queue_keys m)
           then pending_retransmissions_ m
           else pending_retransmissions_ m ++ [(sn, TLP_RETRANSMISSION)])
    ∧ ((∀ sn info, packets m !! sn = Some info → pending info = true →
                   has_frames info = false) →
       pending_retransmissions_ m' = pending_retransmissions_ m).
Proof.
  intros Hmode. unfold OnRetransmissionTimeout. rewrite Hmode. unfold RetransmitOldestPacket.
  set (m1 := with_consecutive_counts _ _ _ _).
  destruct (RetransmitOldestPacket_loop_spec
              (QuicUnackedPacketMap.begin_to_end (unacked_packets_ m1)) m1)
    as (q & -> & Hfirst & Hnone).
  { apply entries_sorted. }
  { intros [k i] He%elem_of_entries. simpl. eauto. }
  unfold m1 in *. clear m1. simpl in *.
  eexists. split; [done|]. simpl. do 6 (split; [done|]). split.
  - intros sn info Hinfo Hp Hf Hmin.
    rewrite (Hfirst (sn, info)); [done|by apply elem_of_entries|done|done|].
    intros [k kinfo] Hk%elem_of_entries. simpl. by apply Hmin.
  - intros Hno. apply Hnone. intros [k kinfo] Hk%elem_of_entries. simpl. by apply (Hno k).
Qed.

Lemma manager_eta_with_algorithm m :
  with_send_algorithm (λ _, send_algorithm_ m)
    (with_pending_retransmissions (λ _, pending_retransmissions_ m)
       (with_unacked (QuicUnackedPacketMap.with_packets (λ _, packets m)) m)) = m.
Proof. destruct m as [u]. by destruct u. Qed.

Lemma RetransmitCryptoPackets_loop_spec its m :
  NoDup its.*1 →
  (∀ e, e ∈ its → packets m !! e.1 = Some e.2) →
  ∃ table q added s,
    RetransmitCryptoPackets_loop its m
    = Some (with_send_algorithm (λ _, s)
              (with_pending_retransmissions (λ _, q)
                 (with_unacked (QuicUnackedPacketMap.with_packets (λ _, table)) m)))
    ∧ (∀ k, table !! k
            = if bool_decide (k ∈ its.*1)
              then (λ info, if pending info && HasCryptoHandshake info
                            then set_pending_flag false info else info) <$> packets m !! k
              else packets m !! k)
    ∧ q = pending_retransmissions_ m ++ added
    ∧ (∀ e, e ∈ added ↔ e.2 = TLP_RETRANSMISSION ∧ (e.1 ∉ queue_keys m)
                          ∧ ∃ i, (e.1, i) ∈ its ∧ pending i = true
                                 ∧ HasCryptoHandshake i = true).
Proof.
  revert m. induction its as [|[k i] rest IH]; intros m Hnodup Hrecords.
  { exists (packets m), (pending_retransmissions_ m), [], (send_algorithm_ m). simpl.
    rewrite manager_eta_with_algorithm, app_nil_r.
    split; [done|]. split; [done|]. split; [done|].
    intros e. split; [by intros ?%elem_of_nil|].
    intros (_ & _ & ? & ?%elem_of_nil & _). done. }
  rewrite fmap_cons in Hnodup. apply NoDup_cons in Hnodup as [Hfresh Hnodup].
  cbn [RetransmitCryptoPackets_loop fst snd] in *.
  assert (Hk : packets m !! k = Some i) by (apply (Hrecords (k, i)); by left).
  assert (Hne : ∀ e, e ∈ rest → e.1 ≠ k).
  { intros e He <-. apply Hfresh, list_elem_of_fmap. by exists e. }
  destruct (negb (pending i) || negb (HasCryptoHandshake i)) eqn:Hskip.
  - assert (Hcond : pending i && HasCryptoHandshake i = false).
    { by destruct (pending i), (HasCryptoHandshake i). }
    destruct (IH m Hnodup) as (table & q & added & s & -> & Hlookup & Hq & Hadded).
    { intros e He. apply Hrecords. by right. }
    exists table, q, added, s. split; [done|]. split; [|split; [done|]].
    + intros k'. rewrite Hlookup. destruct (decide (k' = k)) as [->|Hk'].
      * rewrite bool_decide_eq_false_2 by done.
        rewrite bool_decide_eq_true_2 by (by left).
        rewrite Hk. simpl. by rewrite Hcond.
      * destruct (decide (k' ∈ rest.*1)) as [Hin|Hout].
        -- rewrite !bool_decide_eq_true_2; [done|by right|done].
        -- rewrite !bool_decide_eq_false_2; [done| |done].
           intros [?|?]%elem_of_cons; done.
    + intros e. rewrite Hadded. split.
      * intros (Hreason & Hnew & i' & Hin & Hi'). split; [done|]. split; [done|].
        exists i'. split; [by right|done].
      * intros (Hreason & Hnew & i' & Hin & Hp & Hc). split; [done|]. split; [done|].
        exists i'. split; [|done].
        apply elem_of_cons in Hin as [[= _ Heq]|Hin]; [|done].
        subst i'. rewrite Hp, Hc in Hcond. done.
  - assert (pending i = true ∧ HasCryptoHandshake i = true) as [Hp Hc].
    { by destruct (pending i), (HasCryptoHandshake i). }
    rewrite MarkForRetransmission_appends by eauto. cbn [mbind option_bind].
    set (m1 := with_pending_retransmissions _ m).
    assert (Habandon :
      OnPacketAbandoned m1 k
      = with_unacked (λ u, QuicUnackedPacketMap.SetNotPending u k)
          (with_send_algorithm
             (λ s, SendAlgorithmInterface.OnPacketAbandoned s k (bytes_sent i)) m1)).
    { unfold OnPacketAbandoned, QuicUnackedPacketMap.IsPending,
        QuicUnackedPacketMap.GetTransmissionInfo. simpl. by rewrite Hk, Hp. }
    rewrite Habandon. set (m2 := with_unacked _ _).
    destruct (IH m2 Hnodup) as (table & q & added & s & -> & Hlookup & Hq & Hadded).
    { intros e He. simpl. rewrite lookup_alter_ne by (symmetry; by apply Hne).
      apply Hrecords. by right. }
    exists table, q.
    exists ((if ContainsKey (pending_retransmissions_ m) k then []
             else [(k, TLP_RETRANSMISSION)]) ++ added), s.
    split; [done|]. split; [|split].
    + intros k'. rewrite Hlookup. simpl. rewrite lookup_alter.
      destruct (decide (k = k')) as [<-|Hk'].
      * rewrite bool_decide_eq_false_2 by done.
        rewrite bool_decide_eq_true_2 by (by left).
        rewrite Hk. simpl. by rewrite Hp, Hc.
      * destruct (decide (k' ∈ rest.*1)) as [Hin|Hout].
        -- rewrite !bool_decide_eq_true_2; [done|by right|done].
        -- rewrite !bool_decide_eq_false_2; [done| |done].
           intros [?|?]%elem_of_cons; done.
    + rewrite Hq. simpl. destruct (ContainsKey _ _); [done|]. by rewrite <- app_assoc.
    + intros e. rewrite elem_of_app, Hadded. simpl.
      destruct (ContainsKey (pending_retransmissions_ m) k) eqn:Hkey.
      * rewrite elem_of_nil. split.
        -- intros [[]|(Hreason & Hnew & i' & Hin & Hi')].
           split; [done|]. split; [done|]. exists i'. split; [by right|done].
        -- intros (Hreason & Hnew & i' & Hin & Hi'). right.
           split; [done|]. split; [done|]. exists i'. split; [|done].
           apply elem_of_cons in Hin as [[= Heq _]|Hin]; [|done].
           apply ContainsKey_true in Hkey. by rewrite <- Heq in Hkey.
      * apply ContainsKey_false in Hkey. rewrite list_elem_of_singleton, fmap_app. simpl.
        split.
        -- intros [->|(Hreason & Hnew & i' & Hin & Hi')].
           ++ split; [done|]. split; [done|]. exists i. split; [by left|done].
           ++ split; [done|]. split; [set_solver|]. exists i'. split; [by right|done].
        -- intros (Hreason & Hnew & i' & Hin & Hi').
           apply elem_of_cons in Hin as [[= Heq _]|Hin].
           ++ left. destruct e as [k' r]. simpl in *. by subst.
           ++ right. split; [done|]. split; [|by exists i'].
              intros [?|Heq%list_elem_of_singleton]%elem_of_app; [done|].
              by apply (Hne (e.1, i')).
Qed.

(** X8. A timeout in HANDSHAKE mode raises the handshake backoff count by
    one, up to its cap of 5.  Every pending crypto handshake packet is
    abandoned (its record loses the pending flag) and, unless it is queued
    already, appended to the queue as a TLP retransmission; every other
    record and every entry that was queued stay as they were.
    [pending_crypto_packet_count_] is not changed, and the handshake
    statistic is incremented. *)
Theorem OnRetransmissionTimeout_handshake m :
  GetRetransmissionMode m = HANDSHAKE_MODE →
  ∃ m' added,
    OnRetransmissionTimeout m = Some m'
    ∧ consecutive_crypto_retransmission_count_ m'
      = N.min 5 (incr_size_t (consecutive_crypto_retransmission_count_ m))
    ∧ ((consecutive_crypto_retransmission_count_ m < 5)%N →
       consecutive_crypto_retransmission_count_ m'
       = (consecutive_crypto_retransmission_count_ m + 1)%N)
    ∧ (∀ sn, packets m' !! sn
             = (λ info, if pending info && HasCryptoHandshake info
                        then set_pending_flag false info else info) <$> packets m !! sn)
    ∧ pending_retransmissions_ m' = pending_retransmissions_ m ++ added
    ∧ (∀ sn reason,
         (sn, reason) ∈ added ↔
         reason = TLP_RETRANSMISSION ∧ (sn ∉ queue_keys m)
         ∧ ∃ info, packets m !! sn = Some info ∧ pending info = true
                   ∧ HasCryptoHandshake info = true)
    ∧ pending_crypto_packet_count_ m' = pending_crypto_packet_count_ m
    ∧ consecutive_rto_count_ m' = consecutive_rto_count_ m
    ∧ consecutive_tlp_count_ m' = consecutive_tlp_count_ m
    ∧ stats_ m' = incr_crypto_retransmit_count (stats_ m).
Proof.
  intros Hmode. unfold OnRetransmissionTimeout. rewrite Hmode. unfold RetransmitCryptoPackets.
  set (m1 := with_consecutive_counts _ _ _ _).
  destruct (RetransmitCryptoPackets_loop_spec
              (QuicUnackedPacketMap.begin_to_end (unacked_packets_ m1)) m1)
    as (table & q & added & s & -> & Hlookup & Hq & Hadded).
  { apply entries_NoDup_keys. }
  { intros [k i] He%elem_of_entries. done. }
  unfold m1 in *. clear m1. simpl in *.
  eexists. exists added. split; [done|]. simpl.
  split; [done|]. split.
  { intros Hbelow. unfold incr_size_t, wrap_size_t, kMaxHandshakeRetransmissionBackoffs.
    rewrite Z.mod_small by (change (2 ^ 64) with 18446744073709551616; lia). lia. }
  split.
  { intros sn. rewrite Hlookup.
    destruct (decide (sn ∈ (QuicUnackedPacketMap.begin_to_end (unacked_packets_ m)).*1))
      as [Hin|Hin]; [by rewrite bool_decide_eq_true_2|].
    rewrite bool_decide_eq_false_2 by done.
    unfold QuicUnackedPacketMap.begin_to_end in Hin. rewrite elem_of_entries_keys in Hin.
    apply eq_None_not_Some in Hin. by rewrite Hin. }
  split; [done|]. split; [|done].
  intros sn reason. rewrite Hadded. simpl. unfold QuicUnackedPacketMap.begin_to_end.
  split.
  - intros (Hreason & Hnew & i & Hin%elem_of_entries & Hi). eauto.
  - intros (Hreason & Hnew & i & Hin & Hi). split; [done|]. split; [done|].
    exists i. by rewrite elem_of_entries.
Qed.

(** ** A packet that is alone in its transmission group *)

Lemma ascending_singleton (sn : N) : ascending {[sn]} = [sn].
Proof. unfold ascending. by rewrite elements_singleton. Qed.

Lemma erase_absent (q : list (N * TransmissionType)) sn : sn ∉ q.*1 → erase sn q = q.
Proof.
  unfold erase. induction q as [|[k r] q IH]; [done|].
  rewrite fmap_cons, not_elem_of_cons. intros [Hne Hq].
  rewrite filter_cons_True by (simpl; by intros ->). by rewrite IH.
Qed.

Lemma RemovePacket_SetNotPending (u : QuicUnackedPacketMap.t) sn :
  QuicUnackedPacketMap.RemovePacket (QuicUnackedPacketMap.SetNotPending u sn) sn
  = QuicUnackedPacketMap.RemovePacket u sn.
Proof.
  unfold QuicUnackedPacketMap.RemovePacket. simpl. rewrite lookup_alter_eq.
  destruct (QuicUnackedPacketMap.unacked_packets_ u !! sn) as [info|] eqn:Hinfo; simpl.
  - by rewrite delete_alter_eq.
  - destruct u. unfold QuicUnackedPacketMap.SetNotPending, QuicUnackedPacketMap.with_packets.
    simpl in *. f_equal. apply map_eq. intros k. rewrite lookup_alter.
    case_decide; [subst; by rewrite Hinfo|done].
Qed.

Lemma RemovePacket_alone (u : QuicUnackedPacketMap.t) sn info :
  QuicUnackedPacketMap.unacked_packets_ u !! sn = Some info →
  QuicUnackedPacketMap.transmission_sets_ u !! all_transmissions info = Some {[sn]} →
  QuicUnackedPacketMap.RemovePacket u sn
  = {| QuicUnackedPacketMap.unacked_packets_ :=
         delete sn (QuicUnackedPacketMap.unacked_packets_ u);
       QuicUnackedPacketMap.transmission_sets_ :=
         delete (all_transmissions info) (QuicUnackedPacketMap.transmission_sets_ u);
       QuicUnackedPacketMap.largest_sent_packet_ :=
         QuicUnackedPacketMap.largest_sent_packet_ u |}.
Proof.
  intros Hinfo Hgroup. unfold QuicUnackedPacketMap.RemovePacket. rewrite Hinfo, Hgroup.
  rewrite decide_True by set_solver. done.
Qed.

Lemma MarkPacketHandled_alone m sn received_by_peer info :
  packets m !! sn = Some info →
  QuicUnackedPacketMap.transmission_sets_ (unacked_packets_ m) !! all_transmissions info
    = Some {[sn]} →
  ∃ m',
    MarkPacketHandled m sn received_by_peer
    = Some (m', QuicUnackedPacketMap.lower_bound (unacked_packets_ m') sn)
    ∧ unacked_packets_ m'
      = {| QuicUnackedPacketMap.unacked_packets_ := delete sn (packets m);
           QuicUnackedPacketMap.transmission_sets_ :=
             delete (all_transmissions info)
               (QuicUnackedPacketMap.transmission_sets_ (unacked_packets_ m));
           QuicUnackedPacketMap.largest_sent_packet_ :=
             QuicUnackedPacketMap.largest_sent_packet_ (unacked_packets_ m) |}
    ∧ pending_retransmissions_ m' = erase sn (pending_retransmissions_ m)
    ∧ pending_crypto_packet_count_ m'
      = (if HasCryptoHandshake info then decr_size_t (pending_crypto_packet_count_ m)
         else pending_crypto_packet_count_ m)
    ∧ stats_ m' = stats_ m
    ∧ send_algorithm_ m'
      = (if pending info
         then match received_by_peer with
              | RECEIVED_BY_PEER =>
                  SendAlgorithmInterface.OnPacketAcked (send_algorithm_ m) sn (bytes_sent info)
              | NOT_RECEIVED_BY_PEER =>
                  SendAlgorithmInterface.OnPacketAbandoned (send_algorithm_ m) sn
                    (bytes_sent info)
              end
         else send_algorithm_ m)
    ∧ ack_notifier_manager_ m' = ack_notifier_manager_ m
    ∧ rtt_sample_ m' = rtt_sample_ m.
Proof.
  intros Hinfo Hgroup.
  unfold MarkPacketHandled, QuicUnackedPacketMap.GetTransmissionInfo.
  rewrite (proj2 (IsUnacked_true _ _)) by eauto. rewrite Hinfo. cbn [negb mbind option_bind].
  set (m1 := if pending info then _ else m).
  assert (Hm1 :
    unacked_packets_ m1 = QuicUnackedPacketMap.SetNotPending (unacked_packets_ m) sn
    ∧ pending_retransmissions_ m1 = pending_retransmissions_ m
    ∧ pending_crypto_packet_count_ m1 = pending_crypto_packet_count_ m
    ∧ stats_ m1 = stats_ m
    ∧ send_algorithm_ m1
      = (if pending info
         then match received_by_peer with
              | RECEIVED_BY_PEER =>
                  SendAlgorithmInterface.OnPacketAcked (send_algorithm_ m) sn (bytes_sent info)
              | NOT_RECEIVED_BY_PEER =>
                  SendAlgorithmInterface.OnPacketAbandoned (send_algorithm_ m) sn
                    (bytes_sent info)
              end
         else send_algorithm_ m)
    ∧ ack_notifier_manager_ m1 = ack_notifier_manager_ m
    ∧ rtt_sample_ m1 = rtt_sample_ m).
  { unfold m1. destruct (pending info) eqn:Hpending; [by destruct received_by_peer|].
    split; [|done]. symmetry. by eapply SetNotPending_not_pending. }
  destruct Hm1 as (Htable1 & Hqueue1 & Hcrypto1 & Hstats1 & Halgorithm1 & Hnotifier1 & Hrtt1).
  clearbody m1. rewrite <- Halgorithm1, <- Hcrypto1. clear Halgorithm1.
  rewrite Htable1. simpl. rewrite Hgroup. simpl.
  unfold QuicUnackedPacketMap.newest. rewrite ascending_singleton. simpl.
  rewrite decide_False by (by intros []).
  rewrite Htable1. simpl. rewrite lookup_alter_eq, Hinfo. simpl.
  rewrite HasCryptoHandshake_set_pending_flag.
  set (m3 := if HasCryptoHandshake info then _ else m1).
  assert (Hm3 :
    unacked_packets_ m3 = QuicUnackedPacketMap.SetNotPending (unacked_packets_ m) sn
    ∧ pending_retransmissions_ m3 = pending_retransmissions_ m
    ∧ pending_crypto_packet_count_ m3
      = (if HasCryptoHandshake info then decr_size_t (pending_crypto_packet_count_ m1)
         else pending_crypto_packet_count_ m1)
    ∧ stats_ m3 = stats_ m
    ∧ send_algorithm_ m3 = send_algorithm_ m1
    ∧ ack_notifier_manager_ m3 = ack_notifier_manager_ m
    ∧ rtt_sample_ m3 = rtt_sample_ m).
  { unfold m3. destruct (HasCryptoHandshake info); done. }
  destruct Hm3 as (Htable3 & Hqueue3 & Hcrypto3 & Hstats3 & Halgorithm3 & Hnotifier3 & Hrtt3).
  clearbody m3. rewrite <- Halgorithm3, <- Hcrypto3.
  clear Htable1 Hqueue1 Hcrypto1 Hstats1 Hnotifier1 Hrtt1 Halgorithm3 Hcrypto3.
  unfold MarkPacketHandled_step, QuicUnackedPacketMap.GetTransmissionInfo.
  rewrite Htable3. simpl. rewrite lookup_alter_eq, Hinfo. simpl.
  set (m4 := if ContainsKey _ _ then _ else m3).
  assert (Hm4 :
    unacked_packets_ m4 = QuicUnackedPacketMap.SetNotPending (unacked_packets_ m) sn
    ∧ pending_retransmissions_ m4 = erase sn (pending_retransmissions_ m)
    ∧ pending_crypto_packet_count_ m4 = pending_crypto_packet_count_ m3
    ∧ stats_ m4 = stats_ m
    ∧ send_algorithm_ m4 = send_algorithm_ m3
    ∧ ack_notifier_manager_ m4 = ack_notifier_manager_ m
    ∧ rtt_sample_ m4 = rtt_sample_ m).
  { unfold m4. destruct (ContainsKey _ _) eqn:Hkey; simpl; rewrite ?Hqueue3; [done|].
    rewrite erase_absent; [done|]. rewrite <- Hqueue3. by apply ContainsKey_false. }
  destruct Hm4 as (Htable4 & Hqueue4 & Hcrypto4 & Hstats4 & Halgorithm4 & Hnotifier4 & Hrtt4).
  clearbody m4. rewrite <- Hcrypto4, <- Halgorithm4.
  assert (Hidle :
    QuicUnackedPacketMap.IsPending
      (QuicUnackedPacketMap.SetNotPending (unacked_packets_ m) sn) sn = false).
  { unfold QuicUnackedPacketMap.IsPending. simpl. by rewrite lookup_alter_eq, Hinfo. }
  destruct (HasCryptoHandshake info); simpl; rewrite Htable4.
  - assert (Hidle' :
      QuicUnackedPacketMap.IsPending
        (QuicUnackedPacketMap.SetNotPending
           (QuicUnackedPacketMap.SetNotPending (unacked_packets_ m) sn) sn) sn = false).
    { unfold QuicUnackedPacketMap.IsPending. simpl. by rewrite !lookup_alter_eq, Hinfo. }
    rewrite Hidle'. simpl.
    exists (with_unacked (λ u, QuicUnackedPacketMap.RemovePacket u sn)
              (with_unacked (λ u, QuicUnackedPacketMap.SetNotPending u sn) m4)).
    split; [reflexivity|]. simpl.
    rewrite Htable4, !RemovePacket_SetNotPending. split; [by apply RemovePacket_alone|done].
  - rewrite Hidle. simpl.
    exists (with_unacked (λ u, QuicUnackedPacketMap.RemovePacket u sn) m4).
    split; [reflexivity|]. simpl.
    rewrite Htable4, !RemovePacket_SetNotPending. split; [by apply RemovePacket_alone|done].
Qed.

Lemma decr_incr_size_t (c : N) : (c < 2 ^ 64)%N → decr_size_t (incr_size_t c) = c.
Proof.
  intros Hc. unfold decr_size_t, incr_size_t, wrap_size_t.
  assert (Hc' : 0 <= Z.of_N c < 2 ^ 64).
  { change (2 ^ 64) with (Z.of_N (2 ^ 64)). lia. }
  change (2 ^ 64) with 18446744073709551616 in *.
  destruct (decide (Z.of_N c = 18446744073709551615)) as [Hmax|Hless].
  - rewrite Hmax. change ((18446744073709551615 + 1) `mod` 18446744073709551616) with 0.
    change (Z.of_N (Z.to_N 0) - 1) with (-1).
    change ((-1) `mod` 18446744073709551616) with 18446744073709551615.
    apply N2Z.inj. rewrite Z2N.id by lia. lia.
  - rewrite (Z.mod_small (Z.of_N c + 1)) by lia. rewrite Z2N.id by lia.
    rewrite Z.mod_small by lia. lia.
Qed.

(** X9. Discarding a packet right after it was registered undoes the
    registration: the table (records and transmission groups) and
    [pending_crypto_packet_count_] are what they were before
    [OnSerializedPacket], whether the packet carries a crypto handshake,
    other frames or none; the congestion controller is not told anything and
    no spurious retransmission is counted.  Any entry the queue held for the
    sequence number is gone. *)
Theorem DiscardUnackedPacket_undoes_OnSerializedPacket m serialized_packet :
  let sn := sp_sequence_number serialized_packet in
  QuicUnackedPacketMap.IsUnacked (unacked_packets_ m) sn = false →
  (pending_crypto_packet_count_ m < 2 ^ 64)%N →
  ∃ m',
    DiscardUnackedPacket (OnSerializedPacket m serialized_packet) sn = Some m'
    ∧ unacked_packets_ m' = unacked_packets_ m
    ∧ pending_crypto_packet_count_ m' = pending_crypto_packet_count_ m
    ∧ pending_retransmissions_ m' = erase sn (pending_retransmissions_ m)
    ∧ ((sn ∉ queue_keys m) → pending_retransmissions_ m' = pending_retransmissions_ m)
    ∧ stats_ m' = stats_ m
    ∧ send_algorithm_ m' = send_algorithm_ m.
Proof.
  intros sn Hnew%IsUnacked_false Hcount.
  set (m1 := OnSerializedPacket m serialized_packet).
  set (ref := fresh (dom (QuicUnackedPacketMap.transmission_sets_ (unacked_packets_ m)))).
  set (info := {| retransmittable_frames := sp_retransmittable_frames serialized_packet;
                  sequence_number_length := sp_sequence_number_length serialized_packet;
                  sent_time := QuicTime.Zero; bytes_sent := 0%N; nack_count := 0%N;
                  pending := false; all_transmissions := ref |}).
  assert (Hm1 :
    unacked_packets_ m1
    = {| QuicUnackedPacketMap.unacked_packets_ := <[sn := info]> (packets m);
         QuicUnackedPacketMap.transmission_sets_ :=
           <[ref := {[sn]}]> (QuicUnackedPacketMap.transmission_sets_ (unacked_packets_ m));
         QuicUnackedPacketMap.largest_sent_packet_ :=
           QuicUnackedPacketMap.largest_sent_packet_ (unacked_packets_ m) |}
    ∧ pending_retransmissions_ m1 = pending_retransmissions_ m
    ∧ pending_crypto_packet_count_ m1
      = (if HasCryptoHandshake info then incr_size_t (pending_crypto_packet_count_ m)
         else pending_crypto_packet_count_ m)
    ∧ stats_ m1 = stats_ m
    ∧ send_algorithm_ m1 = send_algorithm_ m).
  { unfold m1, info, ref, sn, OnSerializedPacket, HasCryptoHandshake,
      QuicUnackedPacketMap.AddPacket. simpl.
    destruct (sp_retransmittable_frames serialized_packet) as [frames|]; [|done].
    by destruct (bool_decide _). }
  destruct Hm1 as (Htable1 & Hqueue1 & Hcrypto1 & Hstats1 & Halgorithm1). clearbody m1.
  destruct (MarkPacketHandled_alone m1 sn NOT_RECEIVED_BY_PEER info)
    as (m' & Hrun & Htable & Hqueue & Hcrypto & Hstats & Halgorithm & _).
  { rewrite Htable1. simpl. apply lookup_insert_eq. }
  { rewrite Htable1. simpl. apply lookup_insert_eq. }
  exists m'. unfold DiscardUnackedPacket. rewrite Hrun. split; [done|].
  assert (Hqueue' : pending_retransmissions_ m' = erase sn (pending_retransmissions_ m)).
  { by rewrite Hqueue, Hqueue1. }
  split; [|split; [|split; [done|split; [|split]]]].
  - rewrite Htable, Htable1. simpl. rewrite !delete_insert_id; [by destruct (unacked_packets_ m)| |done].
    apply not_elem_of_dom. apply is_fresh.
  - rewrite Hcrypto, Hcrypto1. destruct (HasCryptoHandshake info); [|done].
    by apply decr_incr_size_t.
  - intros Habsent. rewrite Hqueue'. by apply erase_absent.
  - by rewrite Hstats.
  - by rewrite Halgorithm, Halgorithm1.
Qed.

(** ** What handling a packet does to the counters *)

Lemma OnPacketAbandoned_quiet m sn :
  stats_ (OnPacketAbandoned m sn) = stats_ m
  ∧ pending_crypto_packet_count_ (OnPacketAbandoned m sn) = pending_crypto_packet_count_ m
  ∧ rtt_sample_ (OnPacketAbandoned m sn) = rtt_sample_ m
  ∧ ack_notifier_manager_ (OnPacketAbandoned m sn) = ack_notifier_manager_ m.
Proof.
  unfold OnPacketAbandoned. destruct (QuicUnackedPacketMap.IsPending _ _); [|done].
  by destruct (QuicUnackedPacketMap.GetTransmissionInfo _ _).
Qed.

Lemma MarkPacketHandled_step_quiet has_cryto_handshake m g m' :
  MarkPacketHandled_step has_cryto_handshake m g = Some m' →
  stats_ m' = stats_ m
  ∧ pending_crypto_packet_count_ m' = pending_crypto_packet_count_ m
  ∧ rtt_sample_ m' = rtt_sample_ m
  ∧ ack_notifier_manager_ m' = ack_notifier_manager_ m.
Proof.
  unfold MarkPacketHandled_step.
  destruct (QuicUnackedPacketMap.GetTransmissionInfo _ _) as [info|]; simpl; [|done].
  set (m1 := if ContainsKey _ _ then _ else m).
  assert (Hm1 : stats_ m1 = stats_ m
                ∧ pending_crypto_packet_count_ m1 = pending_crypto_packet_count_ m
                ∧ rtt_sample_ m1 = rtt_sample_ m
                ∧ ack_notifier_manager_ m1 = ack_notifier_manager_ m).
  { unfold m1. by destruct (ContainsKey _ _). }
  destruct Hm1 as (Hstats1 & Hcrypto1 & Hrtt1 & Hnotifier1). clearbody m1.
  set (m2 := if has_cryto_handshake then _ else m1).
  assert (Hm2 : stats_ m2 = stats_ m
                ∧ pending_crypto_packet_count_ m2 = pending_crypto_packet_count_ m
                ∧ rtt_sample_ m2 = rtt_sample_ m
                ∧ ack_notifier_manager_ m2 = ack_notifier_manager_ m).
  { unfold m2. destruct has_cryto_handshake; [|done].
    destruct (pending info); [|done]. simpl.
    destruct (OnPacketAbandoned_quiet m1 g) as (-> & -> & -> & ->). done. }
  destruct Hm2 as (Hstats2 & Hcrypto2 & Hrtt2 & Hnotifier2). clearbody m2.
  destruct (negb _); intros [= <-]; done.
Qed.

Lemma MarkPacketHandled_loop_quiet has_cryto_handshake transmissions m m' :
  MarkPacketHandled_loop has_cryto_handshake transmissions m = Some m' →
  stats_ m' = stats_ m
  ∧ pending_crypto_packet_count_ m' = pending_crypto_packet_count_ m
  ∧ rtt_sample_ m' = rtt_sample_ m
  ∧ ack_notifier_manager_ m' = ack_notifier_manager_ m.
Proof.
  revert m. induction transmissions as [|g rest IH]; intros m; simpl; [by intros [= <-]|].
  destruct (MarkPacketHandled_step _ _ _) as [m1|] eqn:Hstep; simpl; [|done].
  intros (-> & -> & -> & ->)%IH. by apply MarkPacketHandled_step_quiet in Hstep.
Qed.

(** X10. Handling a packet, as acked or as discarded, counts one spurious
    retransmission exactly when the packet is not the newest transmission of
    its group, and decrements [pending_crypto_packet_count_] exactly when
    that newest transmission carries a crypto handshake; no other statistic,
    the RTT sample and the ACK notifier are not touched. *)
Theorem MarkPacketHandled_accounting m sn received_by_peer info group :
  GroupsConsistent (unacked_packets_ m) →
  packets m !! sn = Some info →
  QuicUnackedPacketMap.transmission_sets_ (unacked_packets_ m) !! all_transmissions info
    = Some group →
  ∃ newest_transmission newest_info m' it,
    QuicUnackedPacketMap.newest group = Some newest_transmission
    ∧ packets m !! newest_transmission = Some newest_info
    ∧ MarkPacketHandled m sn received_by_peer = Some (m', it)
    ∧ stats_ m'
      = (if bool_decide (newest_transmission = sn) then stats_ m
         else incr_packets_spuriously_retransmitted (stats_ m))
    ∧ pending_crypto_packet_count_ m'
      = (if HasCryptoHandshake newest_info
         then decr_size_t (pending_crypto_packet_count_ m)
         else pending_crypto_packet_count_ m)
    ∧ rtt_sample_ m' = rtt_sample_ m
    ∧ ack_notifier_manager_ m' = ack_notifier_manager_ m.
Proof.
  intros Hgroups Hinfo Hgroup.
  destruct (MarkPacketHandled_spec m sn received_by_peer info group Hgroups Hinfo Hgroup)
    as (newest_transmission & newest_info & m' & Hnewest & Hnewest_info & Hrun & _).
  exists newest_transmission, newest_info, m'. eexists.
  split; [done|]. split; [done|]. split; [exact Hrun|].
  revert Hrun. unfold MarkPacketHandled, QuicUnackedPacketMap.GetTransmissionInfo.
  rewrite (proj2 (IsUnacked_true _ _)) by eauto. rewrite Hinfo. cbn [negb mbind option_bind].
  set (m1 := if pending info then _ else m).
  assert (Hm1 :
    unacked_packets_ m1 = QuicUnackedPacketMap.SetNotPending (unacked_packets_ m) sn
    ∧ stats_ m1 = stats_ m
    ∧ pending_crypto_packet_count_ m1 = pending_crypto_packet_count_ m
    ∧ rtt_sample_ m1 = rtt_sample_ m
    ∧ ack_notifier_manager_ m1 = ack_notifier_manager_ m).
  { unfold m1. destruct (pending info) eqn:Hpending; [done|].
    split; [|done]. symmetry. by eapply SetNotPending_not_pending. }
  destruct Hm1 as (Htable1 & Hstats1 & Hcrypto1 & Hrtt1 & Hnotifier1). clearbody m1.
  rewrite Htable1. simpl. rewrite Hgroup. simpl. rewrite Hnewest. simpl.
  set (m2 := if decide _ then _ else m1).
  assert (Hm2 :
    unacked_packets_ m2 = QuicUnackedPacketMap.SetNotPending (unacked_packets_ m) sn
    ∧ stats_ m2
      = (if bool_decide (newest_transmission = sn) then stats_ m
         else incr_packets_spuriously_retransmitted (stats_ m))
    ∧ pending_crypto_packet_count_ m2 = pending_crypto_packet_count_ m
    ∧ rtt_sample_ m2 = rtt_sample_ m
    ∧ ack_notifier_manager_ m2 = ack_notifier_manager_ m).
  { unfold m2. destruct (decide (newest_transmission ≠ sn)) as [Hne|Heq%dec_stable].
    - rewrite bool_decide_eq_false_2 by done. simpl. by rewrite Hstats1.
    - by rewrite bool_decide_eq_true_2. }
  destruct Hm2 as (Htable2 & Hstats2 & Hcrypto2 & Hrtt2 & Hnotifier2). clearbody m2.
  rewrite Htable2. simpl.
  assert (Hnewest_info' :
    ∃ newest_info', alter (set_pending_flag false) sn (packets m) !! newest_transmission
                    = Some newest_info'
                    ∧ HasCryptoHandshake newest_info' = HasCryptoHandshake newest_info).
  { rewrite lookup_alter.
    destruct (decide (sn = newest_transmission)) as [->|Hne]; rewrite Hnewest_info; simpl;
      eauto. }
  destruct Hnewest_info' as (newest_info' & -> & Hsame). simpl. rewrite Hsame.
  set (m3 := if HasCryptoHandshake newest_info then _ else m2).
  assert (Hm3 :
    stats_ m3 = stats_ m2
    ∧ pending_crypto_packet_count_ m3
      = (if HasCryptoHandshake newest_info
         then decr_size_t (pending_crypto_packet_count_ m)
         else pending_crypto_packet_count_ m)
    ∧ rtt_sample_ m3 = rtt_sample_ m
    ∧ ack_notifier_manager_ m3 = ack_notifier_manager_ m).
  { unfold m3. destruct (HasCryptoHandshake newest_info); simpl; by rewrite ?Hcrypto2. }
  destruct Hm3 as (Hstats3 & Hcrypto3 & Hrtt3 & Hnotifier3). clearbody m3.
  destruct (MarkPacketHandled_loop _ _ _) as [m4|] eqn:Hloop; simpl; [|done].
  intros [= <-]. apply MarkPacketHandled_loop_quiet in Hloop as (-> & -> & -> & ->).
  by rewrite Hstats3, Hstats2.
Qed.

(** ** Lost packets *)

Lemma OnPacketAbandoned_lookup m sn k :
  packets (OnPacketAbandoned m sn) !! k
  = if decide (k = sn) then set_pending_flag false <$> packets m !! k else packets m !! k.
Proof.
  unfold OnPacketAbandoned, QuicUnackedPacketMap.IsPending,
    QuicUnackedPacketMap.GetTransmissionInfo.
  destruct (packets m !! sn) as [info|] eqn:Hinfo.
  - destruct (pending info) eqn:Hpending; simpl.
    + rewrite lookup_alter. destruct (decide (k = sn)) as [->|Hne].
      * by rewrite decide_True.
      * by rewrite decide_False.
    + destruct (decide (k = sn)) as [->|Hne]; [|done].
      rewrite Hinfo. simpl. by rewrite set_pending_flag_id.
  - destruct (decide (k = sn)) as [->|Hne]; [|done]. by rewrite Hinfo.
Qed.

Lemma OnPacketAbandoned_queue m sn :
  pending_retransmissions_ (OnPacketAbandoned m sn) = pending_retransmissions_ m.
Proof. by destruct (OnPacketAbandoned_spec m sn) as (_ & ? & _). Qed.

Lemma handle_lost_packet_exact ack_receive_time m sn :
  ∃ m',
    handle_lost_packet ack_receive_time m sn = Some m'
    ∧ stats_ m' = incr_packets_lost (stats_ m)
    ∧ (∀ k, k ≠ sn → packets m' !! k = packets m !! k)
    ∧ packets m' !! sn
      = packets m !! sn
        ≫= (λ info, if has_frames info then Some (set_pending_flag false info) else None)
    ∧ (∀ k, k ∈ queue_keys m' ↔
            k ∈ queue_keys m
            ∨ k = sn
              ∧ QuicUnackedPacketMap.HasRetransmittableFrames (unacked_packets_ m) sn = true).
Proof.
  unfold handle_lost_packet.
  set (m2 := with_send_algorithm _ _).
  assert (Hm2 : stats_ m2 = incr_packets_lost (stats_ m)
                ∧ unacked_packets_ m2 = unacked_packets_ m
                ∧ pending_retransmissions_ m2 = pending_retransmissions_ m) by done.
  destruct Hm2 as (Hstats2 & Htable2 & Hqueue2). clearbody m2.
  pose proof (OnPacketAbandoned_lookup m2 sn) as Hlookup.
  pose proof (OnPacketAbandoned_queue m2 sn) as Hqueue3.
  destruct (OnPacketAbandoned_quiet m2 sn) as (Hstats3 & _).
  set (m3 := OnPacketAbandoned m2 sn) in *. clearbody m3.
  rewrite Htable2 in Hlookup. rewrite Hqueue2 in Hqueue3. rewrite Hstats2 in Hstats3.
  clear Hstats2 Htable2 Hqueue2 m2.
  assert (Hframes :
    QuicUnackedPacketMap.HasRetransmittableFrames (unacked_packets_ m3) sn
    = QuicUnackedPacketMap.HasRetransmittableFrames (unacked_packets_ m) sn).
  { unfold QuicUnackedPacketMap.HasRetransmittableFrames.
    rewrite Hlookup, decide_True by done. by destruct (packets m !! sn). }
  rewrite Hframes.
  destruct (QuicUnackedPacketMap.HasRetransmittableFrames (unacked_packets_ m) sn) eqn:Hhas.
  - unfold QuicUnackedPacketMap.HasRetransmittableFrames in Hhas.
    destruct (packets m !! sn) as [info|] eqn:Hinfo; [|done].
    rewrite MarkForRetransmission_appends
      by (rewrite Hlookup, decide_True by done; rewrite Hinfo; simpl; eauto).
    eexists. split; [done|]. simpl. split; [done|]. split; [|split].
    + intros k Hk. by rewrite Hlookup, decide_False.
    + rewrite Hlookup, decide_True, Hinfo by done. simpl. by rewrite Hhas.
    + intros k. rewrite Hqueue3. destruct (ContainsKey _ _) eqn:Hkey.
      * apply ContainsKey_true in Hkey. split; [by left|]. by intros [?|[-> _]].
      * rewrite fmap_app, elem_of_app. simpl. rewrite list_elem_of_singleton. tauto.
  - eexists. split; [done|]. simpl. split; [done|].
    rewrite RemovePacket_packets. split; [|split].
    + intros k Hk. by rewrite lookup_delete_ne, Hlookup, decide_False.
    + rewrite lookup_delete_eq. unfold QuicUnackedPacketMap.HasRetransmittableFrames in Hhas.
      destruct (packets m !! sn) as [info|]; [|done]. simpl. by rewrite Hhas.
    + intros k. rewrite Hqueue3. split; [by left|]. by intros [?|[_ ?]].
Qed.

Lemma handle_lost_packets_exact ack_receive_time lost m :
  NoDup lost →
  ∃ m',
    handle_lost_packets ack_receive_time lost m = Some m'
    ∧ packets_lost (stats_ m') = (packets_lost (stats_ m) + N.of_nat (length lost))%N
    ∧ (∀ k, k ∉ lost → packets m' !! k = packets m !! k)
    ∧ (∀ k, k ∈ lost →
         packets m' !! k
         = packets m !! k
           ≫= (λ info, if has_frames info then Some (set_pending_flag false info) else None))
    ∧ (∀ k, k ∈ queue_keys m' ↔
            k ∈ queue_keys m
            ∨ k ∈ lost
              ∧ QuicUnackedPacketMap.HasRetransmittableFrames (unacked_packets_ m) k = true).
Proof.
  intros Hnodup. revert m.
  induction Hnodup as [|sn rest Hfresh Hnodup IH]; intros m;
    cbn [handle_lost_packets length].
  { exists m. split; [done|]. split; [simpl; lia|]. split; [done|].
    split; [by intros k ?%elem_of_nil|]. intros k. rewrite elem_of_nil. tauto. }
  destruct (handle_lost_packet_exact ack_receive_time m sn)
    as (m1 & -> & Hstats1 & Hother1 & Hself1 & Hqueue1).
  cbn [mbind option_bind].
  destruct (IH m1) as (m' & -> & Hstats & Hother & Hmember & Hqueue).
  exists m'. split; [done|]. split; [|split; [|split]].
  - rewrite Hstats, Hstats1. simpl. lia.
  - intros k [Hne Hk]%not_elem_of_cons. by rewrite Hother, Hother1.
  - intros k [->|Hk]%elem_of_cons.
    + by rewrite Hother, Hself1.
    + rewrite Hmember by done. rewrite Hother1; [done|]. by intros ->.
  - intros k. rewrite Hqueue, Hqueue1, elem_of_cons.
    assert (Hsame :
      k ∈ rest →
      QuicUnackedPacketMap.HasRetransmittableFrames (unacked_packets_ m1) k
      = QuicUnackedPacketMap.HasRetransmittableFrames (unacked_packets_ m) k).
    { intros Hk. unfold QuicUnackedPacketMap.HasRetransmittableFrames.
      rewrite Hother1; [done|]. by intros ->. }
    split.
    + intros [[?|[-> ?]]|[Hk Hhas]]; [by left|right; by split; [left|]|].
      right. split; [by right|]. by rewrite <- Hsame.
    + intros [?|[[->|Hk] Hhas]]; [by left; left|by left; right|].
      right. split; [done|]. by rewrite Hsame.
Qed.

Lemma nack_missing_loop_flags its largest m :
  stats_ (nack_missing_loop its largest m) = stats_ m
  ∧ pending_retransmissions_ (nack_missing_loop its largest m) = pending_retransmissions_ m
  ∧ ∀ k, pending <$> packets (nack_missing_loop its largest m) !! k = pending <$> packets m !! k
         ∧ has_frames <$> packets (nack_missing_loop its largest m) !! k
           = has_frames <$> packets m !! k.
Proof.
  revert m. induction its as [|it rest IH]; intros m; cbn [nack_missing_loop]; [done|].
  destruct (_ <? _)%N; [done|]. destruct (negb _); [apply IH|].
  destruct (IH (with_unacked
                  (λ u, QuicUnackedPacketMap.NackPacket u it.1 (sub_size_t largest it.1)) m))
    as (-> & -> & Hflags).
  split; [done|]. split; [done|]. intros k. destruct (Hflags k) as [-> ->]. simpl.
  rewrite lookup_alter. case_decide; [|done]. subst. by destruct (packets m !! it.1).
Qed.

Lemma length_ascending (s : gset N) : length (ascending s) = size s.
Proof. unfold ascending. by rewrite merge_sort_Permutation. Qed.

(** X11. The second loop of [MaybeRetransmitOnAckFrame] handles exactly the
    packets the loss detector returns for the nacked table.
    [packets_lost] grows by their number.  Each of them ends up not
    pending; one that has retransmittable frames keeps its record and is in
    the queue, one that has none loses its record.  Every other packet
    keeps its record, its pending flag and its frames, and nothing else
    enters the queue. *)
Theorem MaybeRetransmitOnAckFrame_lost m received_info ack_receive_time :
  let nacked :=
    nack_missing_loop (QuicUnackedPacketMap.begin_to_end (unacked_packets_ m))
      (largest_observed received_info) m in
  let lost :=
    DetectLostPackets (unacked_packets_ nacked) ack_receive_time
      (largest_observed received_info) in
  ∃ m',
    MaybeRetransmitOnAckFrame m received_info ack_receive_time = Some m'
    ∧ packets_lost (stats_ m') = (packets_lost (stats_ m) + N.of_nat (size lost))%N
    ∧ (∀ sn, sn ∈ lost →
         QuicUnackedPacketMap.IsPending (unacked_packets_ m') sn = false
         ∧ (QuicUnackedPacketMap.HasRetransmittableFrames (unacked_packets_ m) sn = true →
            sn ∈ queue_keys m'
            ∧ QuicUnackedPacketMap.IsUnacked (unacked_packets_ m') sn = true)
         ∧ (QuicUnackedPacketMap.HasRetransmittableFrames (unacked_packets_ m) sn = false →
            QuicUnackedPacketMap.IsUnacked (unacked_packets_ m') sn = false))
    ∧ (∀ sn, sn ∉ lost →
         QuicUnackedPacketMap.IsUnacked (unacked_packets_ m') sn
         = QuicUnackedPacketMap.IsUnacked (unacked_packets_ m) sn
         ∧ QuicUnackedPacketMap.IsPending (unacked_packets_ m') sn
           = QuicUnackedPacketMap.IsPending (unacked_packets_ m) sn
         ∧ QuicUnackedPacketMap.HasRetransmittableFrames (unacked_packets_ m') sn
           = QuicUnackedPacketMap.HasRetransmittableFrames (unacked_packets_ m) sn)
    ∧ (∀ sn, sn ∈ queue_keys m' ↔
             sn ∈ queue_keys m
             ∨ sn ∈ lost
               ∧ QuicUnackedPacketMap.HasRetransmittableFrames (unacked_packets_ m) sn
                 = true).
Proof.
  intros nacked lost. unfold MaybeRetransmitOnAckFrame. fold nacked. fold lost.
  destruct (nack_missing_loop_flags
              (QuicUnackedPacketMap.begin_to_end (unacked_packets_ m))
              (largest_observed received_info) m) as (Hstats1 & Hqueue1 & Hflags).
  fold nacked in Hstats1, Hqueue1, Hflags. clearbody nacked.
  destruct (handle_lost_packets_exact ack_receive_time (ascending lost) nacked)
    as (m' & -> & Hstats & Hother & Hmember & Hqueue); [apply ascending_NoDup|].
  clearbody lost.
  assert (Hframes : ∀ k,
    QuicUnackedPacketMap.HasRetransmittableFrames (unacked_packets_ nacked) k
    = QuicUnackedPacketMap.HasRetransmittableFrames (unacked_packets_ m) k).
  { intros k. unfold QuicUnackedPacketMap.HasRetransmittableFrames.
    destruct (Hflags k) as [_ Hk].
    destruct (packets nacked !! k), (packets m !! k); simpl in Hk; congruence. }
  assert (Hpending : ∀ k,
    QuicUnackedPacketMap.IsPending (unacked_packets_ nacked) k
    = QuicUnackedPacketMap.IsPending (unacked_packets_ m) k).
  { intros k. unfold QuicUnackedPacketMap.IsPending.
    destruct (Hflags k) as [Hk _].
    destruct (packets nacked !! k), (packets m !! k); simpl in Hk; congruence. }
  assert (Hrecord : ∀ k,
    QuicUnackedPacketMap.IsUnacked (unacked_packets_ nacked) k
    = QuicUnackedPacketMap.IsUnacked (unacked_packets_ m) k).
  { intros k. unfold QuicUnackedPacketMap.IsUnacked. apply bool_decide_ext.
    destruct (Hflags k) as [Hk _]. rewrite <- !fmap_is_Some with (f := pending).
    by rewrite Hk. }
  exists m'. split; [done|]. split; [|split; [|split]].
  - by rewrite Hstats, Hstats1, length_ascending.
  - intros sn Hsn%elem_of_ascending. specialize (Hmember sn Hsn).
    rewrite <- Hframes. unfold QuicUnackedPacketMap.HasRetransmittableFrames,
      QuicUnackedPacketMap.IsPending, QuicUnackedPacketMap.IsUnacked.
    assert (Hin : QuicUnackedPacketMap.HasRetransmittableFrames (unacked_packets_ nacked) sn
                  = true → sn ∈ queue_keys m').
    { intros Hhas. apply Hqueue. right. by split. }
    unfold QuicUnackedPacketMap.HasRetransmittableFrames in Hin.
    destruct (packets nacked !! sn) as [info|] eqn:Hinfo; simpl in Hmember; rewrite Hmember.
    + destruct (has_frames info) eqn:Hhas; simpl.
      * split; [done|]. split; [|done]. intros _. split; [by apply Hin|done].
      * done.
    + done.
  - intros sn Hsn. rewrite <- Hrecord, <- Hpending, <- Hframes.
    unfold QuicUnackedPacketMap.HasRetransmittableFrames,
      QuicUnackedPacketMap.IsPending, QuicUnackedPacketMap.IsUnacked.
    rewrite Hother; [done|]. by rewrite elem_of_ascending.
  - intros sn. rewrite Hqueue, Hqueue1, elem_of_ascending, Hframes. done.
Qed.

(** ** An ack gains nothing *)

Lemma gives_up_refl m : gives_up m m.
Proof. unfold gives_up. split; [done|]. split; [done|]. intros k Hk. by left. Qed.

Lemma gives_up_trans m1 m2 m3 : gives_up m1 m2 → gives_up m2 m3 → gives_up m1 m3.
Proof.
  unfold gives_up. intros (Hd1 & Hf1 & Hq1) (Hd2 & Hf2 & Hq2).
  split; [set_solver|]. split; [by auto|].
  intros k Hk. destruct (Hq2 k Hk) as [Hk2|Hk2]; [by apply Hq1|]. right. by apply Hf1.
Qed.

Lemma gives_up_lookup m m' :
  (∀ k, packets m' !! k = packets m !! k
        ∨ packets m' !! k = None
        ∨ ∃ info, packets m !! k = Some info
                  ∧ (packets m' !! k = Some (clear_frames info)
                     ∨ packets m' !! k = Some (set_pending_flag false info))) →
  (∀ k, k ∈ queue_keys m' →
        k ∈ queue_keys m
        ∨ QuicUnackedPacketMap.HasRetransmittableFrames (unacked_packets_ m) k = true) →
  gives_up m m'.
Proof.
  intros Hlookup Hqueue. split; [|split; [|done]].
  - intros k [info' Hk]%elem_of_unacked. apply elem_of_unacked.
    destruct (Hlookup k) as [<-|[Hnone|(info & -> & _)]]; [eauto|congruence|eauto].
  - intros k. unfold QuicUnackedPacketMap.HasRetransmittableFrames.
    destruct (Hlookup k) as [->|[->|(info & -> & [-> | ->])]]; done.
Qed.

Lemma gives_up_table (f : QuicUnackedPacketMap.t → QuicUnackedPacketMap.t) m :
  (∀ k, QuicUnackedPacketMap.unacked_packets_ (f (unacked_packets_ m)) !! k = packets m !! k
        ∨ QuicUnackedPacketMap.unacked_packets_ (f (unacked_packets_ m)) !! k = None
        ∨ ∃ info, packets m !! k = Some info
                  ∧ (QuicUnackedPacketMap.unacked_packets_ (f (unacked_packets_ m)) !! k
                     = Some (clear_frames info)
                     ∨ QuicUnackedPacketMap.unacked_packets_ (f (unacked_packets_ m)) !! k
                       = Some (set_pending_flag false info))) →
  gives_up m (with_unacked f m).
Proof. intros Hlookup. apply gives_up_lookup; [done|]. intros k Hk. by left. Qed.

Lemma gives_up_RemovePacket m sn :
  gives_up m (with_unacked (λ u, QuicUnackedPacketMap.RemovePacket u sn) m).
Proof.
  apply gives_up_table. intros k. rewrite RemovePacket_packets.
  destruct (decide (k = sn)) as [->|Hne].
  - right. left. apply lookup_delete_eq.
  - left. by apply lookup_delete_ne.
Qed.

Lemma gives_up_NeuterPacket m sn :
  gives_up m (with_unacked (λ u, QuicUnackedPacketMap.NeuterPacket u sn) m).
Proof.
  apply gives_up_table. intros k. simpl. rewrite lookup_alter.
  destruct (decide (sn = k)) as [->|Hne]; [|by left].
  destruct (packets m !! k) as [info|] eqn:Hinfo; [|by left].
  right. right. exists info. split; [done|]. by left.
Qed.

Lemma MarkPacketHandled_gives_up m sn received_by_peer r :
  GroupsConsistent (unacked_packets_ m) →
  MarkPacketHandled m sn received_by_peer = Some r →
  gives_up m r.1.
Proof.
  intros Hgroups Hrun.
  destruct (packets m !! sn) as [info|] eqn:Hinfo.
  2:{ unfold MarkPacketHandled in Hrun.
      rewrite (proj2 (IsUnacked_false _ _)) in Hrun by done. simpl in Hrun.
      injection Hrun as <-. apply gives_up_refl. }
  pose proof Hgroups as [Hown Hmembers]%GroupsConsistent_lookup.
  destruct (Hown sn info Hinfo) as (group & Hgroup & Hsn).
  destruct (MarkPacketHandled_spec m sn received_by_peer info group Hgroups Hinfo Hgroup)
    as (newest_transmission & newest_info & m' & _ & _ & Hrun' & _ & _
        & Hother & Hmember & Hqueue).
  rewrite Hrun in Hrun'. injection Hrun' as ->. simpl.
  apply gives_up_lookup.
  - intros k. destruct (decide (k ∈ group)) as [Hin|Hout]; [|left; by apply Hother].
    destruct (Hmembers _ _ k Hgroup Hin) as (kinfo & Hkinfo & _).
    rewrite (Hmember k kinfo Hin Hkinfo).
    destruct (_ && _); [|by right; left].
    right. right. exists kinfo. split; [done|]. by left.
  - intros k Hk. left. by apply Hqueue in Hk as [? _].
Qed.

Lemma HandleAck_loop_gives_up received_info fuel m it m' :
  GroupsConsistent (unacked_packets_ m) →
  HandleAck_loop fuel received_info m it = Some m' →
  gives_up m m'.
Proof.
  revert m it. induction fuel as [|fuel IH]; intros m it Hgroups; simpl; [done|].
  destruct it as [sn|]; [|intros [= <-]; apply gives_up_refl].
  destruct (_ <? _)%N; [intros [= <-]; apply gives_up_refl|].
  destruct (IsAwaitingPacket _ _); [by apply IH|].
  destruct (MarkPacketHandled _ _ _) as [r|] eqn:Hhandled; simpl; [|done].
  intros Hrest. apply (gives_up_trans m r.1).
  - by eapply MarkPacketHandled_gives_up.
  - apply (IH _ _) in Hrest; [done|]. simpl.
    apply MarkPacketHandled_keeps in Hhandled as (_ & _ & _ & _ & _ & _ & Hgroups').
    by apply Hgroups'.
Qed.

Lemma discard_revived_gives_up m revived :
  gives_up m (discard_revived m revived)
  ∧ QuicUnackedPacketMap.HasRetransmittableFrames
      (unacked_packets_ (discard_revived m revived)) revived = false.
Proof.
  unfold discard_revived.
  destruct (QuicUnackedPacketMap.IsUnacked _ _) eqn:Hrecord.
  - destruct (negb _).
    + split; [apply gives_up_RemovePacket|].
      unfold QuicUnackedPacketMap.HasRetransmittableFrames. simpl.
      by rewrite RemovePacket_packets, lookup_delete_eq.
    + split; [apply gives_up_NeuterPacket|].
      unfold QuicUnackedPacketMap.HasRetransmittableFrames. simpl.
      rewrite lookup_alter_eq. by destruct (packets m !! revived).
  - split; [apply gives_up_refl|]. apply IsUnacked_false in Hrecord.
    unfold QuicUnackedPacketMap.HasRetransmittableFrames. by rewrite Hrecord.
Qed.

Lemma foldl_discard_revived_gives_up revived m :
  gives_up m (foldl discard_revived m revived)
  ∧ ∀ k, k ∈ revived →
         QuicUnackedPacketMap.HasRetransmittableFrames
           (unacked_packets_ (foldl discard_revived m revived)) k = false.
Proof.
  revert m. induction revived as [|sn rest IH]; intros m; simpl.
  { split; [apply gives_up_refl|]. by intros k ?%elem_of_nil. }
  destruct (discard_revived_gives_up m sn) as [Hstep Hsn].
  destruct (IH (discard_revived m sn)) as [Hrest Hgone].
  split; [by eapply gives_up_trans|].
  intros k [->|Hk]%elem_of_cons; [|by apply Hgone].
  apply not_true_iff_false. intros Hhas. destruct Hrest as (_ & Hframes & _).
  apply Hframes in Hhas. congruence.
Qed.

Lemma ClearPreviousRetransmissions_loop_lookup keys u num_to_clear k :
  QuicUnackedPacketMap.unacked_packets_
    (QuicUnackedPacketMap.ClearPreviousRetransmissions_loop keys u num_to_clear) !! k
  = QuicUnackedPacketMap.unacked_packets_ u !! k
  ∨ QuicUnackedPacketMap.unacked_packets_
      (QuicUnackedPacketMap.ClearPreviousRetransmissions_loop keys u num_to_clear) !! k
    = None.
Proof.
  revert u num_to_clear. induction keys as [|sn rest IH]; intros u n; simpl; [by left|].
  destruct n as [|n]; [by left|].
  destruct (_ !! sn) as [info|]; [|apply IH].
  destruct (_ && _); [|apply IH].
  destruct (IH (QuicUnackedPacketMap.RemovePacket u sn) n) as [-> | ->]; [|by right].
  rewrite RemovePacket_packets. destruct (decide (k = sn)) as [->|Hne].
  - right. apply lookup_delete_eq.
  - left. by apply lookup_delete_ne.
Qed.

Lemma HandleAckForSentPackets_gives_up fuel m received_info m' :
  GroupsConsistent (unacked_packets_ m) →
  HandleAckForSentPackets fuel m received_info = Some m' →
  gives_up m m'
  ∧ ∀ k, k ∈ revived_packets received_info →
         QuicUnackedPacketMap.HasRetransmittableFrames (unacked_packets_ m') k = false.
Proof.
  intros Hgroups. unfold HandleAckForSentPackets.
  set (num_to_clear := (size (missing_packets received_info) / 2)%nat).
  destruct (HandleAck_loop _ _ _ _) as [m1|] eqn:Hloop; simpl; [|done].
  apply HandleAck_loop_gives_up in Hloop; [|done].
  destruct (foldl_discard_revived_gives_up (ascending (revived_packets received_info)) m1)
    as [Hrevived Hgone].
  set (m2 := foldl discard_revived m1 _) in *. clearbody m2.
  assert (Hclear : gives_up m2
            (with_unacked
               (λ u, QuicUnackedPacketMap.ClearPreviousRetransmissions u num_to_clear) m2)).
  { apply gives_up_table. intros k.
    destruct (ClearPreviousRetransmissions_loop_lookup
                (fst <$> QuicUnackedPacketMap.begin_to_end (unacked_packets_ m2))
                (unacked_packets_ m2) num_to_clear k) as [Hk|Hk]; [by left|by right; left]. }
  assert (Hend : ∀ m3, gives_up m2 m3 →
    gives_up m m3
    ∧ ∀ k, k ∈ revived_packets received_info →
           QuicUnackedPacketMap.HasRetransmittableFrames (unacked_packets_ m3) k = false).
  { intros m3 Hm3. split; [eauto using gives_up_trans|].
    intros k Hk%elem_of_ascending. apply Hgone in Hk.
    apply not_true_iff_false. intros Hhas. destruct Hm3 as (_ & Hframes & _).
    apply Hframes in Hhas. congruence. }
  destruct (is_truncated received_info); intros [= <-]; apply Hend;
    [done|apply gives_up_refl].
Qed.

Lemma MaybeRetransmitOnAckFrame_gives_up m received_info ack_receive_time :
  ∃ m', MaybeRetransmitOnAckFrame m received_info ack_receive_time = Some m'
        ∧ gives_up m m'.
Proof.
  unfold MaybeRetransmitOnAckFrame.
  destruct (nack_missing_loop_flags
              (QuicUnackedPacketMap.begin_to_end (unacked_packets_ m))
              (largest_observed received_info) m) as (_ & Hqueue1 & Hflags).
  set (nacked := nack_missing_loop _ _ m) in *. clearbody nacked.
  destruct (handle_lost_packets_exact ack_receive_time
              (ascending (DetectLostPackets (unacked_packets_ nacked) ack_receive_time
                            (largest_observed received_info))) nacked)
    as (m' & -> & _ & Hother & Hmember & Hqueue); [apply ascending_NoDup|].
  set (lost := ascending _) in *. clearbody lost.
  exists m'. split; [done|].
  assert (Hframes : ∀ k,
    QuicUnackedPacketMap.HasRetransmittableFrames (unacked_packets_ nacked) k
    = QuicUnackedPacketMap.HasRetransmittableFrames (unacked_packets_ m) k).
  { intros k. unfold QuicUnackedPacketMap.HasRetransmittableFrames.
    destruct (Hflags k) as [_ Hk].
    destruct (packets nacked !! k), (packets m !! k); simpl in Hk; congruence. }
  assert (Hlookup : ∀ k,
    packets m' !! k = packets nacked !! k
    ∨ packets m' !! k = None
    ∨ ∃ info, packets nacked !! k = Some info
              ∧ packets m' !! k = Some (set_pending_flag false info)).
  { intros k. destruct (decide (k ∈ lost)) as [Hin|Hout]; [|left; by apply Hother].
    rewrite (Hmember k Hin). destruct (packets nacked !! k) as [info|]; simpl; [|by left].
    destruct (has_frames info); [|by right; left]. right. right. by exists info. }
  split; [|split].
  - intros k [info' Hk]%elem_of_unacked. apply elem_of_unacked.
    destruct (Hflags k) as [Hpending _]. rewrite <- fmap_is_Some with (f := pending).
    rewrite <- Hpending, fmap_is_Some.
    destruct (Hlookup k) as [<-|[Hnone|(info & -> & _)]]; [eauto|congruence|eauto].
  - intros k. rewrite <- Hframes. unfold QuicUnackedPacketMap.HasRetransmittableFrames.
    destruct (Hlookup k) as [->|[->|(info & -> & ->)]]; done.
  - intros k Hk. apply Hqueue in Hk as [Hk|[_ Hk]].
    + left. by rewrite <- Hqueue1.
    + right. by rewrite <- Hframes.
Qed.

(** X12. Processing an ack gains nothing.  When the transmission groups are
    consistent and the sweep has more turns than there are records,
    [OnIncomingAck] returns, and afterwards no record has been added, no
    record has retransmittable frames it did not have before, every sequence
    number that has entered the queue had retransmittable frames before the
    ack, and no revived packet has retransmittable frames left. *)
Theorem OnIncomingAck_gives_up fuel m received_info ack_receive_time :
  GroupsConsistent (unacked_packets_ m) →
  (size (unacked (unacked_packets_ m)) < fuel)%nat →
  ∃ m',
    OnIncomingAck fuel m received_info ack_receive_time = Some (m', true)
    ∧ unacked (unacked_packets_ m') ⊆ unacked (unacked_packets_ m)
    ∧ (∀ sn, QuicUnackedPacketMap.HasRetransmittableFrames (unacked_packets_ m') sn = true →
             QuicUnackedPacketMap.HasRetransmittableFrames (unacked_packets_ m) sn = true)
    ∧ (∀ sn, sn ∈ queue_keys m' →
             sn ∈ queue_keys m
             ∨ QuicUnackedPacketMap.HasRetransmittableFrames (unacked_packets_ m) sn = true)
    ∧ (∀ sn, sn ∈ revived_packets received_info →
             QuicUnackedPacketMap.HasRetransmittableFrames (unacked_packets_ m') sn = false).
Proof.
  intros Hgroups Hfuel. unfold OnIncomingAck.
  destruct (MaybeUpdateRTT_spec m received_info ack_receive_time)
    as (_ & Htable1 & Hqueue1).
  set (m1 := MaybeUpdateRTT m received_info ack_receive_time) in *. clearbody m1.
  destruct (HandleAckForSentPackets_spec fuel m1 received_info)
    as (m2 & Hrun2 & _); [by rewrite Htable1..|].
  rewrite Hrun2. simpl.
  apply HandleAckForSentPackets_gives_up in Hrun2 as [Hsweep Hrevived];
    [|by rewrite Htable1].
  destruct (MaybeRetransmitOnAckFrame_gives_up m2 received_info ack_receive_time)
    as (m3 & -> & Hlost).
  simpl.
  pose proof (gives_up_trans m1 m2 m3 Hsweep Hlost) as (Hdom & Hframes & Hqueue).
  rewrite Htable1, Hqueue1 in *.
  assert (Hgone : ∀ sn, sn ∈ revived_packets received_info →
    QuicUnackedPacketMap.HasRetransmittableFrames (unacked_packets_ m3) sn = false).
  { intros sn Hsn%Hrevived. apply not_true_iff_false. intros Hhas.
    destruct Hlost as (_ & Hframes3 & _). apply Hframes3 in Hhas. congruence. }
  destruct (QuicUnackedPacketMap.IsUnacked _ _); eexists; (split; [done|]); done.
Qed.

(** ** Taking a retransmission off the queue *)

(** X13. When the queue holds no sequence number twice and
    [NextPendingRetransmission] is defined, it returns the entry at the head
    of the queue together with the frames and the sequence number length of
    that packet's record.  Retransmitting that packet under a new sequence
    number takes exactly this entry off the queue; the new record carries the
    frames and is not pending, the old record stays but has no frames any
    more, and the ACK notifier is told about the new number. *)
Theorem NextPendingRetransmission_cycle m p :
  NoDup (queue_keys m) →
  NextPendingRetransmission m = Some p →
  let sn := PendingRetransmission.sequence_number p in
  HasPendingRetransmissions m = true
  ∧ head (pending_retransmissions_ m) = Some (sn, PendingRetransmission.transmission_type p)
  ∧ (∃ info,
       packets m !! sn = Some info
       ∧ retransmittable_frames info = Some (PendingRetransmission.retransmittable_frames p)
       ∧ sequence_number_length info = PendingRetransmission.sequence_number_length p)
  ∧ ∀ new_sequence_number,
      new_sequence_number ≠ sn →
      ∃ m',
        OnRetransmittedPacket m sn new_sequence_number = Some m'
        ∧ pending_retransmissions_ m' = tail (pending_retransmissions_ m)
        ∧ (∃ info',
             packets m' !! new_sequence_number = Some info'
             ∧ retransmittable_frames info'
               = Some (PendingRetransmission.retransmittable_frames p)
             ∧ sequence_number_length info' = PendingRetransmission.sequence_number_length p
             ∧ pending info' = false)
        ∧ QuicUnackedPacketMap.HasRetransmittableFrames (unacked_packets_ m') sn = false
        ∧ QuicUnackedPacketMap.IsUnacked (unacked_packets_ m') sn = true
        ∧ ack_notifier_manager_ m'
          = NotifierUpdateSequenceNumber sn new_sequence_number :: ack_notifier_manager_ m.
Proof.
  intros Hnodup. unfold NextPendingRetransmission, HasPendingRetransmissions,
    QuicUnackedPacketMap.GetTransmissionInfo.
  destruct (pending_retransmissions_ m) as [|[k reason] rest] eqn:Hqueue; [done|].
  simpl. destruct (packets m !! k) as [info|] eqn:Hinfo; [|done]. simpl.
  destruct (retransmittable_frames info) as [frames|] eqn:Hframes; [|done]. simpl.
  intros [= <-]. simpl.
  split; [done|]. split; [done|]. split; [by exists info|].
  intros new_sn Hnew.
  unfold OnRetransmittedPacket, QuicUnackedPacketMap.OnRetransmittedPacket. simpl.
  rewrite Hinfo. simpl. eexists. split; [done|]. simpl.
  split; [|split; [|split; [|split; [|done]]]].
  - rewrite Hqueue. unfold erase. rewrite filter_cons_False by (simpl; by intros []).
    apply erase_absent. simpl in Hnodup. by apply NoDup_cons in Hnodup as [? _].
  - eexists. split; [apply lookup_insert_eq|]. done.
  - unfold QuicUnackedPacketMap.HasRetransmittableFrames. simpl.
    by rewrite lookup_insert_ne, lookup_insert_eq.
  - apply IsUnacked_true. simpl. rewrite lookup_insert_ne, lookup_insert_eq; eauto.
Qed.

(** ** A retransmission timeout returns *)

Lemma OnRetransmissionTimeout_returns m : is_Some (OnRetransmissionTimeout m).
Proof.
  unfold OnRetransmissionTimeout. destruct (GetRetransmissionMode m).
  - unfold RetransmitAllPackets.
    destruct (RetransmitAllPackets_loop_spec
                (QuicUnackedPacketMap.begin_to_end
                   (unacked_packets_ (with_stats incr_rto_count m)))
                false (with_stats incr_rto_count m))
      as (table & q & added & -> & _).
    { apply entries_NoDup_keys. }
    { intros [k i] He%elem_of_entries. simpl. eauto. }
    simpl. destruct (bool_decide _); eauto.
  - unfold RetransmitOldestPacket.
    set (m1 := with_consecutive_counts _ _ _ _).
    destruct (RetransmitOldestPacket_loop_spec
                (QuicUnackedPacketMap.begin_to_end (unacked_packets_ m1)) m1)
      as (q & -> & _); [apply entries_sorted| |eauto].
    intros [k i] He%elem_of_entries. simpl. eauto.
  - unfold RetransmitCryptoPackets.
    set (m1 := with_consecutive_counts _ _ _ _).
    destruct (RetransmitCryptoPackets_loop_spec
                (QuicUnackedPacketMap.begin_to_end (unacked_packets_ m1)) m1)
      as (table & q & added & s & -> & _); [apply entries_NoDup_keys| |eauto].
    intros [k i] He%elem_of_entries. done.
Qed.


(** ** Retransmission on command *)

Local Abbreviation sets m := (QuicUnackedPacketMap.transmission_sets_ (unacked_packets_ m)).

Lemma swept_upto_advance retransmission_type m0 mc sn info m1 it' :
  swept_upto retransmission_type m0 mc (Some sn) →
  packets mc !! sn = Some info →
  GroupsConsistent (unacked_packets_ m1) →
  keeps_bookkeeping mc m1 →
  (∀ k, k ≠ sn → packets m1 !! k = packets mc !! k) →
  packets m1 !! sn
  = RetransmitUnackedPackets_record retransmission_type (unacked_packets_ m0) info →
  (∀ k, k ≠ sn → (k ∈ queue_keys m1 ↔ k ∈ queue_keys mc)) →
  (sn ∈ queue_keys m1 ↔ queued_after retransmission_type m0 sn) →
  (∀ k kinfo, k ≠ sn → packets mc !! k = Some kinfo →
     sets m1 !! all_transmissions kinfo = sets mc !! all_transmissions kinfo) →
  stats_ m1 = stats_ mc →
  pending_crypto_packet_count_ m1 = pending_crypto_packet_count_ mc →
  (∀ s, it' = Some s → s ∈ unacked (unacked_packets_ m1) ∧ (sn < s)%N) →
  (∀ k, k ∈ unacked (unacked_packets_ m1) → (sn < k)%N → ∃ s, it' = Some s ∧ (s <= k)%N) →
  swept_upto retransmission_type m0 m1 it'.
Proof.
  intros (Hgroups & Hkeeps0 & Hdone & Htodo & Hsets & Hqdone & Hqtodo & Hstats & Hcrypto)
    Hinfo Hgroups1 Hkeeps1 Hother Hself Hqother Hqself Hsets1 Hstats1 Hcrypto1 Hvalid Hnext.
  assert (Hinfo0 : packets m0 !! sn = Some info).
  { rewrite <- Htodo; [done|]. simpl. lia. }
  assert (Hcases : ∀ k, before k it' →
    (k < sn)%N ∨ k = sn ∨ ((sn < k)%N ∧ packets m1 !! k = None)).
  { intros k Hk. destruct (N.lt_trichotomy k sn) as [?|[?|Hgt]]; [auto..|].
    right. right. split; [done|]. apply eq_None_not_Some. intros Hsome%elem_of_unacked.
    destruct (Hnext k Hsome Hgt) as (s & -> & Hle). simpl in Hk. lia. }
  assert (Hlater : ∀ k, ¬ before k it' → (sn < k)%N).
  { intros k Hk. destruct it' as [s|]; [|by destruct Hk].
    destruct (Hvalid s eq_refl) as [_ Hlt]. simpl in Hk. lia. }
  split; [done|]. split; [by eapply keeps_trans|].
  split; [|split; [|split; [|split; [|split; [|split]]]]].
  - intros k Hk. destruct (Hcases k Hk) as [Hlt|[->|[Hgt Hnone]]].
    + rewrite Hother by lia. by apply Hdone.
    + by rewrite Hself, Hinfo0.
    + rewrite Hnone. rewrite Hother in Hnone by lia.
      rewrite Htodo in Hnone by (simpl; lia). by rewrite Hnone.
  - intros k Hk%Hlater. rewrite Hother by lia. apply Htodo. simpl. lia.
  - intros k kinfo Hk%Hlater Hkinfo. rewrite (Hsets1 k kinfo); [|lia|].
    + apply (Hsets k); [simpl; lia|done].
    + rewrite Htodo; [done|simpl; lia].
  - intros k Hk. destruct (Hcases k Hk) as [Hlt|[->|[Hgt Hnone]]].
    + rewrite Hqother by lia. by apply Hqdone.
    + done.
    + rewrite Hqother by lia. rewrite Hqtodo by (simpl; lia).
      rewrite Hother in Hnone by lia. rewrite Htodo in Hnone by (simpl; lia).
      unfold queued_after. by rewrite Hnone.
  - intros k Hk%Hlater. rewrite Hqother by lia. apply Hqtodo. simpl. lia.
  - by rewrite Hstats1.
  - by rewrite Hcrypto1.
Qed.

Lemma RetransmitUnackedPackets_loop_spec retransmission_type m0 fuel mc it :
  swept_upto retransmission_type m0 mc it →
  (∀ s, it = Some s → s ∈ unacked (unacked_packets_ mc)) →
  (sweep_measure (unacked_packets_ mc) it < fuel)%nat →
  ∃ m', RetransmitUnackedPackets_loop fuel retransmission_type mc it = Some m'
        ∧ swept_upto retransmission_type m0 m' None.
Proof.
  revert mc it. induction fuel as [|fuel IH]; intros mc it Hinv Hvalid Hfuel; [lia|].
  cbn [RetransmitUnackedPackets_loop]. destruct it as [sn|]; [|by exists mc].
  specialize (Hvalid sn eq_refl).
  pose proof Hvalid as [info Hinfo]%elem_of_unacked.
  unfold QuicUnackedPacketMap.GetTransmissionInfo. rewrite Hinfo. cbn [mbind option_bind].
  pose proof Hinv as (Hgroups & _ & _ & Htodo & Hsets & _ & Hqtodo & _).
  assert (Hhere : ¬ before sn (Some sn)) by (simpl; lia).
  assert (Hinfo0 : packets m0 !! sn = Some info) by (by rewrite <- Htodo).
  pose proof Hgroups as [Hown Hmembers]%GroupsConsistent_lookup.
  destruct (Hown sn info Hinfo) as (group & Hgroup & Hsn).
  assert (Hgroup0 : sets m0 !! all_transmissions info = Some group).
  { by rewrite <- (Hsets sn info Hhere Hinfo0). }
  assert (Hcontinue : ∀ m1 it',
    swept_upto retransmission_type m0 m1 it' →
    unacked (unacked_packets_ m1) ⊆ unacked (unacked_packets_ mc) →
    (∀ s, it' = Some s → s ∈ unacked (unacked_packets_ m1) ∧ (sn < s)%N) →
    ∃ m', RetransmitUnackedPackets_loop fuel retransmission_type m1 it' = Some m'
          ∧ swept_upto retransmission_type m0 m' None).
  { intros m1 it' Hinv1 Hsub Hvalid1. apply IH; [done|intros s Hs; by apply Hvalid1|].
    eapply Nat.lt_le_trans; [|apply Nat.lt_succ_r, Hfuel].
    apply sweep_measure_advance; [done|done| |].
    - intros k1 Hk1. destruct (Hvalid1 k1 Hk1). split; [done|lia].
    - intros k1 Hk1 _. by destruct (Hvalid1 k1 Hk1). }
  assert (Hnext_valid : ∀ u s,
    QuicUnackedPacketMap.next u sn = Some s → s ∈ unacked u ∧ (sn < s)%N).
  { intros u s Hs. pose proof (next_spec u sn) as Hnext. rewrite Hs in Hnext.
    by destruct Hnext as (? & ? & _). }
  assert (Hnext_least : ∀ u k,
    k ∈ unacked u → (sn < k)%N →
    ∃ s, QuicUnackedPacketMap.next u sn = Some s ∧ (s <= k)%N).
  { intros u k Hk Hlt. pose proof (next_spec u sn) as Hnext.
    destruct (QuicUnackedPacketMap.next u sn) as [s|].
    - exists s. split; [done|]. destruct Hnext as (_ & _ & Hmin). by apply Hmin.
    - specialize (Hnext k Hk). lia. }
  assert (Hskip :
    drops retransmission_type (unacked_packets_ m0) info = false →
    retransmits retransmission_type info = false →
    ∃ m', RetransmitUnackedPackets_loop fuel retransmission_type mc
            (QuicUnackedPacketMap.next (unacked_packets_ mc) sn) = Some m'
          ∧ swept_upto retransmission_type m0 m' None).
  { intros Hdrops Hretransmits. apply Hcontinue; [|done|by apply Hnext_valid].
    apply (swept_upto_advance retransmission_type m0 mc sn info _ _ Hinv Hinfo).
    - done.
    - apply keeps_refl.
    - done.
    - unfold RetransmitUnackedPackets_record. by rewrite Hdrops, Hretransmits.
    - done.
    - rewrite (Hqtodo sn Hhere). unfold queued_after. rewrite Hinfo0, Hdrops, Hretransmits.
      split; [by left|]. by intros [[? _]|?].
    - done.
    - done.
    - done.
    - by apply Hnext_valid.
    - by apply Hnext_least. }
  destruct (retransmittable_frames info) as [frames|] eqn:Hframes.
  - assert (Hdrops : drops retransmission_type (unacked_packets_ m0) info = false).
    { unfold drops, has_frames. by rewrite Hframes. }
    cbn [mbind option_bind].
    destruct (bool_decide (retransmission_type = ALL_PACKETS)
              || bool_decide (encryption_level frames = ENCRYPTION_INITIAL)) eqn:Heligible.
    2:{ cbn [mbind option_bind]. apply Hskip; [done|].
        unfold retransmits. by rewrite Hframes. }
    assert (Hretransmits : retransmits retransmission_type info = true).
    { unfold retransmits. by rewrite Hframes. }
    pose proof (MarkForRetransmission_appends (OnPacketAbandoned mc sn) sn
                  NACK_RETRANSMISSION) as Hmark.
    rewrite Hmark.
    2:{ rewrite OnPacketAbandoned_lookup, decide_True, Hinfo by done. simpl. eauto. }
    clear Hmark. cbn [mbind option_bind].
    set (m1 := with_pending_retransmissions _ (OnPacketAbandoned mc sn)).
    pose proof (OnPacketAbandoned_spec mc sn) as (Habandon & _ & Htable).
    assert (Hdom : unacked (unacked_packets_ m1) = unacked (unacked_packets_ mc)).
    { apply set_eq. intros k. rewrite !elem_of_unacked. simpl.
      rewrite OnPacketAbandoned_lookup.
      destruct (decide (k = sn)); [|done]. by rewrite fmap_is_Some. }
    apply Hcontinue; [|by rewrite Hdom|by apply Hnext_valid].
    apply (swept_upto_advance retransmission_type m0 mc sn info _ _ Hinv Hinfo).
    + simpl. destruct Habandon as (_ & _ & _ & _ & _ & _ & Hconsistent). by apply Hconsistent.
    + apply (keeps_trans mc (OnPacketAbandoned mc sn)); [done|].
      apply keeps_with_pending_retransmissions. intros Hnodup.
      destruct (ContainsKey _ _) eqn:Hkey; [done|].
      rewrite fmap_app. apply NoDup_app. split; [done|]. split; [|apply NoDup_singleton].
      intros k Hk ->%list_elem_of_singleton. by apply ContainsKey_false in Hkey.
    + intros k Hk. simpl. by rewrite OnPacketAbandoned_lookup, decide_False.
    + simpl. rewrite OnPacketAbandoned_lookup, decide_True, Hinfo by done. simpl.
      unfold RetransmitUnackedPackets_record. by rewrite Hdrops, Hretransmits.
    + intros k Hk. simpl. rewrite OnPacketAbandoned_queue.
      destruct (ContainsKey _ _); [done|].
      rewrite fmap_app, elem_of_app. simpl. rewrite list_elem_of_singleton. tauto.
    + simpl. rewrite OnPacketAbandoned_queue. unfold queued_after.
      rewrite Hinfo0, Hretransmits. split; [by right|]. intros _.
      destruct (ContainsKey _ _) eqn:Hkey; [by apply ContainsKey_true|].
      rewrite fmap_app, elem_of_app. right. simpl. by apply list_elem_of_singleton.
    + intros k kinfo Hk Hkinfo. simpl. by destruct Htable as [-> | ->].
    + simpl. by destruct (OnPacketAbandoned_quiet mc sn) as (-> & _).
    + simpl. by destruct (OnPacketAbandoned_quiet mc sn) as (_ & -> & _).
    + by apply Hnext_valid.
    + by apply Hnext_least.
  - rewrite Hgroup. cbn [mbind option_bind].
    assert (Hretransmits : retransmits retransmission_type info = false).
    { unfold retransmits. by rewrite Hframes. }
    destruct (bool_decide (size group = 1%nat)
              && bool_decide (retransmission_type = ALL_PACKETS)) eqn:Hhandled.
    2:{ cbn [mbind option_bind]. apply Hskip; [|done].
        unfold drops, has_frames. rewrite Hframes, Hgroup0. done. }
    assert (Hdrops : drops retransmission_type (unacked_packets_ m0) info = true).
    { unfold drops, has_frames. rewrite Hframes, Hgroup0. done. }
    assert (Halone : group = {[sn]}).
    { apply andb_true_iff in Hhandled as [Hsize%bool_decide_eq_true _].
      apply size_1_elem_of in Hsize as [x Hx]. apply leibniz_equiv.
      rewrite Hx in Hsn |- *. apply elem_of_singleton in Hsn. by subst. }
    subst group.
    destruct (MarkPacketHandled_alone mc sn NOT_RECEIVED_BY_PEER info Hinfo Hgroup)
      as (m1 & Hrun & Htable & Hqueue & Hcrypto1 & Hstats1 & _).
    rewrite Hrun. cbn [mbind option_bind fst snd].
    pose proof (lower_bound_spec (unacked_packets_ m1) sn) as Hlower.
    assert (Hgone : sn ∉ unacked (unacked_packets_ m1)).
    { rewrite elem_of_unacked, Htable. simpl. rewrite lookup_delete_eq. by intros [? [=]]. }
    assert (Hvalid1 : ∀ s,
      QuicUnackedPacketMap.lower_bound (unacked_packets_ m1) sn = Some s →
      s ∈ unacked (unacked_packets_ m1) ∧ (sn < s)%N).
    { intros s Hs. rewrite Hs in Hlower. destruct Hlower as (Hin & Hle & _).
      split; [done|]. destruct (decide (s = sn)) as [->|]; [done|lia]. }
    pose proof (MarkPacketHandled_keeps _ _ _ _ Hrun) as Hkeeps1. simpl in Hkeeps1.
    apply Hcontinue; [| |done].
    + apply (swept_upto_advance retransmission_type m0 mc sn info _ _ Hinv Hinfo).
      * destruct Hkeeps1 as (_ & _ & _ & _ & _ & _ & Hconsistent). by apply Hconsistent.
      * done.
      * intros k Hk. rewrite Htable. simpl. by rewrite lookup_delete_ne.
      * rewrite Htable. simpl. rewrite lookup_delete_eq.
        unfold RetransmitUnackedPackets_record. by rewrite Hdrops.
      * intros k Hk. rewrite Hqueue, elem_of_erase_keys. tauto.
      * rewrite Hqueue, elem_of_erase_keys. unfold queued_after.
        rewrite Hinfo0, Hdrops, Hretransmits. split; [by intros [_ []]|].
        by intros [[_ [=]]|[=]].
      * intros k kinfo Hk Hkinfo. rewrite Htable. simpl. apply lookup_delete_ne.
        intros Heq. destruct (Hown k kinfo Hkinfo) as (g & Hg & Hkg).
        rewrite <- Heq, Hgroup in Hg. injection Hg as <-.
        apply elem_of_singleton in Hkg. done.
      * done.
      * rewrite Hcrypto1. unfold HasCryptoHandshake. by rewrite Hframes.
      * done.
      * intros k Hk Hlt.
        destruct (QuicUnackedPacketMap.lower_bound (unacked_packets_ m1) sn) as [s|].
        -- exists s. split; [done|]. destruct Hlower as (_ & _ & Hmin). apply Hmin; [done|lia].
        -- specialize (Hlower k Hk). lia.
    + intros k. rewrite !elem_of_unacked, Htable. simpl.
      destruct (decide (k = sn)) as [->|Hne].
      * rewrite lookup_delete_eq. by intros [? [=]].
      * by rewrite lookup_delete_ne.
Qed.

(** ** The calls return on every reachable state *)

Lemma RetransmitUnackedPackets_returns fuel m retransmission_type :
  GroupsConsistent (unacked_packets_ m) →
  (size (unacked (unacked_packets_ m)) < fuel)%nat →
  is_Some (RetransmitUnackedPackets fuel m retransmission_type).
Proof.
  intros Hgroups Hfuel. unfold RetransmitUnackedPackets.
  pose proof (begin_spec (unacked_packets_ m)) as Hbegin.
  set (it := fst <$> head _) in *.
  assert (Hnone : ∀ k, before k it → packets m !! k = None).
  { intros k Hk. apply eq_None_not_Some. intros Hsome%elem_of_unacked.
    destruct it as [s|].
    - destruct Hbegin as [_ Hmin]. specialize (Hmin k Hsome). simpl in Hk. lia.
    - rewrite Hbegin in Hsome. set_solver. }
  destruct (RetransmitUnackedPackets_loop_spec retransmission_type m fuel m it)
    as (m' & -> & _); [|..|done].
  - split; [done|]. split; [apply keeps_refl|].
    split; [|split; [done|split; [done|split; [|done]]]].
    + intros k Hk. by rewrite (Hnone k Hk).
    + intros k Hk. unfold queued_after. by rewrite (Hnone k Hk).
  - intros s Hs. rewrite Hs in Hbegin. by destruct Hbegin.
  - eapply Nat.le_lt_trans; [apply sweep_measure_le_size|done].
Qed.

(** X14. In every state the connection can drive the manager into by
    [SetFromConfig], [OnSerializedPacket], [OnRetransmittedPacket],
    [OnPacketSent], [OnIncomingAck], [OnRetransmissionTimeout],
    [DiscardUnackedPacket], [RetransmitUnackedPackets],
    [OnIncomingQuicCongestionFeedbackFrame], [TimeUntilSend] and
    [MaybeEnablePacing], the transmission groups are consistent and the
    handshake backoff count is at most 5.  There a retransmission timeout
    returns, discarding a packet returns, and processing an ack (with
    [true]) and retransmitting on command return when their loops are given
    more turns than there are records: none of them reads a record or a
    group that is not there.  The states they return are reachable again. *)
Theorem Reachable_calls_return m :
  Reachable m →
  GroupsConsistent (unacked_packets_ m)
  ∧ (consecutive_crypto_retransmission_count_ m <= kMaxHandshakeRetransmissionBackoffs)%N
  ∧ (∀ fuel received_info ack_receive_time,
       (size (unacked (unacked_packets_ m)) < fuel)%nat →
       ∃ m', OnIncomingAck fuel m received_info ack_receive_time = Some (m', true)
             ∧ Reachable m')
  ∧ (∃ m', OnRetransmissionTimeout m = Some m' ∧ Reachable m')
  ∧ (∀ sn, ∃ m', DiscardUnackedPacket m sn = Some m' ∧ Reachable m')
  ∧ (∀ fuel retransmission_type,
       (size (unacked (unacked_packets_ m)) < fuel)%nat →
       ∃ m', RetransmitUnackedPackets fuel m retransmission_type = Some m'
             ∧ Reachable m').
Proof.
  intros Hreachable.
  destruct (Reachable_invariant m Hreachable) as (Hgroups & _ & Hcount).
  split; [done|]. split; [done|]. split; [|split; [|split]].
  - intros fuel received_info ack_receive_time Hfuel.
    destruct (OnIncomingAck_spec fuel m received_info ack_receive_time Hgroups Hfuel)
      as (m3 & Hrun & _).
    eexists. split; [exact Hrun|]. by eapply Reachable_OnIncomingAck.
  - destruct (OnRetransmissionTimeout_returns m) as [m' Hrun].
    exists m'. split; [done|]. by eapply Reachable_OnRetransmissionTimeout.
  - intros sn.
    assert (Hreturns : is_Some (DiscardUnackedPacket m sn)).
    { unfold DiscardUnackedPacket.
      destruct (QuicUnackedPacketMap.IsUnacked (unacked_packets_ m) sn) eqn:Hrecord.
      - apply IsUnacked_unacked in Hrecord.
        destruct (MarkPacketHandled_retires m sn NOT_RECEIVED_BY_PEER Hgroups Hrecord)
          as (m' & -> & _). simpl. eauto.
      - unfold MarkPacketHandled. rewrite Hrecord. simpl. eauto. }
    destruct Hreturns as [m' Hrun].
    exists m'. split; [done|]. by eapply Reachable_DiscardUnackedPacket.
  - intros fuel retransmission_type Hfuel.
    destruct (RetransmitUnackedPackets_returns fuel m retransmission_type Hgroups Hfuel)
      as [m' Hrun].
    exists m'. split; [done|]. by eapply Reachable_RetransmitUnackedPackets.
Qed.

(** ** What retransmission on command does to each record *)

(** X15. [RetransmitUnackedPackets] returns when the transmission groups
    are consistent and the loop is given more turns than there are records,
    and it deals with every record on its own.  A record with frames is
    abandoned and queued when the scope is all packets or its frames are of
    the initial encryption level; a record without frames that is alone in
    its transmission group is dropped, with its queue entry, when the scope
    is all packets; every other record and queue entry stays as it was.
    With the scope restricted to the initial encryption level no record is
    dropped.  The statistics, [pending_crypto_packet_count_] and the
    consecutive-retransmission counts are not changed. *)
Theorem RetransmitUnackedPackets_spec fuel m retransmission_type :
  GroupsConsistent (unacked_packets_ m) →
  (size (unacked (unacked_packets_ m)) < fuel)%nat →
  ∃ m',
    RetransmitUnackedPackets fuel m retransmission_type = Some m'
    ∧ (∀ sn, packets m' !! sn
             = packets m !! sn
               ≫= RetransmitUnackedPackets_record retransmission_type (unacked_packets_ m))
    ∧ (∀ sn, sn ∈ queue_keys m' ↔ queued_after retransmission_type m sn)
    ∧ (∀ sn info frames,
         packets m !! sn = Some info →
         retransmittable_frames info = Some frames →
         retransmission_type = ALL_PACKETS ∨ encryption_level frames = ENCRYPTION_INITIAL →
         sn ∈ queue_keys m'
         ∧ QuicUnackedPacketMap.IsPending (unacked_packets_ m') sn = false
         ∧ QuicUnackedPacketMap.HasRetransmittableFrames (unacked_packets_ m') sn = true)
    ∧ (retransmission_type = INITIAL_ENCRYPTION_ONLY →
       unacked (unacked_packets_ m') = unacked (unacked_packets_ m))
    ∧ GroupsConsistent (unacked_packets_ m')
    ∧ stats_ m' = stats_ m
    ∧ pending_crypto_packet_count_ m' = pending_crypto_packet_count_ m
    ∧ consecutive_rto_count_ m' = consecutive_rto_count_ m
    ∧ consecutive_tlp_count_ m' = consecutive_tlp_count_ m
    ∧ consecutive_crypto_retransmission_count_ m'
      = consecutive_crypto_retransmission_count_ m.
Proof.
  intros Hgroups Hfuel. unfold RetransmitUnackedPackets.
  pose proof (begin_spec (unacked_packets_ m)) as Hbegin.
  set (it := fst <$> head _) in *.
  assert (Hnone : ∀ k, before k it → packets m !! k = None).
  { intros k Hk. apply eq_None_not_Some. intros Hsome%elem_of_unacked.
    destruct it as [s|].
    - destruct Hbegin as [_ Hmin]. specialize (Hmin k Hsome). simpl in Hk. lia.
    - rewrite Hbegin in Hsome. set_solver. }
  destruct (RetransmitUnackedPackets_loop_spec retransmission_type m fuel m it)
    as (m' & -> & Hgroups' & Hkeeps & Hdone & _ & _ & Hqdone & _ & Hstats & Hcrypto).
  { split; [done|]. split; [apply keeps_refl|].
    split; [|split; [done|split; [done|split; [|done]]]].
    - intros k Hk. by rewrite (Hnone k Hk).
    - intros k Hk. unfold queued_after. by rewrite (Hnone k Hk). }
  { intros s Hs. rewrite Hs in Hbegin. by destruct Hbegin. }
  { eapply Nat.le_lt_trans; [apply sweep_measure_le_size|done]. }
  exists m'. split; [done|].
  assert (Hrecords : ∀ sn,
    packets m' !! sn
    = packets m !! sn
      ≫= RetransmitUnackedPackets_record retransmission_type (unacked_packets_ m)).
  { intros sn. by apply Hdone. }
  assert (Hqueue : ∀ sn, sn ∈ queue_keys m' ↔ queued_after retransmission_type m sn).
  { intros sn. by apply Hqdone. }
  destruct Hkeeps as (Hrto & Htlp & Hhandshake & _).
  split; [done|]. split; [done|]. split; [|split; [|done]].
  - intros sn info frames Hinfo Hframes Heligible.
    assert (Hretransmits : retransmits retransmission_type info = true).
    { unfold retransmits. rewrite Hframes. apply orb_true_iff.
      destruct Heligible; [left|right]; by apply bool_decide_eq_true. }
    assert (Hdrops : drops retransmission_type (unacked_packets_ m) info = false).
    { unfold drops, has_frames. by rewrite Hframes. }
    split; [|split].
    + apply Hqueue. unfold queued_after. rewrite Hinfo. by right.
    + unfold QuicUnackedPacketMap.IsPending. rewrite Hrecords, Hinfo. simpl.
      unfold RetransmitUnackedPackets_record. by rewrite Hdrops, Hretransmits.
    + unfold QuicUnackedPacketMap.HasRetransmittableFrames. rewrite Hrecords, Hinfo. simpl.
      unfold RetransmitUnackedPackets_record. rewrite Hdrops, Hretransmits. simpl.
      unfold has_frames. simpl. by rewrite Hframes.
  - intros ->. apply set_eq. intros sn. rewrite !elem_of_unacked, Hrecords.
    destruct (packets m !! sn) as [info|]; simpl; [|done].
    unfold RetransmitUnackedPackets_record, drops.
    assert (Hscope : bool_decide (INITIAL_ENCRYPTION_ONLY = ALL_PACKETS) = false)
      by (by apply bool_decide_eq_false).
    rewrite Hscope.
    replace (negb (has_frames info)
             && match sets m !! all_transmissions info with
                | Some group => bool_decide (size group = 1%nat) && false
                | None => false
                end) with false.
    + destruct (retransmits _ _); split; eauto.
    + destruct (negb _); [|done]. simpl. destruct (sets m !! _); [|done].
      by rewrite andb_false_r.
Qed.

(** ** A gap counts as several nacks *)

Lemma nack_missing_loop_other its largest m k :
  k ∉ its.*1 → packets (nack_missing_loop its largest m) !! k = packets m !! k.
Proof.
  revert m. induction its as [|it rest IH]; intros m Hk; cbn [nack_missing_loop]; [done|].
  rewrite fmap_cons in Hk. apply not_elem_of_cons in Hk as [Hne Hk].
  destruct (_ <? _)%N; [done|]. destruct (negb _); [by apply IH|].
  rewrite IH by done. simpl. by rewrite lookup_alter_ne.
Qed.

Lemma nack_missing_loop_largest_sent its largest m :
  QuicUnackedPacketMap.largest_sent_packet_ (unacked_packets_ (nack_missing_loop its largest m))
  = QuicUnackedPacketMap.largest_sent_packet_ (unacked_packets_ m).
Proof.
  revert m. induction its as [|it rest IH]; intros m; cbn [nack_missing_loop]; [done|].
  destruct (_ <? _)%N; [done|]. destruct (negb _); [by apply IH|]. by rewrite IH.
Qed.

Lemma nack_missing_loop_nacked its largest m k i :
  StronglySorted key_le its →
  NoDup its.*1 →
  (∀ e, e ∈ its → packets m !! e.1 = Some e.2) →
  (largest < 2 ^ 64)%N →
  (k, i) ∈ its → pending i = true → (k <= largest)%N →
  packets (nack_missing_loop its largest m) !! k
  = Some (raise_nack_count (largest - k) i).
Proof.
  intros Hsorted. revert m.
  induction Hsorted as [|[k0 i0] rest Hsorted IH Hall]; intros m Hnodup Hrecords Hlargest
    Hin Hpending Hle; [by apply elem_of_nil in Hin|].
  rewrite fmap_cons in Hnodup. apply NoDup_cons in Hnodup as [Hfresh Hnodup].
  cbn [nack_missing_loop fst snd] in *.
  assert (Hrest : ∀ e, e ∈ rest → (k0 <= e.1)%N ∧ e.1 ≠ k0).
  { intros e He. split.
    - rewrite Forall_forall in Hall. by apply Hall in He.
    - intros Heq. apply Hfresh. rewrite <- Heq. apply list_elem_of_fmap. by exists e. }
  destruct (N.ltb_spec largest k0) as [Hbreak|Hrange].
  { exfalso. apply elem_of_cons in Hin as [[= -> ->]|Hin]; [lia|].
    apply Hrest in Hin. simpl in Hin. lia. }
  apply elem_of_cons in Hin as [[= -> ->]|Hin].
  - rewrite Hpending. simpl. rewrite nack_missing_loop_other by done. simpl.
    assert (Hk0 : packets m !! k0 = Some i0) by (apply (Hrecords (k0, i0)); by left).
    rewrite lookup_alter_eq, Hk0. simpl. by rewrite sub_size_t_le.
  - destruct (negb (pending i0)).
    + apply IH; try done. intros e He. apply Hrecords. by right.
    + apply IH; try done. intros e He. simpl.
      rewrite lookup_alter_ne by (symmetry; by apply Hrest).
      apply Hrecords. by right.
Qed.

(** X16. A gap between a missing packet and the largest observed one
    counts as that many nacks.  A pending packet that lies three or more
    below [largest_observed] is therefore lost with this one ack, and so is
    every pending packet with retransmittable frames when the largest sent
    packet is the largest observed (early retransmit).  Such a packet ends
    up not pending and is counted in [packets_lost]; with frames it keeps
    its record and is in the queue, without frames its record is gone. *)
Theorem MaybeRetransmitOnAckFrame_gap m received_info ack_receive_time sn info :
  (largest_observed received_info < 2 ^ 64)%N →
  packets m !! sn = Some info →
  pending info = true →
  (sn <= largest_observed received_info)%N →
  (3 <= largest_observed received_info - sn)%N
  ∨ has_frames info = true
    ∧ QuicUnackedPacketMap.largest_sent_packet (unacked_packets_ m)
      = largest_observed received_info →
  ∃ m',
    MaybeRetransmitOnAckFrame m received_info ack_receive_time = Some m'
    ∧ QuicUnackedPacketMap.IsPending (unacked_packets_ m') sn = false
    ∧ (has_frames info = true →
       sn ∈ queue_keys m'
       ∧ packets m' !! sn
         = Some (set_pending_flag false
                   (raise_nack_count (largest_observed received_info - sn) info)))
    ∧ (has_frames info = false → packets m' !! sn = None)
    ∧ (packets_lost (stats_ m) < packets_lost (stats_ m'))%N.
Proof.
  intros Hlargest Hinfo Hpending Hle Hgap. unfold MaybeRetransmitOnAckFrame.
  set (its := QuicUnackedPacketMap.begin_to_end (unacked_packets_ m)).
  set (largest := largest_observed received_info) in *.
  pose proof (nack_missing_loop_nacked its largest m sn info) as Hnacked.
  pose proof (nack_missing_loop_largest_sent its largest m) as Hsent.
  destruct (nack_missing_loop_flags its largest m) as (Hstats1 & _).
  set (nacked := nack_missing_loop its largest m) in *.
  assert (Hrecord : packets nacked !! sn = Some (raise_nack_count (largest - sn) info)).
  { apply Hnacked; try done.
    - apply entries_sorted.
    - apply entries_NoDup_keys.
    - by intros [k i] He%elem_of_entries.
    - by apply elem_of_entries. }
  clear Hnacked. clearbody nacked.
  set (lost := DetectLostPackets (unacked_packets_ nacked) ack_receive_time largest).
  assert (Hlost : sn ∈ lost).
  { unfold lost, DetectLostPackets.
    apply DetectLostPackets_loop_spec; [apply entries_sorted|done|]. right.
    exists (raise_nack_count (largest - sn) info).
    split; [by apply elem_of_entries|]. split; [done|]. split; [done|].
    unfold QuicUnackedPacketMap.largest_sent_packet, required_nack_count. rewrite Hsent.
    simpl. case_bool_decide as Hearly; [lia|].
    destruct Hgap as [?|[Hframes Hlast]]; [lia|]. exfalso. apply Hearly.
    split; [|done]. unfold has_frames in Hframes.
    by destruct (retransmittable_frames info). }
  clearbody lost.
  destruct (handle_lost_packets_exact ack_receive_time (ascending lost) nacked)
    as (m' & -> & Hstats & _ & Hmember & Hqueue); [apply ascending_NoDup|].
  apply elem_of_ascending in Hlost.
  specialize (Hmember sn Hlost). rewrite Hrecord in Hmember. simpl in Hmember.
  change (has_frames (raise_nack_count (largest - sn) info)) with (has_frames info)
    in Hmember.
  exists m'. split; [done|]. split; [|split; [|split]].
  - unfold QuicUnackedPacketMap.IsPending. rewrite Hmember. by destruct (has_frames info).
  - intros Hframes. rewrite Hframes in Hmember. split; [|done].
    apply Hqueue. right. split; [done|].
    unfold QuicUnackedPacketMap.HasRetransmittableFrames. by rewrite Hrecord.
  - intros Hframes. by rewrite Hframes in Hmember.
  - rewrite Hstats, Hstats1.
    assert (0 < length (ascending lost))%nat; [|lia].
    destruct (ascending lost); [by apply elem_of_nil in Hlost|simpl; lia].
Qed.

(** ** What the ACK notifier hears *)

Local Abbreviation notifier m := (ack_notifier_manager_ m).

Lemma MarkPacketHandled_notifier m sn received_by_peer r :
  MarkPacketHandled m sn received_by_peer = Some r → notifier r.1 = notifier m.
Proof.
  unfold MarkPacketHandled. destruct (negb _); [by intros [= <-]|].
  destruct (QuicUnackedPacketMap.GetTransmissionInfo _ _) as [info|]; simpl; [|done].
  set (m1 := if pending info then _ else m).
  assert (Hm1 : notifier m1 = notifier m).
  { unfold m1. destruct (pending info); [|done]. by destruct received_by_peer. }
  clearbody m1.
  destruct (_ !! all_transmissions info) as [group|]; simpl; [|done].
  destruct (QuicUnackedPacketMap.newest group) as [newest_transmission|]; simpl; [|done].
  set (m2 := if decide _ then _ else m1).
  assert (Hm2 : notifier m2 = notifier m).
  { unfold m2. by case_decide. }
  clearbody m2.
  destruct (QuicUnackedPacketMap.GetTransmissionInfo _ _) as [newest_info|]; simpl; [|done].
  set (m3 := if HasCryptoHandshake newest_info then _ else m2).
  assert (Hm3 : notifier m3 = notifier m).
  { unfold m3. by destruct (HasCryptoHandshake newest_info). }
  clearbody m3.
  destruct (MarkPacketHandled_loop _ _ _) as [m4|] eqn:Hloop; simpl; [|done].
  intros [= <-]. simpl. apply MarkPacketHandled_loop_quiet in Hloop as (_ & _ & _ & ->).
  done.
Qed.

(** In a consistent table the members of a group are the records that
    refer to it. *)
Lemma group_members (u : QuicUnackedPacketMap.t) ref group g :
  GroupsConsistent u →
  QuicUnackedPacketMap.transmission_sets_ u !! ref = Some group →
  g ∈ group ↔
  ∃ ginfo, QuicUnackedPacketMap.unacked_packets_ u !! g = Some ginfo
           ∧ all_transmissions ginfo = ref.
Proof.
  intros [Hown Hmembers]%GroupsConsistent_lookup Hgroup. split.
  - intros Hin. by apply (Hmembers ref group g).
  - intros (ginfo & Hg & <-).
    destruct (Hown g ginfo Hg) as (group' & Hgroup' & Hin). congruence.
Qed.

Lemma reported_from_unfold it (u : QuicUnackedPacketMap.t) received_info sn :
  reported_from it u received_info sn ↔
  ∃ info group,
    QuicUnackedPacketMap.unacked_packets_ u !! sn = Some info
    ∧ QuicUnackedPacketMap.transmission_sets_ u !! all_transmissions info = Some group
    ∧ ¬ before sn it
    ∧ IsAwaitingPacket received_info sn = false
    ∧ ((∀ k, k ∈ group → ¬ before k it → IsAwaitingPacket received_info k = false →
             (sn <= k)%N)
       ∨ pending info = true
         ∧ ∃ newest_transmission newest_info,
             QuicUnackedPacketMap.newest group = Some newest_transmission
             ∧ QuicUnackedPacketMap.unacked_packets_ u !! newest_transmission
               = Some newest_info
             ∧ HasCryptoHandshake newest_info = false).
Proof.
  unfold reported_from.
  destruct (QuicUnackedPacketMap.unacked_packets_ u !! sn) as [info|] eqn:Hinfo.
  2:{ split; [done|]. by intros (? & ? & ? & _). }
  destruct (QuicUnackedPacketMap.transmission_sets_ u !! all_transmissions info)
    as [group|] eqn:Hgroup.
  2:{ split; [done|]. intros (info' & group' & [= <-] & Hgroup' & _). congruence. }
  split.
  - intros (Hit & Hack & Hcase). exists info, group.
    split; [done|]. split; [done|]. split; [done|]. split; [done|].
    destruct Hcase as [Hfirst|[Hpending Hnewest]]; [by left|right]. split; [done|].
    destruct (QuicUnackedPacketMap.newest group) as [newest_transmission|];
      simpl in Hnewest; [|done].
    destruct (QuicUnackedPacketMap.unacked_packets_ u !! newest_transmission)
      as [newest_info|] eqn:Hnewest_info; [|done].
    eauto.
  - intros (info' & group' & [= <-] & Hgroup' & Hit & Hack & Hcase).
    rewrite Hgroup in Hgroup'. injection Hgroup' as <-.
    split; [done|]. split; [done|].
    destruct Hcase as [Hfirst|(Hpending & newest_transmission & newest_info & Hnewest
                               & Hnewest_info & Hcrypto)]; [by left|right].
    split; [done|]. rewrite Hnewest. simpl. by rewrite Hnewest_info.
Qed.

(** What is reported depends on the iterator only through the acknowledged
    records it has passed. *)
Lemma reported_from_iterator it1 it2 (u : QuicUnackedPacketMap.t) received_info sn :
  GroupsConsistent u →
  (∀ k, k ∈ unacked u → IsAwaitingPacket received_info k = false →
        (before k it1 ↔ before k it2)) →
  reported_from it1 u received_info sn → reported_from it2 u received_info sn.
Proof.
  intros Hgroups Hsame. rewrite !reported_from_unfold.
  intros (info & group & Hinfo & Hgroup & Hit & Hack & Hcase).
  exists info, group. split; [done|]. split; [done|].
  assert (Hsn : sn ∈ unacked u) by (apply elem_of_unacked; eauto).
  split; [by rewrite <- (Hsame sn)|]. split; [done|].
  destruct Hcase as [Hfirst|Hsurvives]; [left|by right].
  intros k Hk Hkit Hkack. apply Hfirst; [done| |done].
  assert (Hrecord : k ∈ unacked u).
  { apply elem_of_unacked.
    apply (group_members u _ group k Hgroups Hgroup) in Hk as (kinfo & Hkinfo & _).
    eauto. }
  by rewrite (Hsame k).
Qed.

(** Handling the acknowledged packet [s] reports [s]; of the other packets
    the sweep reports afterwards what it would have reported before. *)
Lemma MarkPacketHandled_reported received_info m s info group m1 it1 :
  GroupsConsistent (unacked_packets_ m) →
  packets m !! s = Some info →
  sets m !! all_transmissions info = Some group →
  IsAwaitingPacket received_info s = false →
  MarkPacketHandled m s RECEIVED_BY_PEER = Some (m1, it1) →
  GroupsConsistent (unacked_packets_ m1)
  ∧ packets m1 !! s = None
  ∧ it1 = QuicUnackedPacketMap.lower_bound (unacked_packets_ m1) s
  ∧ ∀ k, reported_from (Some s) (unacked_packets_ m) received_info k
         ↔ k = s ∨ reported_from (Some s) (unacked_packets_ m1) received_info k.
Proof.
  intros Hgroups Hinfo Hgroup Hack Hrun.
  destruct (MarkPacketHandled_spec m s RECEIVED_BY_PEER info group Hgroups Hinfo Hgroup)
    as (nt & ninfo & m' & Hnt & Hninfo & Hrun' & _ & Hgroups1 & Hother & Hmember & _).
  rewrite Hrun in Hrun'. injection Hrun' as -> ->.
  assert (Hs : s ∈ group).
  { apply (group_members _ _ group s Hgroups Hgroup). eauto. }
  assert (Hgone : packets m' !! s = None).
  { rewrite (Hmember s info Hs Hinfo).
    rewrite (bool_decide_eq_false_2 (s ≠ s)) by (intros Hne; by apply Hne).
    by rewrite andb_false_r. }
  assert (Hin_group : ∀ g ginfo,
    packets m !! g = Some ginfo →
    g ∈ group ↔ all_transmissions ginfo = all_transmissions info).
  { intros g ginfo Hg. rewrite (group_members _ _ group g Hgroups Hgroup).
    split; [intros (? & ? & ?); congruence|eauto]. }
  assert (Hkept : ∀ g ginfo',
    packets m' !! g = Some ginfo' →
    ∃ ginfo,
      packets m !! g = Some ginfo
      ∧ all_transmissions ginfo' = all_transmissions ginfo
      ∧ (g ∈ group →
         ginfo' = clear_frames ginfo ∧ pending ginfo = true
         ∧ HasCryptoHandshake ninfo = false)
      ∧ (g ∉ group → ginfo' = ginfo)).
  { intros g ginfo' Hg'. destruct (decide (g ∈ group)) as [Hg|Hg].
    - pose proof Hg as (ginfo & Hginfo & Href)%(group_members _ _ group g Hgroups Hgroup).
      rewrite (Hmember g ginfo Hg Hginfo) in Hg'.
      destruct (pending ginfo) eqn:Hpending; simpl in Hg'; [|done].
      destruct (bool_decide (g ≠ s)); simpl in Hg'; [|done].
      destruct (HasCryptoHandshake ninfo) eqn:Hcrypto; simpl in Hg'; [done|].
      injection Hg' as <-. exists ginfo. by rewrite Hpending.
    - rewrite (Hother g Hg) in Hg'. exists ginfo'. done. }
  assert (Hsets : ∀ g ginfo gk,
    g ∉ group → packets m !! g = Some ginfo →
    sets m !! all_transmissions ginfo = Some gk →
    sets m' !! all_transmissions ginfo = Some gk
    ∧ ∀ x xinfo, x ∈ gk → packets m !! x = Some xinfo → packets m' !! x = Some xinfo).
  { intros g ginfo gk Hg Hginfo Hgk.
    assert (Hapart : ∀ x, x ∈ gk → x ∉ group).
    { intros x (xinfo & Hx & Href)%(group_members _ _ gk x Hgroups Hgk) Hin.
      apply (Hin_group x xinfo Hx) in Hin. apply Hg, (Hin_group g ginfo Hginfo). congruence. }
    assert (Hstay : ∀ x xinfo, x ∈ gk → packets m !! x = Some xinfo →
                               packets m' !! x = Some xinfo).
    { intros x xinfo Hx Hxinfo. by rewrite (Hother x (Hapart x Hx)). }
    split; [|done].
    pose proof Hgroups1 as [Hown1 _]%GroupsConsistent_lookup.
    destruct (Hown1 g ginfo) as (gk' & Hgk' & _); [by rewrite (Hother g Hg)|].
    rewrite Hgk'. f_equal. apply set_eq. intros x.
    rewrite (group_members _ _ gk' x Hgroups1 Hgk'), (group_members _ _ gk x Hgroups Hgk).
    split.
    - intros (xinfo' & Hx' & Href). destruct (Hkept x xinfo' Hx') as (xinfo & Hx & Hsame & _).
      exists xinfo. split; [done|]. congruence.
    - intros (xinfo & Hx & Href). exists xinfo. split; [|done].
      apply Hstay; [|done]. apply (group_members _ _ gk x Hgroups Hgk). eauto. }
  split; [done|]. split; [done|]. split; [done|].
  intros k. rewrite !reported_from_unfold. split.
  - intros (kinfo & gk & Hk & Hgk & Hit & Hackk & Hcase).
    destruct (decide (k = s)) as [->|Hne]; [by left|right].
    destruct (decide (k ∈ group)) as [Hin|Hout].
    + assert (gk = group) as ->.
      { apply (Hin_group k kinfo Hk) in Hin. congruence. }
      destruct Hcase as [Hfirst|(Hpending & nt' & ninfo' & Hnt' & Hninfo' & Hcrypto)].
      { exfalso. specialize (Hfirst s Hs). simpl in Hfirst, Hit.
        assert (k <= s)%N by (apply Hfirst; [lia|done]). lia. }
      assert (nt' = nt) as -> by congruence.
      assert (ninfo' = ninfo) as -> by congruence.
      assert (Hk' : packets m' !! k = Some (clear_frames kinfo)).
      { rewrite (Hmember k kinfo Hin Hk), Hpending, Hcrypto.
        by rewrite (bool_decide_eq_true_2 (k ≠ s)). }
      pose proof Hgroups1 as [Hown1 Hmembers1]%GroupsConsistent_lookup.
      destruct (Hown1 k _ Hk') as (gk' & Hgk' & Hin').
      exists (clear_frames kinfo), gk'.
      split; [done|]. split; [done|]. split; [done|]. split; [done|].
      right. split; [done|].
      destruct (newest_is_Some gk' k Hin') as [x Hx].
      pose proof (newest_elem_of gk' x Hx) as Hxin.
      destruct (Hmembers1 _ _ x Hgk' Hxin) as (xinfo' & Hxinfo' & Href).
      exists x, xinfo'. split; [done|]. split; [done|].
      destruct (Hkept x xinfo' Hxinfo') as (xinfo & Hxinfo & Hsame & Hmember_x & _).
      destruct Hmember_x as (-> & _); [|done].
      apply (Hin_group x xinfo Hxinfo). simpl in Href.
      apply (Hin_group k kinfo Hk) in Hin. simpl in Hsame. congruence.
    + destruct (Hsets k kinfo gk Hout Hk Hgk) as [Hgk' Hstay].
      exists kinfo, gk. split; [by rewrite (Hother k Hout)|].
      split; [done|]. split; [done|]. split; [done|].
      destruct Hcase as [Hfirst|(Hpending & nt' & ninfo' & Hnt' & Hninfo' & Hcrypto)];
        [by left|right].
      split; [done|]. exists nt', ninfo'. split; [done|]. split; [|done].
      apply Hstay; [|done]. by apply newest_elem_of.
  - intros [->|(kinfo' & gk' & Hk' & Hgk' & Hit & Hackk & Hcase)].
    { exists info, group. split; [done|]. split; [done|].
      split; [simpl; lia|]. split; [done|]. left.
      intros k _ Hkit _. simpl in Hkit. lia. }
    destruct (Hkept k kinfo' Hk') as (kinfo & Hk & Hsame & Hmember_k & Hother_k).
    destruct (decide (k ∈ group)) as [Hin|Hout].
    + destruct (Hmember_k Hin) as (-> & Hpending & Hcrypto).
      exists kinfo, group. split; [done|].
      split; [apply (Hin_group k kinfo Hk) in Hin; congruence|].
      split; [done|]. split; [done|]. right. split; [done|]. eauto.
    + rewrite (Hother_k Hout) in *. clear Hother_k Hmember_k.
      pose proof Hgroups as [Hown _]%GroupsConsistent_lookup.
      destruct (Hown k kinfo Hk) as (gk & Hgk & _).
      destruct (Hsets k kinfo gk Hout Hk Hgk) as [Hgk1 Hstay].
      assert (gk' = gk) as -> by congruence.
      exists kinfo, gk. split; [done|]. split; [done|]. split; [done|]. split; [done|].
      destruct Hcase as [Hfirst|(Hpending & nt' & ninfo' & Hnt' & Hninfo' & Hcrypto)];
        [by left|right].
      split; [done|]. exists nt', ninfo'. split; [done|]. split; [|done].
      pose proof (newest_elem_of gk nt' Hnt') as Hin'.
      pose proof Hin' as (xinfo & Hx & _)%(group_members _ _ gk nt' Hgroups Hgk).
      rewrite (Hstay nt' xinfo Hin' Hx) in Hninfo'. congruence.
Qed.

(** What the sweep says to the ACK notifier from iterator [it] on. *)
Lemma HandleAck_loop_reports received_info fuel m it m' :
  GroupsConsistent (unacked_packets_ m) →
  (∀ s, it = Some s → s ∈ unacked (unacked_packets_ m)) →
  HandleAck_loop fuel received_info m it = Some m' →
  ∃ acked,
    notifier m' = (NotifierOnPacketAcked <$> acked) ++ notifier m
    ∧ NoDup acked
    ∧ ∀ sn, sn ∈ acked ↔ reported_from it (unacked_packets_ m) received_info sn.
Proof.
  revert m it. induction fuel as [|fuel IH]; intros m it Hgroups Hvalid; simpl; [done|].
  assert (Hnone :
    (∀ sn, ¬ reported_from it (unacked_packets_ m) received_info sn) →
    ∃ acked,
      notifier m = (NotifierOnPacketAcked <$> acked) ++ notifier m
      ∧ NoDup acked
      ∧ ∀ sn, sn ∈ acked ↔ reported_from it (unacked_packets_ m) received_info sn).
  { intros Hno. exists []. split; [done|]. split; [apply NoDup_nil_2|].
    intros sn. split; [by intros ?%elem_of_nil|]. intros Hsn. by apply Hno in Hsn. }
  destruct it as [s|].
  2:{ intros [= <-]. apply Hnone. intros sn (? & ? & _ & _ & Hit & _)%reported_from_unfold.
      by apply Hit. }
  specialize (Hvalid s eq_refl).
  destruct (N.ltb_spec (largest_observed received_info) s) as [Hnew|Hrange].
  { intros [= <-]. apply Hnone.
    intros sn (? & ? & _ & _ & Hit & Hack & _)%reported_from_unfold.
    simpl in Hit. unfold IsAwaitingPacket in Hack.
    apply orb_false_iff in Hack as [Hle%N.ltb_ge _]. lia. }
  destruct (IsAwaitingPacket received_info s) eqn:Hawaiting.
  - pose proof (next_spec (unacked_packets_ m) s) as Hnext.
    set (it1 := QuicUnackedPacketMap.next (unacked_packets_ m) s) in *.
    intros Hrest. apply IH in Hrest as (acked & Hlog & Hnodup & Hacked); [|done|].
    2:{ intros s1 Hs1. rewrite Hs1 in Hnext. by destruct Hnext. }
    exists acked. split; [done|]. split; [done|].
    assert (Hsame : ∀ k, k ∈ unacked (unacked_packets_ m) →
                         IsAwaitingPacket received_info k = false →
                         (before k it1 ↔ before k (Some s))).
    { intros k Hk Hkack. assert (k ≠ s) by congruence. simpl.
      destruct it1 as [s1|]; simpl.
      - destruct Hnext as (_ & Hlt & Hmin). split; [|lia].
        intros Hk1. destruct (N.lt_ge_cases k s) as [?|Hge]; [done|].
        specialize (Hmin k Hk). lia.
      - specialize (Hnext k Hk). split; [lia|done]. }
    intros sn. rewrite Hacked. split; apply reported_from_iterator; try done.
    intros k Hk Hkack. symmetry. by apply Hsame.
  - pose proof Hvalid as [info Hinfo]%elem_of_unacked.
    pose proof Hgroups as [Hown _]%GroupsConsistent_lookup.
    destruct (Hown s info Hinfo) as (group & Hgroup & _).
    destruct (MarkPacketHandled m s RECEIVED_BY_PEER) as [[m1 it1]|] eqn:Hrun; simpl;
      [|done].
    pose proof (MarkPacketHandled_notifier _ _ _ _ Hrun) as Hquiet. simpl in Hquiet.
    destruct (MarkPacketHandled_reported received_info m s info group m1 it1
                Hgroups Hinfo Hgroup Hawaiting Hrun)
      as (Hgroups1 & Hgone & -> & Hreported).
    pose proof (lower_bound_spec (unacked_packets_ m1) s) as Hlower.
    set (it1 := QuicUnackedPacketMap.lower_bound (unacked_packets_ m1) s) in *.
    intros Hrest. apply IH in Hrest as (acked & Hlog & Hnodup & Hacked); [|done|].
    2:{ simpl. intros s1 Hs1. rewrite Hs1 in Hlower. by destruct Hlower. }
    simpl in Hlog, Hacked.
    assert (Hsame : ∀ k, k ∈ unacked (unacked_packets_ m1) →
                         IsAwaitingPacket received_info k = false →
                         (before k it1 ↔ before k (Some s))).
    { intros k Hk _. simpl. destruct it1 as [s1|]; simpl.
      - destruct Hlower as (_ & Hle & Hmin). split; [|lia].
        intros Hk1. destruct (N.lt_ge_cases k s) as [?|Hge]; [done|].
        specialize (Hmin k Hk Hge). lia.
      - specialize (Hlower k Hk). done. }
    assert (Hlater : ∀ k, k ∈ acked ↔
                          reported_from (Some s) (unacked_packets_ m1) received_info k).
    { intros k. rewrite Hacked. split; apply reported_from_iterator; try done.
      intros k' Hk' Hk'ack. symmetry. by apply Hsame. }
    exists (acked ++ [s]). split; [|split].
    + rewrite Hlog, Hquiet, fmap_app, <- app_assoc. done.
    + apply NoDup_app. split; [done|]. split; [|apply NoDup_singleton].
      intros k Hk ->%list_elem_of_singleton.
      apply Hlater, reported_from_unfold in Hk as (? & ? & Hrecord & _). congruence.
    + intros k. rewrite Hreported, elem_of_app, list_elem_of_singleton, Hlater. tauto.
Qed.


Lemma discard_revived_notifier revived m :
  notifier (foldl discard_revived m revived) = notifier m.
Proof.
  revert m. induction revived as [|sn rest IH]; intros m; simpl; [done|].
  rewrite IH. unfold discard_revived.
  destruct (QuicUnackedPacketMap.IsUnacked _ _); [|done]. by destruct (negb _).
Qed.

Lemma nack_missing_loop_notifier its largest m :
  notifier (nack_missing_loop its largest m) = notifier m.
Proof.
  revert m. induction its as [|it rest IH]; intros m; cbn [nack_missing_loop]; [done|].
  destruct (_ <? _)%N; [done|]. destruct (negb _); [by apply IH|]. by rewrite IH.
Qed.

Lemma handle_lost_packets_notifier ack_receive_time lost m m' :
  handle_lost_packets ack_receive_time lost m = Some m' → notifier m' = notifier m.
Proof.
  revert m. induction lost as [|sn rest IH]; intros m; cbn [handle_lost_packets];
    [by intros [= <-]|].
  destruct (handle_lost_packet ack_receive_time m sn) as [m1|] eqn:Hstep; simpl; [|done].
  intros ->%IH. revert Hstep. unfold handle_lost_packet.
  set (m2 := with_send_algorithm _ _).
  destruct (OnPacketAbandoned_quiet m2 sn) as (_ & _ & _ & Hquiet).
  destruct (QuicUnackedPacketMap.HasRetransmittableFrames _ _).
  - unfold MarkForRetransmission.
    destruct (QuicUnackedPacketMap.GetTransmissionInfo _ _); simpl; [|done].
    destruct (ContainsKey _ _); intros [= <-]; simpl; by rewrite Hquiet.
  - intros [= <-]. simpl. by rewrite Hquiet.
Qed.

(** X17. While an ack is processed the ACK notifier hears [OnPacketAcked]
    and nothing else, once for each sequence number that is [reported] and
    for no other: a packet is reported exactly when it has a record, the ack
    acknowledges it (it is at most [largest_observed] and not reported
    missing) and either no lower member of its transmission group is
    acknowledged too, or it is pending and the newest transmission of its
    group carries no crypto handshake.  So the lowest acknowledged
    transmission of every group is reported, in particular every
    acknowledged packet that was never retransmitted; an acknowledged
    transmission that is not pending is not reported when a lower
    transmission of its group is acknowledged by the same ack, because
    handling the lower one has removed its record before the sweep reaches
    it.  A reported packet has no record afterwards. *)
Theorem OnIncomingAck_notifies fuel m received_info ack_receive_time :
  GroupsConsistent (unacked_packets_ m) →
  (size (unacked (unacked_packets_ m)) < fuel)%nat →
  ∃ m' acked,
    OnIncomingAck fuel m received_info ack_receive_time = Some (m', true)
    ∧ ack_notifier_manager_ m' = (NotifierOnPacketAcked <$> acked) ++ ack_notifier_manager_ m
    ∧ NoDup acked
    ∧ (∀ sn, sn ∈ acked ↔ reported (unacked_packets_ m) received_info sn)
    ∧ (∀ sn, sn ∈ acked →
             QuicUnackedPacketMap.IsUnacked (unacked_packets_ m) sn = true
             ∧ (sn <= largest_observed received_info)%N
             ∧ (sn ∉ missing_packets received_info)
             ∧ QuicUnackedPacketMap.IsUnacked (unacked_packets_ m') sn = false)
    ∧ (∀ sn info group,
         packets m !! sn = Some info →
         sets m !! all_transmissions info = Some group →
         (sn <= largest_observed received_info)%N →
         sn ∉ missing_packets received_info →
         (∀ k, k ∈ group → (k < sn)%N → k ∈ missing_packets received_info) →
         sn ∈ acked)
    ∧ (∀ sn info group k,
         packets m !! sn = Some info →
         sets m !! all_transmissions info = Some group →
         pending info = false →
         k ∈ group → (k < sn)%N → k ∉ missing_packets received_info →
         sn ∉ acked).
Proof.
  intros Hgroups Hfuel.
  destruct (OnIncomingAck_spec fuel m received_info ack_receive_time Hgroups Hfuel)
    as (m3 & Hrun & _ & Hgone).
  revert Hrun. unfold OnIncomingAck.
  destruct (MaybeUpdateRTT_spec m received_info ack_receive_time) as (_ & Htable1 & _).
  assert (Hquiet1 : notifier (MaybeUpdateRTT m received_info ack_receive_time) = notifier m).
  { unfold MaybeUpdateRTT. destruct (negb _); [done|].
    destruct (QuicUnackedPacketMap.GetTransmissionInfo _ _); [|done].
    destruct (QuicTime.IsZero _); [done|].
    destruct (Delta.gt _ _); [done|]. by destruct (Delta.IsInfinite _). }
  set (m1 := MaybeUpdateRTT m received_info ack_receive_time) in *. clearbody m1.
  destruct (HandleAckForSentPackets fuel m1 received_info) as [m2|] eqn:Hsweep; simpl;
    [|done].
  assert (Hlog : ∃ acked,
    notifier m2 = (NotifierOnPacketAcked <$> acked) ++ notifier m
    ∧ NoDup acked
    ∧ ∀ sn, sn ∈ acked ↔ reported (unacked_packets_ m) received_info sn).
  { revert Hsweep. unfold HandleAckForSentPackets.
    pose proof (begin_spec (unacked_packets_ m1)) as Hbegin.
    destruct (HandleAck_loop _ _ _ _) as [m1'|] eqn:Hloop; simpl; [|done].
    apply HandleAck_loop_reports in Hloop as (acked & Hlog & Hnodup & Hacked);
      [|by rewrite Htable1|].
    2:{ intros s Hs. rewrite Hs in Hbegin. by destruct Hbegin. }
    intros Hend.
    assert (Hquiet2 : notifier m2 = notifier m1').
    { destruct (is_truncated received_info); injection Hend as <-; simpl;
        apply discard_revived_notifier. }
    rewrite Htable1, Hquiet1 in *. exists acked.
    split; [by rewrite Hquiet2|]. split; [done|].
    set (it := fst <$> head _) in *.
    assert (Hsame : ∀ k, k ∈ unacked (unacked_packets_ m) →
                         IsAwaitingPacket received_info k = false →
                         (before k it ↔ before k (Some 0%N))).
    { intros k Hk _. destruct it as [s|]; simpl.
      - destruct Hbegin as [_ Hmin]. specialize (Hmin k Hk). lia.
      - rewrite Hbegin in Hk. set_solver. }
    intros sn. rewrite Hacked. unfold reported.
    split; apply reported_from_iterator; try done.
    intros k Hk Hkack. symmetry. by apply Hsame. }
  destruct Hlog as (acked & Hlog & Hnodup & Hacked).
  destruct (MaybeRetransmitOnAckFrame m2 received_info ack_receive_time) as [m3'|] eqn:Hlost;
    simpl; [|done].
  assert (Hquiet3 : notifier m3' = notifier m2).
  { revert Hlost. unfold MaybeRetransmitOnAckFrame. intros ->%handle_lost_packets_notifier.
    apply nack_missing_loop_notifier. }
  intros Hsame. injection Hsame as Hsame.
  assert (Htable3 : unacked_packets_ m3' = unacked_packets_ m3).
  { destruct (QuicUnackedPacketMap.IsUnacked _ _);
      by apply (f_equal unacked_packets_) in Hsame. }
  clear Hsame. rewrite <- Htable3 in Hgone.
  assert (Hawaiting : ∀ sn, IsAwaitingPacket received_info sn = false ↔
                            (sn <= largest_observed received_info)%N
                            ∧ sn ∉ missing_packets received_info).
  { intros sn. unfold IsAwaitingPacket.
    by rewrite orb_false_iff, N.ltb_ge, bool_decide_eq_false. }
  eexists. exists acked. split; [done|]. split; [|split; [done|split; [done|split; [|split]]]].
  - destruct (QuicUnackedPacketMap.IsUnacked _ _); simpl; by rewrite Hquiet3.
  - intros sn (info & group & Hinfo & _ & _ & [Hle Hmissing]%Hawaiting & _)
             %Hacked%reported_from_unfold.
    assert (Hrecord : sn ∈ unacked (unacked_packets_ m)) by (apply elem_of_unacked; eauto).
    split; [by apply IsUnacked_unacked|]. split; [done|]. split; [done|].
    destruct (Hgone sn Hrecord Hle) as [Hgone' _]; [by apply Hawaiting|].
    apply not_true_iff_false. rewrite IsUnacked_unacked.
    by destruct (QuicUnackedPacketMap.IsUnacked (unacked_packets_ m)
                   (largest_observed received_info)).
  - intros sn info group Hinfo Hgroup Hle Hmissing Hlower.
    apply Hacked, reported_from_unfold. exists info, group.
    split; [done|]. split; [done|]. split; [simpl; lia|]. split; [by apply Hawaiting|].
    left. intros k Hk _ [_ Hkack]%Hawaiting.
    destruct (N.le_gt_cases sn k) as [?|Hlt]; [done|]. by apply Hlower in Hlt.
  - intros sn info group k Hinfo Hgroup Hidle Hk Hlt Hkack
      (info' & group' & Hinfo' & Hgroup' & _ & [Hle _]%Hawaiting & Hcase)
      %Hacked%reported_from_unfold.
    assert (info' = info) as -> by congruence.
    assert (group' = group) as -> by congruence.
    destruct Hcase as [Hfirst|[Hpending _]]; [|congruence].
    assert (sn <= k)%N; [|lia].
    apply Hfirst; [done|simpl; lia|]. apply Hawaiting. split; [lia|done].
Qed.

(** ** An acknowledged group leaves the queue *)

(** X18. Handling a packet as acked takes every member of its transmission
    group off the pending-retransmission queue, and removes each member's
    record when the member is not pending as the loop reaches it, neuters it
    (frames cleared, record kept) when it is.  A member is still pending
    there when it was pending on entry, is not the handled packet itself and
    the group's newest transmission is no crypto handshake.  Consequently,
    after [OnIncomingAck] no sequence number that had a record when the ack
    arrived, is at most [largest_observed] and is not reported missing is
    left in the queue (or in the table).  (A sequence number that is queued
    without a record stays queued.) *)
Theorem MarkPacketHandled_clears_group m :
  GroupsConsistent (unacked_packets_ m) →
  (∀ sn info group,
     packets m !! sn = Some info →
     QuicUnackedPacketMap.transmission_sets_ (unacked_packets_ m) !! all_transmissions info
       = Some group →
     ∃ newest_transmission newest_info m' it,
       QuicUnackedPacketMap.newest group = Some newest_transmission
       ∧ packets m !! newest_transmission = Some newest_info
       ∧ MarkPacketHandled m sn RECEIVED_BY_PEER = Some (m', it)
       ∧ ∀ member, member ∈ group →
           (member ∉ (pending_retransmissions_ m').*1)
           ∧ ∃ member_info,
               packets m !! member = Some member_info
               ∧ packets m' !! member
                 = (if pending member_info && bool_decide (member ≠ sn)
                       && negb (HasCryptoHandshake newest_info)
                    then Some (clear_frames member_info) else None))
  ∧ (∀ fuel received_info ack_receive_time,
       (size (unacked (unacked_packets_ m)) < fuel)%nat →
       ∃ m', OnIncomingAck fuel m received_info ack_receive_time = Some (m', true)
             ∧ ∀ sn, QuicUnackedPacketMap.IsUnacked (unacked_packets_ m) sn = true →
                     (sn <= largest_observed received_info)%N →
                     sn ∉ missing_packets received_info →
                     (sn ∉ (pending_retransmissions_ m').*1)
                     ∧ QuicUnackedPacketMap.IsUnacked (unacked_packets_ m') sn = false).
Proof.
  intros Hgroups. split.
  - intros sn info group Hinfo Hgroup.
    destruct (MarkPacketHandled_spec m sn RECEIVED_BY_PEER info group Hgroups Hinfo Hgroup)
      as (newest_transmission & newest_info & m' & Hnewest & Hnewest_info & Hrun & _ & _
          & _ & Hmember & Hqueue).
    exists newest_transmission, newest_info, m'. eexists.
    split; [done|]. split; [done|]. split; [exact Hrun|].
    intros member Hin. split; [rewrite Hqueue; tauto|].
    apply GroupsConsistent_lookup in Hgroups as [_ Hmembers].
    destruct (Hmembers _ _ member Hgroup Hin) as (member_info & Hmember_info & _).
    exists member_info. split; [done|]. by apply Hmember.
  - intros fuel received_info ack_receive_time Hfuel.
    destruct (OnIncomingAck_spec fuel m received_info ack_receive_time Hgroups Hfuel)
      as (m3 & Hrun & _ & Hacked).
    eexists. split; [exact Hrun|].
    intros sn Hsn%IsUnacked_unacked Hle Hnot_missing.
    assert (Hack : IsAwaitingPacket received_info sn = false).
    { unfold IsAwaitingPacket. rewrite orb_false_iff, N.ltb_ge, bool_decide_eq_false.
      done. }
    destruct (Hacked sn Hsn Hle Hack) as [Hgone Hdequeued].
    split.
    + by destruct (QuicUnackedPacketMap.IsUnacked _ _).
    + apply not_true_iff_false. rewrite IsUnacked_unacked.
      by destruct (QuicUnackedPacketMap.IsUnacked _ _).
Qed.

End ManagerProperties.

(** * The scenarios of the specification *)

(** Basic ack: packet 1 is sent and acked 100 ms later; the sample is
    100 ms, the table and the queue are empty and no timer is needed. *)
Example scenario_basic_ack :
  (λ r, (summary r.1, GetRetransmissionTime 200000 r.1))
    <$> OnIncomingAck 10 (example_send (Create false example_sender) 1 1)
          (example_ack 1 ∅) 100001
  = Some (([], [], 0%N, 100000), QuicTime.Zero).
Proof. vm_compute. reflexivity. Qed.

(** NACK-triggered loss: packets 1 to 4 are sent, the ack reports 1 missing;
    packet 1 is nacked 3 times, lost and queued, packets 2 to 4 are gone. *)
Example scenario_nack_loss :
  (λ r, summary r.1) <$> example_queued
  = Some ([(1%N, false, 3%N)], [(1%N, NACK_RETRANSMISSION)], 1%N, 120000).
Proof. vm_compute. reflexivity. Qed.

(** Early retransmit: packets 1 and 2 are sent and nothing after them; one
    nack is enough to lose packet 1. *)
Example scenario_early_retransmit :
  (λ r, summary r.1)
    <$> OnIncomingAck 10
          (example_send (example_send (Create false example_sender) 1 1) 2 10000)
          (example_ack 2 {[1%N]}) 120000
  = Some ([(1%N, false, 1%N)], [(1%N, NACK_RETRANSMISSION)], 1%N, 110000).
Proof. vm_compute. reflexivity. Qed.

(** Handshake retransmission with a smoothed RTT of 100 ms: the first
    deadline is 150 ms away; the timeout queues the packet as a TLP
    retransmission, abandons it and doubles the delay. *)
Example scenario_handshake :
  GetRetransmissionMode example_handshake_sent = HANDSHAKE_MODE
  ∧ GetRetransmissionTime 1000 example_handshake_sent = 151000
  ∧ (λ m, (summary m, consecutive_crypto_retransmission_count_ m,
           GetCryptoRetransmissionDelay m))
      <$> OnRetransmissionTimeout example_handshake_sent
    = Some (([(1%N, false, 0%N)], [(1%N, TLP_RETRANSMISSION)], 0%N, Delta.Infinite),
            1%N, 300000).
Proof. vm_compute. repeat split; reflexivity. Qed.

(** * The properties on examples *)

(** C1 on [example_nacked_table] with 4 as the largest observed: packet 1,
    nacked three times, is lost. *)
Lemma DetectLostPackets_declares_lost_witness :
  (4 < 2 ^ 64)%N ∧ 1%N ∈ DetectLostPackets example_nacked_table 0 4.
Proof.
  split; [reflexivity|].
  apply (DetectLostPackets_declares_lost example_nacked_table 0 4 1); [reflexivity|].
  eexists. split; [vm_compute; reflexivity|].
  split; [reflexivity|]. split; [vm_compute; discriminate|vm_compute; discriminate].
Defined.

(** C3 on [example_four_sent]: no handshake is pending, no probe was sent and
    there are frames to retransmit, so the mode is TLP. *)
Lemma GetRetransmissionMode_priority_witness :
  QuicUnackedPacketMap.HasPendingPackets (unacked_packets_ example_four_sent) = true
  ∧ GetRetransmissionMode example_four_sent = TLP_MODE.
Proof.
  assert (Hpending :
    QuicUnackedPacketMap.HasPendingPackets (unacked_packets_ example_four_sent) = true)
    by (vm_compute; reflexivity).
  split; [exact Hpending|].
  destruct (GetRetransmissionMode_priority example_four_sent Hpending) as (_ & Hrest & _).
  destruct Hrest as [Htlp _]; [vm_compute; discriminate|].
  apply Htlp. split; [reflexivity|].
  exists 1%N. eexists. split; [vm_compute; reflexivity|]. simpl. eexists. reflexivity.
Defined.

(** C4 on [example_after_timeouts]: the ack of packets 2 to 4 resets the
    counts. *)
Lemma OnIncomingAck_consecutive_counts_witness :
  ∃ m', OnIncomingAck 10 example_after_timeouts (example_ack 4 {[1%N]}) 150000
        = Some (m', true)
        ∧ consecutive_rto_count_ m' = 0%N
        ∧ consecutive_tlp_count_ m' = 0%N
        ∧ consecutive_crypto_retransmission_count_ m' = 0%N.
Proof.
  destruct (OnIncomingAck_consecutive_counts 10 example_after_timeouts
              (example_ack 4 {[1%N]}) 150000)
    as [Hcounts Hreturns].
  destruct Hreturns as [m' Hrun].
  - apply (bool_decide_unpack _). vm_compute. exact I.
  - vm_compute. lia.
  - exists m'. split; [exact Hrun|].
    destruct (Hcounts m' true Hrun) as [Hreset _]. apply Hreset. vm_compute. reflexivity.
Defined.

(** C6 on [example_backed_off]. *)
Lemma GetRetransmissionDelay_bounds_witness :
  200 <= Delta.ToMilliseconds (GetRetransmissionDelay example_backed_off) <= 60000.
Proof.
  destruct (GetRetransmissionDelay_bounds example_backed_off) as (_ & Hms & _).
  - vm_compute. split; discriminate.
  - exact Hms.
Defined.

(** C7 on [example_four_sent], 40 ms into the connection. *)
Lemma GetRetransmissionTime_not_in_the_past_witness :
  GetRetransmissionTime 40000 example_four_sent ≠ QuicTime.Zero
  ∧ 40000 <= GetRetransmissionTime 40000 example_four_sent.
Proof.
  destruct (GetRetransmissionTime_not_in_the_past 40000 example_four_sent)
    as (_ & _ & Hmode).
  - split; reflexivity.
  - vm_compute. split; [discriminate|reflexivity].
  - vm_compute. discriminate.
  - apply (Hmode TLP_MODE); vm_compute; reflexivity.
Defined.

(** C8 on [example_four_sent]: packet 4 was sent at 30 ms and is acked at
    150 ms with no ack delay. *)
Lemma MaybeUpdateRTT_sample_witness :
  rtt_sample_ (MaybeUpdateRTT example_four_sent (example_ack 4 {[1%N]}) 150000) = 120000.
Proof.
  destruct (MaybeUpdateRTT_sample example_four_sent (example_ack 4 {[1%N]}) 150000
              {| retransmittable_frames := Some example_frames;
                 sequence_number_length := 1; sent_time := 30000; bytes_sent := 1200;
                 nack_count := 0; pending := true; all_transmissions := 3%nat |})
    as [Hsent _].
  - vm_compute. reflexivity.
  - rewrite Hsent; [vm_compute; reflexivity|]. simpl. discriminate.
Defined.

(** C9 on [example_serialized] with the flag set: a [PACE] configuration
    wraps the controller once, and a [QBIC] and a second [PACE]
    configuration after it leave the one decorator in place. *)
Lemma SetFromConfig_pacing_witness :
  using_pacing_ (SetFromConfig true example_serialized example_pace_config) = true
  ∧ pacing_layers (send_algorithm_ (SetFromConfig true example_serialized example_pace_config))
    = [Delta.FromMicroseconds 1]
  ∧ using_pacing_ example_paced_twice = true
  ∧ pacing_layers (send_algorithm_ example_paced_twice) = [Delta.FromMicroseconds 1].
Proof.
  destruct (SetFromConfig_pacing true example_serialized example_pace_config)
    as (_ & _ & Hwrap & _ & Honeway & _).
  split; [apply Hwrap; reflexivity|]. split; [apply Hwrap; reflexivity|].
  split; [vm_compute; reflexivity|].
  destruct (Honeway example_paced_twice) as [_ Hlayers].
  - unfold example_paced_twice.
    eapply rtc_l; [apply Step_SetFromConfig|].
    eapply rtc_l; [apply Step_SetFromConfig|].
    apply rtc_once, Step_SetFromConfig.
  - rewrite Hlayers. vm_compute. reflexivity.
Defined.

(** C10 on [example_queued_state], where packet 1 is queued as a NACK
    retransmission when the RTO asks for it again. *)
Lemma MarkForRetransmission_keeps_first_entry_witness :
  MarkForRetransmission example_queued_state 1 RTO_RETRANSMISSION = Some example_queued_state
  ∧ pending_retransmissions_ example_queued_state = [(1%N, NACK_RETRANSMISSION)].
Proof.
  destruct (MarkForRetransmission_keeps_first_entry example_queued_state 1 RTO_RETRANSMISSION)
    as (_ & Hsame & _).
  - apply (bool_decide_unpack _). vm_compute. exact I.
  - split; [|vm_compute; reflexivity]. apply Hsame. vm_compute. reflexivity.
Defined.
(** C8 without the amendment fails on a record that was serialized and acked
    before it was sent: the specification's sample is the whole send delta,
    the code keeps the old (infinite) sample. *)
Lemma MaybeUpdateRTT_unsent_counterexample :
  QuicUnackedPacketMap.IsUnacked (unacked_packets_ example_serialized) 1 = true
  ∧ rtt_sample_ (MaybeUpdateRTT example_serialized (example_ack 1 ∅) 100000) = Delta.Infinite
  ∧ rtt_sample_spec (rtt_sample_ example_serialized) 0 100000 0 = 100000
  ∧ rtt_sample_ (MaybeUpdateRTT example_serialized (example_ack 1 ∅) 100000)
    ≠ rtt_sample_spec (rtt_sample_ example_serialized) 0 100000 0.
Proof. vm_compute. repeat split; congruence. Qed.

(** C9 without the amendment fails with the flag at its initial value: a
    [PACE] configuration leaves the manager without pacing. *)
Lemma SetFromConfig_flag_off_counterexample :
  congestion_control example_pace_config = kPACE
  ∧ using_pacing_
      (SetFromConfig FLAGS_enable_quic_pacing_default example_serialized example_pace_config)
    = false
  ∧ pacing_layers
      (send_algorithm_
         (SetFromConfig FLAGS_enable_quic_pacing_default example_serialized
            example_pace_config))
    = [].
Proof. vm_compute. done. Qed.

(** C6 without the amendment fails for a suggestion of 234.376 ms after
    eight consecutive RTOs: the product is 60.000256 s, which is 60000 in
    whole milliseconds and so is not capped. *)
Lemma GetRetransmissionDelay_cap_counterexample :
  GetRetransmissionDelay example_backed_off = 60000256
  ∧ rto_delay_spec
      (SendAlgorithmInterface.RetransmissionDelay (send_algorithm_ example_backed_off))
      (consecutive_rto_count_ example_backed_off) = 60000000
  ∧ ¬ (Delta.ToMicroseconds (GetRetransmissionDelay example_backed_off) <= 60000 * 1000).
Proof. vm_compute. repeat split; congruence. Qed.

(** * A sequence number queued without a record *)

(** C5.  The code leaves an acknowledged sequence number in the
    pending-retransmission queue.  Packets 1 to 4 are sent.  The first ack
    reports packet 1 missing, so packet 1 is lost, abandoned and queued; the
    second reports it revived, and the revived-packet loop of
    [HandleAckForSentPackets] removes its record, which is not pending,
    without taking it off the queue; the third acknowledges everything up to
    packet 4.  After it sequence number 1 is acknowledged and has no record,
    yet it is still queued: [HasPendingRetransmissions] answers [true] and
    [NextPendingRetransmission] finds no record for the head of the queue. *)
Theorem OnIncomingAck_revived_stays_queued :
  Reachable example_four_sent
  ∧ OnIncomingAck 10 example_four_sent (example_ack 4 {[1%N]}) 150000
    = Some (example_queued_state, true)
  ∧ OnIncomingAck 10 example_queued_state example_revived_ack 160000
    = Some (example_revived_state, true)
  ∧ QuicUnackedPacketMap.IsUnacked (unacked_packets_ example_revived_state) 1 = false
  ∧ pending_retransmissions_ example_revived_state = [(1%N, NACK_RETRANSMISSION)]
  ∧ OnIncomingAck 10 example_revived_state (example_ack 4 ∅) 170000
    = Some (example_revived_acked, true)
  ∧ Reachable example_revived_acked
  ∧ IsAwaitingPacket (example_ack 4 ∅) 1 = false
  ∧ pending_retransmissions_ example_revived_acked = [(1%N, NACK_RETRANSMISSION)]
  ∧ QuicUnackedPacketMap.IsUnacked (unacked_packets_ example_revived_acked) 1 = false
  ∧ HasPendingRetransmissions example_revived_acked = true
  ∧ NextPendingRetransmission example_revived_acked = None.
Proof.
  assert (Hsent : Reachable example_four_sent).
  { unfold example_four_sent, example_send.
    do 4 (apply Reachable_OnPacketSent; apply Reachable_OnSerializedPacket;
          [|vm_compute; reflexivity]).
    apply Reachable_Create. }
  assert (Hfirst : OnIncomingAck 10 example_four_sent (example_ack 4 {[1%N]}) 150000
                   = Some (example_queued_state, true)) by (vm_compute; reflexivity).
  assert (Hsecond : OnIncomingAck 10 example_queued_state example_revived_ack 160000
                    = Some (example_revived_state, true)) by (vm_compute; reflexivity).
  assert (Hthird : OnIncomingAck 10 example_revived_state (example_ack 4 ∅) 170000
                   = Some (example_revived_acked, true)) by (vm_compute; reflexivity).
  split; [exact Hsent|]. split; [exact Hfirst|]. split; [exact Hsecond|].
  split; [vm_compute; reflexivity|]. split; [vm_compute; reflexivity|].
  split; [exact Hthird|]. split.
  { eapply Reachable_OnIncomingAck; [|exact Hthird].
    eapply Reachable_OnIncomingAck; [|exact Hsecond].
    eapply Reachable_OnIncomingAck; [exact Hsent|exact Hfirst]. }
  vm_compute. repeat split; reflexivity.
Qed.

(** * The further properties on examples *)

(** X3 on [example_handshake_sent] and the state after its first handshake
    timeout: 150 ms become 300 ms. *)
Lemma GetCryptoRetransmissionDelay_doubles_witness :
  GetCryptoRetransmissionDelay example_handshake_backed_off
  = 2 * GetCryptoRetransmissionDelay example_handshake_sent
  ∧ GetCryptoRetransmissionDelay example_handshake_sent = 150000.
Proof.
  destruct (GetCryptoRetransmissionDelay_doubles example_handshake_sent
              example_handshake_backed_off) as (Hvalue & _ & Hdouble).
  - vm_compute. split; [discriminate|reflexivity].
  - vm_compute. reflexivity.
  - vm_compute. reflexivity.
  - vm_compute. discriminate.
  - split; [exact Hdouble|]. rewrite Hvalue. vm_compute. reflexivity.
Defined.

(** X4 on [example_four_sent], where four packets are pending and the
    smoothed RTT is 100 ms. *)
Lemma GetTailLossProbeDelay_bounds_witness :
  10 * 1000 <= GetTailLossProbeDelay example_four_sent
  ∧ GetTailLossProbeDelay example_four_sent = 200000.
Proof.
  destruct (GetTailLossProbeDelay_bounds example_four_sent) as (_ & Hseveral & Hleast & _).
  - vm_compute. split; [discriminate|reflexivity].
  - split; [exact Hleast|]. destruct Hseveral as [-> _]; vm_compute; reflexivity.
Defined.

(** X5 on [example_four_sent] before and after one RTO. *)
Lemma GetRetransmissionDelay_backoff_witness :
  Delta.ToMilliseconds (GetRetransmissionDelay example_four_sent)
  <= Delta.ToMilliseconds (GetRetransmissionDelay example_after_timeouts)
  ∧ GetRetransmissionDelay example_after_timeouts
    = 2 * GetRetransmissionDelay example_four_sent.
Proof.
  destruct (GetRetransmissionDelay_backoff example_four_sent example_after_timeouts)
    as (Hmonotone & _ & Hdouble & _).
  - vm_compute. split; discriminate.
  - vm_compute. reflexivity.
  - vm_compute. discriminate.
  - split; [exact Hmonotone|]. apply Hdouble; vm_compute; reflexivity.
Defined.

(** X6 on [example_probes_spent]: the third timeout is an RTO and leaves
    nothing pending. *)
Lemma OnRetransmissionTimeout_rto_witness :
  ∃ m', OnRetransmissionTimeout example_probes_spent = Some m'
        ∧ QuicUnackedPacketMap.HasPendingPackets (unacked_packets_ m') = false
        ∧ consecutive_rto_count_ m' = 1%N.
Proof.
  destruct (OnRetransmissionTimeout_rto example_probes_spent)
    as (m' & added & Hrun & _ & Hnone & _ & _ & [Hcount _] & _).
  - vm_compute. reflexivity.
  - exists m'. split; [exact Hrun|]. split; [exact Hnone|].
    rewrite Hcount. vm_compute. reflexivity.
Defined.

(** X7 on [example_four_sent]: the first timeout is a tail loss probe of
    packet 1. *)
Lemma OnRetransmissionTimeout_tlp_witness :
  ∃ m', OnRetransmissionTimeout example_four_sent = Some m'
        ∧ pending_retransmissions_ m' = [(1%N, TLP_RETRANSMISSION)]
        ∧ unacked_packets_ m' = unacked_packets_ example_four_sent.
Proof.
  destruct (OnRetransmissionTimeout_tlp example_four_sent)
    as (m' & Hrun & Htable & _ & _ & _ & _ & _ & Hfirst & _).
  - vm_compute. reflexivity.
  - exists m'. split; [exact Hrun|]. split; [|exact Htable].
    rewrite (Hfirst 1%N (example_record 1 1)).
    + vm_compute. reflexivity.
    + vm_compute. reflexivity.
    + reflexivity.
    + reflexivity.
    + intros k kinfo Hk _ _. destruct (N.le_gt_cases 1 k) as [Hle|Hlt]; [exact Hle|].
      assert (k = 0%N) as -> by lia. vm_compute in Hk. discriminate.
Defined.

(** X8 on [example_handshake_sent]. *)
Lemma OnRetransmissionTimeout_handshake_witness :
  ∃ m', OnRetransmissionTimeout example_handshake_sent = Some m'
        ∧ consecutive_crypto_retransmission_count_ m' = 1%N
        ∧ pending_crypto_packet_count_ m' = 1%N.
Proof.
  destruct (OnRetransmissionTimeout_handshake example_handshake_sent)
    as (m' & added & Hrun & Hcount & _ & _ & _ & _ & Hcrypto & _).
  - vm_compute. reflexivity.
  - exists m'. split; [exact Hrun|]. split.
    + rewrite Hcount. vm_compute. reflexivity.
    + rewrite Hcrypto. vm_compute. reflexivity.
Defined.

(** X9 on a new manager and packet 1. *)
Lemma DiscardUnackedPacket_undoes_OnSerializedPacket_witness :
  ∃ m', DiscardUnackedPacket
          (OnSerializedPacket (Create false example_sender) (example_packet 1)) 1
        = Some m'
        ∧ unacked_packets_ m' = unacked_packets_ (Create false example_sender).
Proof.
  destruct (DiscardUnackedPacket_undoes_OnSerializedPacket
              (Create false example_sender) (example_packet 1))
    as (m' & Hrun & Htable & _).
  - vm_compute. reflexivity.
  - vm_compute. reflexivity.
  - exists m'. split; [exact Hrun|exact Htable].
Defined.

(** X10 on [example_four_sent]: packet 2 is the only transmission of its
    group, so its ack counts no spurious retransmission. *)
Lemma MarkPacketHandled_accounting_witness :
  ∃ m' it, MarkPacketHandled example_four_sent 2 RECEIVED_BY_PEER = Some (m', it)
           ∧ stats_ m' = stats_ example_four_sent
           ∧ pending_crypto_packet_count_ m' = 0%N.
Proof.
  destruct (MarkPacketHandled_accounting example_four_sent 2 RECEIVED_BY_PEER
              (example_record 2 10000) {[2%N]})
    as (newest_transmission & newest_info & m' & it & Hnewest & Hnewest_info & Hrun
        & Hstats & Hcrypto & _).
  - apply (bool_decide_unpack _). vm_compute. exact I.
  - vm_compute. reflexivity.
  - vm_compute. reflexivity.
  - exists m', it. split; [exact Hrun|].
    vm_compute in Hnewest. injection Hnewest as <-.
    vm_compute in Hnewest_info. injection Hnewest_info as <-.
    split.
    + rewrite Hstats. vm_compute. reflexivity.
    + rewrite Hcrypto. vm_compute. reflexivity.
Defined.

(** X12 on [example_four_sent] and the ack of packets 2 to 4. *)
Lemma OnIncomingAck_gives_up_witness :
  ∃ m', OnIncomingAck 10 example_four_sent (example_ack 4 {[1%N]}) 150000 = Some (m', true)
        ∧ unacked (unacked_packets_ m') ⊆ unacked (unacked_packets_ example_four_sent).
Proof.
  destruct (OnIncomingAck_gives_up 10 example_four_sent (example_ack 4 {[1%N]}) 150000)
    as (m' & Hrun & Hsubset & _).
  - apply (bool_decide_unpack _). vm_compute. exact I.
  - vm_compute. lia.
  - exists m'. split; [exact Hrun|exact Hsubset].
Defined.

(** X13 on [example_queued_state], where packet 1 is queued as a NACK
    retransmission; it is sent again as packet 5. *)
Lemma NextPendingRetransmission_cycle_witness :
  HasPendingRetransmissions example_queued_state = true
  ∧ ∃ m', OnRetransmittedPacket example_queued_state 1 5 = Some m'
          ∧ pending_retransmissions_ m' = []
          ∧ QuicUnackedPacketMap.HasRetransmittableFrames (unacked_packets_ m') 1 = false.
Proof.
  destruct (NextPendingRetransmission_cycle example_queued_state
              {| PendingRetransmission.sequence_number := 1;
                 PendingRetransmission.transmission_type := NACK_RETRANSMISSION;
                 PendingRetransmission.retransmittable_frames := example_frames;
                 PendingRetransmission.sequence_number_length := 1 |})
    as (Hpending & _ & _ & Hretransmit).
  - apply (bool_decide_unpack _). vm_compute. exact I.
  - vm_compute. reflexivity.
  - split; [exact Hpending|].
    destruct (Hretransmit 5%N) as (m' & Hrun & Hqueue & _ & Hframes & _); [discriminate|].
    exists m'. split; [exact Hrun|]. split; [|exact Hframes].
    rewrite Hqueue. vm_compute. reflexivity.
Defined.

(** X14 on [example_serialized]. *)
Lemma Reachable_calls_return_witness :
  GroupsConsistent (unacked_packets_ example_serialized)
  ∧ ∃ m', OnRetransmissionTimeout example_serialized = Some m'.
Proof.
  destruct (Reachable_calls_return example_serialized) as (Hgroups & _ & _ & Htimeout & _).
  - apply Reachable_OnSerializedPacket; [apply Reachable_Create|].
    vm_compute. reflexivity.
  - split; [exact Hgroups|]. destruct Htimeout as (m' & Hrun & _). exists m'. exact Hrun.
Defined.

(** X15 on [example_four_sent]: all four packets are queued and none is
    pending afterwards. *)
Lemma RetransmitUnackedPackets_spec_witness :
  ∃ m', RetransmitUnackedPackets 10 example_four_sent ALL_PACKETS = Some m'
        ∧ 3%N ∈ (pending_retransmissions_ m').*1
        ∧ QuicUnackedPacketMap.IsPending (unacked_packets_ m') 3 = false.
Proof.
  destruct (RetransmitUnackedPackets_spec 10 example_four_sent ALL_PACKETS)
    as (m' & Hrun & _ & _ & Hqueued & _).
  - apply (bool_decide_unpack _). vm_compute. exact I.
  - vm_compute. lia.
  - exists m'. split; [exact Hrun|].
    destruct (Hqueued 3%N (example_record 3 20000) example_frames) as (Hin & Hidle & _).
    + vm_compute. reflexivity.
    + reflexivity.
    + left. reflexivity.
    + split; [exact Hin|exact Hidle].
Defined.

(** X16 on [example_four_sent] and an ack whose largest observed packet is
    4: packet 1 is three below it. *)
Lemma MaybeRetransmitOnAckFrame_gap_witness :
  ∃ m', MaybeRetransmitOnAckFrame example_four_sent (example_ack 4 {[1%N]}) 150000 = Some m'
        ∧ QuicUnackedPacketMap.IsPending (unacked_packets_ m') 1 = false
        ∧ 1%N ∈ (pending_retransmissions_ m').*1.
Proof.
  destruct (MaybeRetransmitOnAckFrame_gap example_four_sent (example_ack 4 {[1%N]}) 150000
              1 (example_record 1 1))
    as (m' & Hrun & Hidle & Hframes & _).
  - reflexivity.
  - vm_compute. reflexivity.
  - reflexivity.
  - vm_compute. discriminate.
  - left. vm_compute. discriminate.
  - exists m'. split; [exact Hrun|]. split; [exact Hidle|].
    destruct Hframes as [Hin _]; [reflexivity|exact Hin].
Defined.

(** X17 on [example_retransmitted_timed_out], where packet 2 is the
    retransmission of packet 1 and neither is pending: an ack of both is
    reported for packet 1 only. *)
Lemma OnIncomingAck_notifies_witness :
  ∃ m' acked,
    OnIncomingAck 10 example_retransmitted_timed_out (example_ack 2 ∅) 50000
    = Some (m', true)
    ∧ ack_notifier_manager_ m'
      = (NotifierOnPacketAcked <$> acked)
        ++ ack_notifier_manager_ example_retransmitted_timed_out
    ∧ 1%N ∈ acked
    ∧ (2%N ∉ acked)
    ∧ QuicUnackedPacketMap.IsUnacked (unacked_packets_ example_retransmitted_timed_out) 2
      = true.
Proof.
  destruct (OnIncomingAck_notifies 10 example_retransmitted_timed_out (example_ack 2 ∅)
              50000)
    as (m' & acked & Hrun & Hlog & _ & Hacked & _).
  - apply (bool_decide_unpack _). vm_compute. exact I.
  - vm_compute. lia.
  - exists m', acked. split; [exact Hrun|]. split; [exact Hlog|].
    split; [|split; [|vm_compute; reflexivity]].
    + apply Hacked. apply (bool_decide_unpack _). vm_compute. exact I.
    + rewrite Hacked. apply (bool_decide_unpack _). vm_compute. exact I.
Defined.

(** X18 on [example_retransmitted_probed], where packets 1 and 2 form one
    transmission group, both are pending and packet 2 is queued: handling
    packet 1 as acked takes packet 2 off the queue and neuters it, and an
    ack of both leaves neither in the queue or in the table. *)
Lemma MarkPacketHandled_clears_group_witness :
  (2%N, TLP_RETRANSMISSION) ∈ pending_retransmissions_ example_retransmitted_probed
  ∧ (∃ m' it,
       MarkPacketHandled example_retransmitted_probed 1 RECEIVED_BY_PEER = Some (m', it)
       ∧ (2%N ∉ (pending_retransmissions_ m').*1)
       ∧ QuicUnackedPacketMap.unacked_packets_ (unacked_packets_ m') !! 1%N = None
       ∧ (λ info, (retransmittable_frames info, pending info))
           <$> QuicUnackedPacketMap.unacked_packets_ (unacked_packets_ m') !! 2%N
         = Some (None, true))
  ∧ ∃ m', OnIncomingAck 10 example_retransmitted_probed (example_ack 2 ∅) 50000
          = Some (m', true)
          ∧ (2%N ∉ (pending_retransmissions_ m').*1)
          ∧ QuicUnackedPacketMap.IsUnacked (unacked_packets_ m') 2 = false.
Proof.
  split; [apply (bool_decide_unpack _); vm_compute; exact I|].
  destruct (MarkPacketHandled_clears_group example_retransmitted_probed) as [Hgroup Hack].
  { apply (bool_decide_unpack _). vm_compute. exact I. }
  split.
  - destruct (Hgroup 1%N (clear_frames (example_record 1 1)) {[1%N; 2%N]})
      as (newest_transmission & newest_info & m' & it & Hnewest & Hnewest_info & Hrun
          & Hmembers).
    { vm_compute. reflexivity. }
    { vm_compute. reflexivity. }
    exists m', it. split; [exact Hrun|].
    vm_compute in Hnewest. injection Hnewest as <-.
    vm_compute in Hnewest_info. injection Hnewest_info as <-.
    destruct (Hmembers 2%N) as (Hqueue2 & info2 & Hinfo2 & Hrecord2);
      [apply (bool_decide_unpack _); vm_compute; exact I|].
    destruct (Hmembers 1%N) as (_ & info1 & Hinfo1 & Hrecord1);
      [apply (bool_decide_unpack _); vm_compute; exact I|].
    vm_compute in Hinfo2. injection Hinfo2 as <-.
    vm_compute in Hinfo1. injection Hinfo1 as <-.
    split; [exact Hqueue2|]. split; [exact Hrecord1|].
    rewrite Hrecord2. reflexivity.
  - destruct (Hack 10%nat (example_ack 2 ∅) 50000) as (m' & Hrun & Hacked).
    { vm_compute. lia. }
    exists m'. split; [exact Hrun|]. apply Hacked.
    + vm_compute. reflexivity.
    + vm_compute. discriminate.
    + apply (bool_decide_unpack _). vm_compute. exact I.
Defined.
